(** * asdf-validator-lite: the proof-of-history ledger and its poller

    A shallow embedding of [src/daemon.ts].  The file holds two revisions of
    the daemon: the balance-polling one (module [BalancePolling]) and the
    transaction-sourced one (module [TxSourced]).  Both share the hash
    chain verifier, which is written once over the fields it reads.  The
    constructors, [stop] and the start-up steps are in [TxLife] and
    [BpLife]; the argument parser and the verify command of [src/cli.ts]
    are in [CLI].

    Modelling conventions.
    - A JavaScript string is its UTF-8 byte sequence, a Rocq [string].
    - A JavaScript [number] that holds a sequence, a slot or a timestamp is
      an integer, a [Z]; a [bigint] is a [Z].
    - [createHash('sha256')] is the FIPS 180-4 function, executable here.
      Such a number is written and read as its plain decimal numeral.
    - A remote call either throws or returns; its answer is an input of the
      step that makes it.
    - The history file holds the text last written to it, and a write to
      it succeeds.
    - A poll runs to its end before the next one starts. *)

From Stdlib Require Import ZArith String Ascii List Lia Bool.
From Stdlib Require Import DecimalString DecimalZ.
From stdpp Require Import base option list gmap strings.
Import ListNotations.

#[local] Set Warnings "-register-all,-clear-no-such-hyp".

Local Open Scope Z_scope.
Local Open Scope string_scope.

(* ===================================================================== *)
(** ** Runtime primitives *)
(* ===================================================================== *)

(** [Number.prototype.toString] and [BigInt.prototype.toString] on an
    integer: the decimal numeral, with a leading minus sign below zero. *)
Definition toString (z : Z) : string :=
  NilZero.string_of_int (Z.to_int z).

(** [Array.prototype.join]. *)
Fixpoint join (sep : string) (parts : list string) : string :=
  match parts with
  | [] => ""
  | [p] => p
  | p :: rest => p ++ sep ++ join sep rest
  end.

Module SHA256.

Definition w32 (x : Z) : Z := Z.land x 4294967295.

Definition add32 (x y : Z) : Z := w32 (x + y).

Definition rotr (n x : Z) : Z :=
  Z.lor (Z.shiftr x n) (w32 (Z.shiftl x (32 - n))).

Definition Ch (x y z : Z) : Z :=
  Z.lxor (Z.land x y) (Z.land (Z.lxor x 4294967295) z).

Definition Maj (x y z : Z) : Z :=
  Z.lxor (Z.lxor (Z.land x y) (Z.land x z)) (Z.land y z).

Definition bsig0 (x : Z) : Z :=
  Z.lxor (Z.lxor (rotr 2 x) (rotr 13 x)) (rotr 22 x).

Definition bsig1 (x : Z) : Z :=
  Z.lxor (Z.lxor (rotr 6 x) (rotr 11 x)) (rotr 25 x).

Definition ssig0 (x : Z) : Z :=
  Z.lxor (Z.lxor (rotr 7 x) (rotr 18 x)) (Z.shiftr x 3).

Definition ssig1 (x : Z) : Z :=
  Z.lxor (Z.lxor (rotr 17 x) (rotr 19 x)) (Z.shiftr x 10).

Definition K : list Z :=
  [1116352408; 1899447441; 3049323471; 3921009573; 961987163; 1508970993;
   2453635748; 2870763221; 3624381080; 310598401; 607225278; 1426881987;
   1925078388; 2162078206; 2614888103; 3248222580; 3835390401; 4022224774;
   264347078; 604807628; 770255983; 1249150122; 1555081692; 1996064986;
   2554220882; 2821834349; 2952996808; 3210313671; 3336571891; 3584528711;
   113926993; 338241895; 666307205; 773529912; 1294757372; 1396182291;
   1695183700; 1986661051; 2177026350; 2456956037; 2730485921; 2820302411;
   3259730800; 3345764771; 3516065817; 3600352804; 4094571909; 275423344;
   430227734; 506948616; 659060556; 883997877; 958139571; 1322822218;
   1537002063; 1747873779; 1955562222; 2024104815; 2227730452; 2361852424;
   2428436474; 2756734187; 3204031479; 3329325298].

Definition bytes_of_string (s : string) : list Z :=
  List.map (fun c => Z.of_N (N_of_ascii c)) (list_ascii_of_string s).

(** The message, one [0x80] byte, zero bytes up to 56 modulo 64, and the
    bit length on eight bytes, most significant first. *)
Definition pad (msg : list Z) : list Z :=
  let len := Z.of_nat (List.length msg) in
  let zeros := Z.to_nat ((55 - len) mod 64) in
  let bits := 8 * len in
  (msg ++ [128] ++ List.repeat 0 zeros
       ++ List.map (fun i => Z.land (Z.shiftr bits (8 * i)) 255)
                   [7; 6; 5; 4; 3; 2; 1; 0])%list.

Fixpoint words (fuel : nat) (bs : list Z) : list Z :=
  match fuel, bs with
  | S fuel', b0 :: b1 :: b2 :: b3 :: rest =>
      (Z.shiftl b0 24 + Z.shiftl b1 16 + Z.shiftl b2 8 + b3)
        :: words fuel' rest
  | _, _ => []
  end.

(** The message schedule, newest word first. *)
Fixpoint schedule (n : nat) (rev_w : list Z) : list Z :=
  match n with
  | O => rev_w
  | S n' =>
      let w := add32 (add32 (ssig1 (nth 1 rev_w 0)) (nth 6 rev_w 0))
                     (add32 (ssig0 (nth 14 rev_w 0)) (nth 15 rev_w 0)) in
      schedule n' (w :: rev_w)
  end.

Record regs := Regs { ra : Z; rb : Z; rc : Z; rd : Z;
                      re : Z; rf : Z; rg : Z; rh : Z }.

Definition round (r : regs) (kw : Z * Z) : regs :=
  let t1 := add32 (add32 (add32 (rh r) (bsig1 (re r)))
                         (add32 (Ch (re r) (rf r) (rg r)) (fst kw)))
                  (snd kw) in
  let t2 := add32 (bsig0 (ra r)) (Maj (ra r) (rb r) (rc r)) in
  Regs (add32 t1 t2) (ra r) (rb r) (rc r) (add32 (rd r) t1) (re r) (rf r) (rg r).

Definition compress (h : regs) (block : list Z) : regs :=
  let w := List.rev (schedule 48 (List.rev block)) in
  let r := List.fold_left round (List.combine K w) h in
  Regs (add32 (ra h) (ra r)) (add32 (rb h) (rb r))
       (add32 (rc h) (rc r)) (add32 (rd h) (rd r))
       (add32 (re h) (re r)) (add32 (rf h) (rf r))
       (add32 (rg h) (rg r)) (add32 (rh h) (rh r)).

Fixpoint blocks (fuel : nat) (h : regs) (ws : list Z) : regs :=
  match fuel, ws with
  | S fuel', _ :: _ => blocks fuel' (compress h (firstn 16 ws)) (skipn 16 ws)
  | _, _ => h
  end.

Definition hex_digit (d : Z) : ascii :=
  if (d <? 10)%Z then ascii_of_N (Z.to_N (48 + d))
  else ascii_of_N (Z.to_N (87 + d)).

Definition hex_word (w : Z) : string :=
  string_of_list_ascii
    (List.map (fun i => hex_digit (Z.land (Z.shiftr w (4 * i)) 15))
              [7; 6; 5; 4; 3; 2; 1; 0]).

Definition digest (s : string) : regs :=
  let bs := pad (bytes_of_string s) in
  let ws := words (List.length bs) bs in
  blocks (List.length ws) (Regs 1779033703 3144134277 1013904242 2773480762
                                1359893119 2600822924 528734635 1541459225) ws.

(** [createHash('sha256').update(s).digest('hex')]. *)
Definition hex (s : string) : string :=
  let r := digest s in
  hex_word (ra r) ++ hex_word (rb r) ++ hex_word (rc r) ++ hex_word (rd r)
    ++ hex_word (re r) ++ hex_word (rf r) ++ hex_word (rg r) ++ hex_word (rh r).

End SHA256.

(** [String(n).padStart(width, '0')] on a non-negative integer. *)
Definition pad0 (width : nat) (n : Z) : string :=
  let s := toString n in
  string_of_list_ascii (List.repeat "0"%char (width - String.length s)) ++ s.

(** [new Date(ms).toISOString()]: [None] stands for the [RangeError] of an
    invalid date, a time value beyond 8.64e15 ms on either side of the
    epoch.  The calendar date comes from the day number by the usual
    400-year era computation; years outside 0..9999 print signed on six
    digits. *)
Definition toISOString (ms : Z) : option string :=
  if (Z.abs ms >? 8640000000000000)%Z then None
  else
    let days := ms / 86400000 in
    let rem := ms mod 86400000 in
    let z := days + 719468 in
    let era := z / 146097 in
    let doe := z - era * 146097 in
    let yoe := (doe - doe / 1460 + doe / 36524 - doe / 146096) / 365 in
    let doy := doe - (365 * yoe + yoe / 4 - yoe / 100) in
    let mp := (5 * doy + 2) / 153 in
    let d := doy - (153 * mp + 2) / 5 + 1 in
    let m := if (mp <? 10)%Z then mp + 3 else mp - 9 in
    let y := yoe + era * 400 + (if (m <=? 2)%Z then 1 else 0) in
    let year :=
      if ((0 <=? y) && (y <=? 9999))%Z then pad0 4 y
      else (if (y <? 0)%Z then "-" else "+") ++ pad0 6 (Z.abs y) in
    Some (year ++ "-" ++ pad0 2 m ++ "-" ++ pad0 2 d ++ "T"
            ++ pad0 2 (rem / 3600000) ++ ":"
            ++ pad0 2 ((rem / 60000) mod 60) ++ ":"
            ++ pad0 2 ((rem / 1000) mod 60) ++ "."
            ++ pad0 3 (rem mod 1000) ++ "Z").

(** A remote or fallible call: it throws, or it returns a value. *)
Inductive rpc (A : Type) : Type :=
| Throws : rpc A
| Returns : A -> rpc A.
Arguments Throws {A}.
Arguments Returns {A} _.

(** The truthiness test [if (s)] on a string that may be null or
    undefined: the empty string is falsy too. *)
Definition truthy (o : option string) : bool :=
  match o with
  | Some s => negb (String.eqb s "")
  | None => false
  end.

Module StringToBigInt.

(** The white space and line terminator code points, in UTF-8. *)
Definition white : list (list Z) :=
  [[9]; [10]; [11]; [12]; [13]; [32]; [194; 160]; [225; 154; 128];
   [226; 128; 128]; [226; 128; 129]; [226; 128; 130]; [226; 128; 131];
   [226; 128; 132]; [226; 128; 133]; [226; 128; 134]; [226; 128; 135];
   [226; 128; 136]; [226; 128; 137]; [226; 128; 138]; [226; 128; 168];
   [226; 128; 169]; [226; 128; 175]; [226; 129; 159]; [227; 128; 128];
   [239; 187; 191]].

Fixpoint strip (p bs : list Z) : option (list Z) :=
  match p, bs with
  | [], _ => Some bs
  | x :: p', b :: bs' => if (x =? b)%Z then strip p' bs' else None
  | _ :: _, [] => None
  end.

Fixpoint strip_any (ps : list (list Z)) (bs : list Z) : option (list Z) :=
  match ps with
  | [] => None
  | p :: ps' =>
      match strip p bs with
      | Some r => Some r
      | None => strip_any ps' bs
      end
  end.

Fixpoint trim_start (fuel : nat) (ps : list (list Z)) (bs : list Z) : list Z :=
  match fuel with
  | O => bs
  | S fuel' =>
      match strip_any ps bs with
      | Some r => trim_start fuel' ps r
      | None => bs
      end
  end.

Definition trim (bs : list Z) : list Z :=
  let l := trim_start (List.length bs) white bs in
  List.rev (trim_start (List.length l) (List.map (@List.rev Z) white) (List.rev l)).

Definition digit (base b : Z) : option Z :=
  let v := if ((48 <=? b) && (b <=? 57))%Z then b - 48
           else if ((97 <=? b) && (b <=? 102))%Z then b - 87
           else if ((65 <=? b) && (b <=? 70))%Z then b - 55
           else base in
  if (v <? base)%Z then Some v else None.

Fixpoint digits (base acc : Z) (bs : list Z) : option Z :=
  match bs with
  | [] => Some acc
  | b :: bs' =>
      match digit base b with
      | Some v => digits base (base * acc + v) bs'
      | None => None
      end
  end.

(** At least one digit. *)
Definition numeral (base : Z) (bs : list Z) : option Z :=
  match bs with
  | [] => None
  | _ :: _ => digits base 0 bs
  end.

Definition parse (bs : list Z) : option Z :=
  match trim bs with
  | [] => Some 0
  | 48 :: 120 :: r | 48 :: 88 :: r => numeral 16 r
  | 48 :: 111 :: r | 48 :: 79 :: r => numeral 8 r
  | 48 :: 98 :: r | 48 :: 66 :: r => numeral 2 r
  | 45 :: r => option_map Z.opp (numeral 10 r)
  | 43 :: r => numeral 10 r
  | r => numeral 10 r
  end.

End StringToBigInt.

(** [BigInt(s)] on a string: [None] stands for the [SyntaxError]. *)
Definition BigInt (s : string) : option Z :=
  StringToBigInt.parse (SHA256.bytes_of_string s).

(* ===================================================================== *)
(** ** Bonding curve account *)
(* ===================================================================== *)

Record BondingCurveData := {
  virtualTokenReserves : Z;
  virtualSolReserves : Z;
  realTokenReserves : Z;
  realSolReserves : Z;
  tokenTotalSupply : Z;
  complete : bool;
  creator : list Z
}.

(** [Buffer.readBigUInt64LE(offset)]: eight bytes, least significant first. *)
Definition readBigUInt64LE (data : list Z) (offset : nat) : Z :=
  List.fold_right (fun b acc => b + 256 * acc) 0 (firstn 8 (skipn offset data)).

(** An eight-byte discriminator, five u64 counters, the completion byte and
    the 32-byte creator key: 81 bytes at least. *)
Definition deserializeBondingCurve (data : list Z) : option BondingCurveData :=
  if (List.length data <? 81)%nat then None
  else Some {| virtualTokenReserves := readBigUInt64LE data 8;
               virtualSolReserves := readBigUInt64LE data 16;
               realTokenReserves := readBigUInt64LE data 24;
               realSolReserves := readBigUInt64LE data 32;
               tokenTotalSupply := readBigUInt64LE data 40;
               complete := (nth 48 data 0 =? 1)%Z;
               creator := firstn 32 (skipn 49 data) |}.

(* ===================================================================== *)
(** ** Proof-of-history types shared by both revisions *)
(* ===================================================================== *)

Definition GENESIS_HASH : string :=
  "a1b2c3d4e5f6789012345678901234567890abcdef1234567890abcdef123456".

Inductive HistoryEventType := FEE | CLAIM | MIGRATE.

Inductive VaultType := BC | AMM.

Definition HistoryEventType_str (t : HistoryEventType) : string :=
  match t with FEE => "FEE" | CLAIM => "CLAIM" | MIGRATE => "MIGRATE" end.

Definition VaultType_str (v : VaultType) : string :=
  match v with BC => "BC" | AMM => "AMM" end.

Record VerifyResult := {
  valid : bool;
  entryIndex : option nat;
  error : option string
}.

Definition verified : VerifyResult :=
  {| valid := true; entryIndex := None; error := None |}.

Definition rejected (i : nat) (msg : string) : VerifyResult :=
  {| valid := false; entryIndex := Some i; error := Some msg |}.

(** The three checks of [verifyHistoryChain], named after what they test. *)
Inductive Check := SequenceCheck | LinkageCheck | CommitmentCheck.

(** The verifier reads three fields of an entry and recomputes its hash;
    both revisions run the same loop over their own entry type. *)
Section Verifier.
Context {Entry : Type}.
Variables (sequence : Entry -> Z) (prevHash hash : Entry -> string).
Variable computeEntryHash : Entry -> string.

Definition sequence_error (i : nat) (entry : Entry) : string :=
  "Expected sequence " ++ toString (Z.of_nat i + 1) ++ ", got "
    ++ toString (sequence entry).

(** The body of the [for] loop from index [i] on. *)
Fixpoint verify_loop (i : nat) (expectedPrevHash : string)
         (entries : list Entry) : VerifyResult :=
  match entries with
  | [] => verified
  | entry :: rest =>
      if negb (sequence entry =? Z.of_nat i + 1)%Z then
        rejected i (sequence_error i entry)
      else if negb (String.eqb (prevHash entry) expectedPrevHash) then
        rejected i "prevHash mismatch"
      else if negb (String.eqb (computeEntryHash entry) (hash entry)) then
        rejected i "Hash mismatch"
      else verify_loop (S i) (hash entry) rest
  end.

Definition verify_entries (entries : list Entry) : VerifyResult :=
  if (List.length entries =? 0)%nat then verified
  else verify_loop 0 GENESIS_HASH entries.

(** The hash an entry at index [i] must link to. *)
Definition expected_prev (entries : list Entry) (i : nat) : string :=
  match i with
  | O => GENESIS_HASH
  | S j => match entries !! j with
           | Some p => hash p
           | None => GENESIS_HASH
           end
  end.

Definition passes (c : Check) (entries : list Entry) (i : nat) (e : Entry) : bool :=
  match c with
  | SequenceCheck => (sequence e =? Z.of_nat i + 1)%Z
  | LinkageCheck => String.eqb (prevHash e) (expected_prev entries i)
  | CommitmentCheck => String.eqb (computeEntryHash e) (hash e)
  end.

Definition passes_all (entries : list Entry) (i : nat) (e : Entry) : bool :=
  passes SequenceCheck entries i e && passes LinkageCheck entries i e
    && passes CommitmentCheck entries i e.

Definition check_error (c : Check) (i : nat) (e : Entry) : string :=
  match c with
  | SequenceCheck => sequence_error i e
  | LinkageCheck => "prevHash mismatch"
  | CommitmentCheck => "Hash mismatch"
  end.

(** The hash the next appended entry links to: that of the last entry, or
    the genesis constant on an empty log. *)
Definition chain_tip (entries : list Entry) : string :=
  match last entries with
  | Some e => hash e
  | None => GENESIS_HASH
  end.

(** The order in which the loop runs the checks. *)
Definition check_order (c : Check) : nat :=
  match c with
  | SequenceCheck => 0
  | LinkageCheck => 1
  | CommitmentCheck => 2
  end.

(** [c] is the first check that entry [e] at index [i] fails. *)
Definition first_failing (c : Check) (entries : list Entry) (i : nat)
           (e : Entry) : Prop :=
  passes c entries i e = false
  /\ forall c', (check_order c' < check_order c)%nat ->
                passes c' entries i e = true.

(** An honestly built chain: gapless sequence numbers from 1, every entry
    linked to its predecessor (the first to the genesis constant), every
    hash the commitment of its entry. *)
Definition honest_chain (entries : list Entry) : Prop :=
  forall i e, entries !! i = Some e ->
    sequence e = Z.of_nat i + 1
    /\ prevHash e = expected_prev entries i
    /\ hash e = computeEntryHash e.
(** Sequence numbers 1, 2, ..., the first entry linked to the genesis
    constant, every later one to the hash of the entry before it. *)
Definition numbered_and_linked (entries : list Entry) : Prop :=
  (forall i e, entries !! i = Some e -> sequence e = Z.of_nat i + 1)
  /\ (forall e, entries !! 0%nat = Some e -> prevHash e = GENESIS_HASH)
  /\ (forall i p e, entries !! i = Some p -> entries !! S i = Some e ->
                    prevHash e = hash p).
End Verifier.

(* ===================================================================== *)
(** ** Persisted documents *)
(* ===================================================================== *)

(** A JSON document.  Numbers are the integers of this model. *)
Inductive json :=
| JNull
| JBool (b : bool)
| JNum (n : Z)
| JStr (s : string)
| JArr (items : list json)
| JObj (members : list (string * json)).

(** [JSON.stringify(value, null, 2)] and [JSON.parse(text)], on the text as
    [fs.writeFileSync] and [fs.readFileSync(path, 'utf-8')] carry it. *)
Module JSON.

Definition code (c : ascii) : Z := Z.of_N (N_of_ascii c).
Definition char (n : Z) : ascii := ascii_of_N (Z.to_N n).

Definition dquote : ascii := char 34.
Definition backslash : ascii := char 92.
Definition newline : ascii := char 10.
Definition space : ascii := char 32.

Definition hex_digit (d : Z) : ascii :=
  if (d <? 10)%Z then char (48 + d) else char (87 + d).

(** [QuoteJSONString]: what one character is written as. *)
Definition escape (c : ascii) : list ascii :=
  let n := code c in
  if (n =? 34)%Z then [backslash; dquote]
  else if (n =? 92)%Z then [backslash; backslash]
  else if (n =? 8)%Z then [backslash; char 98]
  else if (n =? 12)%Z then [backslash; char 102]
  else if (n =? 10)%Z then [backslash; char 110]
  else if (n =? 13)%Z then [backslash; char 114]
  else if (n =? 9)%Z then [backslash; char 116]
  else if (n <? 32)%Z then
    [backslash; char 117; char 48; char 48; hex_digit (n / 16); hex_digit (n mod 16)]
  else [c].

Definition quote (s : string) : list ascii :=
  (dquote :: List.concat (List.map escape (list_ascii_of_string s)) ++ [dquote])%list.

Definition indent (n : nat) : list ascii := List.repeat space n.

(** Items, one per line, separated by commas. *)
Fixpoint lines (ind : nat) (items : list (list ascii)) : list ascii :=
  match items with
  | [] => []
  | [x] => (newline :: indent ind ++ x)%list
  | x :: rest => (newline :: indent ind ++ x ++ char 44 :: lines ind rest)%list
  end.

(** [JSON.stringify(value, null, 2)], [ind] spaces deep. *)
Fixpoint print (ind : nat) (j : json) : list ascii :=
  match j with
  | JNull => list_ascii_of_string "null"
  | JBool true => list_ascii_of_string "true"
  | JBool false => list_ascii_of_string "false"
  | JNum n => list_ascii_of_string (toString n)
  | JStr s => quote s
  | JArr [] => list_ascii_of_string "[]"
  | JArr items =>
      (char 91 :: lines (2 + ind) (List.map (print (2 + ind)) items)
            ++ newline :: indent ind ++ [char 93])%list
  | JObj [] => list_ascii_of_string "{}"
  | JObj members =>
      (char 123 :: lines (2 + ind)
                 (List.map (fun kv => let '(k, v) := kv in
                                      quote k ++ char 58 :: space :: print (2 + ind) v)
                           members)
            ++ newline :: indent ind ++ [char 125])%list
  end.

Definition stringify (j : json) : string := string_of_list_ascii (print 0 j).

(** *** Reading *)

Definition is_ws (c : ascii) : bool :=
  let n := code c in
  ((n =? 32) || (n =? 9) || (n =? 10) || (n =? 13))%Z.

Fixpoint skip_ws (cs : list ascii) : list ascii :=
  match cs with
  | c :: rest => if is_ws c then skip_ws rest else cs
  | [] => []
  end.

Definition hex_value (c : ascii) : option Z :=
  let n := code c in
  if ((48 <=? n) && (n <=? 57))%Z then Some (n - 48)
  else if ((97 <=? n) && (n <=? 102))%Z then Some (n - 87)
  else if ((65 <=? n) && (n <=? 70))%Z then Some (n - 55)
  else None.

Definition hex4 (a b c d : ascii) : option Z :=
  x ← hex_value a; y ← hex_value b; z ← hex_value c; w ← hex_value d;
  Some (4096 * x + 256 * y + 16 * z + w).

(** The UTF-8 bytes of a code point; a surrogate on its own becomes the
    replacement character, as it does when the string is encoded. *)
Definition utf8 (u : Z) : list ascii :=
  if (u <? 128)%Z then [char u]
  else if (u <? 2048)%Z then [char (192 + u / 64); char (128 + u mod 64)]
  else if ((55296 <=? u) && (u <=? 57343))%Z then [char 239; char 191; char 189]
  else if (u <? 65536)%Z then
    [char (224 + u / 4096); char (128 + (u / 64) mod 64); char (128 + u mod 64)]
  else [char (240 + u / 262144); char (128 + (u / 4096) mod 64);
        char (128 + (u / 64) mod 64); char (128 + u mod 64)].

Definition unescape (c : ascii) : option ascii :=
  let n := code c in
  if (n =? 34)%Z then Some dquote
  else if (n =? 92)%Z then Some backslash
  else if (n =? 47)%Z then Some (char 47)
  else if (n =? 98)%Z then Some (char 8)
  else if (n =? 102)%Z then Some (char 12)
  else if (n =? 110)%Z then Some (char 10)
  else if (n =? 114)%Z then Some (char 13)
  else if (n =? 116)%Z then Some (char 9)
  else None.

Definition cons_to {A} (xs : list ascii) (r : option (list ascii * A))
  : option (list ascii * A) :=
  match r with
  | Some (s, rest) => Some ((xs ++ s)%list, rest)
  | None => None
  end.

(** The characters of a string literal after its opening quote, up to
    and including the closing one. *)
Fixpoint parse_chars (cs : list ascii) : option (list ascii * list ascii) :=
  match cs with
  | [] => None
  | c :: r =>
      if (code c =? 34)%Z then Some ([], r)
      else if (code c =? 92)%Z then
        match r with
        | [] => None
        | e :: r1 =>
            if (code e =? 117)%Z then
              match r1 with
              | h1 :: h2 :: h3 :: h4 :: r2 =>
                  match hex4 h1 h2 h3 h4 with
                  | Some u =>
                      if ((55296 <=? u) && (u <=? 56319))%Z then
                        match r2 with
                        | b :: v :: l1 :: l2 :: l3 :: l4 :: r3 =>
                            match hex4 l1 l2 l3 l4 with
                            | Some lo =>
                                if ((code b =? 92) && (code v =? 117)
                                    && (56320 <=? lo) && (lo <=? 57343))%Z
                                then cons_to (utf8 (65536 + 1024 * (u - 55296)
                                                    + (lo - 56320)))
                                             (parse_chars r3)
                                else cons_to (utf8 u) (parse_chars r2)
                            | None => cons_to (utf8 u) (parse_chars r2)
                            end
                        | _ => cons_to (utf8 u) (parse_chars r2)
                        end
                      else cons_to (utf8 u) (parse_chars r2)
                  | None => None
                  end
              | _ => None
              end
            else
              match unescape e with
              | Some x => cons_to [x] (parse_chars r1)
              | None => None
              end
        end
      else if (code c <? 32)%Z then None
      else cons_to [c] (parse_chars r)
  end.

Definition is_digit (c : ascii) : bool :=
  ((48 <=? code c) && (code c <=? 57))%Z.

Fixpoint span_digits (cs : list ascii) : list ascii * list ascii :=
  match cs with
  | c :: rest =>
      if is_digit c then let '(ds, r) := span_digits rest in (c :: ds, r)
      else ([], cs)
  | [] => ([], [])
  end.

(** An integer numeral; a fraction or an exponent is outside the integers
    this model holds. *)
Definition parse_number (cs : list ascii) : option (Z * list ascii) :=
  let '(sign, body) := match cs with
                       | c :: rest => if (code c =? 45)%Z then ([c], rest) else ([], cs)
                       | [] => ([], [])
                       end in
  let '(ds, rest) := span_digits body in
  let plain := match rest with
               | c :: _ => negb ((code c =? 46) || (code c =? 101) || (code c =? 69))%Z
               | [] => true
               end in
  let no_leading_zero := match ds with
                         | z :: _ :: _ => negb (code z =? 48)%Z
                         | _ => true
                         end in
  if plain && no_leading_zero then
    match ds with
    | [] => None
    | _ => option_map (fun d => (Z.of_int d, rest))
             (NilZero.int_of_string (string_of_list_ascii (sign ++ ds)))
    end
  else None.

Fixpoint literal (word cs : list ascii) : option (list ascii) :=
  match word, cs with
  | [], _ => Some cs
  | a :: word', c :: cs' => if Ascii.eqb a c then literal word' cs' else None
  | _ :: _, [] => None
  end.

Fixpoint parse_value (fuel : nat) (cs : list ascii) : option (json * list ascii) :=
  match fuel with
  | O => None
  | S fuel' =>
      match cs with
      | [] => None
      | c :: rest =>
          let n := code c in
          if (n =? 110)%Z then option_map (pair JNull) (literal (list_ascii_of_string "null") cs)
          else if (n =? 116)%Z then option_map (pair (JBool true)) (literal (list_ascii_of_string "true") cs)
          else if (n =? 102)%Z then option_map (pair (JBool false)) (literal (list_ascii_of_string "false") cs)
          else if (n =? 34)%Z then
            match parse_chars rest with
            | Some (s, r) => Some (JStr (string_of_list_ascii s), r)
            | None => None
            end
          else if (n =? 91)%Z then
            match skip_ws rest with
            | c' :: r =>
                if (code c' =? 93)%Z then Some (JArr [], r)
                else match parse_items fuel' (c' :: r) with
                     | Some (items, r') => Some (JArr items, r')
                     | None => None
                     end
            | [] => None
            end
          else if (n =? 123)%Z then
            match skip_ws rest with
            | c' :: r =>
                if (code c' =? 125)%Z then Some (JObj [], r)
                else match parse_members fuel' (c' :: r) with
                     | Some (members, r') => Some (JObj members, r')
                     | None => None
                     end
            | [] => None
            end
          else
            match parse_number cs with
            | Some (z, r) => Some (JNum z, r)
            | None => None
            end
      end
  end
with parse_items (fuel : nat) (cs : list ascii) : option (list json * list ascii) :=
  match fuel with
  | O => None
  | S fuel' =>
      match parse_value fuel' cs with
      | Some (v, r) =>
          match skip_ws r with
          | c :: r' =>
              if (code c =? 44)%Z then
                match parse_items fuel' (skip_ws r') with
                | Some (vs, r'') => Some (v :: vs, r'')
                | None => None
                end
              else if (code c =? 93)%Z then Some ([v], r')
              else None
          | [] => None
          end
      | None => None
      end
  end
with parse_members (fuel : nat) (cs : list ascii)
  : option (list (string * json) * list ascii) :=
  match fuel with
  | O => None
  | S fuel' =>
      match cs with
      | q :: r0 =>
          if (code q =? 34)%Z then
            match parse_chars r0 with
            | Some (k, r1) =>
                match skip_ws r1 with
                | colon :: r2 =>
                    if (code colon =? 58)%Z then
                      match parse_value fuel' (skip_ws r2) with
                      | Some (v, r3) =>
                          match skip_ws r3 with
                          | c :: r4 =>
                              if (code c =? 44)%Z then
                                match parse_members fuel' (skip_ws r4) with
                                | Some (ms, r5) =>
                                    Some ((string_of_list_ascii k, v) :: ms, r5)
                                | None => None
                                end
                              else if (code c =? 125)%Z
                              then Some ([(string_of_list_ascii k, v)], r4)
                              else None
                          | [] => None
                          end
                      | None => None
                      end
                    else None
                | [] => None
                end
            | None => None
            end
          else None
      | [] => None
      end
  end.

(** [JSON.parse(text)]: one value, white space around it, nothing else. *)
Definition parse (text : string) : option json :=
  let cs := list_ascii_of_string text in
  match parse_value (S (List.length cs)) (skip_ws cs) with
  | Some (j, rest) => match skip_ws rest with
                      | [] => Some j
                      | _ :: _ => None
                      end
  | None => None
  end.

(** *** Vocabulary of the round trip *)

(** The character after a printed value: none, a comma or a line break. *)
Definition follow (rest : list ascii) : Prop :=
  match rest with
  | [] => True
  | c :: _ => code c = 44 \/ code c = 10
  end.

Fixpoint weight (j : json) : nat :=
  match j with
  | JArr items => S (List.fold_right (fun x acc => S (weight x + acc)) O items)
  | JObj members =>
      S (List.fold_right (fun kv acc => let '(_, v) := kv in S (weight v + acc))
                         O members)
  | _ => 1
  end.

(** A printed value starts with a character that is neither white space
    nor a closing bracket. *)
Definition opens (cs : list ascii) : Prop :=
  match cs with
  | c :: _ => is_ws c = false /\ code c <> 93 /\ code c <> 125
  | [] => False
  end.

(** Reading back what was printed. *)
Definition reads_back (j : json) : Prop :=
  forall ind rest fuel,
    (weight j <= fuel)%nat -> follow rest ->
    parse_value fuel (print ind j ++ rest)%list = Some (j, rest).

Definition closing (ind : nat) (bracket : Z) (rest : list ascii) : list ascii :=
  (newline :: indent ind ++ char bracket :: rest)%list.

Definition items_tail (ind : nat) (xs : list json) (rest : list ascii) : list ascii :=
  match List.map (print (2 + ind)) xs with
  | [] => closing ind 93 rest
  | _ :: _ => (char 44 :: lines (2 + ind) (List.map (print (2 + ind)) xs)
                 ++ closing ind 93 rest)%list
  end.

Definition member_line (ind : nat) (kv : string * json) : list ascii :=
  let '(k, v) := kv in (quote k ++ char 58 :: space :: print (2 + ind) v)%list.

Definition members_tail (ind : nat) (ms : list (string * json)) (rest : list ascii)
  : list ascii :=
  match List.map (member_line ind) ms with
  | [] => closing ind 125 rest
  | _ :: _ => (char 44 :: lines (2 + ind) (List.map (member_line ind) ms)
                 ++ closing ind 125 rest)%list
  end.

End JSON.

(** Property access on a parsed document; of two members with one key
    the later one is the property's value. *)
Fixpoint member (key : string) (members : list (string * json)) : option json :=
  match members with
  | [] => None
  | (k, v) :: rest =>
      match member key rest with
      | Some later => Some later
      | None => if String.eqb k key then Some v else None
      end
  end.

Definition get (key : string) (j : json) : option json :=
  match j with
  | JObj members => member key members
  | _ => None
  end.

Definition as_string (j : json) : option string :=
  match j with JStr s => Some s | _ => None end.

Definition as_number (j : json) : option Z :=
  match j with JNum n => Some n | _ => None end.

Definition as_bool (j : json) : option bool :=
  match j with JBool b => Some b | _ => None end.

Definition as_array (j : json) : option (list json) :=
  match j with JArr items => Some items | _ => None end.

Definition as_eventType (j : json) : option HistoryEventType :=
  match j with
  | JStr s => if String.eqb s "FEE" then Some FEE
              else if String.eqb s "CLAIM" then Some CLAIM
              else if String.eqb s "MIGRATE" then Some MIGRATE
              else None
  | _ => None
  end.

Definition as_vaultType (j : json) : option VaultType :=
  match j with
  | JStr s => if String.eqb s "BC" then Some BC
              else if String.eqb s "AMM" then Some AMM
              else None
  | _ => None
  end.

(* ===================================================================== *)
(** ** The balance-polling daemon *)
(* ===================================================================== *)

Module BalancePolling.

Record HistoryEntry := {
  sequence : Z;
  prevHash : string;
  eventType : HistoryEventType;
  vaultType : VaultType;
  vault : string;
  amount : string;
  balanceBefore : string;
  balanceAfter : string;
  slot : Z;
  timestamp : Z;
  date : string;
  hash : string
}.

Record HistoryLog := {
  version : string;
  mint : string;
  symbol : string;
  bondingCurve : string;
  creator : string;
  creatorVaultBC : string;
  creatorVaultAMM : string;
  migrated : bool;
  startedAt : string;
  lastUpdated : string;
  totalFees : string;
  entryCount : Z;
  latestHash : string;
  entries : list HistoryEntry
}.

(** The string [computeEntryHash] feeds to the hash. *)
Definition entryData (entry : HistoryEntry) : string :=
  join "|" [ toString (sequence entry);
             prevHash entry;
             HistoryEventType_str (eventType entry);
             VaultType_str (vaultType entry);
             vault entry;
             amount entry;
             balanceBefore entry;
             balanceAfter entry;
             toString (slot entry);
             toString (timestamp entry) ].

Definition computeEntryHash (entry : HistoryEntry) : string :=
  SHA256.hex (entryData entry).

Definition verifyHistoryChain (log : HistoryLog) : VerifyResult :=
  verify_entries sequence prevHash hash computeEntryHash (entries log).

Record TokenInfo := {
  ti_mint : string;
  ti_symbol : string;
  ti_bondingCurve : string;
  ti_creator : string;
  ti_creatorVaultBC : string;
  ti_creatorVaultAMM : string;
  ti_migrated : bool
}.

(** A callback answers [true] when it returns and [false] when it
    throws; here a throw of either one leaves [pollVault] before it
    records the new balance. *)
Record DaemonConfig := {
  historyFile : option string;
  onFeeDetected : option (Z -> VaultType -> Z -> bool);
  onHistoryEntry : option (HistoryEntry -> bool)
}.

Record Daemon := {
  config : DaemonConfig;
  running : bool;
  tokenInfo : option TokenInfo;
  lastBCBalance : Z;
  lastAMMBalance : Z;
  bcFees : Z;
  ammFees : Z;
  historyLog : option HistoryLog
}.

Definition set_migrated (t : TokenInfo) (b : bool) : TokenInfo :=
  {| ti_mint := ti_mint t; ti_symbol := ti_symbol t;
     ti_bondingCurve := ti_bondingCurve t; ti_creator := ti_creator t;
     ti_creatorVaultBC := ti_creatorVaultBC t;
     ti_creatorVaultAMM := ti_creatorVaultAMM t; ti_migrated := b |}.

Definition with_tokenInfo (d : Daemon) (t : option TokenInfo) : Daemon :=
  {| config := config d; running := running d; tokenInfo := t;
     lastBCBalance := lastBCBalance d; lastAMMBalance := lastAMMBalance d;
     bcFees := bcFees d; ammFees := ammFees d; historyLog := historyLog d |}.

Definition with_lastBCBalance (d : Daemon) (b : Z) : Daemon :=
  {| config := config d; running := running d; tokenInfo := tokenInfo d;
     lastBCBalance := b; lastAMMBalance := lastAMMBalance d;
     bcFees := bcFees d; ammFees := ammFees d; historyLog := historyLog d |}.

Definition with_lastAMMBalance (d : Daemon) (b : Z) : Daemon :=
  {| config := config d; running := running d; tokenInfo := tokenInfo d;
     lastBCBalance := lastBCBalance d; lastAMMBalance := b;
     bcFees := bcFees d; ammFees := ammFees d; historyLog := historyLog d |}.

Definition with_bcFees (d : Daemon) (f : Z) : Daemon :=
  {| config := config d; running := running d; tokenInfo := tokenInfo d;
     lastBCBalance := lastBCBalance d; lastAMMBalance := lastAMMBalance d;
     bcFees := f; ammFees := ammFees d; historyLog := historyLog d |}.

Definition with_ammFees (d : Daemon) (f : Z) : Daemon :=
  {| config := config d; running := running d; tokenInfo := tokenInfo d;
     lastBCBalance := lastBCBalance d; lastAMMBalance := lastAMMBalance d;
     bcFees := bcFees d; ammFees := f; historyLog := historyLog d |}.

Definition with_historyLog (d : Daemon) (l : option HistoryLog) : Daemon :=
  {| config := config d; running := running d; tokenInfo := tokenInfo d;
     lastBCBalance := lastBCBalance d; lastAMMBalance := lastAMMBalance d;
     bcFees := bcFees d; ammFees := ammFees d; historyLog := l |}.

Definition with_entries (l : HistoryLog) (es : list HistoryEntry) : HistoryLog :=
  {| version := version l; mint := mint l; symbol := symbol l;
     bondingCurve := bondingCurve l; creator := creator l;
     creatorVaultBC := creatorVaultBC l; creatorVaultAMM := creatorVaultAMM l;
     migrated := migrated l; startedAt := startedAt l;
     lastUpdated := lastUpdated l; totalFees := totalFees l;
     entryCount := entryCount l; latestHash := latestHash l; entries := es |}.

Definition with_log_migrated (l : HistoryLog) (b : bool) : HistoryLog :=
  {| version := version l; mint := mint l; symbol := symbol l;
     bondingCurve := bondingCurve l; creator := creator l;
     creatorVaultBC := creatorVaultBC l; creatorVaultAMM := creatorVaultAMM l;
     migrated := b; startedAt := startedAt l;
     lastUpdated := lastUpdated l; totalFees := totalFees l;
     entryCount := entryCount l; latestHash := latestHash l;
     entries := entries l |}.

Definition log_entries (d : Daemon) : list HistoryEntry :=
  match historyLog d with
  | Some l => entries l
  | None => []
  end.

(** [saveHistory()]: the summary fields it refreshes; the file it writes
    is not read again by this revision's poll loop. *)
Definition saveHistory (now : string) (d : Daemon) : Daemon :=
  match historyLog d with
  | Some l =>
      if truthy (historyFile (config d)) then
        with_historyLog d
          (Some {| version := version l; mint := mint l; symbol := symbol l;
                   bondingCurve := bondingCurve l; creator := creator l;
                   creatorVaultBC := creatorVaultBC l;
                   creatorVaultAMM := creatorVaultAMM l;
                   migrated := migrated l; startedAt := startedAt l;
                   lastUpdated := now;
                   totalFees := toString (bcFees d + ammFees d);
                   entryCount := Z.of_nat (List.length (entries l));
                   latestHash := match last (entries l) with
                                 | Some e => hash e
                                 | None => latestHash l
                                 end;
                   entries := entries l |})
      else d
  | None => d
  end.

Definition createHistoryEntry (log : HistoryLog)
           (eventType : HistoryEventType) (vaultType : VaultType)
           (vault amount balanceBefore balanceAfter : string)
           (slot timestamp : Z) : option HistoryEntry :=
  let prevHash := match last (entries log) with
                  | Some e => hash e
                  | None => GENESIS_HASH
                  end in
  let sequence := Z.of_nat (List.length (entries log)) + 1 in
  date ← toISOString timestamp;
  let entryWithoutHash h :=
    {| sequence := sequence; prevHash := prevHash; eventType := eventType;
       vaultType := vaultType; vault := vault; amount := amount;
       balanceBefore := balanceBefore; balanceAfter := balanceAfter;
       slot := slot; timestamp := timestamp; date := date; hash := h |} in
  Some (entryWithoutHash (computeEntryHash (entryWithoutHash ""))).

Definition returns {A} (callback : option (A -> bool)) (a : A) : bool :=
  match callback with
  | Some f => f a
  | None => true
  end.

(** [handleBalanceChange]; the flag is [false] when it leaves by a throw. *)
Definition handleBalanceChange (now : string) (d : Daemon)
           (eventType : HistoryEventType) (vaultType : VaultType)
           (vault : string) (delta balanceBefore balanceAfter : Z)
           (slot timestamp : Z) : Daemon * bool :=
  let absDelta := if (delta <? 0)%Z then - delta else delta in
  let counted :=
    match eventType with
    | FEE =>
        let d1 := match vaultType with
                  | BC => with_bcFees d (bcFees d + absDelta)
                  | AMM => with_ammFees d (ammFees d + absDelta)
                  end in
        (d1, returns (option_map (fun f a => f a vaultType balanceAfter)
                        (onFeeDetected (config d))) absDelta)
    | _ => (d, true)
    end in
  match counted with
  | (d1, false) => (d1, false)
  | (d1, true) =>
      match historyLog d1 with
      | Some l =>
          match createHistoryEntry l eventType vaultType vault
                  (toString delta) (toString balanceBefore)
                  (toString balanceAfter) slot timestamp with
          | Some entry =>
              (saveHistory now
                 (with_historyLog d1
                    (Some (with_entries l (entries l ++ [entry])%list))),
               returns (onHistoryEntry (config d1)) entry)
          | None => (d1, false)
          end
      | None => (d1, true)
      end
  end.

(** What [pollVault] reads: the slot, the balance, [Date.now()]. *)
Record VaultReading := {
  getSlot : rpc Z;
  getBalance : rpc Z;
  dateNow : Z
}.

Definition pollVault (now : string) (d : Daemon) (vaultType : VaultType)
           (vault : string) (r : VaultReading) : Daemon :=
  match getSlot r, getBalance r with
  | Returns slotInfo, Returns currentBalance =>
      let lastBalance := match vaultType with
                         | BC => lastBCBalance d
                         | AMM => lastAMMBalance d
                         end in
      let delta := currentBalance - lastBalance in
      if (delta =? 0)%Z then d
      else
        let eventType := if (delta >? 0)%Z then FEE else CLAIM in
        match handleBalanceChange now d eventType vaultType vault delta
                lastBalance currentBalance slotInfo (dateNow r) with
        | (d1, true) =>
            match vaultType with
            | BC => with_lastBCBalance d1 currentBalance
            | AMM => with_lastAMMBalance d1 currentBalance
            end
        | (d1, false) => d1
        end
  | _, _ => d
  end.

Definition checkMigration (now : string) (d : Daemon)
           (account : rpc (option (list Z))) : Daemon :=
  match tokenInfo d, account with
  | Some t, Returns (Some data) =>
      match deserializeBondingCurve data with
      | Some bcData =>
          if complete bcData && negb (ti_migrated t) then
            let d1 := with_tokenInfo d (Some (set_migrated t true)) in
            match historyLog d1 with
            | Some l =>
                saveHistory now
                  (with_historyLog d1 (Some (with_log_migrated l true)))
            | None => d1
            end
          else d
      | None => d
      end
  | _, _ => d
  end.

Record Tick := {
  clock : string;
  bondingCurveAccount : rpc (option (list Z));
  bcReading : VaultReading;
  ammReading : VaultReading
}.

Definition isMigrated (d : Daemon) : bool :=
  match tokenInfo d with
  | Some t => ti_migrated t
  | None => false
  end.

Definition poll (d : Daemon) (k : Tick) : Daemon :=
  match tokenInfo d with
  | Some t =>
      if running d then
        let d1 := if negb (ti_migrated t)
                  then checkMigration (clock k) d (bondingCurveAccount k)
                  else d in
        let d2 := pollVault (clock k) d1 BC (ti_creatorVaultBC t) (bcReading k) in
        pollVault (clock k) d2 AMM (ti_creatorVaultAMM t) (ammReading k)
      else d
  | None => d
  end.

(** A run: the ticks the timer fires, each poll finished before the next
    one starts. *)
Definition run (d : Daemon) (ticks : list Tick) : Daemon :=
  List.fold_left poll ticks d.

End BalancePolling.

(* ===================================================================== *)
(** ** The transaction-sourced daemon *)
(* ===================================================================== *)

Module TxSourced.

Record HistoryEntry := {
  sequence : Z;
  prevHash : string;
  eventType : HistoryEventType;
  vaultType : VaultType;
  vault : string;
  amount : string;
  balanceBefore : string;
  balanceAfter : string;
  slot : Z;
  timestamp : Z;
  date : string;
  hash : string;
  txSignature : string
}.

Record HistoryLog := {
  version : string;
  mint : string;
  symbol : string;
  bondingCurve : string;
  creator : string;
  creatorVaultBC : string;
  creatorVaultAMM : string;
  pool : string;
  migrated : bool;
  startedAt : string;
  lastUpdated : string;
  totalFees : string;
  entryCount : Z;
  latestHash : string;
  entries : list HistoryEntry
}.

(** The string [computeEntryHash] feeds to the hash. *)
Definition entryData (entry : HistoryEntry) : string :=
  join "|" [ toString (sequence entry);
             prevHash entry;
             HistoryEventType_str (eventType entry);
             VaultType_str (vaultType entry);
             vault entry;
             amount entry;
             balanceBefore entry;
             balanceAfter entry;
             toString (slot entry);
             toString (timestamp entry);
             txSignature entry ].

Definition computeEntryHash (entry : HistoryEntry) : string :=
  SHA256.hex (entryData entry).

Definition verifyHistoryChain (log : HistoryLog) : VerifyResult :=
  verify_entries sequence prevHash hash computeEntryHash (entries log).

(** *** The history file *)

(** The own properties of an entry, in the order [createHistoryEntry]
    sets them. *)
Definition document_entry (e : HistoryEntry) : json :=
  JObj [ ("sequence", JNum (sequence e));
         ("prevHash", JStr (prevHash e));
         ("eventType", JStr (HistoryEventType_str (eventType e)));
         ("vaultType", JStr (VaultType_str (vaultType e)));
         ("vault", JStr (vault e));
         ("amount", JStr (amount e));
         ("balanceBefore", JStr (balanceBefore e));
         ("balanceAfter", JStr (balanceAfter e));
         ("slot", JNum (slot e));
         ("timestamp", JNum (timestamp e));
         ("date", JStr (date e));
         ("txSignature", JStr (txSignature e));
         ("hash", JStr (hash e)) ].

(** The own properties of the log object. *)
Definition document (log : HistoryLog) : json :=
  JObj [ ("version", JStr (version log));
         ("mint", JStr (mint log));
         ("symbol", JStr (symbol log));
         ("bondingCurve", JStr (bondingCurve log));
         ("creator", JStr (creator log));
         ("creatorVaultBC", JStr (creatorVaultBC log));
         ("creatorVaultAMM", JStr (creatorVaultAMM log));
         ("pool", JStr (pool log));
         ("migrated", JBool (migrated log));
         ("startedAt", JStr (startedAt log));
         ("lastUpdated", JStr (lastUpdated log));
         ("totalFees", JStr (totalFees log));
         ("entryCount", JNum (entryCount log));
         ("latestHash", JStr (latestHash log));
         ("entries", JArr (List.map document_entry (entries log))) ].

Definition asHistoryEntry (j : json) : option HistoryEntry :=
  sequence ← get "sequence" j ≫= as_number;
  prevHash ← get "prevHash" j ≫= as_string;
  eventType ← get "eventType" j ≫= as_eventType;
  vaultType ← get "vaultType" j ≫= as_vaultType;
  vault ← get "vault" j ≫= as_string;
  amount ← get "amount" j ≫= as_string;
  balanceBefore ← get "balanceBefore" j ≫= as_string;
  balanceAfter ← get "balanceAfter" j ≫= as_string;
  slot ← get "slot" j ≫= as_number;
  timestamp ← get "timestamp" j ≫= as_number;
  date ← get "date" j ≫= as_string;
  hash ← get "hash" j ≫= as_string;
  txSignature ← get "txSignature" j ≫= as_string;
  Some {| sequence := sequence; prevHash := prevHash; eventType := eventType;
          vaultType := vaultType; vault := vault; amount := amount;
          balanceBefore := balanceBefore; balanceAfter := balanceAfter;
          slot := slot; timestamp := timestamp; date := date; hash := hash;
          txSignature := txSignature |}.

Fixpoint asHistoryEntries (items : list json) : option (list HistoryEntry) :=
  match items with
  | [] => Some []
  | j :: rest =>
      e ← asHistoryEntry j;
      es ← asHistoryEntries rest;
      Some (e :: es)
  end.

(** [... as HistoryLog]: the cast checks nothing, so the model covers the
    documents that have the declared shape; [None] is a document that has
    not. *)
Definition asHistoryLog (j : json) : option HistoryLog :=
  version ← get "version" j ≫= as_string;
  mint ← get "mint" j ≫= as_string;
  symbol ← get "symbol" j ≫= as_string;
  bondingCurve ← get "bondingCurve" j ≫= as_string;
  creator ← get "creator" j ≫= as_string;
  creatorVaultBC ← get "creatorVaultBC" j ≫= as_string;
  creatorVaultAMM ← get "creatorVaultAMM" j ≫= as_string;
  pool ← get "pool" j ≫= as_string;
  migrated ← get "migrated" j ≫= as_bool;
  startedAt ← get "startedAt" j ≫= as_string;
  lastUpdated ← get "lastUpdated" j ≫= as_string;
  totalFees ← get "totalFees" j ≫= as_string;
  entryCount ← get "entryCount" j ≫= as_number;
  latestHash ← get "latestHash" j ≫= as_string;
  entries ← (get "entries" j ≫= as_array) ≫= asHistoryEntries;
  Some {| version := version; mint := mint; symbol := symbol;
          bondingCurve := bondingCurve; creator := creator;
          creatorVaultBC := creatorVaultBC; creatorVaultAMM := creatorVaultAMM;
          pool := pool; migrated := migrated; startedAt := startedAt;
          lastUpdated := lastUpdated; totalFees := totalFees;
          entryCount := entryCount; latestHash := latestHash;
          entries := entries |}.

(** [loadHistoryLog(filePath)] on a file system whose file at that path
    holds the text [file] ([None]: no such file).  [None] stands for a
    throw. *)
Definition loadHistoryLog (file : option string) : option HistoryLog :=
  text ← file;
  doc ← JSON.parse text;
  asHistoryLog doc.

(** *** Daemon state *)

(** Addresses are kept in their base58 form. *)
Record TokenInfo := {
  ti_mint : string;
  ti_symbol : string;
  ti_bondingCurve : string;
  ti_creator : string;
  ti_creatorVaultBC : string;
  ti_creatorVaultAMM : string;
  ti_pool : string;
  ti_migrated : bool
}.

(** [onFeeDetected] is the one callback whose outcome changes what the
    daemon does next: it answers [true] when it returns and [false] when
    it throws.  [onHistoryEntry] and [onMigration] are the last statement
    of their [try] block and receive values only. *)
Record DaemonConfig := {
  historyFile : option string;
  onFeeDetected : option (Z -> VaultType -> Z -> bool)
}.

Record Daemon := {
  config : DaemonConfig;
  running : bool;
  tokenInfo : option TokenInfo;
  lastBCSignature : option string;
  lastAMMSignature : option string;
  processedTxs : gset string;
  bcFees : Z;
  ammFees : Z;
  historyLog : option HistoryLog;
  disk : option string
}.

Definition set_migrated (t : TokenInfo) (b : bool) : TokenInfo :=
  {| ti_mint := ti_mint t; ti_symbol := ti_symbol t;
     ti_bondingCurve := ti_bondingCurve t; ti_creator := ti_creator t;
     ti_creatorVaultBC := ti_creatorVaultBC t;
     ti_creatorVaultAMM := ti_creatorVaultAMM t; ti_pool := ti_pool t;
     ti_migrated := b |}.

Definition with_tokenInfo (d : Daemon) (t : option TokenInfo) : Daemon :=
  {| config := config d; running := running d; tokenInfo := t;
     lastBCSignature := lastBCSignature d;
     lastAMMSignature := lastAMMSignature d;
     processedTxs := processedTxs d; bcFees := bcFees d; ammFees := ammFees d;
     historyLog := historyLog d; disk := disk d |}.

Definition with_lastBCSignature (d : Daemon) (s : option string) : Daemon :=
  {| config := config d; running := running d; tokenInfo := tokenInfo d;
     lastBCSignature := s; lastAMMSignature := lastAMMSignature d;
     processedTxs := processedTxs d; bcFees := bcFees d; ammFees := ammFees d;
     historyLog := historyLog d; disk := disk d |}.

Definition with_lastAMMSignature (d : Daemon) (s : option string) : Daemon :=
  {| config := config d; running := running d; tokenInfo := tokenInfo d;
     lastBCSignature := lastBCSignature d; lastAMMSignature := s;
     processedTxs := processedTxs d; bcFees := bcFees d; ammFees := ammFees d;
     historyLog := historyLog d; disk := disk d |}.

Definition with_processedTxs (d : Daemon) (p : gset string) : Daemon :=
  {| config := config d; running := running d; tokenInfo := tokenInfo d;
     lastBCSignature := lastBCSignature d;
     lastAMMSignature := lastAMMSignature d;
     processedTxs := p; bcFees := bcFees d; ammFees := ammFees d;
     historyLog := historyLog d; disk := disk d |}.

Definition with_bcFees (d : Daemon) (f : Z) : Daemon :=
  {| config := config d; running := running d; tokenInfo := tokenInfo d;
     lastBCSignature := lastBCSignature d;
     lastAMMSignature := lastAMMSignature d;
     processedTxs := processedTxs d; bcFees := f; ammFees := ammFees d;
     historyLog := historyLog d; disk := disk d |}.

Definition with_ammFees (d : Daemon) (f : Z) : Daemon :=
  {| config := config d; running := running d; tokenInfo := tokenInfo d;
     lastBCSignature := lastBCSignature d;
     lastAMMSignature := lastAMMSignature d;
     processedTxs := processedTxs d; bcFees := bcFees d; ammFees := f;
     historyLog := historyLog d; disk := disk d |}.

Definition with_historyLog (d : Daemon) (l : option HistoryLog) : Daemon :=
  {| config := config d; running := running d; tokenInfo := tokenInfo d;
     lastBCSignature := lastBCSignature d;
     lastAMMSignature := lastAMMSignature d;
     processedTxs := processedTxs d; bcFees := bcFees d; ammFees := ammFees d;
     historyLog := l; disk := disk d |}.

Definition with_disk (d : Daemon) (f : option string) : Daemon :=
  {| config := config d; running := running d; tokenInfo := tokenInfo d;
     lastBCSignature := lastBCSignature d;
     lastAMMSignature := lastAMMSignature d;
     processedTxs := processedTxs d; bcFees := bcFees d; ammFees := ammFees d;
     historyLog := historyLog d; disk := f |}.

Definition with_entries (l : HistoryLog) (es : list HistoryEntry) : HistoryLog :=
  {| version := version l; mint := mint l; symbol := symbol l;
     bondingCurve := bondingCurve l; creator := creator l;
     creatorVaultBC := creatorVaultBC l; creatorVaultAMM := creatorVaultAMM l;
     pool := pool l; migrated := migrated l; startedAt := startedAt l;
     lastUpdated := lastUpdated l; totalFees := totalFees l;
     entryCount := entryCount l; latestHash := latestHash l; entries := es |}.

Definition with_log_migrated (l : HistoryLog) (b : bool) : HistoryLog :=
  {| version := version l; mint := mint l; symbol := symbol l;
     bondingCurve := bondingCurve l; creator := creator l;
     creatorVaultBC := creatorVaultBC l; creatorVaultAMM := creatorVaultAMM l;
     pool := pool l; migrated := b; startedAt := startedAt l;
     lastUpdated := lastUpdated l; totalFees := totalFees l;
     entryCount := entryCount l; latestHash := latestHash l;
     entries := entries l |}.

(** The entries of the daemon's log, none when history is off. *)
Definition log_entries (d : Daemon) : list HistoryEntry :=
  match historyLog d with
  | Some l => entries l
  | None => []
  end.

(** *** Persistence *)

(** [saveHistory()], with the clock reading [now] that
    [new Date().toISOString()] returns. *)
Definition saveHistory (now : string) (d : Daemon) : Daemon :=
  match historyLog d with
  | Some l =>
      if truthy (historyFile (config d)) then
        let l' :=
          {| version := version l; mint := mint l; symbol := symbol l;
             bondingCurve := bondingCurve l; creator := creator l;
             creatorVaultBC := creatorVaultBC l;
             creatorVaultAMM := creatorVaultAMM l; pool := pool l;
             migrated := migrated l; startedAt := startedAt l;
             lastUpdated := now;
             totalFees := toString (bcFees d + ammFees d);
             entryCount := Z.of_nat (List.length (entries l));
             latestHash := match last (entries l) with
                           | Some e => hash e
                           | None => latestHash l
                           end;
             entries := entries l |} in
        with_disk (with_historyLog d (Some l')) (Some (JSON.stringify (document l')))
      else d
  | None => d
  end.

(** The loop of [initializeHistory] over the loaded entries; the flag is
    [false] when [BigInt(entry.amount)] threw, and the state is the one
    reached at the throw. *)
Fixpoint restore (d : Daemon) (es : list HistoryEntry) : Daemon * bool :=
  match es with
  | [] => (d, true)
  | entry :: rest =>
      let d1 := with_processedTxs d ({[ txSignature entry ]} ∪ processedTxs d) in
      match BigInt (amount entry) with
      | None => (d1, false)
      | Some a =>
          let d2 :=
            match eventType entry with
            | FEE =>
                if (a >? 0)%Z then
                  match vaultType entry with
                  | BC => with_bcFees d1 (bcFees d1 + a)
                  | AMM => with_ammFees d1 (ammFees d1 + a)
                  end
                else d1
            | _ => d1
            end in
          restore d2 rest
      end
  end.

Definition freshLog (t : TokenInfo) (now : string) : HistoryLog :=
  {| version := "1.0.0"; mint := ti_mint t; symbol := ti_symbol t;
     bondingCurve := ti_bondingCurve t; creator := ti_creator t;
     creatorVaultBC := ti_creatorVaultBC t;
     creatorVaultAMM := ti_creatorVaultAMM t; pool := ti_pool t;
     migrated := ti_migrated t; startedAt := now; lastUpdated := now;
     totalFees := "0"; entryCount := 0; latestHash := GENESIS_HASH;
     entries := [] |}.

Definition initializeHistory (now : string) (d : Daemon) : Daemon :=
  match tokenInfo d with
  | None => d
  | Some t =>
      let fresh d0 := saveHistory now (with_historyLog d0 (Some (freshLog t now))) in
      if truthy (historyFile (config d)) && bool_decide (is_Some (disk d)) then
        match loadHistoryLog (disk d) with
        | Some l =>
            match restore (with_historyLog d (Some l)) (entries l) with
            | (d', true) => d'
            | (d', false) => fresh d'
            end
        | None => fresh d
        end
      else fresh d
  end.

(** *** What the ledger of record answers *)

Record SigInfo := {
  signature : string;
  sig_slot : Z
}.

Record TokenBalance := {
  accountIndex : nat;
  uiTokenAmount_amount : string
}.

Record TxMeta := {
  loadedAddresses : option (list string * list string);
  preBalances : list Z;
  postBalances : list Z;
  preTokenBalances : option (list TokenBalance);
  postTokenBalances : option (list TokenBalance)
}.

Record Tx := {
  staticAccountKeys : list string;
  meta : option TxMeta;
  tx_slot : Z;
  blockTime : option Z
}.

(** [accountKeys.includes(a)] and [accountKeys.indexOf(a)]. *)
Definition includes (keys : list string) (a : string) : bool :=
  existsb (String.eqb a) keys.

Fixpoint indexOf (keys : list string) (a : string) : option nat :=
  match keys with
  | [] => None
  | k :: rest => if String.eqb k a then Some O
                 else option_map S (indexOf rest a)
  end.

Definition accountKeys (tx : Tx) (m : TxMeta) : list string :=
  (staticAccountKeys tx
     ++ match loadedAddresses m with
        | Some (writable, readonly) => writable ++ readonly
        | None => []
        end)%list.

(** *** Appending *)

Definition createHistoryEntry (log : HistoryLog)
           (eventType : HistoryEventType) (vaultType : VaultType)
           (vault amount balanceBefore balanceAfter : string)
           (slot timestamp : Z) (txSignature : string) : option HistoryEntry :=
  let prevHash := match last (entries log) with
                  | Some e => hash e
                  | None => GENESIS_HASH
                  end in
  let sequence := Z.of_nat (List.length (entries log)) + 1 in
  date ← toISOString timestamp;
  let entryWithoutHash h :=
    {| sequence := sequence; prevHash := prevHash; eventType := eventType;
       vaultType := vaultType; vault := vault; amount := amount;
       balanceBefore := balanceBefore; balanceAfter := balanceAfter;
       slot := slot; timestamp := timestamp; date := date; hash := h;
       txSignature := txSignature |} in
  Some (entryWithoutHash (computeEntryHash (entryWithoutHash ""))).

(** [this.historyLog.entries.push(entry); this.saveHistory()]. *)
Definition pushEntry (now : string) (d : Daemon) (l : HistoryLog)
           (entry : HistoryEntry) : Daemon :=
  saveHistory now
    (with_historyLog d (Some (with_entries l (entries l ++ [entry])%list))).

Definition feeCallbackReturns (d : Daemon) (delta : Z) (vt : VaultType)
           (balance : Z) : bool :=
  match onFeeDetected (config d) with
  | Some f => f delta vt balance
  | None => true
  end.

(** The tail both extractors share once the delta is known positive and
    the fee total is bumped: callback, then the append. *)
Definition recordFee (now : string) (d : Daemon) (vaultType : VaultType)
           (vault : string) (delta preBalance postBalance : Z)
           (slot timestamp : Z) (sig : string) : Daemon :=
  if feeCallbackReturns d delta vaultType postBalance then
    match historyLog d with
    | Some l =>
        match createHistoryEntry l FEE vaultType vault (toString delta)
                (toString preBalance) (toString postBalance)
                slot timestamp sig with
        | Some entry => pushEntry now d l entry
        | None => d
        end
    | None => d
    end
  else d.

Definition processTransaction (now : string) (d : Daemon)
           (vaultType : VaultType) (vault : string) (sigInfo : SigInfo)
           (answer : rpc (option Tx)) : Daemon :=
  match tokenInfo d, answer with
  | Some t, Returns (Some tx) =>
      match meta tx with
      | Some m =>
          let keys := accountKeys tx m in
          if includes keys (ti_mint t) || includes keys (ti_bondingCurve t) then
            match indexOf keys vault with
            | Some vaultIndex =>
                let preBalance := nth vaultIndex (preBalances m) 0 in
                let postBalance := nth vaultIndex (postBalances m) 0 in
                let delta := postBalance - preBalance in
                if (delta <=? 0)%Z then d
                else
                  let timestamp := default 0 (blockTime tx) * 1000 in
                  recordFee now (with_bcFees d (bcFees d + delta)) vaultType
                    vault delta preBalance postBalance (tx_slot tx) timestamp
                    (signature sigInfo)
            | None => d
            end
          else d
      | None => d
      end
  | _, _ => d
  end.

(** The first token balance whose account is the vault, 0 when there is
    none; [None] when [BigInt] throws on its amount. *)
Fixpoint tokenBalanceOf (keys : list string) (vaultAddress : string)
         (balances : list TokenBalance) : option Z :=
  match balances with
  | [] => Some 0
  | bal :: rest =>
      match keys !! accountIndex bal with
      | Some k => if String.eqb k vaultAddress
                  then BigInt (uiTokenAmount_amount bal)
                  else tokenBalanceOf keys vaultAddress rest
      | None => tokenBalanceOf keys vaultAddress rest
      end
  end.

Definition processAMMTransaction (now : string) (d : Daemon)
           (vault : string) (sigInfo : SigInfo)
           (answer : rpc (option Tx)) : Daemon :=
  match tokenInfo d, answer with
  | Some t, Returns (Some tx) =>
      match meta tx with
      | Some m =>
          let keys := accountKeys tx m in
          if includes keys (ti_mint t) || includes keys (ti_pool t) then
            match tokenBalanceOf keys vault (default [] (preTokenBalances m)),
                  tokenBalanceOf keys vault (default [] (postTokenBalances m)) with
            | Some preBalance, Some postBalance =>
                let delta := postBalance - preBalance in
                if (delta <=? 0)%Z then d
                else
                  let timestamp := default 0 (blockTime tx) * 1000 in
                  recordFee now (with_ammFees d (ammFees d + delta)) AMM
                    vault delta preBalance postBalance (tx_slot tx) timestamp
                    (signature sigInfo)
            | _, _ => d
            end
          else d
      | None => d
      end
  | _, _ => d
  end.

(** *** The signature cursor *)

(** The scan over the newest-first list: stop at the last seen signature,
    keep what the processed set does not hold. *)
Fixpoint newSigs (lastSignature : string) (processed : gset string)
         (signatures : list SigInfo) : list SigInfo :=
  match signatures with
  | [] => []
  | sig :: rest =>
      if String.eqb (signature sig) lastSignature then []
      else if bool_decide (signature sig ∈ processed)
           then newSigs lastSignature processed rest
           else sig :: newSigs lastSignature processed rest
  end.

Definition markProcessed (d : Daemon) (sig : SigInfo) : Daemon :=
  with_processedTxs d ({[ signature sig ]} ∪ processedTxs d).

Definition pollVaultTransactions (now : string) (d : Daemon)
           (vaultType : VaultType) (vault : string)
           (signatures : rpc (list SigInfo))
           (getTransaction : string -> rpc (option Tx)) : Daemon :=
  match signatures with
  | Throws => d
  | Returns [] => d
  | Returns ((newest :: _) as sigs) =>
      match lastBCSignature d with
      | Some lastSignature =>
          if String.eqb lastSignature "" then
            with_lastBCSignature d (Some (signature newest))
          else
            match newSigs lastSignature (processedTxs d) sigs with
            | [] => d
            | found =>
                let d' :=
                  List.fold_left
                    (fun d0 sig =>
                       markProcessed
                         (processTransaction now d0 vaultType vault sig
                            (getTransaction (signature sig))) sig)
                    (List.rev found) d in
                with_lastBCSignature d' (Some (signature newest))
            end
      | None => with_lastBCSignature d (Some (signature newest))
      end
  end.

Definition pollAMMVaultTransactions (now : string) (d : Daemon)
           (signatures : rpc (list SigInfo))
           (getTransaction : string -> rpc (option Tx)) : Daemon :=
  match tokenInfo d with
  | None => d
  | Some t =>
      let vault := ti_creatorVaultAMM t in
      match signatures with
      | Throws => d
      | Returns [] => d
      | Returns ((newest :: _) as sigs) =>
          match lastAMMSignature d with
          | Some lastSignature =>
              if String.eqb lastSignature "" then
                with_lastAMMSignature d (Some (signature newest))
              else
                match newSigs lastSignature (processedTxs d) sigs with
                | [] => d
                | found =>
                    let d' :=
                      List.fold_left
                        (fun d0 sig =>
                           markProcessed
                             (processAMMTransaction now d0 vault sig
                                (getTransaction (signature sig))) sig)
                        (List.rev found) d in
                    with_lastAMMSignature d' (Some (signature newest))
                end
          | None => with_lastAMMSignature d (Some (signature newest))
          end
      end
  end.

(** *** The poll tick *)

Definition checkMigration (now : string) (d : Daemon)
           (account : rpc (option (list Z))) : Daemon :=
  match tokenInfo d, account with
  | Some t, Returns (Some data) =>
      match deserializeBondingCurve data with
      | Some bcData =>
          if complete bcData && negb (ti_migrated t) then
            let d1 := with_tokenInfo d (Some (set_migrated t true)) in
            match historyLog d1 with
            | Some l =>
                saveHistory now
                  (with_historyLog d1 (Some (with_log_migrated l true)))
            | None => d1
            end
          else d
      | None => d
      end
  | _, _ => d
  end.

(** Everything one tick reads from outside the daemon. *)
Record Tick := {
  clock : string;
  bondingCurveAccount : rpc (option (list Z));
  bcSignatures : rpc (list SigInfo);
  ammSignatures : rpc (list SigInfo);
  getTransaction : string -> rpc (option Tx)
}.

Definition isMigrated (d : Daemon) : bool :=
  match tokenInfo d with
  | Some t => ti_migrated t
  | None => false
  end.

Definition poll (d : Daemon) (k : Tick) : Daemon :=
  match tokenInfo d with
  | Some t =>
      if running d then
        let d1 := if negb (ti_migrated t)
                  then checkMigration (clock k) d (bondingCurveAccount k)
                  else d in
        let d2 := pollVaultTransactions (clock k) d1 BC (ti_creatorVaultBC t)
                    (bcSignatures k) (getTransaction k) in
        if isMigrated d2
        then pollAMMVaultTransactions (clock k) d2 (ammSignatures k)
               (getTransaction k)
        else d2
      else d
  | None => d
  end.

(** A run: the ticks the timer fires, each poll finished before the next
    one starts. *)
Definition run (d : Daemon) (ticks : list Tick) : Daemon :=
  List.fold_left poll ticks d.

End TxSourced.

(* ===================================================================== *)
(** ** Life cycle of the daemons *)
(* ===================================================================== *)

(** *** Construction and shutdown of the transaction-sourced daemon *)

Module TxLife.

(** The state the constructor and the field initialisers leave, over a
    file system whose history file holds [file]. *)
Definition constructed (c : TxSourced.DaemonConfig) (file : option string)
  : TxSourced.Daemon :=
  {| TxSourced.config := c; TxSourced.running := false;
     TxSourced.tokenInfo := None;
     TxSourced.lastBCSignature := None; TxSourced.lastAMMSignature := None;
     TxSourced.processedTxs := ∅; TxSourced.bcFees := 0; TxSourced.ammFees := 0;
     TxSourced.historyLog := None; TxSourced.disk := file |}.

Definition with_running (d : TxSourced.Daemon) (b : bool) : TxSourced.Daemon :=
  {| TxSourced.config := TxSourced.config d; TxSourced.running := b;
     TxSourced.tokenInfo := TxSourced.tokenInfo d;
     TxSourced.lastBCSignature := TxSourced.lastBCSignature d;
     TxSourced.lastAMMSignature := TxSourced.lastAMMSignature d;
     TxSourced.processedTxs := TxSourced.processedTxs d;
     TxSourced.bcFees := TxSourced.bcFees d; TxSourced.ammFees := TxSourced.ammFees d;
     TxSourced.historyLog := TxSourced.historyLog d; TxSourced.disk := TxSourced.disk d |}.

(** [stop()]: the timers are cleared and the history is saved. *)
Definition stop (now : string) (d : TxSourced.Daemon) : TxSourced.Daemon :=
  if TxSourced.running d then
    let d1 := with_running d false in
    match TxSourced.historyLog d1 with
    | Some _ =>
        if truthy (TxSourced.historyFile (TxSourced.config d1))
        then TxSourced.saveHistory now d1
        else d1
    | None => d1
    end
  else d.

(** [start()], with the token record [initializeToken] builds from the
    account it fetches, or its throw, which [start] passes on.  The history
    is initialised when a history file is configured; the timers then fire
    the poll ticks. *)
Definition start (now : string) (d : TxSourced.Daemon) (token : rpc TxSourced.TokenInfo)
  : rpc TxSourced.Daemon :=
  if TxSourced.running d then Returns d
  else
    match token with
    | Throws => Throws
    | Returns t =>
        let d1 := TxSourced.with_tokenInfo d (Some t) in
        let d2 := if truthy (TxSourced.historyFile (TxSourced.config d1))
                  then TxSourced.initializeHistory now d1
                  else d1 in
        Returns (with_running d2 true)
    end.

(** [getTotalFees()]. *)
Definition getTotalFees (d : TxSourced.Daemon) : Z :=
  TxSourced.bcFees d + TxSourced.ammFees d.

End TxLife.

(** *** Construction, start-up and shutdown of the balance-polling daemon *)

Module BpLife.

(** The state the constructor and the field initialisers leave. *)
Definition constructed (c : BalancePolling.DaemonConfig) : BalancePolling.Daemon :=
  {| BalancePolling.config := c; BalancePolling.running := false;
     BalancePolling.tokenInfo := None;
     BalancePolling.lastBCBalance := 0; BalancePolling.lastAMMBalance := 0;
     BalancePolling.bcFees := 0; BalancePolling.ammFees := 0;
     BalancePolling.historyLog := None |}.

Definition with_running (d : BalancePolling.Daemon) (b : bool) : BalancePolling.Daemon :=
  {| BalancePolling.config := BalancePolling.config d; BalancePolling.running := b;
     BalancePolling.tokenInfo := BalancePolling.tokenInfo d;
     BalancePolling.lastBCBalance := BalancePolling.lastBCBalance d;
     BalancePolling.lastAMMBalance := BalancePolling.lastAMMBalance d;
     BalancePolling.bcFees := BalancePolling.bcFees d;
     BalancePolling.ammFees := BalancePolling.ammFees d;
     BalancePolling.historyLog := BalancePolling.historyLog d |}.

(** [initializeBalances()], with the answers of the two [getBalance]
    calls: a call that throws leaves 0. *)
Definition initializeBalances (d : BalancePolling.Daemon) (bc amm : rpc Z)
  : BalancePolling.Daemon :=
  match BalancePolling.tokenInfo d with
  | None => d
  | Some _ =>
      let d1 := BalancePolling.with_lastBCBalance d
                  match bc with Returns b => b | Throws => 0 end in
      BalancePolling.with_lastAMMBalance d1
        match amm with Returns b => b | Throws => 0 end
  end.

Definition freshLog (t : BalancePolling.TokenInfo) (now : string)
  : BalancePolling.HistoryLog :=
  {| BalancePolling.version := "1.0.0";
     BalancePolling.mint := BalancePolling.ti_mint t;
     BalancePolling.symbol := BalancePolling.ti_symbol t;
     BalancePolling.bondingCurve := BalancePolling.ti_bondingCurve t;
     BalancePolling.creator := BalancePolling.ti_creator t;
     BalancePolling.creatorVaultBC := BalancePolling.ti_creatorVaultBC t;
     BalancePolling.creatorVaultAMM := BalancePolling.ti_creatorVaultAMM t;
     BalancePolling.migrated := BalancePolling.ti_migrated t;
     BalancePolling.startedAt := now; BalancePolling.lastUpdated := now;
     BalancePolling.totalFees := "0"; BalancePolling.entryCount := 0;
     BalancePolling.latestHash := GENESIS_HASH; BalancePolling.entries := [] |}.

(** [initializeHistory()], with what the history file gives: [None] when
    there is no such file, else the answer of [loadHistoryLog]. *)
Definition initializeHistory (now : string) (d : BalancePolling.Daemon)
           (existing : option (rpc BalancePolling.HistoryLog)) : BalancePolling.Daemon :=
  match BalancePolling.tokenInfo d with
  | None => d
  | Some t =>
      let fresh d0 :=
        BalancePolling.saveHistory now
          (BalancePolling.with_historyLog d0 (Some (freshLog t now))) in
      if truthy (BalancePolling.historyFile (BalancePolling.config d)) then
        match existing with
        | Some (Returns l) =>
            let d1 := BalancePolling.with_historyLog d (Some l) in
            match BigInt (BalancePolling.totalFees l) with
            | Some fees => BalancePolling.with_bcFees d1 fees
            | None => fresh d1
            end
        | Some Throws => fresh d
        | None => fresh d
        end
      else fresh d
  end.

(** [stop()]: the timers are cleared and the history is saved. *)
Definition stop (now : string) (d : BalancePolling.Daemon) : BalancePolling.Daemon :=
  if BalancePolling.running d then
    let d1 := with_running d false in
    match BalancePolling.historyLog d1 with
    | Some _ =>
        if truthy (BalancePolling.historyFile (BalancePolling.config d1))
        then BalancePolling.saveHistory now d1
        else d1
    | None => d1
    end
  else d.

(** [getTotalFees()]. *)
Definition getTotalFees (d : BalancePolling.Daemon) : Z :=
  BalancePolling.bcFees d + BalancePolling.ammFees d.

End BpLife.

(* ===================================================================== *)
(** ** The command line ([src/cli.ts]) *)
(* ===================================================================== *)

Module CLI.

(** [String.prototype.split] on a separator of one character. *)
Fixpoint split (sep : ascii) (s : string) : list string :=
  match s with
  | EmptyString => [""]
  | String c s' =>
      if Ascii.eqb c sep then "" :: split sep s'
      else match split sep s' with
           | p :: ps => String c p :: ps
           | [] => [String c ""]
           end
  end.

(** The longest prefix of decimal digits, and its value. *)
Fixpoint digit_prefix (acc : Z) (seen : bool) (bs : list Z) : option Z :=
  match bs with
  | b :: bs' =>
      if ((48 <=? b) && (b <=? 57))%Z then digit_prefix (10 * acc + (b - 48)) true bs'
      else if seen then Some acc else None
  | [] => if seen then Some acc else None
  end.

(** [parseInt(s, 10)] on a string that may be undefined: leading white
    space is skipped, a sign is read, and the digits that follow give the
    value; [None] is [NaN].  The value is an integer, as are the other
    numbers of this development. *)
Definition parseInt (s : option string) : option Z :=
  match s with
  | None => None
  | Some s =>
      let bs := SHA256.bytes_of_string s in
      match StringToBigInt.trim_start (List.length bs) StringToBigInt.white bs with
      | 45 :: r => option_map Z.opp (digit_prefix 0 false r)
      | 43 :: r => digit_prefix 0 false r
      | r => digit_prefix 0 false r
      end
  end.

(** [CLIArgs].  [None] in a string field is [null] or [undefined], which
    the program never tells apart; [None] in [pollInterval] is [NaN]. *)
Record CLIArgs := {
  mint : option string;
  symbol : option string;
  bondingCurve : option string;
  rpcUrl : option string;
  verbose : bool;
  showHelp : bool;
  pollInterval : option Z;
  historyFile : option string;
  verifyFile : option string
}.

Definition with_mint (r : CLIArgs) (v : option string) : CLIArgs :=
  {| mint := v; symbol := symbol r; bondingCurve := bondingCurve r; rpcUrl := rpcUrl r;
     verbose := verbose r; showHelp := showHelp r; pollInterval := pollInterval r;
     historyFile := historyFile r; verifyFile := verifyFile r |}.

Definition with_symbol (r : CLIArgs) (v : option string) : CLIArgs :=
  {| mint := mint r; symbol := v; bondingCurve := bondingCurve r; rpcUrl := rpcUrl r;
     verbose := verbose r; showHelp := showHelp r; pollInterval := pollInterval r;
     historyFile := historyFile r; verifyFile := verifyFile r |}.

Definition with_bondingCurve (r : CLIArgs) (v : option string) : CLIArgs :=
  {| mint := mint r; symbol := symbol r; bondingCurve := v; rpcUrl := rpcUrl r;
     verbose := verbose r; showHelp := showHelp r; pollInterval := pollInterval r;
     historyFile := historyFile r; verifyFile := verifyFile r |}.

Definition with_rpcUrl (r : CLIArgs) (v : option string) : CLIArgs :=
  {| mint := mint r; symbol := symbol r; bondingCurve := bondingCurve r; rpcUrl := v;
     verbose := verbose r; showHelp := showHelp r; pollInterval := pollInterval r;
     historyFile := historyFile r; verifyFile := verifyFile r |}.

Definition with_verbose (r : CLIArgs) (b : bool) : CLIArgs :=
  {| mint := mint r; symbol := symbol r; bondingCurve := bondingCurve r;
     rpcUrl := rpcUrl r; verbose := b; showHelp := showHelp r;
     pollInterval := pollInterval r; historyFile := historyFile r;
     verifyFile := verifyFile r |}.

Definition with_showHelp (r : CLIArgs) (b : bool) : CLIArgs :=
  {| mint := mint r; symbol := symbol r; bondingCurve := bondingCurve r;
     rpcUrl := rpcUrl r; verbose := verbose r; showHelp := b;
     pollInterval := pollInterval r; historyFile := historyFile r;
     verifyFile := verifyFile r |}.

Definition with_pollInterval (r : CLIArgs) (n : option Z) : CLIArgs :=
  {| mint := mint r; symbol := symbol r; bondingCurve := bondingCurve r;
     rpcUrl := rpcUrl r; verbose := verbose r; showHelp := showHelp r;
     pollInterval := n; historyFile := historyFile r; verifyFile := verifyFile r |}.

Definition with_historyFile (r : CLIArgs) (v : option string) : CLIArgs :=
  {| mint := mint r; symbol := symbol r; bondingCurve := bondingCurve r;
     rpcUrl := rpcUrl r; verbose := verbose r; showHelp := showHelp r;
     pollInterval := pollInterval r; historyFile := v; verifyFile := verifyFile r |}.

Definition with_verifyFile (r : CLIArgs) (v : option string) : CLIArgs :=
  {| mint := mint r; symbol := symbol r; bondingCurve := bondingCurve r;
     rpcUrl := rpcUrl r; verbose := verbose r; showHelp := showHelp r;
     pollInterval := pollInterval r; historyFile := historyFile r; verifyFile := v |}.

(** The flags that take the next argument as their value, whatever it
    is. *)
Inductive ValueFlag :=
  MintFlag | SymbolFlag | BondingCurveFlag | RpcFlag | IntervalFlag | HistoryFlag
| VerifyFlag.

Definition value_flag (arg : string) : option ValueFlag :=
  if String.eqb arg "--mint" || String.eqb arg "-m" then Some MintFlag
  else if String.eqb arg "--symbol" || String.eqb arg "-s" then Some SymbolFlag
  else if String.eqb arg "--bonding-curve" || String.eqb arg "-b" then Some BondingCurveFlag
  else if String.eqb arg "--rpc" || String.eqb arg "-r" then Some RpcFlag
  else if String.eqb arg "--interval" || String.eqb arg "-i" then Some IntervalFlag
  else if String.eqb arg "--history" || String.eqb arg "-H" then Some HistoryFlag
  else if String.eqb arg "--verify" || String.eqb arg "-V" then Some VerifyFlag
  else None.

(** The assignment a value flag makes, from [args[++i]]. *)
Definition assign (f : ValueFlag) (r : CLIArgs) (v : option string) : CLIArgs :=
  match f with
  | MintFlag => with_mint r v
  | SymbolFlag => with_symbol r v
  | BondingCurveFlag => with_bondingCurve r v
  | RpcFlag => with_rpcUrl r v
  | IntervalFlag => with_pollInterval r (option_map (Z.mul 1000) (parseInt v))
  | HistoryFlag => with_historyFile r v
  | VerifyFlag => with_verifyFile r v
  end.

(** An argument of the form [--name=value]: [arg.split('=')[1]]. *)
Definition inline (arg : string) (r : CLIArgs) : CLIArgs :=
  let v := split "=" arg !! 1%nat in
  if String.prefix "--mint=" arg then with_mint r v
  else if String.prefix "--symbol=" arg then with_symbol r v
  else if String.prefix "--rpc=" arg then with_rpcUrl r v
  else if String.prefix "--history=" arg then with_historyFile r v
  else if String.prefix "--verify=" arg then with_verifyFile r v
  else r.

(** The loop of [parseArgs], from the arguments still to read. *)
Fixpoint parseArgs_from (r : CLIArgs) (args : list string) : CLIArgs :=
  match args with
  | [] => r
  | arg :: rest =>
      if String.eqb arg "--help" || String.eqb arg "-h"
      then parseArgs_from (with_showHelp r true) rest
      else if String.eqb arg "--verbose" || String.eqb arg "-v"
      then parseArgs_from (with_verbose r true) rest
      else
        match value_flag arg with
        | Some f =>
            match rest with
            | v :: rest' => parseArgs_from (assign f r (Some v)) rest'
            | [] => assign f r None
            end
        | None => parseArgs_from (inline arg r) rest
        end
  end.

(** [parseArgs(args)], with the value of the environment variable
    [RPC_URL]. *)
Definition parseArgs (RPC_URL : option string) (args : list string) : CLIArgs :=
  parseArgs_from
    {| mint := None; symbol := Some "TOKEN"; bondingCurve := None;
       rpcUrl := Some (if truthy RPC_URL then default "" RPC_URL
                       else "https://api.mainnet-beta.solana.com");
       verbose := false; showHelp := false; pollInterval := Some 5000;
       historyFile := None; verifyFile := None |}
    args.

(** How a call ends. *)
Inductive Outcome := exits (code : Z) | returns | throws.

(** [Array.prototype.slice(-n)]. *)
Definition slice_last {A} (n : nat) (l : list A) : list A :=
  drop (List.length l - n) l.

(** [verifyHistoryFile(filePath)], on the text the file holds: what is
    printed is left out. *)
Definition verifyHistoryFile (file : option string) : Outcome :=
  match TxSourced.loadHistoryLog file with
  | None => exits 1
  | Some log =>
      if valid (TxSourced.verifyHistoryChain log) then
        if forallb (fun entry => bool_decide (is_Some (BigInt (TxSourced.amount entry))))
             (slice_last 5 (TxSourced.entries log))
        then returns else throws
      else exits 1
  end.

(** What [main] does with its arguments: it ends the process with a
    status, or goes on to track the token. *)
Inductive Action := ExitWith (code : Z) | Track (args : CLIArgs).

(** [main()] up to the validation of the mint address, with the handler
    installed on its promise: a throw ends the process with status 1. *)
Definition main (RPC_URL : option string) (argv : list string)
           (readFile : string -> option string) : Action :=
  let args := parseArgs RPC_URL argv in
  let tracking :=
    if showHelp args || negb (truthy (mint args))
    then ExitWith (if showHelp args then 0 else 1)
    else Track args in
  match verifyFile args with
  | Some path =>
      if truthy (Some path) then
        match verifyHistoryFile (readFile path) with
        | exits code => ExitWith code
        | returns => ExitWith 0
        | throws => ExitWith 1
        end
      else tracking
  | None => tracking
  end.

End CLI.

(* ===================================================================== *)
(** ** Vocabulary of the properties *)
(* ===================================================================== *)

Abbreviation honest_tx :=
  (honest_chain TxSourced.sequence TxSourced.prevHash TxSourced.hash
                TxSourced.computeEntryHash).

Abbreviation honest_bp :=
  (honest_chain BalancePolling.sequence BalancePolling.prevHash BalancePolling.hash
                BalancePolling.computeEntryHash).

(** A candidate event: what an extractor hands to [createHistoryEntry]. *)
Record Candidate := {
  c_eventType : HistoryEventType;
  c_vaultType : VaultType;
  c_vault : string;
  c_amount : string;
  c_balanceBefore : string;
  c_balanceAfter : string;
  c_slot : Z;
  c_timestamp : Z;
  c_txSignature : string
}.

(** [createHistoryEntry] followed by [entries.push]; a throw of
    [createHistoryEntry] pushes nothing. *)
Definition append_tx (l : TxSourced.HistoryLog) (c : Candidate) : TxSourced.HistoryLog :=
  match TxSourced.createHistoryEntry l (c_eventType c) (c_vaultType c)
          (c_vault c) (c_amount c) (c_balanceBefore c) (c_balanceAfter c)
          (c_slot c) (c_timestamp c) (c_txSignature c) with
  | Some entry => TxSourced.with_entries l (TxSourced.entries l ++ [entry])%list
  | None => l
  end.

Definition append_bp (l : BalancePolling.HistoryLog) (c : Candidate)
  : BalancePolling.HistoryLog :=
  match BalancePolling.createHistoryEntry l (c_eventType c) (c_vaultType c)
          (c_vault c) (c_amount c) (c_balanceBefore c) (c_balanceAfter c)
          (c_slot c) (c_timestamp c) with
  | Some entry =>
      BalancePolling.with_entries l (BalancePolling.entries l ++ [entry])%list
  | None => l
  end.

Definition valid_time (c : Candidate) : Prop :=
  is_Some (toISOString (c_timestamp c)).

(** One field of a ledger entry set to a new value. *)
Inductive Mutation :=
| SetSequence (v : Z)
| SetPrevHash (v : string)
| SetEventType (v : HistoryEventType)
| SetVaultType (v : VaultType)
| SetVault (v : string)
| SetAmount (v : string)
| SetBalanceBefore (v : string)
| SetBalanceAfter (v : string)
| SetSlot (v : Z)
| SetTimestamp (v : Z)
| SetDate (v : string)
| SetHash (v : string)
| SetTxSignature (v : string).

Definition mutate (m : Mutation) (e : TxSourced.HistoryEntry) : TxSourced.HistoryEntry :=
  let '(TxSourced.Build_HistoryEntry sq ph et vt va am bb ba sl ts da ha tx) := e in
  match m with
  | SetSequence v => TxSourced.Build_HistoryEntry v ph et vt va am bb ba sl ts da ha tx
  | SetPrevHash v => TxSourced.Build_HistoryEntry sq v et vt va am bb ba sl ts da ha tx
  | SetEventType v => TxSourced.Build_HistoryEntry sq ph v vt va am bb ba sl ts da ha tx
  | SetVaultType v => TxSourced.Build_HistoryEntry sq ph et v va am bb ba sl ts da ha tx
  | SetVault v => TxSourced.Build_HistoryEntry sq ph et vt v am bb ba sl ts da ha tx
  | SetAmount v => TxSourced.Build_HistoryEntry sq ph et vt va v bb ba sl ts da ha tx
  | SetBalanceBefore v => TxSourced.Build_HistoryEntry sq ph et vt va am v ba sl ts da ha tx
  | SetBalanceAfter v => TxSourced.Build_HistoryEntry sq ph et vt va am bb v sl ts da ha tx
  | SetSlot v => TxSourced.Build_HistoryEntry sq ph et vt va am bb ba v ts da ha tx
  | SetTimestamp v => TxSourced.Build_HistoryEntry sq ph et vt va am bb ba sl v da ha tx
  | SetDate v => TxSourced.Build_HistoryEntry sq ph et vt va am bb ba sl ts v ha tx
  | SetHash v => TxSourced.Build_HistoryEntry sq ph et vt va am bb ba sl ts da v tx
  | SetTxSignature v => TxSourced.Build_HistoryEntry sq ph et vt va am bb ba sl ts da ha v
  end.

Definition sets_date (m : Mutation) : bool :=
  match m with SetDate _ => true | _ => false end.

(** The log with the entry at index [i] mutated. *)
Definition tamper (l : TxSourced.HistoryLog) (i : nat) (m : Mutation)
  : TxSourced.HistoryLog :=
  TxSourced.with_entries l (alter (mutate m) i (TxSourced.entries l)).

(** The two preimages do not collide under the hash. *)
Definition collision_free (a b : string) : Prop :=
  SHA256.hex a = SHA256.hex b -> a = b.

(** The commitment as the specification words it: the hash of the listed
    fields joined by pipes, an absent field standing as the empty string. *)
Fixpoint piped (fields : list (option string)) : string :=
  match fields with
  | [] => ""
  | [f] => default "" f
  | f :: rest => default "" f ++ "|" ++ piped rest
  end.

Definition commitment (fields : list (option string)) : string :=
  SHA256.hex (piped fields).

Definition listed_fields_tx (e : TxSourced.HistoryEntry) : list (option string) :=
  [ Some (toString (TxSourced.sequence e)); Some (TxSourced.prevHash e);
    Some (HistoryEventType_str (TxSourced.eventType e));
    Some (VaultType_str (TxSourced.vaultType e)); Some (TxSourced.vault e);
    Some (TxSourced.amount e); Some (TxSourced.balanceBefore e);
    Some (TxSourced.balanceAfter e); Some (toString (TxSourced.slot e));
    Some (toString (TxSourced.timestamp e)); Some (TxSourced.txSignature e) ].

(** A balance-polling entry has no source signature: the last field is
    absent. *)
Definition listed_fields_bp (e : BalancePolling.HistoryEntry) : list (option string) :=
  [ Some (toString (BalancePolling.sequence e)); Some (BalancePolling.prevHash e);
    Some (HistoryEventType_str (BalancePolling.eventType e));
    Some (VaultType_str (BalancePolling.vaultType e)); Some (BalancePolling.vault e);
    Some (BalancePolling.amount e); Some (BalancePolling.balanceBefore e);
    Some (BalancePolling.balanceAfter e); Some (toString (BalancePolling.slot e));
    Some (toString (BalancePolling.timestamp e)); None ].

(** The cursor as the specification words it: the signatures before the
    first occurrence of the last seen one, without those already
    processed, oldest first. *)
Fixpoint before_last_seen (lastSeen : string) (sigs : list TxSourced.SigInfo)
  : list TxSourced.SigInfo :=
  match sigs with
  | [] => []
  | s :: rest => if String.eqb (TxSourced.signature s) lastSeen then []
                 else s :: before_last_seen lastSeen rest
  end.

Definition yielded (lastSeen : string) (processed : gset string)
           (sigs : list TxSourced.SigInfo) : list TxSourced.SigInfo :=
  List.rev (List.filter (fun s => negb (bool_decide (TxSourced.signature s ∈ processed)))
                        (before_last_seen lastSeen sigs)).

(** The body of the loop over the yielded signatures: the native vault's,
    then the fungible vault's. *)
Definition stepBC (now : string) (getTransaction : string -> rpc (option TxSourced.Tx))
           (vaultType : VaultType) (vault : string)
           (d : TxSourced.Daemon) (sig : TxSourced.SigInfo) : TxSourced.Daemon :=
  TxSourced.markProcessed
    (TxSourced.processTransaction now d vaultType vault sig
       (getTransaction (TxSourced.signature sig))) sig.

Definition stepAMM (now : string) (getTransaction : string -> rpc (option TxSourced.Tx))
           (vault : string)
           (d : TxSourced.Daemon) (sig : TxSourced.SigInfo) : TxSourced.Daemon :=
  TxSourced.markProcessed
    (TxSourced.processAMMTransaction now d vault sig
       (getTransaction (TxSourced.signature sig))) sig.

(** Every signature of the log is in the processed set. *)
Definition restored (d : TxSourced.Daemon) : Prop :=
  forall e, e ∈ TxSourced.log_entries d ->
            TxSourced.txSignature e ∈ TxSourced.processedTxs d.

Definition distinct_signatures (answer : rpc (list TxSourced.SigInfo)) : Prop :=
  match answer with
  | Returns sigs => NoDup (List.map TxSourced.signature sigs)
  | Throws => True
  end.

(** The data source lists a transaction once per answer. *)
Definition well_formed_tick (k : TxSourced.Tick) : Prop :=
  distinct_signatures (TxSourced.bcSignatures k)
  /\ distinct_signatures (TxSourced.ammSignatures k).

(** From [d] to [d'] the log only grew, by entries whose signatures are
    pairwise distinct, were not in the processed set of [d] and are in the
    processed set of [d'], which holds all that [d] held. *)
Definition extends (d d' : TxSourced.Daemon) : Prop :=
  exists new,
    TxSourced.log_entries d' = (TxSourced.log_entries d ++ new)%list
    /\ NoDup (List.map TxSourced.txSignature new)
    /\ (forall e, e ∈ new ->
          (TxSourced.txSignature e ∉ TxSourced.processedTxs d)
          /\ (TxSourced.txSignature e ∈ TxSourced.processedTxs d'))
    /\ TxSourced.processedTxs d ⊆ TxSourced.processedTxs d'.

(** The parts of the state an extractor leaves alone. *)
Definition frame (d d' : TxSourced.Daemon) : Prop :=
  TxSourced.config d' = TxSourced.config d
  /\ TxSourced.running d' = TxSourced.running d
  /\ TxSourced.tokenInfo d' = TxSourced.tokenInfo d
  /\ TxSourced.lastBCSignature d' = TxSourced.lastBCSignature d
  /\ TxSourced.lastAMMSignature d' = TxSourced.lastAMMSignature d
  /\ TxSourced.processedTxs d' = TxSourced.processedTxs d.

(** At most one entry was pushed, for signature [sig] and vault [vt]. *)
Definition pushed (d d' : TxSourced.Daemon) (sig : string) (vt : VaultType) : Prop :=
  exists new,
    TxSourced.log_entries d' = (TxSourced.log_entries d ++ new)%list
    /\ (List.length new <= 1)%nat
    /\ Forall (fun e => TxSourced.txSignature e = sig /\ TxSourced.vaultType e = vt) new.

(** The cursors, the token record and the configuration are as before. *)
Definition keeps (d d' : TxSourced.Daemon) : Prop :=
  TxSourced.config d' = TxSourced.config d
  /\ TxSourced.running d' = TxSourced.running d
  /\ TxSourced.tokenInfo d' = TxSourced.tokenInfo d
  /\ TxSourced.lastBCSignature d' = TxSourced.lastBCSignature d
  /\ TxSourced.lastAMMSignature d' = TxSourced.lastAMMSignature d.

(** *** The account layout, written out *)

(** [n] bytes of [v], least significant first. *)
Fixpoint le_bytes (n : nat) (v : Z) : list Z :=
  match n with
  | O => []
  | S n' => v mod 256 :: le_bytes n' (v / 256)
  end.

(** The account bytes the layout comment of [src/daemon.ts] describes: the
    discriminator, five u64 counters, the completion byte, the creator
    key. *)
Definition bondingCurveBytes (discriminator : list Z) (bc : BondingCurveData) : list Z :=
  (discriminator
     ++ le_bytes 8 (virtualTokenReserves bc)
     ++ le_bytes 8 (virtualSolReserves bc)
     ++ le_bytes 8 (realTokenReserves bc)
     ++ le_bytes 8 (realSolReserves bc)
     ++ le_bytes 8 (tokenTotalSupply bc)
     ++ [if complete bc then 1 else 0]
     ++ creator bc)%list.

Definition u64 (v : Z) : Prop := 0 <= v < 18446744073709551616.

(** *** Numerals *)

(** The bytes of a numeral as [toString] writes it, the minus sign and the
    digits, lie in this range; no white space does. *)
Definition numeral_byte (b : Z) : Prop := 45 <= b <= 57.

(** *** Rewriting a ledger *)

(** An entry renumbered for index [i], linked to [prev] and hashed anew; the
    other fields stay. *)
Definition sealed_tx (i : nat) (prev : string) (e : TxSourced.HistoryEntry)
  : TxSourced.HistoryEntry :=
  let body h :=
    {| TxSourced.sequence := Z.of_nat i + 1; TxSourced.prevHash := prev;
       TxSourced.eventType := TxSourced.eventType e;
       TxSourced.vaultType := TxSourced.vaultType e;
       TxSourced.vault := TxSourced.vault e;
       TxSourced.amount := TxSourced.amount e;
       TxSourced.balanceBefore := TxSourced.balanceBefore e;
       TxSourced.balanceAfter := TxSourced.balanceAfter e;
       TxSourced.slot := TxSourced.slot e;
       TxSourced.timestamp := TxSourced.timestamp e;
       TxSourced.date := TxSourced.date e; TxSourced.hash := h;
       TxSourced.txSignature := TxSourced.txSignature e |} in
  body (TxSourced.computeEntryHash (body "")).

(** The whole list resealed in order, from index [i] and the hash [prev]. *)
Fixpoint reseal_from (i : nat) (prev : string) (es : list TxSourced.HistoryEntry)
  : list TxSourced.HistoryEntry :=
  match es with
  | [] => []
  | e :: rest =>
      let e' := sealed_tx i prev e in
      e' :: reseal_from (S i) (TxSourced.hash e') rest
  end.

Definition reseal (es : list TxSourced.HistoryEntry) : list TxSourced.HistoryEntry :=
  reseal_from 0 GENESIS_HASH es.

(** What an entry records, apart from its place in the chain. *)
Definition content (e : TxSourced.HistoryEntry)
  : HistoryEventType * VaultType * string * string * string * string * Z * Z
    * string * string :=
  (TxSourced.eventType e, TxSourced.vaultType e, TxSourced.vault e,
   TxSourced.amount e, TxSourced.balanceBefore e, TxSourced.balanceAfter e,
   TxSourced.slot e, TxSourced.timestamp e, TxSourced.date e,
   TxSourced.txSignature e).

(** *** Fee records and totals *)

(** A fee record: the amount is the positive difference of the two
    balances, and the date is the timestamp's. *)
Definition fee_record (e : TxSourced.HistoryEntry) : Prop :=
  TxSourced.eventType e = FEE
  /\ (exists pre post,
         pre < post
         /\ TxSourced.amount e = toString (post - pre)
         /\ TxSourced.balanceBefore e = toString pre
         /\ TxSourced.balanceAfter e = toString post)
  /\ toISOString (TxSourced.timestamp e) = Some (TxSourced.date e).

(** What the restore loop of [initializeHistory] adds for one entry to the
    total of vault type [vt]. *)
Definition credit (vt : VaultType) (e : TxSourced.HistoryEntry) : Z :=
  match BigInt (TxSourced.amount e), TxSourced.eventType e with
  | Some a, FEE =>
      if (a >? 0)%Z then
        match TxSourced.vaultType e, vt with
        | BC, BC | AMM, AMM => a
        | _, _ => 0
        end
      else 0
  | _, _ => 0
  end.

Definition credited (vt : VaultType) (es : list TxSourced.HistoryEntry) : Z :=
  List.fold_right (fun e acc => credit vt e + acc) 0 es.

(** The fee callback, when there is one, returns on every call. *)
Definition callback_returns (c : TxSourced.DaemonConfig) : Prop :=
  match TxSourced.onFeeDetected c with
  | Some f => forall delta vt balance, f delta vt balance = true
  | None => True
  end.

(** Every transaction the tick answers carries a block time that is a
    valid date. *)
Definition dated (k : TxSourced.Tick) : Prop :=
  forall sig tx,
    TxSourced.getTransaction k sig = Returns (Some tx) ->
    is_Some (toISOString (default 0 (TxSourced.blockTime tx) * 1000)).

(** From [d] to [d'] the ledger grew by fee records only, and each total
    grew by at least what the new records credit to it. *)
Definition grows (d d' : TxSourced.Daemon) : Prop :=
  exists new,
    TxSourced.log_entries d' = (TxSourced.log_entries d ++ new)%list
    /\ Forall fee_record new
    /\ TxSourced.bcFees d + credited BC new <= TxSourced.bcFees d'
    /\ TxSourced.ammFees d + credited AMM new <= TxSourced.ammFees d'.

(** The daemon keeps a ledger and its fee callback returns. *)
Definition recording (d : TxSourced.Daemon) : Prop :=
  callback_returns (TxSourced.config d) /\ is_Some (TxSourced.historyLog d).

(** From a recording state, the totals grew by exactly what the new
    entries credit. *)
Definition tallies (d d' : TxSourced.Daemon) : Prop :=
  recording d ->
  recording d'
  /\ exists new,
       TxSourced.log_entries d' = (TxSourced.log_entries d ++ new)%list
       /\ TxSourced.bcFees d' = TxSourced.bcFees d + credited BC new
       /\ TxSourced.ammFees d' = TxSourced.ammFees d + credited AMM new.

(** The amount of an entry reads as an integer. *)
Definition amount_reads (e : TxSourced.HistoryEntry) : Prop :=
  is_Some (BigInt (TxSourced.amount e)).

(** The signatures of a list of entries, as a set. *)
Definition signatures_of (es : list TxSourced.HistoryEntry) : gset string :=
  list_to_set (List.map TxSourced.txSignature es).

(** The history file reads back as the log the daemon holds. *)
Definition on_disk (d : TxSourced.Daemon) : Prop :=
  exists l, TxSourced.historyLog d = Some l
            /\ TxSourced.loadHistoryLog (TxSourced.disk d) = Some l.

(** From a state with a history file that mirrors the log, to another. *)
Definition mirrored (d d' : TxSourced.Daemon) : Prop :=
  truthy (TxSourced.historyFile (TxSourced.config d)) = true /\ on_disk d ->
  truthy (TxSourced.historyFile (TxSourced.config d')) = true /\ on_disk d'.

(** No transaction the tick answers names the token: neither its mint, nor
    its bonding curve, nor its pool is among the account keys. *)
Definition foreign (t : TxSourced.TokenInfo) (k : TxSourced.Tick) : Prop :=
  forall sig tx m,
    TxSourced.getTransaction k sig = Returns (Some tx) ->
    TxSourced.meta tx = Some m ->
    TxSourced.includes (TxSourced.accountKeys tx m) (TxSourced.ti_mint t) = false
    /\ TxSourced.includes (TxSourced.accountKeys tx m) (TxSourced.ti_bondingCurve t)
       = false
    /\ TxSourced.includes (TxSourced.accountKeys tx m) (TxSourced.ti_pool t) = false.

(** The daemon tracks a token with the addresses of [t]; the migration
    flag may differ. *)
Definition tracks (t : TxSourced.TokenInfo) (d : TxSourced.Daemon) : Prop :=
  exists b, TxSourced.tokenInfo d = Some (TxSourced.set_migrated t b).

(** From a state that tracks [t]: the token is still tracked, and neither
    the ledger nor a total moved. *)
Definition untouched (t : TxSourced.TokenInfo) (d d' : TxSourced.Daemon) : Prop :=
  tracks t d ->
  tracks t d'
  /\ TxSourced.log_entries d' = TxSourced.log_entries d
  /\ TxSourced.bcFees d' = TxSourced.bcFees d
  /\ TxSourced.ammFees d' = TxSourced.ammFees d.

(** The token record changed at most by raising its migration flag. *)
Definition one_way (d d' : TxSourced.Daemon) : Prop :=
  match TxSourced.tokenInfo d with
  | Some t =>
      exists b, TxSourced.tokenInfo d' = Some (TxSourced.set_migrated t b)
                /\ (TxSourced.ti_migrated t = true -> b = true)
  | None => TxSourced.tokenInfo d' = None
  end.

(** A number that a JavaScript [number] holds exactly and that
    [JSON.parse] reads back as written. *)
Definition safe_integer (n : Z) : Prop :=
  - 9007199254740991 <= n <= 9007199254740991.

(** Every number of the log is a safe integer. *)
Definition safe_numbers (l : TxSourced.HistoryLog) : Prop :=
  safe_integer (TxSourced.entryCount l)
  /\ Forall (fun e => safe_integer (TxSourced.sequence e)
                      /\ safe_integer (TxSourced.slot e)
                      /\ safe_integer (TxSourced.timestamp e))
            (TxSourced.entries l).

(** *** Balance changes in the balance-polling ledger *)

(** A change record: the amount is the signed difference of the two
    balances, not zero; a rise is a FEE, a fall a CLAIM; the date is the
    timestamp's. *)
Definition change_record (e : BalancePolling.HistoryEntry) : Prop :=
  (exists before after,
      before <> after
      /\ BalancePolling.amount e = toString (after - before)
      /\ BalancePolling.balanceBefore e = toString before
      /\ BalancePolling.balanceAfter e = toString after
      /\ BalancePolling.eventType e = (if (after - before >? 0)%Z then FEE else CLAIM))
  /\ toISOString (BalancePolling.timestamp e) = Some (BalancePolling.date e).

(** The signed amount of an entry of vault type [vt], 0 for another. *)
Definition moved (vt : VaultType) (e : BalancePolling.HistoryEntry) : Z :=
  match BigInt (BalancePolling.amount e), BalancePolling.vaultType e, vt with
  | Some a, BC, BC | Some a, AMM, AMM => a
  | _, _, _ => 0
  end.

(** The same, counting FEE entries only. *)
Definition gained (vt : VaultType) (e : BalancePolling.HistoryEntry) : Z :=
  match BalancePolling.eventType e with
  | FEE => moved vt e
  | _ => 0
  end.

Definition sum_of (f : BalancePolling.HistoryEntry -> Z)
           (es : list BalancePolling.HistoryEntry) : Z :=
  List.fold_right (fun e acc => f e + acc) 0 es.

(** Both callbacks, when set, return on every call, and a ledger is kept. *)
Definition recording_bp (d : BalancePolling.Daemon) : Prop :=
  match BalancePolling.onFeeDetected (BalancePolling.config d) with
  | Some f => forall delta vt balance, f delta vt balance = true
  | None => True
  end
  /\ match BalancePolling.onHistoryEntry (BalancePolling.config d) with
     | Some f => forall e, f e = true
     | None => True
     end
  /\ is_Some (BalancePolling.historyLog d).

(** Both clock readings of the tick are valid dates. *)
Definition clocked (k : BalancePolling.Tick) : Prop :=
  is_Some (toISOString (BalancePolling.dateNow (BalancePolling.bcReading k)))
  /\ is_Some (toISOString (BalancePolling.dateNow (BalancePolling.ammReading k))).

(** The ledger grew by change records only and no total fell. *)
Definition grows_bp (d d' : BalancePolling.Daemon) : Prop :=
  exists new,
    BalancePolling.log_entries d' = (BalancePolling.log_entries d ++ new)%list
    /\ Forall change_record new
    /\ BalancePolling.bcFees d <= BalancePolling.bcFees d'
    /\ BalancePolling.ammFees d <= BalancePolling.ammFees d'.

(** From a recording state: the remembered balances moved by the signed
    amounts of the new entries, the totals by their FEE amounts. *)
Definition telescopes (d d' : BalancePolling.Daemon) : Prop :=
  recording_bp d ->
  recording_bp d'
  /\ exists new,
       BalancePolling.log_entries d' = (BalancePolling.log_entries d ++ new)%list
       /\ BalancePolling.lastBCBalance d'
          = BalancePolling.lastBCBalance d + sum_of (moved BC) new
       /\ BalancePolling.lastAMMBalance d'
          = BalancePolling.lastAMMBalance d + sum_of (moved AMM) new
       /\ BalancePolling.bcFees d' = BalancePolling.bcFees d + sum_of (gained BC) new
       /\ BalancePolling.ammFees d' = BalancePolling.ammFees d + sum_of (gained AMM) new.

(** The token record changed at most by raising its migration flag. *)
Definition one_way_bp (d d' : BalancePolling.Daemon) : Prop :=
  match BalancePolling.tokenInfo d with
  | Some t =>
      exists b, BalancePolling.tokenInfo d' = Some (BalancePolling.set_migrated t b)
                /\ (BalancePolling.ti_migrated t = true -> b = true)
  | None => BalancePolling.tokenInfo d' = None
  end.

(** The balance the daemon remembers for a vault type, and its fee total. *)
Definition remembered (vt : VaultType) (d : BalancePolling.Daemon) : Z :=
  match vt with
  | BC => BalancePolling.lastBCBalance d
  | AMM => BalancePolling.lastAMMBalance d
  end.

Definition total (vt : VaultType) (d : BalancePolling.Daemon) : Z :=
  match vt with
  | BC => BalancePolling.bcFees d
  | AMM => BalancePolling.ammFees d
  end.

Definition other (vt : VaultType) : VaultType :=
  match vt with BC => AMM | AMM => BC end.

(** The fee callback returns, the entry callback throws on every call,
    and a ledger is kept. *)
Definition entry_callback_throws (d : BalancePolling.Daemon) : Prop :=
  match BalancePolling.onFeeDetected (BalancePolling.config d) with
  | Some f => forall delta vt balance, f delta vt balance = true
  | None => True
  end
  /\ (exists f, BalancePolling.onHistoryEntry (BalancePolling.config d) = Some f
                /\ forall e, f e = false)
  /\ is_Some (BalancePolling.historyLog d).

(** The reading returns slot and balance [b], at a valid clock reading. *)
Definition reads (r : BalancePolling.VaultReading) (b : Z) : Prop :=
  (exists sl, BalancePolling.getSlot r = Returns sl)
  /\ BalancePolling.getBalance r = Returns b
  /\ is_Some (toISOString (BalancePolling.dateNow r)).

(* ===================================================================== *)
(** ** Sample data *)
(* ===================================================================== *)

Definition sample_token : TxSourced.TokenInfo :=
  {| TxSourced.ti_mint := "MintAddr"; TxSourced.ti_symbol := "TOKEN";
     TxSourced.ti_bondingCurve := "CurveAddr"; TxSourced.ti_creator := "Creator";
     TxSourced.ti_creatorVaultBC := "BcVault"; TxSourced.ti_creatorVaultAMM := "AmmVault";
     TxSourced.ti_pool := "PoolAddr"; TxSourced.ti_migrated := false |}.

Definition sample_fresh : TxSourced.HistoryLog :=
  TxSourced.freshLog sample_token "2024-01-01T00:00:00.000Z".

Definition sample_fee (sig : string) (amount : Z) : Candidate :=
  {| c_eventType := FEE; c_vaultType := BC; c_vault := "BcVault";
     c_amount := toString amount; c_balanceBefore := "1000000";
     c_balanceAfter := toString (1000000 + amount); c_slot := 250000001;
     c_timestamp := 1700000000000; c_txSignature := sig |}.

Definition sample_log : TxSourced.HistoryLog :=
  List.fold_left append_tx [sample_fee "S4" 500000; sample_fee "S5" 7] sample_fresh.

Definition sample_token_bp : BalancePolling.TokenInfo :=
  {| BalancePolling.ti_mint := "MintAddr"; BalancePolling.ti_symbol := "TOKEN";
     BalancePolling.ti_bondingCurve := "CurveAddr";
     BalancePolling.ti_creator := "Creator";
     BalancePolling.ti_creatorVaultBC := "BcVault";
     BalancePolling.ti_creatorVaultAMM := "AmmVault";
     BalancePolling.ti_migrated := false |}.

Definition sample_fresh_bp : BalancePolling.HistoryLog :=
  {| BalancePolling.version := "1.0.0"; BalancePolling.mint := "MintAddr";
     BalancePolling.symbol := "TOKEN"; BalancePolling.bondingCurve := "CurveAddr";
     BalancePolling.creator := "Creator"; BalancePolling.creatorVaultBC := "BcVault";
     BalancePolling.creatorVaultAMM := "AmmVault"; BalancePolling.migrated := false;
     BalancePolling.startedAt := "2024-01-01T00:00:00.000Z";
     BalancePolling.lastUpdated := "2024-01-01T00:00:00.000Z";
     BalancePolling.totalFees := "0"; BalancePolling.entryCount := 0;
     BalancePolling.latestHash := GENESIS_HASH; BalancePolling.entries := [] |}.

Definition sample_log_bp : BalancePolling.HistoryLog :=
  List.fold_left append_bp [sample_fee "" 500000; sample_fee "" 7] sample_fresh_bp.

(** [sample_log] with its summary and identity fields overwritten. *)
Definition sample_forged_summary : TxSourced.HistoryLog :=
  {| TxSourced.version := "9.9.9"; TxSourced.mint := "OtherMint";
     TxSourced.symbol := "FAKE"; TxSourced.bondingCurve := "OtherCurve";
     TxSourced.creator := "Mallory"; TxSourced.creatorVaultBC := "OtherVault";
     TxSourced.creatorVaultAMM := "OtherAmm"; TxSourced.pool := "OtherPool";
     TxSourced.migrated := true; TxSourced.startedAt := "";
     TxSourced.lastUpdated := ""; TxSourced.totalFees := "999999999999";
     TxSourced.entryCount := 42; TxSourced.latestHash := "00";
     TxSourced.entries := TxSourced.entries sample_log |}.

Definition sample_forged_summary_bp : BalancePolling.HistoryLog :=
  {| BalancePolling.version := "9.9.9"; BalancePolling.mint := "OtherMint";
     BalancePolling.symbol := "FAKE"; BalancePolling.bondingCurve := "OtherCurve";
     BalancePolling.creator := "Mallory"; BalancePolling.creatorVaultBC := "OtherVault";
     BalancePolling.creatorVaultAMM := "OtherAmm";
     BalancePolling.migrated := true; BalancePolling.startedAt := "";
     BalancePolling.lastUpdated := ""; BalancePolling.totalFees := "999999999999";
     BalancePolling.entryCount := 42; BalancePolling.latestHash := "00";
     BalancePolling.entries := BalancePolling.entries sample_log_bp |}.

(** A running daemon with an empty ledger and its native cursor on S3. *)
Definition sample_daemon : TxSourced.Daemon :=
  {| TxSourced.config := {| TxSourced.historyFile := Some "history.json";
                            TxSourced.onFeeDetected := None |};
     TxSourced.running := true;
     TxSourced.tokenInfo := Some sample_token;
     TxSourced.lastBCSignature := Some "S3";
     TxSourced.lastAMMSignature := None;
     TxSourced.processedTxs := ∅;
     TxSourced.bcFees := 0;
     TxSourced.ammFees := 0;
     TxSourced.historyLog := Some sample_fresh;
     TxSourced.disk := None |}.

Definition sample_sig (s : string) : TxSourced.SigInfo :=
  {| TxSourced.signature := s; TxSourced.sig_slot := 250000001 |}.

(** A transaction of the token that moves the native vault's balance. *)
Definition sample_tx (before after : Z) : TxSourced.Tx :=
  {| TxSourced.staticAccountKeys := ["Payer"; "BcVault"; "MintAddr"];
     TxSourced.meta :=
       Some {| TxSourced.loadedAddresses := None;
               TxSourced.preBalances := [9000000; before; 1];
               TxSourced.postBalances := [8000000; after; 1];
               TxSourced.preTokenBalances := None;
               TxSourced.postTokenBalances := None |};
     TxSourced.tx_slot := 250000001;
     TxSourced.blockTime := Some 1700000000 |}.

Definition sample_getTransaction (sig : string) : rpc (option TxSourced.Tx) :=
  if String.eqb sig "S4" then Returns (Some (sample_tx 1000000 1500000))
  else if String.eqb sig "S5" then Returns (Some (sample_tx 1500000 1500007))
  else Returns None.

Definition sample_tick : TxSourced.Tick :=
  {| TxSourced.clock := "2024-01-02T00:00:00.000Z";
     TxSourced.bondingCurveAccount := Returns None;
     TxSourced.bcSignatures :=
       Returns [sample_sig "S5"; sample_sig "S4"; sample_sig "S3"];
     TxSourced.ammSignatures := Returns [];
     TxSourced.getTransaction := sample_getTransaction |}.

(** The same daemon after S4 was processed through the other vault. *)
Definition sample_daemon_seen_S4 : TxSourced.Daemon :=
  TxSourced.with_processedTxs sample_daemon {[ "S4" ]}.

(** A balance-polling daemon before migration, and a tick in which only
    the fungible vault's balance moved. *)
Definition sample_daemon_bp : BalancePolling.Daemon :=
  {| BalancePolling.config := {| BalancePolling.historyFile := Some "history.json";
                                 BalancePolling.onFeeDetected := None;
                                 BalancePolling.onHistoryEntry := None |};
     BalancePolling.running := true;
     BalancePolling.tokenInfo := Some sample_token_bp;
     BalancePolling.lastBCBalance := 1000000;
     BalancePolling.lastAMMBalance := 0;
     BalancePolling.bcFees := 0;
     BalancePolling.ammFees := 0;
     BalancePolling.historyLog := Some sample_fresh_bp |}.

Definition sample_tick_bp : BalancePolling.Tick :=
  {| BalancePolling.clock := "2024-01-02T00:00:00.000Z";
     BalancePolling.bondingCurveAccount := Returns None;
     BalancePolling.bcReading :=
       {| BalancePolling.getSlot := Returns 250000001;
          BalancePolling.getBalance := Returns 1000000;
          BalancePolling.dateNow := 1700000000000 |};
     BalancePolling.ammReading :=
       {| BalancePolling.getSlot := Returns 250000001;
          BalancePolling.getBalance := Returns 5000;
          BalancePolling.dateNow := 1700000000000 |} |}.

(** The daemon holding the two-entry ledger, its file not yet written. *)
Definition sample_daemon_with_log : TxSourced.Daemon :=
  TxSourced.with_historyLog sample_daemon (Some sample_log).

(** *** Further sample data *)

(** A transaction of another token of the same creator: it moves the
    native vault's balance but names neither the mint, nor the bonding
    curve, nor the pool. *)
Definition sample_other_tx : TxSourced.Tx :=
  {| TxSourced.staticAccountKeys := ["Payer"; "BcVault"; "OtherMint"; "OtherCurve"];
     TxSourced.meta :=
       Some {| TxSourced.loadedAddresses := None;
               TxSourced.preBalances := [9000000; 1000000; 1; 1];
               TxSourced.postBalances := [8000000; 1900000; 1; 1];
               TxSourced.preTokenBalances := None;
               TxSourced.postTokenBalances := None |};
     TxSourced.tx_slot := 250000002;
     TxSourced.blockTime := Some 1700000001 |}.

Definition sample_other_tick : TxSourced.Tick :=
  {| TxSourced.clock := "2024-01-02T00:00:00.000Z";
     TxSourced.bondingCurveAccount := Returns None;
     TxSourced.bcSignatures :=
       Returns [sample_sig "S5"; sample_sig "S4"; sample_sig "S3"];
     TxSourced.ammSignatures := Returns [];
     TxSourced.getTransaction := fun _ => Returns (Some sample_other_tx) |}.

(** The tick before [sample_tick]: the vault's list ends at S3. *)
Definition sample_seed_tick : TxSourced.Tick :=
  {| TxSourced.clock := "2024-01-01T12:00:00.000Z";
     TxSourced.bondingCurveAccount := Returns None;
     TxSourced.bcSignatures := Returns [sample_sig "S3"];
     TxSourced.ammSignatures := Returns [];
     TxSourced.getTransaction := sample_getTransaction |}.

(** A tick whose answer lists S4 twice. *)
Definition sample_tick_listing_twice : TxSourced.Tick :=
  {| TxSourced.clock := "2024-01-02T00:00:00.000Z";
     TxSourced.bondingCurveAccount := Returns None;
     TxSourced.bcSignatures :=
       Returns [sample_sig "S4"; sample_sig "S4"; sample_sig "S3"];
     TxSourced.ammSignatures := Returns [];
     TxSourced.getTransaction := sample_getTransaction |}.

(** A bonding curve account: reserves, supply, not complete, and a creator
    key of 32 bytes. *)
Definition sample_curve : BondingCurveData :=
  {| virtualTokenReserves := 1073000000000000;
     virtualSolReserves := 30000000000;
     realTokenReserves := 793100000000000;
     realSolReserves := 0;
     tokenTotalSupply := 1000000000000000;
     complete := false;
     creator := List.repeat 7 32 |}.

(** The history file of the sample daemon, on a file system that holds
    [text] there and nothing else. *)
Definition sample_files (text : option string) (path : string) : option string :=
  if String.eqb path "history.json" then text else None.

(* ===================================================================== *)
(** ** Properties *)
(* ===================================================================== *)

Example sha256_abc :
  SHA256.hex "abc" = "ba7816bf8f01cfea414140de5dae2223b00361a396177a9cb410ff61f20015ad".
Proof. vm_compute. reflexivity. Qed.

Example sha256_empty :
  SHA256.hex "" = "e3b0c44298fc1c149afbf4c8996fb92427ae41e4649b934ca495991b7852b855".
Proof. vm_compute. reflexivity. Qed.

Example toString_ex : toString 0 = "0" /\ toString 42 = "42" /\ toString (-7) = "-7".
Proof. vm_compute. auto. Qed.

Example toISOString_ex :
  toISOString 0 = Some "1970-01-01T00:00:00.000Z"
  /\ toISOString 1700000000123 = Some "2023-11-14T22:13:20.123Z"
  /\ toISOString (-1) = Some "1969-12-31T23:59:59.999Z"
  /\ toISOString 951782400000 = Some "2000-02-29T00:00:00.000Z"
  /\ toISOString 8640000000000000 = Some "+275760-09-13T00:00:00.000Z"
  /\ toISOString (-8640000000000000) = Some "-271821-04-20T00:00:00.000Z"
  /\ toISOString (-62198755200000) = Some "-000001-01-01T00:00:00.000Z"
  /\ toISOString 8640000000000001 = None.
Proof. vm_compute. repeat split. Qed.

Example stringify_ex :
  List.map JSON.code
    (list_ascii_of_string
       (JSON.stringify (JObj [("k", JArr [JNum (-12); JNull; JArr []])])))
  = [123; 10; 32; 32; 34; 107; 34; 58; 32; 91;
     10; 32; 32; 32; 32; 45; 49; 50; 44;
     10; 32; 32; 32; 32; 110; 117; 108; 108; 44;
     10; 32; 32; 32; 32; 91; 93;
     10; 32; 32; 93;
     10; 125].
Proof. vm_compute. reflexivity. Qed.

Example parse_ex :
  JSON.parse " [1, [true ,null], -7 ] " = Some (JArr [JNum 1; JArr [JBool true; JNull]; JNum (-7)])
  /\ JSON.parse "[1.5]" = None
  /\ JSON.parse "[1,]" = None
  /\ JSON.parse "[1] 2" = None.
Proof. vm_compute. repeat split; reflexivity. Qed.

Example BigInt_ex :
  BigInt "500000" = Some 500000 /\ BigInt "-12" = Some (-12) /\ BigInt "" = Some 0
  /\ BigInt "  0x1F " = Some 31 /\ BigInt "12a" = None /\ BigInt "-" = None
  /\ BigInt "-0x1" = None /\ BigInt "0b101" = Some 5 /\ BigInt "+7" = Some 7.
Proof. vm_compute. repeat split. Qed.

#[global] Arguments SHA256.hex : simpl never.
#[global] Arguments toString : simpl never.
#[global] Arguments toISOString : simpl never.
#[global] Arguments BigInt : simpl never.
#[global] Arguments TxSourced.computeEntryHash : simpl never.
#[global] Arguments BalancePolling.computeEntryHash : simpl never.
#[global] Arguments TxSourced.entryData : simpl never.
#[global] Arguments BalancePolling.entryData : simpl never.

(** *** Strings *)

Lemma list_ascii_app (a b : string) :
  list_ascii_of_string (a ++ b) = (list_ascii_of_string a ++ list_ascii_of_string b)%list.
Proof. induction a as [|c a IH]; simpl; [reflexivity | now rewrite IH]. Qed.

Lemma list_ascii_inj (a b : string) :
  list_ascii_of_string a = list_ascii_of_string b -> a = b.
Proof.
  intros H. rewrite <- (string_of_list_ascii_of_string a),
    <- (string_of_list_ascii_of_string b). now rewrite H.
Qed.

Lemma append_inv_head (p a b : string) : p ++ a = p ++ b -> a = b.
Proof. induction p as [|c p IH]; simpl; [auto | intros [= H]; auto]. Qed.

Lemma append_inv_tail (a b s : string) : a ++ s = b ++ s -> a = b.
Proof.
  intros H. apply list_ascii_inj.
  apply (f_equal list_ascii_of_string) in H. rewrite !list_ascii_app in H.
  now apply app_inv_tail in H.
Qed.

Lemma to_int_parses (z : Z) :
  NilZero.int_of_string (toString z) = Some (Z.to_int z).
Proof.
  unfold toString. apply NilZero.isi; destruct z; simpl; try discriminate;
    intros [= H]; now apply (DecimalPos.Unsigned.to_uint_nonnil p).
Qed.

Lemma toString_inj (x y : Z) : toString x = toString y -> x = y.
Proof.
  intros H. apply DecimalZ.to_int_inj.
  generalize (to_int_parses x). rewrite H, to_int_parses. congruence.
Qed.

Lemma HistoryEventType_str_inj (a b : HistoryEventType) :
  HistoryEventType_str a = HistoryEventType_str b -> a = b.
Proof. destruct a, b; simpl; congruence. Qed.

Lemma VaultType_str_inj (a b : VaultType) :
  VaultType_str a = VaultType_str b -> a = b.
Proof. destruct a, b; simpl; congruence. Qed.

(** Two joins that differ in one component differ. *)
Lemma join_insert_inj (sep : string) (l : list string) (k : nat) (x y : string) :
  (k < List.length l)%nat ->
  join sep (<[k:=x]> l) = join sep (<[k:=y]> l) -> x = y.
Proof.
  revert k. induction l as [|a l IH]; intros k Hk; simpl in Hk; [lia|].
  destruct k as [|k]; simpl.
  - destruct l as [|b l]; [auto|]. apply append_inv_tail.
  - destruct l as [|b l]; simpl in Hk; [lia|].
    intros H. apply (IH k); [simpl; lia|].
    destruct k; simpl in *; apply append_inv_head in H;
      now apply append_inv_head in H.
Qed.

Lemma alter_as_insert {A} (f : A -> A) (l : list A) (i : nat) (x : A) :
  l !! i = Some x -> alter f i l = <[i:=f x]> l.
Proof.
  revert i. induction l as [|a l IH]; intros [|i] H; try discriminate.
  - injection H as ->. reflexivity.
  - simpl. f_equal. now apply IH.
Qed.

(** *** The verifier loop *)

Section VerifierFacts.
Context {Entry : Type}.
Variables (sequence : Entry -> Z) (prevHash hash : Entry -> string).
Variable computeEntryHash : Entry -> string.

Local Abbreviation loop := (verify_loop sequence prevHash hash computeEntryHash).
Local Abbreviation all_pass := (passes_all sequence prevHash hash computeEntryHash).
Local Abbreviation pass := (passes sequence prevHash hash computeEntryHash).
Local Abbreviation prev := (expected_prev hash).

Lemma expected_prev_snoc (pre rest : list Entry) (e : Entry) :
  prev (pre ++ e :: rest)%list (S (List.length pre)) = hash e.
Proof.
  simpl. rewrite lookup_app_r by lia.
  replace (List.length pre - List.length pre)%nat with O by lia. reflexivity.
Qed.

(** One turn of the loop, on an entry that sits at index [length pre] of
    the whole list. *)
Lemma loop_step (pre rest : list Entry) (e : Entry) :
  let whole := (pre ++ e :: rest)%list in
  let i := List.length pre in
  loop i (prev whole i) (e :: rest) =
    if negb (pass SequenceCheck whole i e) then
      rejected i (check_error sequence SequenceCheck i e)
    else if negb (pass LinkageCheck whole i e) then
      rejected i (check_error sequence LinkageCheck i e)
    else if negb (pass CommitmentCheck whole i e) then
      rejected i (check_error sequence CommitmentCheck i e)
    else loop (S i) (prev whole (S i)) rest.
Proof.
  intros whole i. subst whole i. rewrite expected_prev_snoc. reflexivity.
Qed.

Lemma loop_all_pass (es pre : list Entry) :
  (forall j e, es !! j = Some e ->
               all_pass (pre ++ es)%list (List.length pre + j)%nat e = true) ->
  loop (List.length pre) (prev (pre ++ es)%list (List.length pre)) es = verified.
Proof.
  revert pre. induction es as [|e rest IH]; intros pre Hall; [reflexivity|].
  rewrite loop_step.
  pose proof (Hall O e eq_refl) as H0. rewrite Nat.add_0_r in H0.
  unfold passes_all in H0. apply andb_prop in H0 as [H0 Hc].
  apply andb_prop in H0 as [Hs Hl]. rewrite Hs, Hl, Hc. simpl.
  specialize (IH (pre ++ [e])%list).
  rewrite <- !app_assoc, length_app in IH. simpl in IH.
  rewrite Nat.add_1_r in IH. apply IH.
  intros j e' Hj. specialize (Hall (S j) e' Hj).
  now rewrite <- Nat.add_succ_comm in Hall.
Qed.

Lemma loop_first_failure (es pre : list Entry) (k : nat) (e : Entry) (c : Check) :
  es !! k = Some e ->
  (forall j e', (j < k)%nat -> es !! j = Some e' ->
                all_pass (pre ++ es)%list (List.length pre + j)%nat e' = true) ->
  first_failing sequence prevHash hash computeEntryHash c
                (pre ++ es)%list (List.length pre + k)%nat e ->
  loop (List.length pre) (prev (pre ++ es)%list (List.length pre)) es =
    rejected (List.length pre + k) (check_error sequence c (List.length pre + k) e).
Proof.
  revert pre k. induction es as [|e0 rest IH]; intros pre k Hk Hbefore Hfail;
    [discriminate|].
  rewrite loop_step. destruct k as [|k].
  - injection Hk as ->. rewrite Nat.add_0_r in *.
    destruct Hfail as [Hc Hlt]. destruct c.
    + rewrite Hc. reflexivity.
    + rewrite (Hlt SequenceCheck) by (simpl; lia). rewrite Hc. reflexivity.
    + rewrite (Hlt SequenceCheck), (Hlt LinkageCheck) by (simpl; lia).
      rewrite Hc. reflexivity.
  - pose proof (Hbefore O e0 ltac:(lia) eq_refl) as H0.
    rewrite Nat.add_0_r in H0.
    unfold passes_all in H0. apply andb_prop in H0 as [H0 Hc].
    apply andb_prop in H0 as [Hs Hl]. rewrite Hs, Hl, Hc. simpl.
    specialize (IH (pre ++ [e0])%list k).
    rewrite <- !app_assoc, length_app in IH. simpl in IH.
    rewrite Nat.add_1_r in IH. simpl in IH.
    rewrite <- Nat.add_succ_comm. apply IH; [exact Hk | |].
    + intros j e' Hj Hl'. specialize (Hbefore (S j) e' ltac:(lia) Hl').
      now rewrite <- Nat.add_succ_comm in Hbefore.
    + now rewrite <- Nat.add_succ_comm in Hfail.
Qed.

Local Abbreviation verify := (verify_entries sequence prevHash hash computeEntryHash).

Lemma verify_entries_loop (es : list Entry) :
  verify es = loop O GENESIS_HASH es.
Proof. destruct es; reflexivity. Qed.

Lemma verify_all_pass (es : list Entry) :
  (forall j e, es !! j = Some e -> all_pass es j e = true) ->
  verify es = verified.
Proof.
  intros H. rewrite verify_entries_loop. apply (loop_all_pass es []). exact H.
Qed.

Lemma verify_first_failure (es : list Entry) (k : nat) (e : Entry) (c : Check) :
  es !! k = Some e ->
  (forall j e', (j < k)%nat -> es !! j = Some e' -> all_pass es j e' = true) ->
  first_failing sequence prevHash hash computeEntryHash c es k e ->
  verify es = rejected k (check_error sequence c k e).
Proof.
  intros Hk Hb Hf. rewrite verify_entries_loop.
  apply (loop_first_failure es [] k e c Hk Hb Hf).
Qed.

Lemma honest_all_pass (es : list Entry) :
  honest_chain sequence prevHash hash computeEntryHash es ->
  forall j e, es !! j = Some e -> all_pass es j e = true.
Proof.
  intros Hh j e Hj. destruct (Hh j e Hj) as (Hs & Hl & Hc).
  unfold passes_all, passes.
  rewrite Hs, Z.eqb_refl, Hl, String.eqb_refl, <- Hc, String.eqb_refl.
  reflexivity.
Qed.

(** Some check fails: one of them is the first to fail. *)
Lemma failing_has_first (es : list Entry) (i : nat) (e : Entry) :
  all_pass es i e = false ->
  exists c, first_failing sequence prevHash hash computeEntryHash c es i e.
Proof.
  unfold passes_all. intros H.
  destruct (pass SequenceCheck es i e) eqn:Hs.
  - destruct (pass LinkageCheck es i e) eqn:Hl.
    + exists CommitmentCheck. split; [exact H|].
      intros [] Hlt; simpl in Hlt; auto; lia.
    + exists LinkageCheck. split; [exact Hl|].
      intros [] Hlt; simpl in Hlt; auto; lia.
  - exists SequenceCheck. split; [exact Hs|].
    intros [] Hlt; simpl in Hlt; lia.
Qed.

(** Replacing entry [i] of an honest chain by one that fails a check is
    caught at [i]. *)
Lemma verify_replaced (es : list Entry) (i : nat) (e e' : Entry) :
  honest_chain sequence prevHash hash computeEntryHash es ->
  es !! i = Some e ->
  all_pass (<[i:=e']> es) i e' = false ->
  let r := verify (<[i:=e']> es) in
  valid r = false /\ entryIndex r = Some i.
Proof.
  intros Hh Hi Hfail.
  destruct (failing_has_first _ _ _ Hfail) as [c Hc].
  assert (Hlt : (i < List.length es)%nat) by (eapply lookup_lt_Some; eauto).
  rewrite (verify_first_failure (<[i:=e']> es) i e' c); [split; reflexivity | | | exact Hc].
  - now apply list_lookup_insert_eq.
  - intros j e0 Hj Hl. rewrite list_lookup_insert_ne in Hl by lia.
    pose proof (honest_all_pass es Hh j e0 Hl) as Hp.
    unfold passes_all, passes in *.
    replace (prev (<[i:=e']> es) j) with (prev es j); [exact Hp|].
    destruct j as [|j]; simpl; [reflexivity|].
    now rewrite list_lookup_insert_ne by lia.
Qed.
End VerifierFacts.

(** *** Tampering with one entry of the transaction-sourced ledger *)

Lemma computeEntryHash_ignores (sq : Z) (ph : string) (et : HistoryEventType)
      (vt : VaultType) (va am bb ba : string) (sl ts : Z) (da da' ha ha' tx : string) :
  TxSourced.computeEntryHash
    (TxSourced.Build_HistoryEntry sq ph et vt va am bb ba sl ts da ha tx)
  = TxSourced.computeEntryHash
      (TxSourced.Build_HistoryEntry sq ph et vt va am bb ba sl ts da' ha' tx).
Proof. reflexivity. Qed.

(** A mutation of a hashed content field changes the hashed string. *)
Lemma mutate_changes_entryData (m : Mutation) (e : TxSourced.HistoryEntry) :
  mutate m e <> e ->
  match m with
  | SetSequence _ | SetPrevHash _ | SetDate _ | SetHash _ => True
  | _ => TxSourced.entryData (mutate m e) <> TxSourced.entryData e
  end.
Proof.
  intros Hne. destruct e as [sq ph et vt va am bb ba sl ts da ha tx].
  set (l := [ toString sq; ph; HistoryEventType_str et; VaultType_str vt; va;
              am; bb; ba; toString sl; toString ts; tx ]).
  assert (Hpos : forall k x y, (k < 11)%nat ->
             join "|" (<[k:=x]> l) = join "|" (<[k:=y]> l) -> x = y).
  { intros k x y Hk. apply join_insert_inj. exact Hk. }
  destruct m; try exact I; intros Heq; apply Hne; simpl.
  - apply (Hpos 2%nat) in Heq; [|lia]. apply HistoryEventType_str_inj in Heq.
    simpl in Heq. now subst.
  - apply (Hpos 3%nat) in Heq; [|lia]. apply VaultType_str_inj in Heq. simpl in Heq. now subst.
  - apply (Hpos 4%nat) in Heq; [|lia]. simpl in Heq. now subst.
  - apply (Hpos 5%nat) in Heq; [|lia]. simpl in Heq. now subst.
  - apply (Hpos 6%nat) in Heq; [|lia]. simpl in Heq. now subst.
  - apply (Hpos 7%nat) in Heq; [|lia]. simpl in Heq. now subst.
  - apply (Hpos 8%nat) in Heq; [|lia]. apply toString_inj in Heq. simpl in Heq. now subst.
  - apply (Hpos 9%nat) in Heq; [|lia]. apply toString_inj in Heq. simpl in Heq. now subst.
  - apply (Hpos 10%nat) in Heq; [|lia]. simpl in Heq. now subst.
Qed.

Lemma mutate_fails_a_check (es : list TxSourced.HistoryEntry) (i : nat)
      (e : TxSourced.HistoryEntry) (m : Mutation) :
  honest_tx es ->
  es !! i = Some e ->
  mutate m e <> e ->
  sets_date m = false ->
  collision_free (TxSourced.entryData (mutate m e)) (TxSourced.entryData e) ->
  passes_all TxSourced.sequence TxSourced.prevHash TxSourced.hash
             TxSourced.computeEntryHash (<[i:=mutate m e]> es) i (mutate m e) = false.
Proof.
  intros Hh Hi Hne Hd Hcf.
  destruct (Hh i e Hi) as (Hs & Hl & Hc).
  pose proof (mutate_changes_entryData m e Hne) as Hdata.
  assert (Hprev : expected_prev TxSourced.hash (<[i:=mutate m e]> es) i
                  = expected_prev TxSourced.hash es i).
  { destruct i as [|i]; simpl; [reflexivity|].
    now rewrite list_lookup_insert_ne by lia. }
  unfold passes_all, passes. rewrite Hprev.
  assert (Hcommit : TxSourced.entryData (mutate m e) <> TxSourced.entryData e ->
            TxSourced.hash (mutate m e) = TxSourced.hash e ->
            String.eqb (TxSourced.computeEntryHash (mutate m e))
                       (TxSourced.hash (mutate m e)) = false).
  { intros Hd' Hh'. apply String.eqb_neq. rewrite Hh', Hc.
    unfold TxSourced.computeEntryHash. intros Heq. apply Hd'. now apply Hcf. }
  destruct m; try discriminate Hd;
    try (rewrite Hcommit; [apply andb_false_r | exact Hdata
                          | destruct e; reflexivity]).
  - (* sequence *)
    clear Hcommit Hdata Hcf Hc Hl Hh Hi.
    destruct e as [sq ph et vt va am bb ba sl ts da ha tx].
    cbn [mutate TxSourced.sequence] in *.
    destruct (Z.eqb_spec v (Z.of_nat i + 1)); [|reflexivity].
    exfalso. apply Hne. now subst.
  - (* prevHash *)
    clear Hcommit Hdata Hcf Hc Hs Hh Hi.
    destruct e as [sq ph et vt va am bb ba sl ts da ha tx].
    cbn [mutate TxSourced.prevHash] in *.
    destruct (String.eqb_spec v (expected_prev TxSourced.hash es i)).
    + exfalso. apply Hne. now subst.
    + apply andb_false_intro1, andb_false_r.
  - (* hash *)
    clear Hcommit Hdata Hcf Hl Hs Hh Hi.
    destruct e as [sq ph et vt va am bb ba sl ts da ha tx].
    cbn [mutate TxSourced.hash] in *.
    rewrite (computeEntryHash_ignores _ _ _ _ _ _ _ _ _ _ da da v ha), <- Hc.
    destruct (String.eqb_spec ha v); [|apply andb_false_r].
    exfalso. apply Hne. now subst.
Qed.

(** *** Chains grown by appending *)

Section ChainGrowth.
Context {Entry : Type}.
Variables (sequence : Entry -> Z) (prevHash hash : Entry -> string).
Variable computeEntryHash : Entry -> string.

Local Abbreviation tip := (chain_tip hash).

Lemma tip_expected_prev (es rest : list Entry) :
  expected_prev hash (es ++ rest)%list (List.length es) = tip es.
Proof.
  unfold chain_tip. rewrite last_lookup. destruct es as [|a es] using rev_ind;
    [reflexivity|].
  rewrite length_app. simpl. rewrite Nat.add_1_r. simpl.
  rewrite <- app_assoc. simpl.
  rewrite lookup_app_r by lia. rewrite lookup_app_r by lia.
  now replace (List.length es - List.length es)%nat with O by lia.
Qed.

Lemma expected_prev_app (es rest : list Entry) (i : nat) :
  (i <= List.length es)%nat ->
  expected_prev hash (es ++ rest)%list i = expected_prev hash (es ++ [])%list i.
Proof.
  intros Hi. destruct i as [|i]; simpl; [reflexivity|].
  rewrite !lookup_app_l by lia. reflexivity.
Qed.

Lemma honest_snoc (es : list Entry) (e : Entry) :
  honest_chain sequence prevHash hash computeEntryHash es ->
  sequence e = Z.of_nat (List.length es) + 1 ->
  prevHash e = tip es ->
  hash e = computeEntryHash e ->
  honest_chain sequence prevHash hash computeEntryHash (es ++ [e])%list.
Proof.
  intros Hh Hs Hl Hc i x Hi.
  destruct (Nat.lt_ge_cases i (List.length es)) as [Hlt|Hge].
  - rewrite lookup_app_l in Hi by lia. destruct (Hh i x Hi) as (A & B & C).
    repeat split; auto. rewrite B.
    rewrite (expected_prev_app es [e]) by lia. now rewrite app_nil_r.
  - pose proof (lookup_lt_Some _ _ _ Hi) as Hlen. rewrite length_app in Hlen.
    simpl in Hlen. assert (i = List.length es) as -> by lia.
    rewrite lookup_app_r in Hi by lia.
    replace (List.length es - List.length es)%nat with O in Hi by lia.
    injection Hi as <-. rewrite tip_expected_prev. auto.
Qed.

Lemma honest_nil : honest_chain sequence prevHash hash computeEntryHash [].
Proof. intros i e H. discriminate. Qed.

Lemma honest_numbered_and_linked (es : list Entry) :
  honest_chain sequence prevHash hash computeEntryHash es ->
  numbered_and_linked sequence prevHash hash es.
Proof.
  intros Hh. repeat split.
  - intros i e Hi. now destruct (Hh i e Hi).
  - intros e Hi. now destruct (Hh O e Hi) as (_ & -> & _).
  - intros i p e Hp Hi. destruct (Hh (S i) e Hi) as (_ & -> & _).
    simpl. now rewrite Hp.
Qed.
End ChainGrowth.

Lemma createHistoryEntry_tx_spec (l : TxSourced.HistoryLog) et vt va am bb ba sl ts tx e :
  TxSourced.createHistoryEntry l et vt va am bb ba sl ts tx = Some e ->
  TxSourced.sequence e = Z.of_nat (List.length (TxSourced.entries l)) + 1
  /\ TxSourced.prevHash e = chain_tip TxSourced.hash (TxSourced.entries l)
  /\ TxSourced.hash e = TxSourced.computeEntryHash e
  /\ TxSourced.vaultType e = vt
  /\ TxSourced.txSignature e = tx.
Proof.
  unfold TxSourced.createHistoryEntry. destruct (toISOString ts); [|discriminate].
  cbn [mbind option_bind]. intros [= <-]. repeat split; reflexivity.
Qed.

Lemma createHistoryEntry_bp_spec (l : BalancePolling.HistoryLog) et vt va am bb ba sl ts e :
  BalancePolling.createHistoryEntry l et vt va am bb ba sl ts = Some e ->
  BalancePolling.sequence e = Z.of_nat (List.length (BalancePolling.entries l)) + 1
  /\ BalancePolling.prevHash e = chain_tip BalancePolling.hash (BalancePolling.entries l)
  /\ BalancePolling.hash e = BalancePolling.computeEntryHash e
  /\ BalancePolling.vaultType e = vt.
Proof.
  unfold BalancePolling.createHistoryEntry. destruct (toISOString ts); [|discriminate].
  cbn [mbind option_bind]. intros [= <-]. repeat split; reflexivity.
Qed.

Lemma append_tx_entries (l : TxSourced.HistoryLog) (c : Candidate) :
  (valid_time c -> exists e,
      TxSourced.entries (append_tx l c) = (TxSourced.entries l ++ [e])%list)
  /\ (honest_tx (TxSourced.entries l) -> honest_tx (TxSourced.entries (append_tx l c))).
Proof.
  unfold append_tx, valid_time.
  destruct (TxSourced.createHistoryEntry l _ _ _ _ _ _ _ _ _) as [e|] eqn:He.
  - split; [intros _; exists e; reflexivity|].
    intros Hh. apply createHistoryEntry_tx_spec in He as (A & B & C & _).
    simpl. now apply honest_snoc.
  - split; [|auto]. intros [x Hx]. unfold TxSourced.createHistoryEntry in He.
    rewrite Hx in He. discriminate.
Qed.

Lemma append_bp_entries (l : BalancePolling.HistoryLog) (c : Candidate) :
  (valid_time c -> exists e,
      BalancePolling.entries (append_bp l c) = (BalancePolling.entries l ++ [e])%list)
  /\ (honest_bp (BalancePolling.entries l) ->
      honest_bp (BalancePolling.entries (append_bp l c))).
Proof.
  unfold append_bp, valid_time.
  destruct (BalancePolling.createHistoryEntry l _ _ _ _ _ _ _ _) as [e|] eqn:He.
  - split; [intros _; exists e; reflexivity|].
    intros Hh. apply createHistoryEntry_bp_spec in He as (A & B & C & _).
    simpl. now apply honest_snoc.
  - split; [|auto]. intros [x Hx]. unfold BalancePolling.createHistoryEntry in He.
    rewrite Hx in He. discriminate.
Qed.

Lemma appended_tx (cs : list Candidate) (l : TxSourced.HistoryLog) :
  (Forall valid_time cs ->
   List.length (TxSourced.entries (List.fold_left append_tx cs l))
   = (List.length (TxSourced.entries l) + List.length cs)%nat)
  /\ (honest_tx (TxSourced.entries l) ->
      honest_tx (TxSourced.entries (List.fold_left append_tx cs l))).
Proof.
  revert l. induction cs as [|c cs IH]; intros l; simpl.
  - split; [intros _; lia | auto].
  - destruct (append_tx_entries l c) as [Hlen Hh].
    destruct (IH (append_tx l c)) as [IHlen IHh]. split.
    + intros Hv. inversion Hv as [|? ? Hc Hcs]; subst.
      rewrite (IHlen Hcs). destruct (Hlen Hc) as [e ->].
      rewrite length_app. simpl. lia.
    + auto.
Qed.

Lemma appended_bp (cs : list Candidate) (l : BalancePolling.HistoryLog) :
  (Forall valid_time cs ->
   List.length (BalancePolling.entries (List.fold_left append_bp cs l))
   = (List.length (BalancePolling.entries l) + List.length cs)%nat)
  /\ (honest_bp (BalancePolling.entries l) ->
      honest_bp (BalancePolling.entries (List.fold_left append_bp cs l))).
Proof.
  revert l. induction cs as [|c cs IH]; intros l; simpl.
  - split; [intros _; lia | auto].
  - destruct (append_bp_entries l c) as [Hlen Hh].
    destruct (IH (append_bp l c)) as [IHlen IHh]. split.
    + intros Hv. inversion Hv as [|? ? Hc Hcs]; subst.
      rewrite (IHlen Hcs). destruct (Hlen Hc) as [e ->].
      rewrite length_app. simpl. lia.
    + auto.
Qed.

Lemma sample_log_honest : honest_tx (TxSourced.entries sample_log).
Proof. apply appended_tx. apply honest_nil. Qed.

Lemma sample_log_bp_honest : honest_bp (BalancePolling.entries sample_log_bp).
Proof. apply appended_bp. apply honest_nil. Qed.

(** *** The ledger verifier *)

(** C3. [verifyHistoryChain] accepts a log without entries; on entries
    e_0..e_{n-1} it runs, index by index, the sequence check
    ([sequence = i + 1]), the linkage check ([prevHash] is the hash of
    e_{i-1}, the genesis constant at index 0) and the commitment check (the
    recomputed hash is the stored one), and answers invalid with the index
    of the first entry that fails one and the message of the first check
    that entry fails; when every entry passes all three it answers valid.
    Both revisions of the verifier behave so. *)
Theorem verifyHistoryChain_first_failing_check :
  (forall log, TxSourced.entries log = [] ->
               TxSourced.verifyHistoryChain log = verified)
  /\ (forall log i e c,
         TxSourced.entries log !! i = Some e ->
         (forall j e', (j < i)%nat -> TxSourced.entries log !! j = Some e' ->
            passes_all TxSourced.sequence TxSourced.prevHash TxSourced.hash
              TxSourced.computeEntryHash (TxSourced.entries log) j e' = true) ->
         first_failing TxSourced.sequence TxSourced.prevHash TxSourced.hash
           TxSourced.computeEntryHash c (TxSourced.entries log) i e ->
         TxSourced.verifyHistoryChain log
         = rejected i (check_error TxSourced.sequence c i e))
  /\ (forall log,
         (forall j e, TxSourced.entries log !! j = Some e ->
            passes_all TxSourced.sequence TxSourced.prevHash TxSourced.hash
              TxSourced.computeEntryHash (TxSourced.entries log) j e = true) ->
         TxSourced.verifyHistoryChain log = verified)
  /\ (forall log, BalancePolling.entries log = [] ->
                  BalancePolling.verifyHistoryChain log = verified)
  /\ (forall log i e c,
         BalancePolling.entries log !! i = Some e ->
         (forall j e', (j < i)%nat -> BalancePolling.entries log !! j = Some e' ->
            passes_all BalancePolling.sequence BalancePolling.prevHash
              BalancePolling.hash BalancePolling.computeEntryHash
              (BalancePolling.entries log) j e' = true) ->
         first_failing BalancePolling.sequence BalancePolling.prevHash
           BalancePolling.hash BalancePolling.computeEntryHash c
           (BalancePolling.entries log) i e ->
         BalancePolling.verifyHistoryChain log
         = rejected i (check_error BalancePolling.sequence c i e))
  /\ (forall log,
         (forall j e, BalancePolling.entries log !! j = Some e ->
            passes_all BalancePolling.sequence BalancePolling.prevHash
              BalancePolling.hash BalancePolling.computeEntryHash
              (BalancePolling.entries log) j e = true) ->
         BalancePolling.verifyHistoryChain log = verified).
Proof.
  repeat split.
  - intros log H. unfold TxSourced.verifyHistoryChain. now rewrite H.
  - intros log i e c. apply verify_first_failure.
  - intros log. apply verify_all_pass.
  - intros log H. unfold BalancePolling.verifyHistoryChain. now rewrite H.
  - intros log i e c. apply verify_first_failure.
  - intros log. apply verify_all_pass.
Qed.

Lemma verifyHistoryChain_first_failing_check_witness :
  TxSourced.verifyHistoryChain sample_fresh = verified
  /\ TxSourced.verifyHistoryChain (tamper sample_log 1 (SetPrevHash "00"))
     = rejected 1 "prevHash mismatch"
  /\ TxSourced.verifyHistoryChain sample_log = verified
  /\ BalancePolling.verifyHistoryChain sample_fresh_bp = verified
  /\ BalancePolling.verifyHistoryChain sample_log_bp = verified.
Proof.
  destruct verifyHistoryChain_first_failing_check
    as (H1 & H2 & H3 & H4 & _ & H6).
  split; [apply H1; reflexivity|].
  split.
  - refine (H2 (tamper sample_log 1 (SetPrevHash "00")) 1%nat _ LinkageCheck _ _ _).
    + vm_compute. reflexivity.
    + intros [|j] e' Hj Hl; [|lia]. vm_compute in Hl. injection Hl as <-.
      vm_compute. reflexivity.
    + split; [vm_compute; reflexivity|].
      intros [] Hlt; simpl in Hlt; try lia. vm_compute. reflexivity.
  - split; [|split; [apply H4; reflexivity|]].
    + apply H3. apply honest_all_pass. apply sample_log_honest.
    + apply H6. apply honest_all_pass. apply sample_log_bp_honest.
Defined.

(** C10. The answer of [verifyHistoryChain] is a function of the entries
    array alone: two logs with the same entries get the same answer, so the
    summary fields ([totalFees], [entryCount], [latestHash], [migrated]) and
    the identity fields are not examined, and a change confined to them
    goes unnoticed.  Both revisions. *)
Theorem verifyHistoryChain_reads_entries_only :
  (forall l1 l2 : TxSourced.HistoryLog,
      TxSourced.entries l1 = TxSourced.entries l2 ->
      TxSourced.verifyHistoryChain l1 = TxSourced.verifyHistoryChain l2)
  /\ (forall l1 l2 : BalancePolling.HistoryLog,
      BalancePolling.entries l1 = BalancePolling.entries l2 ->
      BalancePolling.verifyHistoryChain l1 = BalancePolling.verifyHistoryChain l2).
Proof.
  split; intros l1 l2 H.
  - unfold TxSourced.verifyHistoryChain. now rewrite H.
  - unfold BalancePolling.verifyHistoryChain. now rewrite H.
Qed.

Lemma verifyHistoryChain_reads_entries_only_witness :
  TxSourced.verifyHistoryChain sample_forged_summary
  = TxSourced.verifyHistoryChain sample_log
  /\ TxSourced.totalFees sample_forged_summary <> TxSourced.totalFees sample_log
  /\ BalancePolling.verifyHistoryChain sample_forged_summary_bp
     = BalancePolling.verifyHistoryChain sample_log_bp.
Proof.
  destruct verifyHistoryChain_reads_entries_only as [Htx Hbp].
  split; [apply Htx; reflexivity|].
  split; [vm_compute; discriminate | apply Hbp; reflexivity].
Defined.

(** C1 (as amended).  A log built honestly (gapless sequence numbers from
    1, each [prevHash] the hash before it or the genesis constant, each
    hash computed by [computeEntryHash]) verifies.  Setting one field other
    than [date] of one entry of such a log to a different value makes
    [verifyHistoryChain] answer invalid with that entry's index, provided
    the hash does not collide on the entry's hashed string before and after
    the change. *)
Theorem verifyHistoryChain_detects_tampering :
  (forall log, honest_tx (TxSourced.entries log) ->
               TxSourced.verifyHistoryChain log = verified)
  /\ (forall log i e m,
         honest_tx (TxSourced.entries log) ->
         TxSourced.entries log !! i = Some e ->
         mutate m e <> e ->
         sets_date m = false ->
         collision_free (TxSourced.entryData (mutate m e)) (TxSourced.entryData e) ->
         valid (TxSourced.verifyHistoryChain (tamper log i m)) = false
         /\ entryIndex (TxSourced.verifyHistoryChain (tamper log i m)) = Some i).
Proof.
  split.
  - intros log Hh. apply verify_all_pass. now apply honest_all_pass.
  - intros log i e m Hh Hi Hne Hd Hcf.
    unfold TxSourced.verifyHistoryChain, tamper.
    cbn [TxSourced.entries TxSourced.with_entries].
    replace (alter (mutate m) i (TxSourced.entries log))
      with (<[i:=mutate m e]> (TxSourced.entries log)).
    + apply (verify_replaced _ _ _ _ _ i e); auto.
      now apply mutate_fails_a_check.
    + symmetry. apply alter_as_insert. exact Hi.
Qed.

(** C1, the claim as written fails: the [date] field of an entry is not
    part of the hashed string and no check reads it, so a log whose first
    entry has its [date] changed still verifies. *)
Lemma date_mutation_goes_undetected :
  exists e,
    honest_tx (TxSourced.entries sample_log)
    /\ TxSourced.entries sample_log !! 0%nat = Some e
    /\ mutate (SetDate "1999-12-31T23:59:59.000Z") e <> e
    /\ TxSourced.verifyHistoryChain
         (tamper sample_log 0 (SetDate "1999-12-31T23:59:59.000Z")) = verified.
Proof.
  eexists. split; [apply sample_log_honest|].
  split; [vm_compute; reflexivity|].
  split; [intros H; vm_compute in H; discriminate H | vm_compute; reflexivity].
Qed.

Lemma verifyHistoryChain_detects_tampering_witness :
  TxSourced.verifyHistoryChain sample_log = verified
  /\ valid (TxSourced.verifyHistoryChain (tamper sample_log 1 (SetAmount "8"))) = false
  /\ entryIndex (TxSourced.verifyHistoryChain (tamper sample_log 1 (SetAmount "8")))
     = Some 1%nat.
Proof.
  destruct verifyHistoryChain_detects_tampering as [Hvalid Htamper].
  split; [apply Hvalid, sample_log_honest|].
  eapply (Htamper sample_log 1%nat _ (SetAmount "8")).
  - apply sample_log_honest.
  - vm_compute. reflexivity.
  - intros H. vm_compute in H. discriminate H.
  - reflexivity.
  - intros H. vm_compute in H. discriminate H.
Defined.

(** *** The commitment *)

(** C2, the claim as written fails on the balance-polling revision: its
    entries have no source signature, and [computeEntryHash] joins ten
    fields without a placeholder for the eleventh. *)
Lemma balance_polling_hash_omits_signature :
  exists e,
    BalancePolling.entries sample_log_bp !! 0%nat = Some e
    /\ BalancePolling.computeEntryHash e <> commitment (listed_fields_bp e).
Proof.
  eexists. split; [vm_compute; reflexivity|].
  intros H. vm_compute in H. discriminate H.
Qed.

(** C2 (as amended).  In the transaction-sourced revision the commitment
    is the SHA-256 of the pipe-joined sequence, prevHash, eventType,
    vaultType, vault, amount, balanceBefore, balanceAfter, slot, timestamp
    and txSignature, in that order, and an empty txSignature still takes
    its place after the last separator.  In the balance-polling revision
    the commitment is the SHA-256 of the first ten of these, joined the
    same way, the source signature left out. *)
Theorem computeEntryHash_commits_to_listed_fields :
  (forall e, TxSourced.computeEntryHash e = commitment (listed_fields_tx e))
  /\ (forall e, TxSourced.computeEntryHash (mutate (SetTxSignature "") e)
                = commitment (<[10%nat:=None]> (listed_fields_tx e)))
  /\ (forall e, BalancePolling.computeEntryHash e
                = commitment (removelast (listed_fields_bp e))).
Proof.
  repeat split; intros []; reflexivity.
Qed.

(** *** What one extraction changes *)

Lemma frame_refl (d : TxSourced.Daemon) : frame d d.
Proof. repeat split. Qed.

Lemma frame_trans (a b c : TxSourced.Daemon) : frame a b -> frame b c -> frame a c.
Proof.
  unfold frame. intros (A1 & A2 & A3 & A4 & A5 & A6) (B1 & B2 & B3 & B4 & B5 & B6).
  repeat split; congruence.
Qed.

Lemma pushed_nothing (d d' : TxSourced.Daemon) (sig : string) (vt : VaultType) :
  TxSourced.log_entries d' = TxSourced.log_entries d -> pushed d d' sig vt.
Proof.
  intros H. exists []. rewrite app_nil_r.
  split; [exact H|]. split; [simpl; lia | constructor].
Qed.

Lemma saveHistory_frame (now : string) (d : TxSourced.Daemon) :
  frame d (TxSourced.saveHistory now d)
  /\ TxSourced.log_entries (TxSourced.saveHistory now d) = TxSourced.log_entries d
  /\ TxSourced.bcFees (TxSourced.saveHistory now d) = TxSourced.bcFees d
  /\ TxSourced.ammFees (TxSourced.saveHistory now d) = TxSourced.ammFees d.
Proof.
  unfold TxSourced.saveHistory, TxSourced.log_entries, frame.
  destruct (TxSourced.historyLog d) as [l|] eqn:Hl; [|rewrite Hl; repeat split].
  destruct (truthy _); [repeat split | rewrite Hl; repeat split].
Qed.

Lemma recordFee_effect now d vt vault delta pre post sl ts sig :
  let d' := TxSourced.recordFee now d vt vault delta pre post sl ts sig in
  frame d d' /\ pushed d d' sig vt
  /\ TxSourced.bcFees d' = TxSourced.bcFees d
  /\ TxSourced.ammFees d' = TxSourced.ammFees d.
Proof.
  unfold TxSourced.recordFee.
  destruct (TxSourced.feeCallbackReturns _ _ _ _);
    [|repeat split; try apply pushed_nothing; reflexivity].
  destruct (TxSourced.historyLog d) as [l|] eqn:Hl;
    [|repeat split; try apply pushed_nothing; reflexivity].
  destruct (TxSourced.createHistoryEntry _ _ _ _ _ _ _ _ _ _) as [e|] eqn:He;
    [|repeat split; try apply pushed_nothing; reflexivity].
  apply createHistoryEntry_tx_spec in He as (_ & _ & _ & Hvt & Hsig).
  unfold TxSourced.pushEntry.
  destruct (saveHistory_frame now
              (TxSourced.with_historyLog d
                 (Some (TxSourced.with_entries l (TxSourced.entries l ++ [e])%list))))
    as (Hf & Hent & Hbc & Hamm).
  cbv zeta. split; [exact Hf|]. split; [|split; [exact Hbc | exact Hamm]].
  exists [e]. rewrite Hent. unfold TxSourced.log_entries at 2. rewrite Hl.
  split; [reflexivity|]. split; [simpl; lia|]. repeat constructor; assumption.
Qed.

Lemma processTransaction_effect now d vt vault sig answer :
  let d' := TxSourced.processTransaction now d vt vault sig answer in
  frame d d' /\ pushed d d' (TxSourced.signature sig) vt
  /\ TxSourced.ammFees d' = TxSourced.ammFees d.
Proof.
  unfold TxSourced.processTransaction.
  repeat case_match;
    try (split; [apply frame_refl | split; [now apply pushed_nothing | reflexivity]]).
  match goal with
  | |- context [TxSourced.recordFee ?n ?d0 ?v ?va ?de ?pr ?po ?sl ?ts ?sg] =>
      destruct (recordFee_effect n d0 v va de pr po sl ts sg) as (Hf & Hp & _ & Ha)
  end.
  cbv zeta. split; [exact Hf|]. split; [exact Hp | exact Ha].
Qed.

Lemma processAMMTransaction_effect now d vault sig answer :
  let d' := TxSourced.processAMMTransaction now d vault sig answer in
  frame d d' /\ pushed d d' (TxSourced.signature sig) AMM.
Proof.
  unfold TxSourced.processAMMTransaction.
  repeat case_match;
    try (split; [apply frame_refl | now apply pushed_nothing]).
  match goal with
  | |- context [TxSourced.recordFee ?n ?d0 ?v ?va ?de ?pr ?po ?sl ?ts ?sg] =>
      destruct (recordFee_effect n d0 v va de pr po sl ts sg) as (Hf & Hp & _)
  end.
  cbv zeta. split; [exact Hf | exact Hp].
Qed.

(** *** The scan of the signature list *)

Lemma newSigs_yielded (lastSeen : string) (processed : gset string)
      (sigs : list TxSourced.SigInfo) :
  List.rev (TxSourced.newSigs lastSeen processed sigs) = yielded lastSeen processed sigs.
Proof.
  unfold yielded. f_equal.
  induction sigs as [|s sigs IH]; simpl; [reflexivity|].
  destruct (String.eqb _ _); [reflexivity|]. simpl.
  destruct (bool_decide _); simpl; now rewrite IH.
Qed.

Lemma newSigs_In (lastSeen : string) (processed : gset string)
      (sigs : list TxSourced.SigInfo) (s : TxSourced.SigInfo) :
  In s (TxSourced.newSigs lastSeen processed sigs) ->
  In s sigs /\ (TxSourced.signature s ∉ processed)
  /\ TxSourced.signature s <> lastSeen.
Proof.
  induction sigs as [|a sigs IH]; simpl; [tauto|].
  destruct (String.eqb_spec (TxSourced.signature a) lastSeen); [simpl; tauto|].
  destruct (bool_decide_reflect (TxSourced.signature a ∈ processed)).
  - intros H. destruct (IH H) as (A & B & C). auto.
  - intros [<-|H]; [auto|]. destruct (IH H) as (A & B & C). auto.
Qed.

Lemma elem_of_map_signature (x : string) (l : list TxSourced.SigInfo) :
  x ∈ List.map TxSourced.signature l <-> exists s, TxSourced.signature s = x /\ In s l.
Proof. rewrite list_elem_of_In. apply in_map_iff. Qed.

Lemma newSigs_NoDup (lastSeen : string) (processed : gset string)
      (sigs : list TxSourced.SigInfo) :
  NoDup (List.map TxSourced.signature sigs) ->
  NoDup (List.map TxSourced.signature (TxSourced.newSigs lastSeen processed sigs)).
Proof.
  induction sigs as [|a sigs IH]; simpl; intros Hnd; [constructor|].
  apply NoDup_cons in Hnd as [Hnotin Hnd].
  destruct (String.eqb _ _); [constructor|].
  destruct (bool_decide _); [auto|].
  simpl. apply NoDup_cons. split; [|auto].
  intros Hin. apply Hnotin. apply elem_of_map_signature in Hin as (x & Hx & Hin).
  apply elem_of_map_signature. exists x. split; [exact Hx|].
  now apply newSigs_In in Hin.
Qed.

(** *** Folding a pipeline over the yielded signatures *)

Lemma extends_refl (d : TxSourced.Daemon) : extends d d.
Proof.
  exists []. rewrite app_nil_r. split; [reflexivity|]. split; [constructor|].
  split; [|set_solver]. intros e He. inversion He.
Qed.

Lemma extends_trans (a b c : TxSourced.Daemon) :
  extends a b -> extends b c -> extends a c.
Proof.
  intros (n1 & E1 & N1 & S1 & P1) (n2 & E2 & N2 & S2 & P2).
  exists (n1 ++ n2)%list. split; [rewrite E2, E1; now rewrite app_assoc|].
  split.
  - rewrite map_app. apply NoDup_app. split; [exact N1|]. split; [|exact N2].
    intros x Hx1 Hx2.
    apply list_elem_of_In, in_map_iff in Hx1 as (e1 & <- & He1).
    apply list_elem_of_In, in_map_iff in Hx2 as (e2 & Heq & He2).
    apply list_elem_of_In in He1. apply list_elem_of_In in He2.
    destruct (S1 e1 He1) as [_ Hin]. destruct (S2 e2 He2) as [Hout _].
    apply Hout. now rewrite Heq.
  - split; [|set_solver]. intros e He. apply elem_of_app in He as [He|He].
    + destruct (S1 e He). split; [auto | set_solver].
    + destruct (S2 e He). split; [set_solver | auto].
Qed.

Lemma keeps_refl (d : TxSourced.Daemon) : keeps d d.
Proof. repeat split. Qed.

Lemma keeps_trans (a b c : TxSourced.Daemon) : keeps a b -> keeps b c -> keeps a c.
Proof.
  unfold keeps. intros (A1 & A2 & A3 & A4 & A5) (B1 & B2 & B3 & B4 & B5).
  repeat split; congruence.
Qed.

Section Pipeline.
Variable step : TxSourced.Daemon -> TxSourced.SigInfo -> TxSourced.Daemon.
Variable vt : VaultType.
Hypothesis step_pushed :
  forall d s, pushed d (step d s) (TxSourced.signature s) vt.
Hypothesis step_marks :
  forall d s, TxSourced.processedTxs (step d s)
              = ({[ TxSourced.signature s ]} ∪ TxSourced.processedTxs d).
Lemma step_extends (d : TxSourced.Daemon) (s : TxSourced.SigInfo) :
  TxSourced.signature s ∉ TxSourced.processedTxs d -> extends d (step d s).
Proof.
  intros Hfresh. destruct (step_pushed d s) as (new & E & Hlen & Hall).
  exists new. split; [exact E|]. split.
  - destruct new as [|e [|e' new]]; simpl in Hlen |- *; [constructor | | lia].
    apply NoDup_singleton.
  - rewrite step_marks. split; [|set_solver].
    intros e He. rewrite Forall_forall in Hall.
    destruct (Hall e He) as [-> _]. split; [exact Hfresh | set_solver].
Qed.

Lemma fold_extends (l : list TxSourced.SigInfo) (d : TxSourced.Daemon) :
  NoDup (List.map TxSourced.signature l) ->
  (forall s, In s l -> TxSourced.signature s ∉ TxSourced.processedTxs d) ->
  extends d (List.fold_left step l d).
Proof.
  revert d. induction l as [|s l IH]; intros d Hnd Hfresh; simpl;
    [apply extends_refl|].
  apply NoDup_cons in Hnd as [Hnotin Hnd].
  eapply extends_trans; [apply step_extends, Hfresh; now left|].
  apply IH; [exact Hnd|]. intros s' Hs'. rewrite step_marks.
  intros Hin. apply elem_of_union in Hin as [Hin|Hin].
  - apply elem_of_singleton in Hin. apply Hnotin.
    apply elem_of_map_signature. exists s'. auto.
  - revert Hin. apply Hfresh. now right.
Qed.

Hypothesis step_keeps : forall d s, keeps d (step d s).

Lemma fold_keeps (l : list TxSourced.SigInfo) (d : TxSourced.Daemon) :
  keeps d (List.fold_left step l d).
Proof.
  revert d. induction l as [|s l IH]; intros d; simpl; [apply keeps_refl|].
  eapply keeps_trans; [apply step_keeps | apply IH].
Qed.

Lemma fold_pushed (l : list TxSourced.SigInfo) (d : TxSourced.Daemon) :
  exists new,
    TxSourced.log_entries (List.fold_left step l d)
    = (TxSourced.log_entries d ++ new)%list
    /\ Forall (fun e => TxSourced.vaultType e = vt) new.
Proof.
  revert d. induction l as [|s l IH]; intros d; simpl.
  - exists []. rewrite app_nil_r. split; [reflexivity | constructor].
  - destruct (step_pushed d s) as (n1 & E1 & _ & A1).
    destruct (IH (step d s)) as (n2 & E2 & A2).
    exists (n1 ++ n2)%list. rewrite E2, E1, <- app_assoc.
    split; [reflexivity|].
    apply Forall_app. split; [|exact A2].
    eapply Forall_impl; [exact A1|]. simpl. tauto.
Qed.
End Pipeline.

(** *** The two pipelines *)

Lemma frame_keeps (d d' : TxSourced.Daemon) : frame d d' -> keeps d d'.
Proof. unfold frame, keeps. tauto. Qed.

Lemma stepBC_pushed now getTx vt vault d s :
  pushed d (stepBC now getTx vt vault d s) (TxSourced.signature s) vt.
Proof.
  destruct (processTransaction_effect now d vt vault s (getTx (TxSourced.signature s)))
    as (_ & H & _). exact H.
Qed.

Lemma stepBC_keeps now getTx vt vault d s : keeps d (stepBC now getTx vt vault d s).
Proof.
  destruct (processTransaction_effect now d vt vault s (getTx (TxSourced.signature s)))
    as (H & _). apply frame_keeps in H. exact H.
Qed.

Lemma stepBC_marks now getTx vt vault d s :
  TxSourced.processedTxs (stepBC now getTx vt vault d s)
  = ({[ TxSourced.signature s ]} ∪ TxSourced.processedTxs d).
Proof.
  destruct (processTransaction_effect now d vt vault s (getTx (TxSourced.signature s)))
    as ((_ & _ & _ & _ & _ & H) & _). unfold stepBC. simpl. now rewrite H.
Qed.

Lemma stepBC_ammFees now getTx vt vault l d :
  TxSourced.ammFees (List.fold_left (stepBC now getTx vt vault) l d)
  = TxSourced.ammFees d.
Proof.
  revert d. induction l as [|s l IH]; intros d; simpl; [reflexivity|].
  rewrite IH.
  destruct (processTransaction_effect now d vt vault s (getTx (TxSourced.signature s)))
    as (_ & _ & H). exact H.
Qed.

Lemma stepAMM_pushed now getTx vault d s :
  pushed d (stepAMM now getTx vault d s) (TxSourced.signature s) AMM.
Proof.
  destruct (processAMMTransaction_effect now d vault s (getTx (TxSourced.signature s)))
    as (_ & H). exact H.
Qed.

Lemma stepAMM_keeps now getTx vault d s : keeps d (stepAMM now getTx vault d s).
Proof.
  destruct (processAMMTransaction_effect now d vault s (getTx (TxSourced.signature s)))
    as (H & _). apply frame_keeps in H. exact H.
Qed.

Lemma stepAMM_marks now getTx vault d s :
  TxSourced.processedTxs (stepAMM now getTx vault d s)
  = ({[ TxSourced.signature s ]} ∪ TxSourced.processedTxs d).
Proof.
  destruct (processAMMTransaction_effect now d vault s (getTx (TxSourced.signature s)))
    as ((_ & _ & _ & _ & _ & H) & _). unfold stepAMM. simpl. now rewrite H.
Qed.

Lemma match_rev {A B} (ns : list A) (d : B) (F : list A -> B) :
  match ns with [] => d | a :: l => F (List.rev (a :: l)) end
  = match List.rev ns with [] => d | y :: ys => F (y :: ys) end.
Proof.
  destruct ns as [|a l]; [reflexivity|].
  destruct (List.rev (a :: l)) as [|y ys] eqn:R; [|reflexivity].
  apply (f_equal (@List.length _)) in R. rewrite length_rev in R. discriminate.
Qed.

(** The native vault's poll on an initialised cursor, in terms of the
    yielded signatures. *)
Lemma pollVaultTransactions_yielded now d vt vault lastSeen newest rest getTx :
  TxSourced.lastBCSignature d = Some lastSeen ->
  lastSeen <> "" ->
  TxSourced.pollVaultTransactions now d vt vault (Returns (newest :: rest)) getTx
  = match yielded lastSeen (TxSourced.processedTxs d) (newest :: rest) with
    | [] => d
    | ys => TxSourced.with_lastBCSignature
              (List.fold_left (stepBC now getTx vt vault) ys d)
              (Some (TxSourced.signature newest))
    end.
Proof.
  intros Hlast Hne. unfold TxSourced.pollVaultTransactions. rewrite Hlast.
  apply String.eqb_neq in Hne. rewrite Hne.
  rewrite <- newSigs_yielded.
  exact (match_rev (TxSourced.newSigs lastSeen (TxSourced.processedTxs d) (newest :: rest))
           d (fun ys => TxSourced.with_lastBCSignature
                          (List.fold_left (stepBC now getTx vt vault) ys d)
                          (Some (TxSourced.signature newest)))).
Qed.

Lemma pollAMMVaultTransactions_yielded now d t lastSeen newest rest getTx :
  TxSourced.tokenInfo d = Some t ->
  TxSourced.lastAMMSignature d = Some lastSeen ->
  lastSeen <> "" ->
  TxSourced.pollAMMVaultTransactions now d (Returns (newest :: rest)) getTx
  = match yielded lastSeen (TxSourced.processedTxs d) (newest :: rest) with
    | [] => d
    | ys => TxSourced.with_lastAMMSignature
              (List.fold_left (stepAMM now getTx (TxSourced.ti_creatorVaultAMM t)) ys d)
              (Some (TxSourced.signature newest))
    end.
Proof.
  intros Ht Hlast Hne. unfold TxSourced.pollAMMVaultTransactions. rewrite Ht, Hlast.
  apply String.eqb_neq in Hne. rewrite Hne.
  rewrite <- newSigs_yielded.
  exact (match_rev (TxSourced.newSigs lastSeen (TxSourced.processedTxs d) (newest :: rest))
           d (fun ys => TxSourced.with_lastAMMSignature
                          (List.fold_left
                             (stepAMM now getTx (TxSourced.ti_creatorVaultAMM t)) ys d)
                          (Some (TxSourced.signature newest)))).
Qed.

Example sample_log_file :
  SHA256.hex (JSON.stringify (TxSourced.document sample_log))
  = "bed0f58e2a1c654c15fc68ab1344311b1c4df0ef78f389e1095b177b06087132"
  /\ TxSourced.loadHistoryLog (Some (JSON.stringify (TxSourced.document sample_log)))
     = Some sample_log.
Proof. vm_compute. split; reflexivity. Qed.

Example sample_poll :
  List.map TxSourced.txSignature
           (TxSourced.log_entries (TxSourced.poll sample_daemon sample_tick))
  = ["S4"; "S5"]
  /\ List.map TxSourced.amount
              (TxSourced.log_entries (TxSourced.poll sample_daemon sample_tick))
     = ["500000"; "7"]
  /\ TxSourced.lastBCSignature (TxSourced.poll sample_daemon sample_tick) = Some "S5"
  /\ TxSourced.bcFees (TxSourced.poll sample_daemon sample_tick) = 500007
  /\ TxSourced.verifyHistoryChain
       (default sample_fresh
          (TxSourced.historyLog (TxSourced.poll sample_daemon sample_tick)))
     = verified.
Proof. vm_compute. repeat split. Qed.

Lemma yielded_fresh (lastSeen : string) (processed : gset string)
      (sigs : list TxSourced.SigInfo) :
  NoDup (List.map TxSourced.signature sigs) ->
  NoDup (List.map TxSourced.signature (yielded lastSeen processed sigs))
  /\ forall s, In s (yielded lastSeen processed sigs) ->
               TxSourced.signature s ∉ processed.
Proof.
  intros Hnd. rewrite <- newSigs_yielded. split.
  - rewrite map_rev. apply NoDup_ListNoDup, List.NoDup_rev, NoDup_ListNoDup.
    now apply newSigs_NoDup.
  - intros s Hs. apply in_rev in Hs. now apply newSigs_In in Hs.
Qed.

Lemma extends_same (d d' : TxSourced.Daemon) :
  TxSourced.log_entries d' = TxSourced.log_entries d ->
  TxSourced.processedTxs d' = TxSourced.processedTxs d ->
  extends d d'.
Proof.
  intros E P. exists []. rewrite app_nil_r. split; [exact E|].
  split; [constructor|]. split; [intros e He; inversion He | now rewrite P].
Qed.

Lemma extends_cursor (d d' d'' : TxSourced.Daemon) :
  extends d d' ->
  TxSourced.log_entries d'' = TxSourced.log_entries d' ->
  TxSourced.processedTxs d'' = TxSourced.processedTxs d' ->
  extends d d''.
Proof.
  intros H E P. eapply extends_trans; [exact H | now apply extends_same].
Qed.

Lemma pollVaultTransactions_extends now d vt vault sigs getTx :
  distinct_signatures sigs ->
  extends d (TxSourced.pollVaultTransactions now d vt vault sigs getTx).
Proof.
  intros Hd. destruct sigs as [|[|newest rest]]; try apply extends_refl.
  destruct (TxSourced.lastBCSignature d) as [lastSeen|] eqn:Hlast.
  - destruct (String.eqb_spec lastSeen "") as [->|Hne].
    + unfold TxSourced.pollVaultTransactions. rewrite Hlast.
      now apply extends_same.
    + rewrite (pollVaultTransactions_yielded _ _ _ _ lastSeen) by assumption.
      destruct (yielded_fresh lastSeen (TxSourced.processedTxs d) (newest :: rest) Hd)
        as [Hnd Hfresh].
      destruct (yielded _ _ _) as [|y ys]; [apply extends_refl|].
      eapply extends_cursor; [|reflexivity|reflexivity].
      apply (fold_extends _ vt (stepBC_pushed now getTx vt vault)
               (stepBC_marks now getTx vt vault) (y :: ys) d Hnd Hfresh).
  - unfold TxSourced.pollVaultTransactions. rewrite Hlast. now apply extends_same.
Qed.

Lemma pollAMMVaultTransactions_extends now d sigs getTx :
  distinct_signatures sigs ->
  extends d (TxSourced.pollAMMVaultTransactions now d sigs getTx).
Proof.
  intros Hd. destruct (TxSourced.tokenInfo d) as [t|] eqn:Ht;
    [|unfold TxSourced.pollAMMVaultTransactions; rewrite Ht; apply extends_refl].
  destruct sigs as [|[|newest rest]];
    try (unfold TxSourced.pollAMMVaultTransactions; rewrite Ht; apply extends_refl).
  destruct (TxSourced.lastAMMSignature d) as [lastSeen|] eqn:Hlast.
  - destruct (String.eqb_spec lastSeen "") as [->|Hne].
    + unfold TxSourced.pollAMMVaultTransactions. rewrite Ht, Hlast.
      now apply extends_same.
    + rewrite (pollAMMVaultTransactions_yielded _ _ t lastSeen) by assumption.
      destruct (yielded_fresh lastSeen (TxSourced.processedTxs d) (newest :: rest) Hd)
        as [Hnd Hfresh].
      destruct (yielded _ _ _) as [|y ys]; [apply extends_refl|].
      eapply extends_cursor; [|reflexivity|reflexivity].
      apply (fold_extends _ AMM (stepAMM_pushed now getTx _)
               (stepAMM_marks now getTx _) (y :: ys) d Hnd Hfresh).
  - unfold TxSourced.pollAMMVaultTransactions. rewrite Ht, Hlast.
    now apply extends_same.
Qed.

(** The migration check leaves the ledger entries, the processed set, the
    cursors and the fee totals as they are. *)
Lemma checkMigration_effect now d account :
  let d' := TxSourced.checkMigration now d account in
  TxSourced.log_entries d' = TxSourced.log_entries d
  /\ TxSourced.processedTxs d' = TxSourced.processedTxs d
  /\ TxSourced.lastBCSignature d' = TxSourced.lastBCSignature d
  /\ TxSourced.lastAMMSignature d' = TxSourced.lastAMMSignature d
  /\ TxSourced.ammFees d' = TxSourced.ammFees d
  /\ TxSourced.running d' = TxSourced.running d
  /\ (TxSourced.tokenInfo d = None -> TxSourced.tokenInfo d' = None).
Proof.
  unfold TxSourced.checkMigration.
  repeat case_match;
    try (repeat split; try reflexivity; intros; congruence); subst.
  match goal with
  | |- context [TxSourced.saveHistory ?n ?d0] =>
      destruct (saveHistory_frame n d0) as ((_ & A2 & A3 & A4 & A5 & A6) & B & _ & C)
  end.
  cbv zeta. rewrite B, A2, A4, A5, A6, C.
  unfold TxSourced.log_entries. simpl.
  match goal with H : TxSourced.historyLog _ = Some _ |- _ => simpl in H; rewrite H end.
  repeat split; try reflexivity. intros; congruence.
Qed.

Lemma checkMigration_extends now d account :
  extends d (TxSourced.checkMigration now d account).
Proof.
  destruct (checkMigration_effect now d account) as (E & P & _).
  now apply extends_same.
Qed.

Lemma poll_extends (d : TxSourced.Daemon) (k : TxSourced.Tick) :
  well_formed_tick k -> extends d (TxSourced.poll d k).
Proof.
  intros [Hbc Hamm]. unfold TxSourced.poll.
  destruct (TxSourced.tokenInfo d) as [t|]; [|apply extends_refl].
  destruct (TxSourced.running d); [|apply extends_refl].
  set (d1 := if negb (TxSourced.ti_migrated t) then _ else d).
  assert (H1 : extends d d1).
  { subst d1. destruct (negb _); [apply checkMigration_extends | apply extends_refl]. }
  set (d2 := TxSourced.pollVaultTransactions _ d1 _ _ _ _).
  assert (H2 : extends d1 d2) by now apply pollVaultTransactions_extends.
  destruct (TxSourced.isMigrated d2).
  - eapply extends_trans; [exact H1|]. eapply extends_trans; [exact H2|].
    now apply pollAMMVaultTransactions_extends.
  - eapply extends_trans; eauto.
Qed.

Lemma run_extends (ticks : list TxSourced.Tick) (d : TxSourced.Daemon) :
  Forall well_formed_tick ticks -> extends d (TxSourced.run d ticks).
Proof.
  revert d. induction ticks as [|k ticks IH]; intros d Hwf; simpl;
    [apply extends_refl|].
  inversion Hwf as [|? ? Hk Hks]; subst.
  apply (extends_trans d (TxSourced.poll d k));
    [apply poll_extends; exact Hk | apply IH; exact Hks].
Qed.

Lemma extends_restored (d d' : TxSourced.Daemon) :
  restored d -> extends d d' -> restored d'.
Proof.
  intros Hr (new & E & _ & S & P) e He. rewrite E in He.
  apply elem_of_app in He as [He|He]; [|now apply S].
  apply P. now apply Hr.
Qed.

Lemma restore_effect (es : list TxSourced.HistoryEntry) (d d' : TxSourced.Daemon)
      (ok : bool) :
  TxSourced.restore d es = (d', ok) ->
  TxSourced.historyLog d' = TxSourced.historyLog d
  /\ TxSourced.tokenInfo d' = TxSourced.tokenInfo d
  /\ TxSourced.config d' = TxSourced.config d
  /\ TxSourced.processedTxs d ⊆ TxSourced.processedTxs d'
  /\ (ok = true -> forall e, e ∈ es ->
        TxSourced.txSignature e ∈ TxSourced.processedTxs d').
Proof.
  revert d. induction es as [|e es IH]; intros d; simpl.
  - intros [= <- <-]. repeat split; auto. intros _ e He. inversion He.
  - destruct (BigInt (TxSourced.amount e)) as [a|].
    + intros H. apply IH in H as (A & B & C & D & E).
      assert (Hd2 : forall d2,
                 d2 = match TxSourced.eventType e with
                      | FEE => if (a >? 0)%Z
                               then match TxSourced.vaultType e with
                                    | BC => TxSourced.with_bcFees
                                              (TxSourced.with_processedTxs d
                                                 ({[TxSourced.txSignature e]}
                                                    ∪ TxSourced.processedTxs d))
                                              (TxSourced.bcFees d + a)
                                    | AMM => TxSourced.with_ammFees
                                               (TxSourced.with_processedTxs d
                                                  ({[TxSourced.txSignature e]}
                                                     ∪ TxSourced.processedTxs d))
                                               (TxSourced.ammFees d + a)
                                    end
                               else TxSourced.with_processedTxs d
                                      ({[TxSourced.txSignature e]}
                                         ∪ TxSourced.processedTxs d)
                      | _ => TxSourced.with_processedTxs d
                               ({[TxSourced.txSignature e]} ∪ TxSourced.processedTxs d)
                      end ->
                 TxSourced.historyLog d2 = TxSourced.historyLog d
                 /\ TxSourced.tokenInfo d2 = TxSourced.tokenInfo d
                 /\ TxSourced.config d2 = TxSourced.config d
                 /\ TxSourced.processedTxs d2
                    = ({[TxSourced.txSignature e]} ∪ TxSourced.processedTxs d)).
      { intros d2 ->. repeat case_match; repeat split. }
      destruct (Hd2 _ eq_refl) as (A' & B' & C' & D').
      rewrite A, B, C, A', B', C'. rewrite D' in D.
      split; [reflexivity|]. split; [reflexivity|]. split; [reflexivity|].
      split; [set_solver|]. intros Hok x Hx.
      apply elem_of_cons in Hx as [->|Hx]; [set_solver | now apply E].
    + intros [= <- <-]. simpl. repeat split; auto; [set_solver | discriminate].
Qed.

Lemma initializeHistory_restored (now : string) (d : TxSourced.Daemon) :
  TxSourced.historyLog d = None ->
  restored (TxSourced.initializeHistory now d).
Proof.
  intros Hnone.
  assert (Hfresh : forall d0 t,
             restored (TxSourced.saveHistory now
                         (TxSourced.with_historyLog d0
                            (Some (TxSourced.freshLog t now))))).
  { intros d0 t e He.
    destruct (saveHistory_frame now
                (TxSourced.with_historyLog d0 (Some (TxSourced.freshLog t now))))
      as (_ & E & _).
    rewrite E in He. inversion He. }
  unfold TxSourced.initializeHistory.
  destruct (TxSourced.tokenInfo d) as [t|].
  - destruct (truthy _ && _); [|apply Hfresh].
    destruct (TxSourced.loadHistoryLog _) as [l|]; [|apply Hfresh].
    destruct (TxSourced.restore _ _) as [d' [|]] eqn:R; [|apply Hfresh].
    apply restore_effect in R as (A & _ & _ & _ & E).
    intros e He. unfold TxSourced.log_entries in He. rewrite A in He.
    simpl in He. now apply E.
  - intros e He. unfold TxSourced.log_entries in He. rewrite Hnone in He.
    inversion He.
Qed.

(** *** Exactly-once processing *)

(** C5 (as amended).  Over any run of poll ticks, taken one after the
    other, whose signature lists name each transaction once, from a state
    whose processed set holds the signatures of the loaded history, the
    entries appended carry pairwise distinct source signatures, none of
    which was in the processed set at the start: at most one entry per
    signature is ever appended.  The scan skips a signature that is in the
    processed set, every processed signature is added to the set, and
    [initializeHistory] puts the signature of each loaded entry there. *)
Theorem each_signature_is_appended_at_most_once :
  (forall now d0, TxSourced.historyLog d0 = None ->
                  restored (TxSourced.initializeHistory now d0))
  /\ (forall d ticks,
         restored d ->
         Forall well_formed_tick ticks ->
         exists new,
           TxSourced.log_entries (TxSourced.run d ticks)
           = (TxSourced.log_entries d ++ new)%list
           /\ NoDup (List.map TxSourced.txSignature new)
           /\ (forall e, e ∈ new ->
                         TxSourced.txSignature e ∉ TxSourced.processedTxs d)
           /\ restored (TxSourced.run d ticks)
           /\ TxSourced.processedTxs d ⊆ TxSourced.processedTxs (TxSourced.run d ticks))
  /\ (forall lastSeen processed sigs s,
         In s (TxSourced.newSigs lastSeen processed sigs) ->
         TxSourced.signature s ∉ processed)
  /\ (forall now getTx vt vault d s,
         TxSourced.signature s
         ∈ TxSourced.processedTxs (stepBC now getTx vt vault d s))
  /\ (forall now getTx vault d s,
         TxSourced.signature s
         ∈ TxSourced.processedTxs (stepAMM now getTx vault d s)).
Proof.
  split; [exact initializeHistory_restored|]. split; [|split; [|split]].
  - intros d ticks Hr Hwf.
    pose proof (run_extends ticks d Hwf) as Hext.
    pose proof (extends_restored _ _ Hr Hext) as Hr'.
    destruct Hext as (new & E & N & S & P).
    exists new. repeat split; auto. intros e He. now destruct (S e He).
  - intros lastSeen processed sigs s Hs. now apply newSigs_In in Hs.
  - intros. rewrite stepBC_marks. set_solver.
  - intros. rewrite stepAMM_marks. set_solver.
Qed.

Lemma each_signature_is_appended_at_most_once_witness :
  restored sample_daemon
  /\ Forall well_formed_tick [sample_tick; sample_tick]
  /\ exists new,
       TxSourced.log_entries (TxSourced.run sample_daemon [sample_tick; sample_tick])
       = (TxSourced.log_entries sample_daemon ++ new)%list
       /\ NoDup (List.map TxSourced.txSignature new).
Proof.
  assert (Hr : restored sample_daemon).
  { intros e He. vm_compute in He. inversion He. }
  assert (Hwf : Forall well_formed_tick [sample_tick; sample_tick]).
  { repeat constructor; compute_done. }
  split; [exact Hr|]. split; [exact Hwf|].
  destruct each_signature_is_appended_at_most_once as (_ & Hrun & _).
  destruct (Hrun sample_daemon [sample_tick; sample_tick] Hr Hwf)
    as (new & E & N & _).
  exists new. split; [exact E | exact N].
Defined.

(** C5, the claim as written fails: the scan tests the processed set as it
    stood before the loop that adds to it, so a signature that one answer
    lists twice is processed twice, and the ledger gets two entries with
    that source signature and the fee is counted twice. *)
Lemma signature_listed_twice_is_appended_twice :
  exists e1 e2,
    restored sample_daemon
    /\ TxSourced.log_entries (TxSourced.run sample_daemon [sample_tick_listing_twice])
       = [e1; e2]
    /\ TxSourced.txSignature e1 = "S4"
    /\ TxSourced.txSignature e2 = "S4"
    /\ TxSourced.bcFees (TxSourced.run sample_daemon [sample_tick_listing_twice])
       = 500000 + 500000.
Proof.
  eexists _, _. split.
  - intros e He. vm_compute in He. inversion He.
  - split; [vm_compute; reflexivity|]. repeat split; vm_compute; reflexivity.
Qed.

(** *** The signature cursor *)

(** What the native vault's poll leaves alone, whatever the cursor. *)
Lemma pollVaultTransactions_effect now d vt vault sigs getTx :
  let d' := TxSourced.pollVaultTransactions now d vt vault sigs getTx in
  TxSourced.lastAMMSignature d' = TxSourced.lastAMMSignature d
  /\ TxSourced.tokenInfo d' = TxSourced.tokenInfo d
  /\ TxSourced.ammFees d' = TxSourced.ammFees d
  /\ exists new,
       TxSourced.log_entries d' = (TxSourced.log_entries d ++ new)%list
       /\ Forall (fun e => TxSourced.vaultType e = vt) new.
Proof.
  assert (Hsame : forall x,
             TxSourced.lastAMMSignature (TxSourced.with_lastBCSignature d x)
             = TxSourced.lastAMMSignature d
             /\ TxSourced.tokenInfo (TxSourced.with_lastBCSignature d x)
                = TxSourced.tokenInfo d
             /\ TxSourced.ammFees (TxSourced.with_lastBCSignature d x)
                = TxSourced.ammFees d
             /\ exists new,
                 TxSourced.log_entries (TxSourced.with_lastBCSignature d x)
                 = (TxSourced.log_entries d ++ new)%list
                 /\ Forall (fun e => TxSourced.vaultType e = vt) new).
  { intros x. repeat split. exists []. now rewrite app_nil_r. }
  assert (Hid : TxSourced.lastAMMSignature d = TxSourced.lastAMMSignature d
                /\ TxSourced.tokenInfo d = TxSourced.tokenInfo d
                /\ TxSourced.ammFees d = TxSourced.ammFees d
                /\ exists new,
                    TxSourced.log_entries d = (TxSourced.log_entries d ++ new)%list
                    /\ Forall (fun e => TxSourced.vaultType e = vt) new).
  { repeat split. exists []. now rewrite app_nil_r. }
  destruct sigs as [|[|newest rest]]; try exact Hid.
  destruct (TxSourced.lastBCSignature d) as [lastSeen|] eqn:Hlast.
  - destruct (String.eqb_spec lastSeen "") as [->|Hne].
    + unfold TxSourced.pollVaultTransactions. rewrite Hlast. apply Hsame.
    + cbv zeta.
      rewrite (pollVaultTransactions_yielded _ _ _ _ lastSeen) by assumption.
      destruct (yielded _ _ _) as [|y ys]; [exact Hid|].
      pose proof (fold_keeps _ (stepBC_keeps now getTx vt vault) (y :: ys) d)
        as (_ & _ & Ht & _ & Ha).
      pose proof (stepBC_ammFees now getTx vt vault (y :: ys) d) as Hf.
      pose proof (fold_pushed _ vt (stepBC_pushed now getTx vt vault) (y :: ys) d)
        as Hp.
      split; [exact Ha|]. split; [exact Ht|]. split; [exact Hf | exact Hp].
  - unfold TxSourced.pollVaultTransactions. rewrite Hlast. apply Hsame.
Qed.

Lemma pollAMMVaultTransactions_tokenInfo now d sigs getTx :
  TxSourced.tokenInfo (TxSourced.pollAMMVaultTransactions now d sigs getTx)
  = TxSourced.tokenInfo d.
Proof.
  destruct (TxSourced.tokenInfo d) as [t|] eqn:Ht;
    [|unfold TxSourced.pollAMMVaultTransactions; now rewrite Ht].
  destruct sigs as [|[|newest rest]];
    try (unfold TxSourced.pollAMMVaultTransactions; now rewrite Ht).
  destruct (TxSourced.lastAMMSignature d) as [lastSeen|] eqn:Hlast.
  - destruct (String.eqb_spec lastSeen "") as [->|Hne].
    + unfold TxSourced.pollAMMVaultTransactions. now rewrite Ht, Hlast.
    + rewrite (pollAMMVaultTransactions_yielded _ _ t lastSeen) by assumption.
      destruct (yielded _ _ _) as [|y ys]; [exact Ht|].
      pose proof (fold_keeps _ (stepAMM_keeps now getTx (TxSourced.ti_creatorVaultAMM t))
                    (y :: ys) d) as (_ & _ & H & _).
      simpl. simpl in H. now rewrite H.
  - unfold TxSourced.pollAMMVaultTransactions. now rewrite Ht, Hlast.
Qed.

(** C6. On an initialised cursor, a poll over a newest-first list
    processes exactly the signatures that come before the first occurrence
    of the last seen one and are not in the processed set, oldest first,
    and, when there is one at least, moves the cursor to the head of the
    list.  The native and the fungible vault's polls agree on this.  On
    [S5; S4; S3] with S3 last seen (S4 and S5 new) the signatures processed
    are S4 then S5, and the cursor ends on S5. *)
Theorem cursor_yields_new_signatures_oldest_first :
  (forall now d vt vault lastSeen newest rest getTx,
      TxSourced.lastBCSignature d = Some lastSeen ->
      lastSeen <> "" ->
      TxSourced.pollVaultTransactions now d vt vault (Returns (newest :: rest)) getTx
      = match yielded lastSeen (TxSourced.processedTxs d) (newest :: rest) with
        | [] => d
        | ys => TxSourced.with_lastBCSignature
                  (List.fold_left (stepBC now getTx vt vault) ys d)
                  (Some (TxSourced.signature newest))
        end)
  /\ (forall now d t lastSeen newest rest getTx,
      TxSourced.tokenInfo d = Some t ->
      TxSourced.lastAMMSignature d = Some lastSeen ->
      lastSeen <> "" ->
      TxSourced.pollAMMVaultTransactions now d (Returns (newest :: rest)) getTx
      = match yielded lastSeen (TxSourced.processedTxs d) (newest :: rest) with
        | [] => d
        | ys => TxSourced.with_lastAMMSignature
                  (List.fold_left
                     (stepAMM now getTx (TxSourced.ti_creatorVaultAMM t)) ys d)
                  (Some (TxSourced.signature newest))
        end)
  /\ (forall now d vt vault getTx (s3 s4 s5 : TxSourced.SigInfo),
      TxSourced.lastBCSignature d = Some (TxSourced.signature s3) ->
      TxSourced.signature s3 <> "" ->
      TxSourced.signature s4 <> TxSourced.signature s3 ->
      TxSourced.signature s5 <> TxSourced.signature s3 ->
      TxSourced.signature s4 ∉ TxSourced.processedTxs d ->
      TxSourced.signature s5 ∉ TxSourced.processedTxs d ->
      let d' := TxSourced.pollVaultTransactions now d vt vault
                  (Returns [s5; s4; s3]) getTx in
      yielded (TxSourced.signature s3) (TxSourced.processedTxs d) [s5; s4; s3]
      = [s4; s5]
      /\ d' = TxSourced.with_lastBCSignature
                (stepBC now getTx vt vault (stepBC now getTx vt vault d s4) s5)
                (Some (TxSourced.signature s5))
      /\ TxSourced.lastBCSignature d' = Some (TxSourced.signature s5)).
Proof.
  split; [exact pollVaultTransactions_yielded|].
  split; [exact pollAMMVaultTransactions_yielded|].
  intros now d vt vault getTx s3 s4 s5 Hlast Hne H4 H5 P4 P5 d'.
  assert (Hy : yielded (TxSourced.signature s3) (TxSourced.processedTxs d) [s5; s4; s3]
               = [s4; s5]).
  { unfold yielded. simpl.
    apply String.eqb_neq in H4, H5. rewrite H4, H5, String.eqb_refl. simpl.
    rewrite !bool_decide_eq_false_2 by assumption. reflexivity. }
  split; [exact Hy|].
  assert (Hd' : d' = TxSourced.with_lastBCSignature
                 (stepBC now getTx vt vault (stepBC now getTx vt vault d s4) s5)
                 (Some (TxSourced.signature s5))).
  { subst d'.
    rewrite (pollVaultTransactions_yielded _ _ _ _ (TxSourced.signature s3))
      by assumption.
    rewrite Hy. reflexivity. }
  split; [exact Hd'|]. rewrite Hd'. reflexivity.
Qed.

Lemma cursor_yields_new_signatures_oldest_first_witness :
  yielded "S3" ∅ [sample_sig "S5"; sample_sig "S4"; sample_sig "S3"]
  = [sample_sig "S4"; sample_sig "S5"]
  /\ TxSourced.lastBCSignature
       (TxSourced.pollVaultTransactions "2024-01-02T00:00:00.000Z" sample_daemon BC
          "BcVault" (Returns [sample_sig "S5"; sample_sig "S4"; sample_sig "S3"])
          sample_getTransaction)
     = Some "S5".
Proof.
  destruct cursor_yields_new_signatures_oldest_first as (_ & _ & H).
  assert (P4 : "S4" ∉ TxSourced.processedTxs sample_daemon) by (simpl; set_solver).
  assert (P5 : "S5" ∉ TxSourced.processedTxs sample_daemon) by (simpl; set_solver).
  destruct (H "2024-01-02T00:00:00.000Z" sample_daemon BC "BcVault"
              sample_getTransaction (sample_sig "S3") (sample_sig "S4")
              (sample_sig "S5") eq_refl ltac:(discriminate) ltac:(discriminate)
              ltac:(discriminate) P4 P5)
    as (Hy & _ & Hlast).
  split; [exact Hy | exact Hlast].
Defined.

(** C7, the claim as written fails: when every signature before the last
    seen one is already in the processed set, nothing is yielded and the
    poll returns before it moves the cursor, which then is not the newest
    signature of the list. *)
Lemma cursor_stays_when_nothing_is_yielded :
  let d' := TxSourced.pollVaultTransactions "2024-01-02T00:00:00.000Z"
              sample_daemon_seen_S4 BC "BcVault"
              (Returns [sample_sig "S4"; sample_sig "S3"]) sample_getTransaction in
  truthy (TxSourced.lastBCSignature sample_daemon_seen_S4) = true
  /\ yielded "S3" (TxSourced.processedTxs sample_daemon_seen_S4)
             [sample_sig "S4"; sample_sig "S3"] = []
  /\ TxSourced.lastBCSignature d' = Some "S3"
  /\ TxSourced.lastBCSignature d' <> Some "S4".
Proof. vm_compute. repeat split. discriminate. Qed.

(** C7 (as amended).  After a poll of an initialised cursor over a
    non-empty newest-first list, the cursor is the newest signature of the
    list whenever at least one signature was yielded; when none was, the
    cursor is left where it was (which is the newest signature when the
    list starts with the last seen one).  Both vaults. *)
Theorem cursor_advances_when_something_is_yielded :
  (forall now d vt vault lastSeen newest rest getTx,
      TxSourced.lastBCSignature d = Some lastSeen ->
      lastSeen <> "" ->
      let d' := TxSourced.pollVaultTransactions now d vt vault
                  (Returns (newest :: rest)) getTx in
      (yielded lastSeen (TxSourced.processedTxs d) (newest :: rest) <> [] ->
       TxSourced.lastBCSignature d' = Some (TxSourced.signature newest))
      /\ (yielded lastSeen (TxSourced.processedTxs d) (newest :: rest) = [] ->
          TxSourced.lastBCSignature d' = Some lastSeen)
      /\ (TxSourced.signature newest = lastSeen ->
          TxSourced.lastBCSignature d' = Some (TxSourced.signature newest)))
  /\ (forall now d t lastSeen newest rest getTx,
      TxSourced.tokenInfo d = Some t ->
      TxSourced.lastAMMSignature d = Some lastSeen ->
      lastSeen <> "" ->
      let d' := TxSourced.pollAMMVaultTransactions now d
                  (Returns (newest :: rest)) getTx in
      (yielded lastSeen (TxSourced.processedTxs d) (newest :: rest) <> [] ->
       TxSourced.lastAMMSignature d' = Some (TxSourced.signature newest))
      /\ (yielded lastSeen (TxSourced.processedTxs d) (newest :: rest) = [] ->
          TxSourced.lastAMMSignature d' = Some lastSeen)
      /\ (TxSourced.signature newest = lastSeen ->
          TxSourced.lastAMMSignature d' = Some (TxSourced.signature newest))).
Proof.
  assert (Hhead : forall lastSeen processed newest rest,
             TxSourced.signature newest = lastSeen ->
             yielded lastSeen processed (newest :: rest) = []).
  { intros lastSeen processed newest rest <-. unfold yielded. simpl.
    now rewrite String.eqb_refl. }
  split.
  - intros now d vt vault lastSeen newest rest getTx Hlast Hne d'. subst d'.
    rewrite (pollVaultTransactions_yielded _ _ _ _ lastSeen) by assumption.
    split; [|split].
    + destruct (yielded _ _ _); [congruence | reflexivity].
    + intros ->. exact Hlast.
    + intros Heq. rewrite (Hhead _ _ _ _ Heq). now rewrite Heq.
  - intros now d t lastSeen newest rest getTx Ht Hlast Hne d'. subst d'.
    rewrite (pollAMMVaultTransactions_yielded _ _ t lastSeen) by assumption.
    split; [|split].
    + destruct (yielded _ _ _); [congruence | reflexivity].
    + intros ->. exact Hlast.
    + intros Heq. rewrite (Hhead _ _ _ _ Heq). now rewrite Heq.
Qed.

Lemma cursor_advances_when_something_is_yielded_witness :
  TxSourced.lastBCSignature
    (TxSourced.pollVaultTransactions "2024-01-02T00:00:00.000Z" sample_daemon BC
       "BcVault" (Returns [sample_sig "S5"; sample_sig "S4"; sample_sig "S3"])
       sample_getTransaction)
  = Some "S5"
  /\ TxSourced.lastBCSignature
       (TxSourced.pollVaultTransactions "2024-01-02T00:00:00.000Z"
          sample_daemon_seen_S4 BC "BcVault"
          (Returns [sample_sig "S4"; sample_sig "S3"]) sample_getTransaction)
     = Some "S3".
Proof.
  destruct cursor_advances_when_something_is_yielded as [H _].
  destruct (H "2024-01-02T00:00:00.000Z" sample_daemon BC "BcVault" "S3"
              (sample_sig "S5") [sample_sig "S4"; sample_sig "S3"]
              sample_getTransaction eq_refl ltac:(discriminate))
    as (Hadvance & _).
  destruct (H "2024-01-02T00:00:00.000Z" sample_daemon_seen_S4 BC "BcVault" "S3"
              (sample_sig "S4") [sample_sig "S3"]
              sample_getTransaction eq_refl ltac:(discriminate))
    as (_ & Hstay & _).
  split.
  - apply Hadvance. vm_compute. discriminate.
  - apply Hstay. vm_compute. reflexivity.
Defined.

(** *** Migration gate *)

(** C9 (as amended).  In the transaction-sourced daemon the fungible
    vault's pipeline runs only once migration has been observed: a poll
    tick that ends with the migration flag still false has left the
    fungible vault's cursor and fee total as they were and has appended
    native-vault entries only. *)
Theorem amm_pipeline_waits_for_migration :
  forall d k,
    TxSourced.isMigrated (TxSourced.poll d k) = false ->
    TxSourced.lastAMMSignature (TxSourced.poll d k) = TxSourced.lastAMMSignature d
    /\ TxSourced.ammFees (TxSourced.poll d k) = TxSourced.ammFees d
    /\ exists new,
         TxSourced.log_entries (TxSourced.poll d k)
         = (TxSourced.log_entries d ++ new)%list
         /\ Forall (fun e => TxSourced.vaultType e = BC) new.
Proof.
  intros d k. unfold TxSourced.poll.
  assert (Hid : TxSourced.lastAMMSignature d = TxSourced.lastAMMSignature d
                /\ TxSourced.ammFees d = TxSourced.ammFees d
                /\ exists new,
                    TxSourced.log_entries d = (TxSourced.log_entries d ++ new)%list
                    /\ Forall (fun e => TxSourced.vaultType e = BC) new).
  { repeat split. exists []. now rewrite app_nil_r. }
  destruct (TxSourced.tokenInfo d) as [t|] eqn:Ht; [|intros _; exact Hid].
  destruct (TxSourced.running d); [|intros _; exact Hid].
  set (d1 := if negb (TxSourced.ti_migrated t) then _ else d).
  assert (H1 : TxSourced.log_entries d1 = TxSourced.log_entries d
               /\ TxSourced.lastAMMSignature d1 = TxSourced.lastAMMSignature d
               /\ TxSourced.ammFees d1 = TxSourced.ammFees d).
  { subst d1. destruct (negb _); [|repeat split].
    destruct (checkMigration_effect (TxSourced.clock k) d
                (TxSourced.bondingCurveAccount k)) as (A & _ & _ & B & C & _).
    repeat split; assumption. }
  destruct H1 as (E1 & L1 & F1).
  set (d2 := TxSourced.pollVaultTransactions _ d1 _ _ _ _).
  destruct (pollVaultTransactions_effect (TxSourced.clock k) d1 BC
              (TxSourced.ti_creatorVaultBC t) (TxSourced.bcSignatures k)
              (TxSourced.getTransaction k)) as (L2 & _ & F2 & new & E2 & Hnew).
  fold d2 in L2, F2, E2.
  destruct (TxSourced.isMigrated d2) eqn:Hm.
  - intros Hfalse. exfalso. unfold TxSourced.isMigrated in Hfalse, Hm.
    rewrite pollAMMVaultTransactions_tokenInfo in Hfalse. congruence.
  - intros _. rewrite L2, L1, F2, F1, E2, E1. repeat split. now exists new.
Qed.

Lemma amm_pipeline_waits_for_migration_witness :
  TxSourced.isMigrated (TxSourced.poll sample_daemon sample_tick) = false
  /\ TxSourced.lastAMMSignature (TxSourced.poll sample_daemon sample_tick) = None
  /\ TxSourced.ammFees (TxSourced.poll sample_daemon sample_tick) = 0.
Proof.
  assert (Hm : TxSourced.isMigrated (TxSourced.poll sample_daemon sample_tick) = false)
    by (vm_compute; reflexivity).
  destruct (amm_pipeline_waits_for_migration sample_daemon sample_tick Hm)
    as (Hl & Hf & _).
  split; [exact Hm|]. split; [exact Hl | exact Hf].
Defined.

(** C9, the claim as written fails on the balance-polling daemon: its poll
    reads the fungible vault on every tick, so before migration a change
    of that vault's balance is recorded as an AMM entry and moves the
    vault's last balance and fee total. *)
Lemma balance_polling_polls_amm_before_migration :
  let d' := BalancePolling.poll sample_daemon_bp sample_tick_bp in
  BalancePolling.isMigrated sample_daemon_bp = false
  /\ BalancePolling.isMigrated d' = false
  /\ List.map BalancePolling.vaultType (BalancePolling.log_entries d') = [AMM]
  /\ BalancePolling.log_entries sample_daemon_bp = []
  /\ BalancePolling.lastAMMBalance sample_daemon_bp = 0
  /\ BalancePolling.lastAMMBalance d' = 5000
  /\ BalancePolling.ammFees sample_daemon_bp = 0
  /\ BalancePolling.ammFees d' = 5000.
Proof. vm_compute. repeat split. Qed.

(** *** Persistence round trip *)

Module JSONFacts.
Import JSON.


Lemma parse_chars_eq (cs : list ascii) :
  parse_chars cs =
  match cs with
  | [] => None
  | c :: r =>
      if (code c =? 34)%Z then Some ([], r)
      else if (code c =? 92)%Z then
        match r with
        | [] => None
        | e :: r1 =>
            if (code e =? 117)%Z then
              match r1 with
              | h1 :: h2 :: h3 :: h4 :: r2 =>
                  match hex4 h1 h2 h3 h4 with
                  | Some u =>
                      if ((55296 <=? u) && (u <=? 56319))%Z then
                        match r2 with
                        | b :: v :: l1 :: l2 :: l3 :: l4 :: r3 =>
                            match hex4 l1 l2 l3 l4 with
                            | Some lo =>
                                if ((code b =? 92) && (code v =? 117)
                                    && (56320 <=? lo) && (lo <=? 57343))%Z
                                then cons_to (utf8 (65536 + 1024 * (u - 55296)
                                                    + (lo - 56320)))
                                             (parse_chars r3)
                                else cons_to (utf8 u) (parse_chars r2)
                            | None => cons_to (utf8 u) (parse_chars r2)
                            end
                        | _ => cons_to (utf8 u) (parse_chars r2)
                        end
                      else cons_to (utf8 u) (parse_chars r2)
                  | None => None
                  end
              | _ => None
              end
            else
              match unescape e with
              | Some x => cons_to [x] (parse_chars r1)
              | None => None
              end
        end
      else if (code c <? 32)%Z then None
      else cons_to [c] (parse_chars r)
  end.
Proof. destruct cs; reflexivity. Qed.

Lemma parse_chars_escape_one (c : ascii) (tl : list ascii) :
  parse_chars (escape c ++ tl)%list = cons_to [c] (parse_chars tl).
Proof.
  destruct c as [[] [] [] [] [] [] [] []];
    (cbv -[parse_chars]; rewrite (parse_chars_eq (_ :: _)); cbv -[parse_chars];
     reflexivity).
Qed.

Lemma parse_chars_escape (s : list ascii) (rest : list ascii) :
  parse_chars (List.concat (List.map escape s) ++ dquote :: rest)%list = Some (s, rest).
Proof.
  induction s as [|c s IH]; [reflexivity|].
  cbn [List.map List.concat]. rewrite <- app_assoc.
  rewrite parse_chars_escape_one, IH. reflexivity.
Qed.

Lemma span_digits_uint (u : Decimal.uint) (rest : list ascii) :
  follow rest ->
  span_digits (list_ascii_of_string (NilEmpty.string_of_uint u) ++ rest)%list
  = (list_ascii_of_string (NilEmpty.string_of_uint u), rest).
Proof.
  intros Hf. induction u; simpl; try (rewrite IHu; reflexivity).
  destruct rest as [|c rest]; [reflexivity|]. simpl.
  unfold is_digit. destruct Hf as [-> | ->]; reflexivity.
Qed.

Lemma follow_plain (rest : list ascii) :
  follow rest ->
  match rest with
  | c :: _ => negb ((code c =? 46) || (code c =? 101) || (code c =? 69))%Z
  | [] => true
  end = true.
Proof. destruct rest as [|c rest]; [reflexivity|]. intros [-> | ->]; reflexivity. Qed.

Lemma unorm_head (u u' : Decimal.uint) :
  Decimal.unorm u = Decimal.D0 u' -> u' = Decimal.Nil.
Proof.
  unfold Decimal.unorm. destruct (Decimal.nzhead u) eqn:E; try discriminate.
  - now intros [= <-].
  - now destruct (DecimalFacts.nzhead_nonzero u u0).
Qed.

Lemma to_uint_head (p : positive) (u' : Decimal.uint) :
  Pos.to_uint p = Decimal.D0 u' -> u' = Decimal.Nil.
Proof.
  intros H. apply (unorm_head (Pos.to_uint p)).
  rewrite <- DecimalPos.Unsigned.to_of, DecimalPos.Unsigned.of_to. exact H.
Qed.

Ltac eval_chars :=
  repeat match goal with
    | |- context [(code ?c =? ?k)%Z] =>
        let b := eval vm_compute in (code c =? k)%Z in
        match b with
        | true => change (code c =? k)%Z with true
        | false => change (code c =? k)%Z with false
        end
    | |- context [is_digit ?c] =>
        let b := eval vm_compute in (is_digit c) in
        match b with
        | true => change (is_digit c) with true
        | false => change (is_digit c) with false
        end
    end.

Lemma parse_number_uint (u : Decimal.uint) (sign : list ascii) (rest : list ascii) :
  u <> Decimal.Nil ->
  (forall u', u = Decimal.D0 u' -> u' = Decimal.Nil) ->
  follow rest ->
  sign = [] \/ sign = [char 45] ->
  parse_number (sign ++ list_ascii_of_string (NilEmpty.string_of_uint u) ++ rest)%list
  = option_map (fun d => (Z.of_int d, rest))
      (NilZero.int_of_string
         (string_of_list_ascii
            (sign ++ list_ascii_of_string (NilEmpty.string_of_uint u)))).
Proof.
  intros Hnil Hhead Hf Hsign.
  unfold parse_number.
  destruct Hsign as [-> | ->];
    (destruct u; try (now elim Hnil);
     cbn [NilEmpty.string_of_uint list_ascii_of_string app];
     eval_chars; cbv iota; cbn [span_digits]; eval_chars; cbv iota;
     rewrite (span_digits_uint _ rest Hf); cbv iota beta;
     rewrite (follow_plain rest Hf); eval_chars;
     try (destruct (list_ascii_of_string (NilEmpty.string_of_uint u)); reflexivity));
    rewrite (Hhead u eq_refl); reflexivity.
Qed.

Lemma string_of_int_neg (u : Decimal.uint) :
  u <> Decimal.Nil ->
  NilZero.string_of_int (Decimal.Neg u)
  = string_of_list_ascii
      ([char 45] ++ list_ascii_of_string (NilEmpty.string_of_uint u)).
Proof.
  intros Hn. cbn [app string_of_list_ascii].
  rewrite string_of_list_ascii_of_string. now destruct u.
Qed.

Lemma string_of_int_pos (u : Decimal.uint) :
  u <> Decimal.Nil ->
  NilZero.string_of_int (Decimal.Pos u) = NilEmpty.string_of_uint u.
Proof. intros Hn. now destruct u. Qed.

Lemma parse_number_toString (n : Z) (rest : list ascii) :
  follow rest ->
  parse_number (list_ascii_of_string (toString n) ++ rest)%list = Some (n, rest).
Proof.
  intros Hf.
  assert (Hparse : NilZero.int_of_string (toString n) = Some (Z.to_int n)).
  { unfold toString. apply NilZero.isi; destruct n; simpl; try discriminate;
      intros [= H]; now apply (DecimalPos.Unsigned.to_uint_nonnil p). }
  unfold toString in *. destruct n as [|p|p]; cbn [Z.to_int] in *.
  - pose proof (parse_number_uint (Decimal.D0 Decimal.Nil) [] rest) as H.
    cbn [app] in H. rewrite string_of_list_ascii_of_string in H.
    change (NilZero.string_of_int (Decimal.Pos Decimal.zero))
      with (NilEmpty.string_of_uint (Decimal.D0 Decimal.Nil)) in *.
    rewrite H, Hparse; [reflexivity | discriminate | now intros u' [= <-]
                       | exact Hf | now left].
  - pose proof (DecimalPos.Unsigned.to_uint_nonnil p) as Hn.
    pose proof (parse_number_uint (Pos.to_uint p) [] rest Hn (to_uint_head p) Hf
                  (or_introl eq_refl)) as H.
    cbn [app] in H. rewrite string_of_list_ascii_of_string in H.
    rewrite (string_of_int_pos _ Hn) in *. rewrite H, Hparse.
    cbn [option_map]. f_equal. f_equal. exact (DecimalZ.of_to (Z.pos p)).
  - pose proof (DecimalPos.Unsigned.to_uint_nonnil p) as Hn.
    pose proof (parse_number_uint (Pos.to_uint p) [char 45] rest Hn (to_uint_head p) Hf
                  (or_intror eq_refl)) as H.
    rewrite <- (string_of_int_neg _ Hn) in H. rewrite Hparse in H.
    cbn [option_map] in H.
    change (Decimal.Neg (Pos.to_uint p)) with (Z.to_int (Z.neg p)) in H.
    rewrite DecimalZ.of_to in H.
    rewrite <- H. f_equal.
    rewrite (string_of_int_neg _ Hn), list_ascii_of_string_of_list_ascii.
    now rewrite <- app_assoc.
Qed.

(** *** Structure of printed text *)

Lemma json_ind' (P : json -> Prop) :
  P JNull -> (forall b, P (JBool b)) -> (forall n, P (JNum n)) -> (forall s, P (JStr s)) ->
  (forall items, Forall P items -> P (JArr items)) ->
  (forall members, Forall (fun kv => P (snd kv)) members -> P (JObj members)) ->
  forall j, P j.
Proof.
  intros HN HB HZ HS HA HO. fix IH 1. intros j.
  destruct j as [|b|n|s|items|members].
  - exact HN.
  - apply HB.
  - apply HZ.
  - apply HS.
  - apply HA. induction items as [|x xs IHxs]; constructor; [apply IH | exact IHxs].
  - apply HO. induction members as [|[k v] ms IHms]; constructor;
      [apply IH | exact IHms].
Qed.

Lemma skip_ws_indent (n : nat) (cs : list ascii) :
  skip_ws (indent n ++ cs)%list = skip_ws cs.
Proof. induction n; [reflexivity | exact IHn]. Qed.

Lemma skip_ws_line (n : nat) (cs : list ascii) :
  skip_ws (newline :: indent n ++ cs)%list = skip_ws cs.
Proof. exact (skip_ws_indent n cs). Qed.

Lemma skip_ws_opens (cs : list ascii) : opens cs -> skip_ws cs = cs.
Proof. destruct cs as [|c cs]; [intros []|]. intros (H & _). simpl. now rewrite H. Qed.

Lemma toString_head (n : Z) :
  exists c tl, list_ascii_of_string (toString n) = c :: tl
               /\ (code c = 45 \/ (48 <= code c <= 57)).
Proof.
  unfold toString. destruct n as [|p|p]; cbn [Z.to_int].
  - eexists _, _. split; [reflexivity|]. right. vm_compute. split; discriminate.
  - pose proof (DecimalPos.Unsigned.to_uint_nonnil p) as Hn.
    rewrite (string_of_int_pos _ Hn).
    destruct (Pos.to_uint p); try (now elim Hn);
      (eexists _, _; split; [reflexivity|]; right; vm_compute; split; discriminate).
  - eexists _, _. split; [reflexivity|]. left. reflexivity.
Qed.

Lemma print_opens (ind : nat) (j : json) (rest : list ascii) :
  opens (print ind j ++ rest)%list.
Proof.
  destruct j as [|[]|n|s|[|x xs]|[|[k v] ms]];
    try (cbn; repeat split; discriminate).
  destruct (toString_head n) as (c & tl & E & Hc). cbn [print]. rewrite E. cbn.
  unfold is_ws. repeat split; lia.
Qed.

Lemma lines_cons (ind : nat) (x : list ascii) (xs : list (list ascii)) (close : list ascii) :
  (lines ind (x :: xs) ++ close)%list
  = (newline :: indent ind ++ x
       ++ match xs with
          | [] => close
          | _ :: _ => char 44 :: lines ind xs ++ close
          end)%list.
Proof.
  destruct xs as [|y ys]; cbn [lines]; cbn [app].
  - now rewrite <- app_assoc.
  - rewrite <- !app_assoc. cbn [app]. reflexivity.
Qed.

Lemma weight_pos (j : json) : (1 <= weight j)%nat.
Proof. destruct j; simpl; lia. Qed.

Lemma follow_items_tail ind xs rest : follow (items_tail ind xs rest).
Proof. unfold items_tail. destruct xs; [right | left]; reflexivity. Qed.

Lemma parse_items_printed (ind : nat) (rest : list ascii) (xs : list json) :
  forall x fuel,
    Forall reads_back (x :: xs) ->
    (List.fold_right (fun x acc => S (weight x + acc)) O (x :: xs) <= fuel)%nat ->
    parse_items fuel (print (2 + ind) x ++ items_tail ind xs rest)%list
    = Some (x :: xs, rest).
Proof.
  induction xs as [|y ys IH]; intros x fuel Hall Hfuel;
    inversion Hall as [|? ? Hx Hxs]; subst;
    destruct fuel as [|fuel]; cbn [List.fold_right] in Hfuel; try lia;
    cbn [parse_items];
    rewrite (Hx (2 + ind)%nat _ fuel) by (try apply follow_items_tail; lia).
  - unfold items_tail, closing. cbn [List.map]. rewrite skip_ws_line.
    reflexivity.
  - unfold items_tail. cbn [List.map].
    change (skip_ws (char 44 :: ?r)) with (char 44 :: r).
    cbv iota. change (code (char 44) =? 44)%Z with true. cbv iota.
    rewrite lines_cons. rewrite skip_ws_line.
    rewrite skip_ws_opens by apply print_opens.
    fold (items_tail ind ys rest).
    rewrite (IH y fuel Hxs) by (cbn [List.fold_right]; lia). reflexivity.
Qed.

Lemma follow_members_tail ind ms rest : follow (members_tail ind ms rest).
Proof. unfold members_tail. destruct ms; [right | left]; reflexivity. Qed.

Lemma member_line_eq (ind : nat) (k : string) (v : json) (tail : list ascii) :
  (member_line ind (k, v) ++ tail)%list
  = (dquote :: (List.concat (List.map escape (list_ascii_of_string k))
                  ++ dquote :: char 58 :: space :: print (2 + ind) v ++ tail))%list.
Proof.
  unfold member_line, quote. cbn [app]. rewrite <- !app_assoc. reflexivity.
Qed.

Lemma member_line_opens (ind : nat) (kv : string * json) (tail : list ascii) :
  opens (member_line ind kv ++ tail)%list.
Proof. destruct kv as [k v]. rewrite member_line_eq. cbn. repeat split; discriminate. Qed.

Lemma parse_members_printed (ind : nat) (rest : list ascii) (ms : list (string * json)) :
  forall m fuel,
    Forall (fun kv => reads_back (snd kv)) (m :: ms) ->
    (List.fold_right (fun kv acc => let '(_, v) := kv in S (weight v + acc)) O (m :: ms)
     <= fuel)%nat ->
    parse_members fuel (member_line ind m ++ members_tail ind ms rest)%list
    = Some (m :: ms, rest).
Proof.
  induction ms as [|m' ms IH]; intros [k v] fuel Hall Hfuel;
    inversion Hall as [|? ? Hv Hms]; subst; cbn [snd] in Hv;
    destruct fuel as [|fuel]; cbn [List.fold_right] in Hfuel; try lia;
    rewrite member_line_eq; cbn [parse_members];
    change (code dquote =? 34)%Z with true; cbv iota;
    rewrite parse_chars_escape;
    change (skip_ws (char 58 :: ?r)) with (char 58 :: r); cbv iota;
    change (code (char 58) =? 58)%Z with true; cbv iota;
    change (skip_ws (space :: ?r)) with (skip_ws r);
    rewrite skip_ws_opens by apply print_opens;
    rewrite (Hv (2 + ind)%nat _ fuel) by (try apply follow_members_tail; lia);
    rewrite string_of_list_ascii_of_string.
  - unfold members_tail, closing. cbn [List.map]. rewrite skip_ws_line.
    reflexivity.
  - unfold members_tail. cbn [List.map].
    change (skip_ws (char 44 :: ?r)) with (char 44 :: r).
    cbv iota. change (code (char 44) =? 44)%Z with true. cbv iota.
    rewrite lines_cons. rewrite skip_ws_line.
    rewrite skip_ws_opens by apply member_line_opens.
    fold (members_tail ind ms rest).
    rewrite (IH m' fuel Hms) by (cbn [List.fold_right]; destruct m'; lia).
    reflexivity.
Qed.

Lemma parse_value_printed (j : json) : reads_back j.
Proof.
  induction j as [|b|n|s|items IH|members IH] using json_ind';
    intros ind rest fuel Hfuel Hf;
    (destruct fuel as [|fuel]; [pose proof (weight_pos); simpl in Hfuel; lia|]).
  - reflexivity.
  - destruct b; reflexivity.
  - cbn [print]. destruct (toString_head n) as (c & tl & E & Hc).
    pose proof (parse_number_toString n rest Hf) as Hn. rewrite E in *.
    cbn [app parse_value] in *. rewrite Hn.
    assert (Hne : forall k, k <> 45 -> ~ (48 <= k <= 57) -> (code c =? k)%Z = false)
      by (intros k ? ?; apply Z.eqb_neq; lia).
    rewrite !Hne by lia. reflexivity.
  - cbn [print]. unfold quote. cbn [app parse_value]. rewrite <- app_assoc.
    change (code dquote =? 110)%Z with false.
    change (code dquote =? 116)%Z with false.
    change (code dquote =? 102)%Z with false.
    change (code dquote =? 34)%Z with true. cbv iota.
    cbn [app]. rewrite parse_chars_escape, string_of_list_ascii_of_string.
    reflexivity.
  - destruct items as [|x xs]; [reflexivity|].
    cbn [weight] in Hfuel. apply le_S_n in Hfuel.
    cbn [print]. cbn [app parse_value]. rewrite <- app_assoc. cbn [List.map].
    change ((newline :: indent ind ++ [char 93]) ++ rest)%list
      with (newline :: (indent ind ++ [char 93]) ++ rest)%list.
    rewrite <- app_assoc. cbn [app]. fold (closing ind 93 rest).
    rewrite lines_cons. fold (items_tail ind xs rest).
    change (code (char 91) =? 110)%Z with false.
    change (code (char 91) =? 116)%Z with false.
    change (code (char 91) =? 102)%Z with false.
    change (code (char 91) =? 34)%Z with false.
    change (code (char 91) =? 91)%Z with true. cbv iota.
    rewrite skip_ws_line. rewrite skip_ws_opens by apply print_opens.
    pose proof (print_opens (2 + ind) x (items_tail ind xs rest)) as Ho.
    destruct (print (2 + ind) x ++ items_tail ind xs rest)%list as [|c r] eqn:E;
      [destruct Ho|].
    destruct Ho as (_ & H93 & _). apply Z.eqb_neq in H93. rewrite H93.
    rewrite <- E. rewrite (parse_items_printed ind rest xs x fuel IH Hfuel).
    reflexivity.
  - destruct members as [|m ms]; [reflexivity|].
    cbn [weight] in Hfuel. apply le_S_n in Hfuel.
    cbn [print]. cbn [app parse_value]. rewrite <- app_assoc.
    change (List.map (fun kv : string * json =>
                        let '(k, v) := kv in
                        (quote k ++ char 58 :: space :: print (2 + ind) v)%list)
                     (m :: ms))
      with (List.map (member_line ind) (m :: ms)).
    cbn [List.map].
    change ((newline :: indent ind ++ [char 125]) ++ rest)%list
      with (newline :: (indent ind ++ [char 125]) ++ rest)%list.
    rewrite <- app_assoc. cbn [app]. fold (closing ind 125 rest).
    rewrite lines_cons. fold (members_tail ind ms rest).
    change (code (char 123) =? 110)%Z with false.
    change (code (char 123) =? 116)%Z with false.
    change (code (char 123) =? 102)%Z with false.
    change (code (char 123) =? 34)%Z with false.
    change (code (char 123) =? 91)%Z with false.
    change (code (char 123) =? 123)%Z with true. cbv iota.
    rewrite skip_ws_line. rewrite skip_ws_opens by apply member_line_opens.
    pose proof (member_line_opens ind m (members_tail ind ms rest)) as Ho.
    destruct (member_line ind m ++ members_tail ind ms rest)%list as [|c r] eqn:E;
      [destruct Ho|].
    destruct Ho as (_ & _ & H125). apply Z.eqb_neq in H125. rewrite H125.
    rewrite <- E. rewrite (parse_members_printed ind rest ms m fuel IH Hfuel).
    reflexivity.
Qed.

Lemma lines_length (ind : nat) (ls : list (list ascii)) :
  (List.fold_right (fun l acc => S (List.length l + acc)) O ls
   <= List.length (lines ind ls))%nat.
Proof.
  induction ls as [|l [|l' ls] IH]; cbn [lines List.fold_right] in *.
  - lia.
  - cbn [List.length]. rewrite length_app. lia.
  - cbn [List.length]. rewrite !length_app. cbn [List.length]. lia.
Qed.

Lemma weight_le_length (j : json) :
  forall ind, (weight j <= List.length (print ind j))%nat.
Proof.
  induction j as [|b|n|s|items IH|members IH] using json_ind'; intros ind.
  - simpl. lia.
  - destruct b; simpl; lia.
  - cbn [weight print]. destruct (toString_head n) as (c & tl & -> & _). simpl. lia.
  - cbn [weight print]. unfold quote. simpl. lia.
  - destruct items as [|x xs]; [simpl; lia|].
    cbn [weight print]. cbn [List.length]. rewrite length_app.
    pose proof (lines_length (2 + ind) (List.map (print (2 + ind)) (x :: xs))) as Hl.
    assert (Hsum : (List.fold_right (fun x acc => S (weight x + acc)) O (x :: xs)
                    <= List.fold_right (fun l acc => S (List.length l + acc)) O
                         (List.map (print (2 + ind)) (x :: xs)))%nat).
    { clear Hl. induction IH as [|y ys Hy Hys IHys]; cbn [List.map List.fold_right];
        [lia|]. specialize (Hy (2 + ind)%nat). lia. }
    lia.
  - destruct members as [|m ms]; [simpl; lia|].
    cbn [weight print]. cbn [List.length]. rewrite length_app.
    match goal with |- context [lines ?i ?ls] =>
      pose proof (lines_length i ls) as Hl;
      assert (Hsum : (List.fold_right
                        (fun kv acc => let '(_, v) := kv in S (weight v + acc)) O (m :: ms)
                      <= List.fold_right (fun l acc => S (List.length l + acc)) O ls)%nat)
    end.
    { clear Hl. induction IH as [|[k v] ys Hy Hys IHys]; cbn [List.map List.fold_right];
        [lia|]. cbn [snd] in Hy. specialize (Hy (2 + ind)%nat).
        rewrite !length_app. cbn [List.length]. lia. }
    lia.
Qed.

(** Reading back what [JSON.stringify] wrote gives the document. *)
Theorem parse_stringify (j : json) : parse (stringify j) = Some j.
Proof.
  unfold parse, stringify. rewrite list_ascii_of_string_of_list_ascii.
  pose proof (print_opens 0 j []) as Ho. rewrite app_nil_r in Ho.
  rewrite (skip_ws_opens _ Ho).
  pose proof (parse_value_printed j 0%nat [] (S (List.length (print 0 j)))) as H.
  rewrite app_nil_r in H. rewrite H; [reflexivity | | exact I].
  pose proof (weight_le_length j 0). lia.
Qed.

End JSONFacts.

Lemma asHistoryEntry_document (e : TxSourced.HistoryEntry) :
  TxSourced.asHistoryEntry (TxSourced.document_entry e) = Some e.
Proof. destruct e as [sq ph [] [] va am bb ba sl ts da ha tx]; reflexivity. Qed.

Lemma asHistoryEntries_document (es : list TxSourced.HistoryEntry) :
  TxSourced.asHistoryEntries (List.map TxSourced.document_entry es) = Some es.
Proof.
  induction es as [|e es IH]; [reflexivity|].
  cbn [List.map TxSourced.asHistoryEntries]. rewrite asHistoryEntry_document, IH.
  reflexivity.
Qed.

Lemma asHistoryLog_document (l : TxSourced.HistoryLog) :
  TxSourced.asHistoryLog (TxSourced.document l) = Some l.
Proof.
  destruct l. unfold TxSourced.asHistoryLog, TxSourced.document.
  cbn [get member String.eqb Ascii.eqb Bool.eqb mbind option_bind as_string
       as_bool as_number as_array TxSourced.version TxSourced.mint
       TxSourced.symbol TxSourced.bondingCurve TxSourced.creator
       TxSourced.creatorVaultBC TxSourced.creatorVaultAMM TxSourced.pool
       TxSourced.migrated TxSourced.startedAt TxSourced.lastUpdated
       TxSourced.totalFees TxSourced.entryCount TxSourced.latestHash
       TxSourced.entries].
  rewrite asHistoryEntries_document. reflexivity.
Qed.

Lemma loadHistoryLog_written (l : TxSourced.HistoryLog) :
  TxSourced.loadHistoryLog (Some (JSON.stringify (TxSourced.document l))) = Some l.
Proof.
  unfold TxSourced.loadHistoryLog. cbn [mbind option_bind].
  rewrite JSONFacts.parse_stringify. cbn [mbind option_bind].
  apply asHistoryLog_document.
Qed.

(** C8. Writing the history log with [saveHistory] and reading the file
    back with [loadHistoryLog] gives the log the daemon holds after the
    write, and [verifyHistoryChain] answers on it what it answers on the
    log before the write. *)
Theorem saved_history_verifies_alike :
  forall now d log,
    TxSourced.historyLog d = Some log ->
    truthy (TxSourced.historyFile (TxSourced.config d)) = true ->
    exists saved,
      TxSourced.historyLog (TxSourced.saveHistory now d) = Some saved
      /\ TxSourced.loadHistoryLog (TxSourced.disk (TxSourced.saveHistory now d))
         = Some saved
      /\ TxSourced.entries saved = TxSourced.entries log
      /\ TxSourced.verifyHistoryChain saved = TxSourced.verifyHistoryChain log.
Proof.
  intros now d log Hlog Hfile. unfold TxSourced.saveHistory.
  rewrite Hlog, Hfile. eexists. split; [reflexivity|].
  split; [apply loadHistoryLog_written|]. split; reflexivity.
Qed.

Lemma saved_history_verifies_alike_witness :
  exists saved,
    TxSourced.loadHistoryLog
      (TxSourced.disk (TxSourced.saveHistory "2024-01-03T00:00:00.000Z"
                         sample_daemon_with_log)) = Some saved
    /\ TxSourced.verifyHistoryChain saved = TxSourced.verifyHistoryChain sample_log
    /\ TxSourced.verifyHistoryChain saved = verified.
Proof.
  destruct (saved_history_verifies_alike "2024-01-03T00:00:00.000Z"
              sample_daemon_with_log sample_log eq_refl eq_refl)
    as (saved & _ & Hload & _ & Hverify).
  exists saved. split; [exact Hload|]. split; [exact Hverify|].
  rewrite Hverify. apply verify_all_pass, honest_all_pass, sample_log_honest.
Defined.

(** *** The daemon's own ledger stays an honest chain *)

Lemma saveHistory_bp_entries (now : string) (d : BalancePolling.Daemon) :
  BalancePolling.log_entries (BalancePolling.saveHistory now d)
  = BalancePolling.log_entries d.
Proof.
  unfold BalancePolling.saveHistory, BalancePolling.log_entries.
  destruct (BalancePolling.historyLog d) as [l|] eqn:Hl; [|now rewrite Hl].
  destruct (truthy _); [reflexivity | now rewrite Hl].
Qed.

Lemma recordFee_honest now d vt vault delta pre post sl ts sig :
  honest_tx (TxSourced.log_entries d) ->
  honest_tx (TxSourced.log_entries
               (TxSourced.recordFee now d vt vault delta pre post sl ts sig)).
Proof.
  intros Hh. unfold TxSourced.recordFee.
  destruct (TxSourced.feeCallbackReturns _ _ _ _); [|exact Hh].
  destruct (TxSourced.historyLog d) as [l|] eqn:Hl; [|exact Hh].
  destruct (TxSourced.createHistoryEntry _ _ _ _ _ _ _ _ _ _) as [e|] eqn:He;
    [|exact Hh].
  apply createHistoryEntry_tx_spec in He as (A & B & C & _).
  unfold TxSourced.pushEntry.
  destruct (saveHistory_frame now
              (TxSourced.with_historyLog d
                 (Some (TxSourced.with_entries l (TxSourced.entries l ++ [e])%list))))
    as (_ & -> & _).
  unfold TxSourced.log_entries in Hh |- *. rewrite Hl in Hh. simpl.
  now apply honest_snoc.
Qed.

Lemma processTransaction_honest now d vt vault sig answer :
  honest_tx (TxSourced.log_entries d) ->
  honest_tx (TxSourced.log_entries
               (TxSourced.processTransaction now d vt vault sig answer)).
Proof.
  intros Hh. unfold TxSourced.processTransaction.
  repeat case_match; try exact Hh. now apply recordFee_honest.
Qed.

Lemma processAMMTransaction_honest now d vault sig answer :
  honest_tx (TxSourced.log_entries d) ->
  honest_tx (TxSourced.log_entries
               (TxSourced.processAMMTransaction now d vault sig answer)).
Proof.
  intros Hh. unfold TxSourced.processAMMTransaction.
  repeat case_match; try exact Hh. now apply recordFee_honest.
Qed.

Lemma fold_left_preserves {A B} (P : A -> Prop) (f : A -> B -> A) (l : list B) (a : A) :
  (forall x y, P x -> P (f x y)) -> P a -> P (List.fold_left f l a).
Proof.
  intros Hf. revert a. induction l as [|y l IH]; intros a Ha; simpl; auto.
Qed.

Lemma pollVaultTransactions_honest now d vt vault sigs getTx :
  honest_tx (TxSourced.log_entries d) ->
  honest_tx (TxSourced.log_entries
               (TxSourced.pollVaultTransactions now d vt vault sigs getTx)).
Proof.
  intros Hh. unfold TxSourced.pollVaultTransactions.
  repeat case_match; try exact Hh.
  cbn [TxSourced.log_entries TxSourced.with_lastBCSignature TxSourced.historyLog].
  apply (fold_left_preserves (fun x => honest_tx (TxSourced.log_entries x)));
    [|exact Hh].
  intros x y Hx. now apply processTransaction_honest.
Qed.

Lemma pollAMMVaultTransactions_honest now d sigs getTx :
  honest_tx (TxSourced.log_entries d) ->
  honest_tx (TxSourced.log_entries
               (TxSourced.pollAMMVaultTransactions now d sigs getTx)).
Proof.
  intros Hh. unfold TxSourced.pollAMMVaultTransactions.
  repeat case_match; try exact Hh.
  cbn [TxSourced.log_entries TxSourced.with_lastAMMSignature TxSourced.historyLog].
  apply (fold_left_preserves (fun x => honest_tx (TxSourced.log_entries x)));
    [|exact Hh].
  intros x y Hx. now apply processAMMTransaction_honest.
Qed.

Lemma poll_honest (d : TxSourced.Daemon) (k : TxSourced.Tick) :
  honest_tx (TxSourced.log_entries d) ->
  honest_tx (TxSourced.log_entries (TxSourced.poll d k)).
Proof.
  intros Hh. unfold TxSourced.poll.
  destruct (TxSourced.tokenInfo d) as [t|]; [|exact Hh].
  destruct (TxSourced.running d); [|exact Hh].
  set (d1 := if negb (TxSourced.ti_migrated t) then _ else d).
  assert (H1 : honest_tx (TxSourced.log_entries d1)).
  { subst d1. destruct (negb _); [|exact Hh].
    destruct (checkMigration_effect (TxSourced.clock k) d
                (TxSourced.bondingCurveAccount k)) as (-> & _). exact Hh. }
  destruct (TxSourced.isMigrated _);
    [apply pollAMMVaultTransactions_honest|]; now apply pollVaultTransactions_honest.
Qed.

Lemma run_honest (ticks : list TxSourced.Tick) (d : TxSourced.Daemon) :
  honest_tx (TxSourced.log_entries d) ->
  honest_tx (TxSourced.log_entries (TxSourced.run d ticks)).
Proof.
  apply (fold_left_preserves (fun x => honest_tx (TxSourced.log_entries x))).
  intros x y. apply poll_honest.
Qed.

Lemma handleBalanceChange_honest now d et vt vault delta bb ba sl ts :
  honest_bp (BalancePolling.log_entries d) ->
  honest_bp (BalancePolling.log_entries
               (fst (BalancePolling.handleBalanceChange now d et vt vault delta
                       bb ba sl ts))).
Proof.
  intros Hh. unfold BalancePolling.handleBalanceChange.
  set (counted := match et with FEE => _ | _ => (d, true) end).
  assert (Hc : BalancePolling.log_entries (fst counted) = BalancePolling.log_entries d).
  { subst counted. destruct et; try reflexivity. destruct vt; reflexivity. }
  destruct counted as [d1 [|]]; simpl in Hc; [|simpl; now rewrite Hc].
  destruct (BalancePolling.historyLog d1) as [l|] eqn:Hl; [|simpl; now rewrite Hc].
  destruct (BalancePolling.createHistoryEntry _ _ _ _ _ _ _ _ _) as [e|] eqn:He;
    [|simpl; now rewrite Hc].
  apply createHistoryEntry_bp_spec in He as (A & B & C & _).
  cbn [fst]. rewrite saveHistory_bp_entries.
  rewrite <- Hc in Hh. unfold BalancePolling.log_entries in Hh |- *.
  rewrite Hl in Hh. simpl. now apply honest_snoc.
Qed.

Lemma pollVault_honest now d vt vault r :
  honest_bp (BalancePolling.log_entries d) ->
  honest_bp (BalancePolling.log_entries (BalancePolling.pollVault now d vt vault r)).
Proof.
  intros Hh. unfold BalancePolling.pollVault.
  destruct (BalancePolling.getSlot r); [exact Hh|].
  destruct (BalancePolling.getBalance r); [exact Hh|].
  destruct (_ =? 0)%Z; [exact Hh|].
  match goal with
  | |- context [BalancePolling.handleBalanceChange ?a ?b ?c ?e ?f ?g ?h ?i ?j ?k] =>
      pose proof (handleBalanceChange_honest a b c e f g h i j k Hh) as H;
      destruct (BalancePolling.handleBalanceChange a b c e f g h i j k) as [d1 [|]]
  end; simpl in H; [|exact H].
  destruct vt; exact H.
Qed.

Lemma checkMigration_bp_entries now d account :
  BalancePolling.log_entries (BalancePolling.checkMigration now d account)
  = BalancePolling.log_entries d.
Proof.
  unfold BalancePolling.checkMigration.
  repeat case_match; try reflexivity; subst;
    try rewrite saveHistory_bp_entries; unfold BalancePolling.log_entries; simpl;
    match goal with
    | H : BalancePolling.historyLog _ = _ |- _ => simpl in H; now rewrite H
    end.
Qed.

Lemma poll_bp_honest (d : BalancePolling.Daemon) (k : BalancePolling.Tick) :
  honest_bp (BalancePolling.log_entries d) ->
  honest_bp (BalancePolling.log_entries (BalancePolling.poll d k)).
Proof.
  intros Hh. unfold BalancePolling.poll.
  destruct (BalancePolling.tokenInfo d) as [t|]; [|exact Hh].
  destruct (BalancePolling.running d); [|exact Hh].
  apply pollVault_honest, pollVault_honest.
  destruct (negb _); [|exact Hh]. now rewrite checkMigration_bp_entries.
Qed.

Lemma run_bp_honest (ticks : list BalancePolling.Tick) (d : BalancePolling.Daemon) :
  honest_bp (BalancePolling.log_entries d) ->
  honest_bp (BalancePolling.log_entries (BalancePolling.run d ticks)).
Proof.
  apply (fold_left_preserves (fun x => honest_bp (BalancePolling.log_entries x))).
  intros x y. apply poll_bp_honest.
Qed.

(** *** Appending *)

(** C4. Candidate events appended one after the other to a fresh, empty
    log leave entries whose sequence numbers are 1, 2, ..., n, whose first
    [prevHash] is [GENESIS_HASH] and whose every later [prevHash] is the
    hash of the entry just before; n is the number of candidates when each
    carries a timestamp that is a valid date (on another timestamp
    [createHistoryEntry] throws and nothing is pushed).  The same shape
    holds for the ledger of a daemon that starts from an empty log,
    after any run of poll ticks.  Both revisions. *)
Theorem appended_entries_form_a_chain :
  (forall (fresh : TxSourced.HistoryLog) (candidates : list Candidate),
      TxSourced.entries fresh = [] ->
      let es := TxSourced.entries (List.fold_left append_tx candidates fresh) in
      (Forall valid_time candidates -> List.length es = List.length candidates)
      /\ numbered_and_linked TxSourced.sequence TxSourced.prevHash TxSourced.hash es)
  /\ (forall (fresh : BalancePolling.HistoryLog) (candidates : list Candidate),
      BalancePolling.entries fresh = [] ->
      let es := BalancePolling.entries (List.fold_left append_bp candidates fresh) in
      (Forall valid_time candidates -> List.length es = List.length candidates)
      /\ numbered_and_linked BalancePolling.sequence BalancePolling.prevHash
           BalancePolling.hash es)
  /\ (forall d ticks,
      TxSourced.log_entries d = [] ->
      numbered_and_linked TxSourced.sequence TxSourced.prevHash TxSourced.hash
        (TxSourced.log_entries (TxSourced.run d ticks)))
  /\ (forall d ticks,
      BalancePolling.log_entries d = [] ->
      numbered_and_linked BalancePolling.sequence BalancePolling.prevHash
        BalancePolling.hash (BalancePolling.log_entries (BalancePolling.run d ticks))).
Proof.
  split; [|split; [|split]].
  - intros fresh cs Hfresh es.
    destruct (appended_tx cs fresh) as [Hlen Hh].
    rewrite Hfresh in Hlen, Hh. specialize (Hh (honest_nil _ _ _ _)).
    split; [exact Hlen | now apply (honest_numbered_and_linked _ _ _ _ _ Hh)].
  - intros fresh cs Hfresh es.
    destruct (appended_bp cs fresh) as [Hlen Hh].
    rewrite Hfresh in Hlen, Hh. specialize (Hh (honest_nil _ _ _ _)).
    split; [exact Hlen | now apply (honest_numbered_and_linked _ _ _ _ _ Hh)].
  - intros d ticks Hempty.
    apply (honest_numbered_and_linked _ _ _ TxSourced.computeEntryHash).
    apply run_honest. rewrite Hempty. apply honest_nil.
  - intros d ticks Hempty.
    apply (honest_numbered_and_linked _ _ _ BalancePolling.computeEntryHash).
    apply run_bp_honest. rewrite Hempty. apply honest_nil.
Qed.

Lemma appended_entries_form_a_chain_witness :
  List.length (TxSourced.entries sample_log) = 2%nat
  /\ (forall e, TxSourced.entries sample_log !! 1%nat = Some e ->
                TxSourced.sequence e = 2)
  /\ List.length (BalancePolling.entries sample_log_bp) = 2%nat
  /\ numbered_and_linked TxSourced.sequence TxSourced.prevHash TxSourced.hash
       (TxSourced.log_entries (TxSourced.run sample_daemon [sample_tick; sample_tick]))
  /\ numbered_and_linked BalancePolling.sequence BalancePolling.prevHash
       BalancePolling.hash
       (BalancePolling.log_entries
          (BalancePolling.run sample_daemon_bp [sample_tick_bp])).
Proof.
  destruct appended_entries_form_a_chain as (Htx & Hbp & Hrun & Hrun_bp).
  assert (Hv : Forall valid_time [sample_fee "S4" 500000; sample_fee "S5" 7]).
  { repeat constructor; eexists; vm_compute; reflexivity. }
  assert (Hv' : Forall valid_time [sample_fee "" 500000; sample_fee "" 7]).
  { repeat constructor; eexists; vm_compute; reflexivity. }
  destruct (Htx sample_fresh [sample_fee "S4" 500000; sample_fee "S5" 7] eq_refl)
    as (Hlen & Hseq & _).
  destruct (Hbp sample_fresh_bp [sample_fee "" 500000; sample_fee "" 7] eq_refl)
    as (Hlen' & _).
  split; [exact (Hlen Hv)|]. split; [|split; [exact (Hlen' Hv')|split]].
  - intros e He. exact (Hseq 1%nat e He).
  - apply Hrun. reflexivity.
  - apply Hrun_bp. reflexivity.
Defined.

(* ===================================================================== *)
(** ** Further properties of the verifier *)
(* ===================================================================== *)

Section VerifierVerdicts.
Context {Entry : Type}.
Variables (sequence : Entry -> Z) (prevHash hash : Entry -> string).
Variable computeEntryHash : Entry -> string.

Local Abbreviation loop := (verify_loop sequence prevHash hash computeEntryHash).
Local Abbreviation verify := (verify_entries sequence prevHash hash computeEntryHash).
Local Abbreviation all_pass := (passes_all sequence prevHash hash computeEntryHash).
Local Abbreviation honest := (honest_chain sequence prevHash hash computeEntryHash).

Lemma rejected_not_verified (i : nat) (msg : string) : rejected i msg <> verified.
Proof. discriminate. Qed.

Lemma loop_verified_all_pass (es pre : list Entry) :
  loop (List.length pre) (expected_prev hash (pre ++ es)%list (List.length pre)) es
  = verified ->
  forall j e, es !! j = Some e ->
              all_pass (pre ++ es)%list (List.length pre + j)%nat e = true.
Proof.
  revert pre. induction es as [|e0 rest IH]; intros pre H j e Hj; [discriminate|].
  rewrite loop_step in H.
  destruct (passes _ _ _ _ SequenceCheck _ _ e0) eqn:Hs; [|discriminate H].
  destruct (passes _ _ _ _ LinkageCheck _ _ e0) eqn:Hl; [|discriminate H].
  destruct (passes _ _ _ _ CommitmentCheck _ _ e0) eqn:Hc; [|discriminate H].
  simpl in H. destruct j as [|j].
  - injection Hj as <-. rewrite Nat.add_0_r. unfold passes_all.
    now rewrite Hs, Hl, Hc.
  - specialize (IH (pre ++ [e0])%list).
    rewrite <- !app_assoc, length_app in IH. simpl in IH.
    rewrite Nat.add_1_r in IH. rewrite <- Nat.add_succ_comm. now apply IH.
Qed.

Lemma all_pass_honest (es : list Entry) :
  (forall j e, es !! j = Some e -> all_pass es j e = true) -> honest es.
Proof.
  intros H i e Hi. specialize (H i e Hi). unfold passes_all, passes in H.
  apply andb_prop in H as [H Hc]. apply andb_prop in H as [Hs Hl].
  apply Z.eqb_eq in Hs. apply String.eqb_eq in Hl, Hc. auto.
Qed.

Lemma verified_iff_honest (es : list Entry) : verify es = verified <-> honest es.
Proof.
  split.
  - intros H. apply all_pass_honest. rewrite verify_entries_loop in H.
    apply (loop_verified_all_pass es [] H).
  - intros H. apply verify_all_pass. now apply honest_all_pass.
Qed.

Lemma loop_truncated (es more : list Entry) (i : nat) (p : string) :
  loop i p (es ++ more)%list = verified -> loop i p es = verified.
Proof.
  revert i p. induction es as [|e rest IH]; intros i p H; [reflexivity|].
  simpl in *. destruct (negb _); [discriminate H|].
  destruct (negb _); [discriminate H|]. destruct (negb _); [discriminate H|].
  now apply IH.
Qed.

Lemma loop_rejected_app (es more : list Entry) (i : nat) (p : string) :
  valid (loop i p es) = false -> loop i p (es ++ more)%list = loop i p es.
Proof.
  revert i p. induction es as [|e rest IH]; intros i p H; [discriminate|].
  simpl in *. destruct (negb _); [reflexivity|].
  destruct (negb _); [reflexivity|]. destruct (negb _); [reflexivity|].
  now apply IH.
Qed.

Lemma verify_truncated (es : list Entry) (n : nat) :
  verify es = verified -> verify (firstn n es) = verified.
Proof.
  rewrite !verify_entries_loop. rewrite <- (firstn_skipn n es) at 1.
  apply loop_truncated.
Qed.

Lemma verify_rejected_app (es more : list Entry) :
  valid (verify es) = false -> verify (es ++ more)%list = verify es.
Proof. rewrite !verify_entries_loop. apply loop_rejected_app. Qed.

Lemma expected_prev_delete (es : list Entry) (i j : nat) :
  (j <= i)%nat -> expected_prev hash (delete i es) j = expected_prev hash es j.
Proof.
  intros Hj. destruct j as [|j]; simpl; [reflexivity|].
  now rewrite list_lookup_delete_lt by lia.
Qed.

Lemma verify_deleted (es : list Entry) (i : nat) (e : Entry) :
  honest es -> es !! S i = Some e ->
  verify (delete i es) = rejected i (sequence_error sequence i e).
Proof.
  intros Hh He.
  apply (verify_first_failure sequence prevHash hash computeEntryHash
           (delete i es) i e SequenceCheck).
  - now rewrite list_lookup_delete_ge by lia.
  - intros j e' Hj Hl. rewrite list_lookup_delete_lt in Hl by lia.
    pose proof (honest_all_pass _ _ _ _ es Hh j e' Hl) as Hp.
    unfold passes_all, passes in *. now rewrite expected_prev_delete by lia.
  - split.
    + simpl. destruct (Hh (S i) e He) as (Hs & _). apply Z.eqb_neq. lia.
    + intros [] Hlt; simpl in Hlt; lia.
Qed.
End VerifierVerdicts.


(** X1. [verifyHistoryChain] answers valid on exactly the honest chains: a
    log verifies if and only if its entries are numbered 1, 2, ..., each is
    linked to the hash before it (the first to the genesis constant) and
    each stored hash is the one [computeEntryHash] gives.  Both revisions. *)
Theorem verified_exactly_on_honest_chains :
  (forall log : TxSourced.HistoryLog,
      TxSourced.verifyHistoryChain log = verified
      <-> honest_tx (TxSourced.entries log))
  /\ (forall log : BalancePolling.HistoryLog,
      BalancePolling.verifyHistoryChain log = verified
      <-> honest_bp (BalancePolling.entries log)).
Proof. split; intros log; apply verified_iff_honest. Qed.

Lemma verified_exactly_on_honest_chains_witness :
  honest_tx (TxSourced.entries sample_log)
  /\ ~ honest_tx (TxSourced.entries (tamper sample_log 1 (SetPrevHash "00"))).
Proof.
  destruct verified_exactly_on_honest_chains as [Htx _]. split.
  - apply Htx. vm_compute. reflexivity.
  - intros H. apply Htx in H. vm_compute in H. discriminate H.
Defined.

(** X2. The verdict is fixed by the prefix read so far: a log that verifies
    still verifies when any number of trailing entries is dropped, and a log
    that is rejected gets the same rejection, index and message, whatever
    is appended to it.  Both revisions. *)
Theorem verdict_is_fixed_by_the_prefix :
  (forall (log : TxSourced.HistoryLog) n,
      TxSourced.verifyHistoryChain log = verified ->
      TxSourced.verifyHistoryChain
        (TxSourced.with_entries log (firstn n (TxSourced.entries log))) = verified)
  /\ (forall (log : TxSourced.HistoryLog) more,
      valid (TxSourced.verifyHistoryChain log) = false ->
      TxSourced.verifyHistoryChain
        (TxSourced.with_entries log (TxSourced.entries log ++ more)%list)
      = TxSourced.verifyHistoryChain log)
  /\ (forall (log : BalancePolling.HistoryLog) n,
      BalancePolling.verifyHistoryChain log = verified ->
      BalancePolling.verifyHistoryChain
        (BalancePolling.with_entries log (firstn n (BalancePolling.entries log)))
      = verified)
  /\ (forall (log : BalancePolling.HistoryLog) more,
      valid (BalancePolling.verifyHistoryChain log) = false ->
      BalancePolling.verifyHistoryChain
        (BalancePolling.with_entries log (BalancePolling.entries log ++ more)%list)
      = BalancePolling.verifyHistoryChain log).
Proof.
  repeat split.
  - intros log n. apply verify_truncated.
  - intros log more. apply verify_rejected_app.
  - intros log n. apply verify_truncated.
  - intros log more. apply verify_rejected_app.
Qed.

Lemma verdict_is_fixed_by_the_prefix_witness :
  TxSourced.verifyHistoryChain
    (TxSourced.with_entries sample_log (firstn 1 (TxSourced.entries sample_log)))
  = verified
  /\ TxSourced.verifyHistoryChain
       (TxSourced.with_entries (tamper sample_log 0 (SetAmount "8"))
          (TxSourced.entries (tamper sample_log 0 (SetAmount "8"))
             ++ TxSourced.entries sample_log)%list)
     = rejected 0 "Hash mismatch".
Proof.
  destruct verdict_is_fixed_by_the_prefix as (Hcut & Hgrow & _). split.
  - apply Hcut. vm_compute. reflexivity.
  - rewrite Hgrow; vm_compute; reflexivity.
Defined.

(** X3. Taking an entry other than the last out of a log that verifies is
    caught at the index it had: the entry that moves into its place carries
    the next sequence number, and the answer is invalid with that index and
    the sequence message.  Both revisions. *)
Theorem deleting_an_inner_entry_is_detected :
  (forall (log : TxSourced.HistoryLog) i,
      TxSourced.verifyHistoryChain log = verified ->
      (S i < List.length (TxSourced.entries log))%nat ->
      TxSourced.verifyHistoryChain
        (TxSourced.with_entries log (delete i (TxSourced.entries log)))
      = rejected i ("Expected sequence " ++ toString (Z.of_nat i + 1)
                      ++ ", got " ++ toString (Z.of_nat i + 2)))
  /\ (forall (log : BalancePolling.HistoryLog) i,
      BalancePolling.verifyHistoryChain log = verified ->
      (S i < List.length (BalancePolling.entries log))%nat ->
      BalancePolling.verifyHistoryChain
        (BalancePolling.with_entries log (delete i (BalancePolling.entries log)))
      = rejected i ("Expected sequence " ++ toString (Z.of_nat i + 1)
                      ++ ", got " ++ toString (Z.of_nat i + 2))).
Proof.
  split; intros log i Hv Hi; apply verified_iff_honest in Hv;
    destruct (lookup_lt_is_Some_2 _ _ Hi) as [e He].
  - unfold TxSourced.verifyHistoryChain. cbn [TxSourced.entries TxSourced.with_entries].
    rewrite (verify_deleted _ _ _ _ _ i e Hv He). unfold sequence_error.
    destruct (Hv _ _ He) as (-> & _).
    now replace (Z.of_nat (S i) + 1) with (Z.of_nat i + 2) by lia.
  - unfold BalancePolling.verifyHistoryChain.
    cbn [BalancePolling.entries BalancePolling.with_entries].
    rewrite (verify_deleted _ _ _ _ _ i e Hv He). unfold sequence_error.
    destruct (Hv _ _ He) as (-> & _).
    now replace (Z.of_nat (S i) + 1) with (Z.of_nat i + 2) by lia.
Qed.

Lemma deleting_an_inner_entry_is_detected_witness :
  TxSourced.verifyHistoryChain
    (TxSourced.with_entries sample_log (delete 0%nat (TxSourced.entries sample_log)))
  = rejected 0 "Expected sequence 1, got 2".
Proof.
  destruct deleting_an_inner_entry_is_detected as [Htx _].
  rewrite (Htx sample_log 0%nat); [reflexivity | vm_compute; reflexivity
                                  | vm_compute; lia].
Defined.

Lemma reseal_from_verifies (es : list TxSourced.HistoryEntry) (i : nat) (p : string) :
  verify_loop TxSourced.sequence TxSourced.prevHash TxSourced.hash
    TxSourced.computeEntryHash i p (reseal_from i p es) = verified.
Proof.
  revert i p. induction es as [|e es IH]; intros i p; [reflexivity|].
  cbn [reseal_from verify_loop].
  replace (TxSourced.sequence (sealed_tx i p e)) with (Z.of_nat i + 1) by reflexivity.
  replace (TxSourced.prevHash (sealed_tx i p e)) with p by reflexivity.
  replace (TxSourced.computeEntryHash (sealed_tx i p e))
    with (TxSourced.hash (sealed_tx i p e)) by reflexivity.
  rewrite Z.eqb_refl, !String.eqb_refl. cbn [negb]. apply IH.
Qed.

Lemma reseal_from_content (es : list TxSourced.HistoryEntry) (i : nat) (p : string) :
  List.map content (reseal_from i p es) = List.map content es.
Proof.
  revert i p. induction es as [|e es IH]; intros i p; [reflexivity|].
  cbn [reseal_from List.map]. now rewrite IH.
Qed.

(** X4. Verification checks that a ledger is consistent with itself, not
    where it came from: any list of entries, renumbered in order, re-linked
    from the genesis constant and re-hashed with [computeEntryHash],
    verifies, with every recorded field other than sequence, prevHash and
    hash as it was. *)
Theorem resealed_ledger_verifies :
  forall (log : TxSourced.HistoryLog) (es : list TxSourced.HistoryEntry),
    TxSourced.verifyHistoryChain (TxSourced.with_entries log (reseal es)) = verified
    /\ List.map content (reseal es) = List.map content es.
Proof.
  intros log es. split; [|apply reseal_from_content].
  unfold TxSourced.verifyHistoryChain.
  cbn [TxSourced.entries TxSourced.with_entries].
  rewrite verify_entries_loop. apply reseal_from_verifies.
Qed.


(* ===================================================================== *)
(** ** Amounts written and read back *)
(* ===================================================================== *)

Module BigIntFacts.
Import StringToBigInt.

Local Abbreviation ubytes u := (SHA256.bytes_of_string (NilEmpty.string_of_uint u)).

Lemma strip_any_white (b : Z) (bs : list Z) :
  numeral_byte b -> strip_any white (b :: bs) = None.
Proof.
  unfold numeral_byte. intros Hb. unfold white. cbn [strip_any strip].
  repeat match goal with
         | |- context [(?k =? b)%Z] => destruct (Z.eqb_spec k b); [lia|]
         end.
  reflexivity.
Qed.

Lemma strip_any_white_rev (b : Z) (bs : list Z) :
  numeral_byte b -> strip_any (List.map (@List.rev Z) white) (b :: bs) = None.
Proof.
  unfold numeral_byte. intros Hb. unfold white. cbn [List.map List.rev app strip_any strip].
  repeat match goal with
         | |- context [(?k =? b)%Z] => destruct (Z.eqb_spec k b); [lia|]
         end.
  reflexivity.
Qed.

Lemma trim_plain (bs : list Z) (b b' : Z) (mid : list Z) :
  numeral_byte b -> numeral_byte b' ->
  bs = b :: mid -> List.rev bs = b' :: List.rev (removelast bs) ->
  trim bs = bs.
Proof.
  intros Hb Hb' -> Hrev. unfold trim.
  cbn [List.length trim_start]. rewrite (strip_any_white b mid Hb).
  cbv zeta. rewrite Hrev. cbn [List.length trim_start].
  rewrite (strip_any_white_rev b' _ Hb'). rewrite <- Hrev. apply rev_involutive.
Qed.

Lemma ubytes_digits (u : Decimal.uint) : Forall (fun b => 48 <= b <= 57) (ubytes u).
Proof. induction u; simpl; constructor; auto; simpl; lia. Qed.

Lemma rev_last (bs : list Z) (b : Z) :
  bs <> [] -> exists b', List.rev bs = b' :: List.rev (removelast bs) /\ In b' bs.
Proof.
  intros Hne. destruct (exists_last Hne) as (pre & x & ->). exists x.
  rewrite removelast_last, rev_unit. split; [reflexivity|].
  apply in_or_app. right. now left.
Qed.

Lemma trim_bytes (sign : list Z) (u : Decimal.uint) :
  u <> Decimal.Nil -> sign = [] \/ sign = [45] ->
  trim (sign ++ ubytes u) = (sign ++ ubytes u)%list.
Proof.
  intros Hn Hs.
  assert (Hall : Forall numeral_byte (sign ++ ubytes u)).
  { apply Forall_app. split.
    - destruct Hs as [-> | ->]; repeat constructor; unfold numeral_byte; lia.
    - eapply Forall_impl; [apply ubytes_digits|]. intros x; unfold numeral_byte; simpl; lia. }
  assert (Hne : (sign ++ ubytes u)%list <> []).
  { destruct u; try (now elim Hn); destruct Hs as [-> | ->]; discriminate. }
  destruct (sign ++ ubytes u)%list as [|b mid] eqn:E; [now elim Hne|].
  destruct (rev_last (b :: mid) b Hne) as (b' & Hrev & Hin).
  apply (trim_plain (b :: mid) b b' mid); auto.
  - now inversion Hall.
  - rewrite List.Forall_forall in Hall. now apply Hall.
Qed.

Lemma digits_acc (u : Decimal.uint) (acc : positive) :
  digits 10 (Z.pos acc) (ubytes u) = Some (Z.pos (Pos.of_uint_acc u acc)).
Proof.
  revert acc. induction u; intros acc; [reflexivity| ..];
    cbn [NilEmpty.string_of_uint SHA256.bytes_of_string list_ascii_of_string
         List.map digits];
    match goal with
    | |- context [digit 10 ?b] =>
        let v := eval vm_compute in (digit 10 b) in
        change (digit 10 b) with v
    end; cbv iota;
    cbn [Pos.of_uint_acc]; rewrite <- IHu; f_equal; lia.
Qed.

Lemma digits_uint (u : Decimal.uint) :
  digits 10 0 (ubytes u) = Some (Z.of_N (Pos.of_uint u)).
Proof.
  induction u; [reflexivity| ..];
    cbn [NilEmpty.string_of_uint SHA256.bytes_of_string list_ascii_of_string
         List.map digits];
    match goal with
    | |- context [digit 10 ?b] =>
        let v := eval vm_compute in (digit 10 b) in
        change (digit 10 b) with v
    end; cbv iota; [exact IHu | ..]; apply (digits_acc u).
Qed.

Lemma numeral_uint (u : Decimal.uint) :
  u <> Decimal.Nil -> numeral 10 (ubytes u) = Some (Z.of_N (Pos.of_uint u)).
Proof.
  intros Hn. unfold numeral. rewrite <- digits_uint.
  destruct u; try (now elim Hn); reflexivity.
Qed.

Lemma parse_uint (u : Decimal.uint) :
  u <> Decimal.Nil ->
  (forall u', u = Decimal.D0 u' -> u' = Decimal.Nil) ->
  parse (ubytes u) = Some (Z.of_N (Pos.of_uint u)).
Proof.
  intros Hn Hhead. unfold parse.
  pose proof (trim_bytes [] u Hn (or_introl eq_refl)) as Ht.
  cbn [app] in Ht. rewrite Ht. rewrite <- (numeral_uint u Hn).
  destruct u; try (now elim Hn); try reflexivity.
  rewrite (Hhead u eq_refl). reflexivity.
Qed.

Lemma parse_neg_uint (u : Decimal.uint) :
  u <> Decimal.Nil ->
  parse (45 :: ubytes u) = Some (- Z.of_N (Pos.of_uint u)).
Proof.
  intros Hn. unfold parse.
  pose proof (trim_bytes [45] u Hn (or_intror eq_refl)) as Ht.
  cbn [app] in Ht. rewrite Ht.
  change (option_map Z.opp (numeral 10 (ubytes u)) = Some (- Z.of_N (Pos.of_uint u))).
  now rewrite (numeral_uint u Hn).
Qed.

(** [BigInt(n.toString())] is [n]. *)
Lemma BigInt_toString (n : Z) : BigInt (toString n) = Some n.
Proof.
  unfold BigInt, toString. destruct n as [|p|p]; [reflexivity | |].
  - cbn [Z.to_int]. pose proof (DecimalPos.Unsigned.to_uint_nonnil p) as Hn.
    rewrite (JSONFacts.string_of_int_pos _ Hn).
    rewrite (parse_uint _ Hn (JSONFacts.to_uint_head p)).
    now rewrite DecimalPos.Unsigned.of_to.
  - cbn [Z.to_int]. pose proof (DecimalPos.Unsigned.to_uint_nonnil p) as Hn.
    change (NilZero.string_of_int (Decimal.Neg (Pos.to_uint p)))
      with (String "-" (NilZero.string_of_uint (Pos.to_uint p))).
    replace (NilZero.string_of_uint (Pos.to_uint p))
      with (NilEmpty.string_of_uint (Pos.to_uint p))
      by (now destruct (Pos.to_uint p)).
    change (SHA256.bytes_of_string (String "-" ?s))
      with (45 :: SHA256.bytes_of_string s).
    rewrite (parse_neg_uint _ Hn). now rewrite DecimalPos.Unsigned.of_to.
Qed.

End BigIntFacts.


(* ===================================================================== *)
(** ** Further properties of the transaction-sourced daemon *)
(* ===================================================================== *)

(** *** One transaction, case by case *)

Lemma createHistoryEntry_fields (l : TxSourced.HistoryLog) et vt va am bb ba sl ts tx e :
  TxSourced.createHistoryEntry l et vt va am bb ba sl ts tx = Some e ->
  TxSourced.eventType e = et /\ TxSourced.vaultType e = vt /\ TxSourced.vault e = va
  /\ TxSourced.amount e = am /\ TxSourced.balanceBefore e = bb
  /\ TxSourced.balanceAfter e = ba /\ TxSourced.slot e = sl
  /\ TxSourced.timestamp e = ts /\ TxSourced.txSignature e = tx
  /\ toISOString ts = Some (TxSourced.date e).
Proof.
  unfold TxSourced.createHistoryEntry. destruct (toISOString ts) as [da|]; [|discriminate].
  cbn [mbind option_bind]. intros [= <-]. repeat split; reflexivity.
Qed.

Lemma createHistoryEntry_dated (l : TxSourced.HistoryLog) et vt va am bb ba sl ts tx :
  is_Some (toISOString ts) ->
  is_Some (TxSourced.createHistoryEntry l et vt va am bb ba sl ts tx).
Proof.
  intros [da Hda]. unfold TxSourced.createHistoryEntry. rewrite Hda.
  cbn [mbind option_bind]. eexists. reflexivity.
Qed.

(** [recordFee] either leaves the state as it is or pushes one entry and
    saves. *)
Lemma recordFee_cases now d vt vault delta pre post sl ts sig :
  let d' := TxSourced.recordFee now d vt vault delta pre post sl ts sig in
  (d' = d
   /\ (TxSourced.feeCallbackReturns d delta vt post = false
       \/ TxSourced.historyLog d = None
       \/ toISOString ts = None))
  \/ (exists l e,
         TxSourced.historyLog d = Some l
         /\ TxSourced.createHistoryEntry l FEE vt vault (toString delta)
              (toString pre) (toString post) sl ts sig = Some e
         /\ d' = TxSourced.pushEntry now d l e).
Proof.
  unfold TxSourced.recordFee.
  destruct (TxSourced.feeCallbackReturns d delta vt post); [|left; auto].
  destruct (TxSourced.historyLog d) as [l|]; [|left; auto].
  destruct (TxSourced.createHistoryEntry _ _ _ _ _ _ _ _ _ _) as [e|] eqn:He.
  - right. exists l, e. auto.
  - left. split; [reflexivity|]. right. right.
    unfold TxSourced.createHistoryEntry in He.
    destruct (toISOString ts); [discriminate He | reflexivity].
Qed.

(** What the native-vault extractor found: nothing to count, or a positive
    difference of lamport balances. *)
Lemma processTransaction_cases now d vt vault sig answer :
  let d' := TxSourced.processTransaction now d vt vault sig answer in
  d' = d
  \/ (exists t tx m pre post,
         TxSourced.tokenInfo d = Some t
         /\ answer = Returns (Some tx) /\ TxSourced.meta tx = Some m
         /\ (TxSourced.includes (TxSourced.accountKeys tx m) (TxSourced.ti_mint t)
             || TxSourced.includes (TxSourced.accountKeys tx m)
                  (TxSourced.ti_bondingCurve t)) = true
         /\ pre < post
         /\ d' = TxSourced.recordFee now
                   (TxSourced.with_bcFees d (TxSourced.bcFees d + (post - pre)))
                   vt vault (post - pre) pre post (TxSourced.tx_slot tx)
                   (default 0 (TxSourced.blockTime tx) * 1000)
                   (TxSourced.signature sig)).
Proof.
  unfold TxSourced.processTransaction.
  destruct (TxSourced.tokenInfo d) as [t|]; [|left; reflexivity].
  destruct answer as [|[tx|]]; try (left; reflexivity).
  destruct (TxSourced.meta tx) as [m|] eqn:Hm; [|left; reflexivity].
  destruct (_ || _) eqn:Hinv; [|left; reflexivity].
  destruct (TxSourced.indexOf _ vault) as [i|]; [|left; reflexivity].
  destruct (Z.leb_spec (nth i (TxSourced.postBalances m) 0
                        - nth i (TxSourced.preBalances m) 0) 0); [left; reflexivity|].
  right. exists t, tx, m, (nth i (TxSourced.preBalances m) 0),
    (nth i (TxSourced.postBalances m) 0). repeat split; auto. lia.
Qed.

(** The same for the fungible vault, on token balances. *)
Lemma processAMMTransaction_cases now d vault sig answer :
  let d' := TxSourced.processAMMTransaction now d vault sig answer in
  d' = d
  \/ (exists t tx m pre post,
         TxSourced.tokenInfo d = Some t
         /\ answer = Returns (Some tx) /\ TxSourced.meta tx = Some m
         /\ (TxSourced.includes (TxSourced.accountKeys tx m) (TxSourced.ti_mint t)
             || TxSourced.includes (TxSourced.accountKeys tx m) (TxSourced.ti_pool t))
            = true
         /\ pre < post
         /\ d' = TxSourced.recordFee now
                   (TxSourced.with_ammFees d (TxSourced.ammFees d + (post - pre)))
                   AMM vault (post - pre) pre post (TxSourced.tx_slot tx)
                   (default 0 (TxSourced.blockTime tx) * 1000)
                   (TxSourced.signature sig)).
Proof.
  unfold TxSourced.processAMMTransaction.
  destruct (TxSourced.tokenInfo d) as [t|]; [|left; reflexivity].
  destruct answer as [|[tx|]]; try (left; reflexivity).
  destruct (TxSourced.meta tx) as [m|] eqn:Hm; [|left; reflexivity].
  destruct (_ || _) eqn:Hinv; [|left; reflexivity].
  destruct (TxSourced.tokenBalanceOf _ vault (default [] (TxSourced.preTokenBalances m)))
    as [pre|]; [|left; reflexivity].
  destruct (TxSourced.tokenBalanceOf _ vault (default [] (TxSourced.postTokenBalances m)))
    as [post|]; [|left; reflexivity].
  destruct (Z.leb_spec (post - pre) 0); [left; reflexivity|].
  right. exists t, tx, m, pre, post. repeat split; auto. lia.
Qed.

Lemma pushEntry_effect now d l e :
  TxSourced.historyLog d = Some l ->
  let d' := TxSourced.pushEntry now d l e in
  frame d d'
  /\ TxSourced.log_entries d' = (TxSourced.log_entries d ++ [e])%list
  /\ TxSourced.bcFees d' = TxSourced.bcFees d
  /\ TxSourced.ammFees d' = TxSourced.ammFees d.
Proof.
  intros Hl. unfold TxSourced.pushEntry.
  destruct (saveHistory_frame now
              (TxSourced.with_historyLog d
                 (Some (TxSourced.with_entries l (TxSourced.entries l ++ [e])%list))))
    as (Hf & Hent & Hbc & Hamm).
  cbv zeta. split; [exact Hf|]. rewrite Hent. unfold TxSourced.log_entries at 2.
  rewrite Hl. repeat split; assumption.
Qed.

(** *** Relations kept by a run *)

Section TxRun.
Variable ok : TxSourced.Tick -> Prop.
Variable R : TxSourced.Daemon -> TxSourced.Daemon -> Prop.
Hypothesis R_refl : forall d, R d d.
Hypothesis R_trans : forall a b c, R a b -> R b c -> R a c.
Hypothesis R_cursorBC : forall d s, R d (TxSourced.with_lastBCSignature d s).
Hypothesis R_cursorAMM : forall d s, R d (TxSourced.with_lastAMMSignature d s).
Hypothesis R_stepBC : forall k, ok k -> forall vault d s,
  R d (stepBC (TxSourced.clock k) (TxSourced.getTransaction k) BC vault d s).
Hypothesis R_stepAMM : forall k, ok k -> forall vault d s,
  R d (stepAMM (TxSourced.clock k) (TxSourced.getTransaction k) vault d s).
Hypothesis R_checkMigration : forall k, ok k -> forall d,
  R d (TxSourced.checkMigration (TxSourced.clock k) d (TxSourced.bondingCurveAccount k)).

Lemma fold_rel {A} (step : TxSourced.Daemon -> A -> TxSourced.Daemon) (l : list A)
      (d : TxSourced.Daemon) :
  (forall d s, R d (step d s)) -> R d (List.fold_left step l d).
Proof.
  intros Hstep. revert d. induction l as [|s l IH]; intros d; simpl; [apply R_refl|].
  eapply R_trans; [apply Hstep | apply IH].
Qed.

Lemma pollVaultTransactions_rel k d vault sigs :
  ok k ->
  R d (TxSourced.pollVaultTransactions (TxSourced.clock k) d BC vault sigs
         (TxSourced.getTransaction k)).
Proof.
  intros Hk. unfold TxSourced.pollVaultTransactions.
  destruct sigs as [|[|newest rest]]; try apply R_refl.
  destruct (TxSourced.lastBCSignature d) as [lastSeen|]; [|apply R_cursorBC].
  destruct (String.eqb lastSeen ""); [apply R_cursorBC|].
  destruct (TxSourced.newSigs _ _ _) as [|n ns]; [apply R_refl|].
  eapply R_trans; [|apply R_cursorBC].
  apply (fold_rel (stepBC (TxSourced.clock k) (TxSourced.getTransaction k) BC vault)).
  intros d0 s. now apply R_stepBC.
Qed.

Lemma pollAMMVaultTransactions_rel k d sigs :
  ok k ->
  R d (TxSourced.pollAMMVaultTransactions (TxSourced.clock k) d sigs
         (TxSourced.getTransaction k)).
Proof.
  intros Hk. unfold TxSourced.pollAMMVaultTransactions.
  destruct (TxSourced.tokenInfo d) as [t|]; [|apply R_refl].
  destruct sigs as [|[|newest rest]]; try apply R_refl.
  destruct (TxSourced.lastAMMSignature d) as [lastSeen|]; [|apply R_cursorAMM].
  destruct (String.eqb lastSeen ""); [apply R_cursorAMM|].
  destruct (TxSourced.newSigs _ _ _) as [|n ns]; [apply R_refl|].
  eapply R_trans; [|apply R_cursorAMM].
  apply (fold_rel (stepAMM (TxSourced.clock k) (TxSourced.getTransaction k)
                     (TxSourced.ti_creatorVaultAMM t))).
  intros d0 s. now apply R_stepAMM.
Qed.

Lemma poll_rel (d : TxSourced.Daemon) (k : TxSourced.Tick) :
  ok k -> R d (TxSourced.poll d k).
Proof.
  intros Hk. unfold TxSourced.poll.
  destruct (TxSourced.tokenInfo d) as [t|]; [|apply R_refl].
  destruct (TxSourced.running d); [|apply R_refl].
  set (d1 := if negb (TxSourced.ti_migrated t) then _ else d).
  assert (H1 : R d d1).
  { subst d1. destruct (negb _); [now apply R_checkMigration | apply R_refl]. }
  set (d2 := TxSourced.pollVaultTransactions _ d1 _ _ _ _).
  assert (H2 : R d1 d2) by now apply pollVaultTransactions_rel.
  destruct (TxSourced.isMigrated d2).
  - eapply R_trans; [exact H1|]. eapply R_trans; [exact H2|].
    now apply pollAMMVaultTransactions_rel.
  - eapply R_trans; eauto.
Qed.

Lemma run_rel (ticks : list TxSourced.Tick) (d : TxSourced.Daemon) :
  Forall ok ticks -> R d (TxSourced.run d ticks).
Proof.
  revert d. induction ticks as [|k ticks IH]; intros d Hok; simpl; [apply R_refl|].
  inversion Hok as [|? ? Hk Hks]; subst.
  apply (R_trans d (TxSourced.poll d k)); [now apply poll_rel | now apply IH].
Qed.
End TxRun.


(** *** Totals against the ledger *)

Lemma credited_app (vt : VaultType) (a b : list TxSourced.HistoryEntry) :
  credited vt (a ++ b) = credited vt a + credited vt b.
Proof. induction a as [|e a IH]; simpl; [reflexivity|]. rewrite IH. lia. Qed.

Lemma credit_nonneg (vt : VaultType) (e : TxSourced.HistoryEntry) : 0 <= credit vt e.
Proof.
  unfold credit. destruct (BigInt _) as [a|]; [|lia].
  destruct (TxSourced.eventType e); try lia.
  destruct (Z.gtb_spec a 0); [|lia].
  destruct (TxSourced.vaultType e), vt; lia.
Qed.

Lemma credited_nonneg (vt : VaultType) (es : list TxSourced.HistoryEntry) :
  0 <= credited vt es.
Proof.
  induction es as [|e es IH]; simpl; [lia|]. pose proof (credit_nonneg vt e). lia.
Qed.

Lemma credit_fee (l : TxSourced.HistoryLog) vt vault delta pre post sl ts sig e vt' :
  0 < delta ->
  TxSourced.createHistoryEntry l FEE vt vault (toString delta) (toString pre)
    (toString post) sl ts sig = Some e ->
  credit vt' e = match vt, vt' with BC, BC | AMM, AMM => delta | _, _ => 0 end.
Proof.
  intros Hpos He.
  apply createHistoryEntry_fields in He as (Het & Hvt & _ & Ham & _).
  unfold credit. rewrite Ham, Het, Hvt, BigIntFacts.BigInt_toString.
  destruct (Z.gtb_spec delta 0); [reflexivity | lia].
Qed.

Lemma fee_record_created (l : TxSourced.HistoryLog) vt vault pre post sl ts sig e :
  pre < post ->
  TxSourced.createHistoryEntry l FEE vt vault (toString (post - pre)) (toString pre)
    (toString post) sl ts sig = Some e ->
  fee_record e.
Proof.
  intros Hlt He.
  apply createHistoryEntry_fields in He
      as (Het & _ & _ & Ham & Hbb & Hba & _ & Hts & _ & Hda).
  split; [exact Het|]. split; [exists pre, post; auto|]. now rewrite Hts.
Qed.

Lemma feeCallbackReturns_quiet d delta vt post :
  callback_returns (TxSourced.config d) ->
  TxSourced.feeCallbackReturns d delta vt post = true.
Proof.
  unfold callback_returns, TxSourced.feeCallbackReturns.
  destruct (TxSourced.onFeeDetected _); auto.
Qed.

(** One step of a pipeline, in full: what it appends and what it adds to
    the totals.  [mine] and [other] read the total of the pipeline's vault
    type and the other one. *)
Lemma recordFee_account now d vt vault pre post sl ts sig :
  pre < post ->
  let d' := TxSourced.recordFee now d vt vault (post - pre) pre post sl ts sig in
  TxSourced.config d' = TxSourced.config d
  /\ (is_Some (TxSourced.historyLog d) -> is_Some (TxSourced.historyLog d'))
  /\ TxSourced.bcFees d' = TxSourced.bcFees d
  /\ TxSourced.ammFees d' = TxSourced.ammFees d
  /\ exists new,
       TxSourced.log_entries d' = (TxSourced.log_entries d ++ new)%list
       /\ Forall fee_record new
       /\ (forall vt', credited vt' new <= match vt, vt' with
                                           | BC, BC | AMM, AMM => post - pre
                                           | _, _ => 0
                                           end)
       /\ (callback_returns (TxSourced.config d) ->
           is_Some (TxSourced.historyLog d) ->
           is_Some (toISOString ts) ->
           forall vt', credited vt' new = match vt, vt' with
                                          | BC, BC | AMM, AMM => post - pre
                                          | _, _ => 0
                                          end).
Proof.
  intros Hlt.
  destruct (recordFee_cases now d vt vault (post - pre) pre post sl ts sig)
    as [[-> Hwhy] | (l & e & Hl & He & ->)]; cbv zeta.
  - split; [reflexivity|]. split; [auto|]. split; [reflexivity|].
    split; [reflexivity|]. exists []. rewrite app_nil_r.
    split; [reflexivity|]. split; [constructor|]. split.
    + intros vt'. simpl. destruct vt, vt'; lia.
    + intros Hq Hlog Hdate. exfalso. destruct Hwhy as [Hcb | [Hnone | Hnone]].
      * rewrite feeCallbackReturns_quiet in Hcb by exact Hq. discriminate.
      * rewrite Hnone in Hlog. now destruct Hlog.
      * rewrite Hnone in Hdate. now destruct Hdate.
  - destruct (pushEntry_effect now d l e Hl) as ((Hc & _) & Hent & Hbc & Hamm).
    split; [exact Hc|]. split.
    { intros _. unfold TxSourced.pushEntry, TxSourced.saveHistory. simpl.
      destruct (truthy _); simpl; eauto. }
    split; [exact Hbc|]. split; [exact Hamm|].
    exists [e]. split; [exact Hent|].
    split; [repeat constructor; now apply (fee_record_created l vt vault pre post sl ts sig)|].
    assert (Hcr : forall vt', credited vt' [e]
                              = match vt, vt' with
                                | BC, BC | AMM, AMM => post - pre
                                | _, _ => 0
                                end).
    { intros vt'. simpl.
      rewrite (credit_fee l vt vault (post - pre) pre post sl ts sig e vt') by (auto; lia).
      destruct vt, vt'; lia. }
    split; [intros vt'; rewrite Hcr; lia | intros _ _ _; exact Hcr].
Qed.

Lemma stepBC_account now getTx vault d s :
  let d' := stepBC now getTx BC vault d s in
  TxSourced.config d' = TxSourced.config d
  /\ (is_Some (TxSourced.historyLog d) -> is_Some (TxSourced.historyLog d'))
  /\ TxSourced.ammFees d' = TxSourced.ammFees d
  /\ exists new,
       TxSourced.log_entries d' = (TxSourced.log_entries d ++ new)%list
       /\ Forall fee_record new
       /\ credited AMM new = 0
       /\ TxSourced.bcFees d + credited BC new <= TxSourced.bcFees d'
       /\ (callback_returns (TxSourced.config d) ->
           is_Some (TxSourced.historyLog d) ->
           (forall tx, getTx (TxSourced.signature s) = Returns (Some tx) ->
                       is_Some (toISOString (default 0 (TxSourced.blockTime tx) * 1000))) ->
           TxSourced.bcFees d' = TxSourced.bcFees d + credited BC new).
Proof.
  unfold stepBC.
  destruct (processTransaction_cases now d BC vault s (getTx (TxSourced.signature s)))
    as [-> | (t & tx & m & pre & post & Ht & Hans & Hm & Hinv & Hlt & ->)]; cbv zeta.
  - split; [reflexivity|]. split; [auto|]. split; [reflexivity|].
    exists []. rewrite app_nil_r. simpl.
    split; [reflexivity|]. split; [constructor|]. split; [reflexivity|].
    split; [lia | intros; lia].
  - set (d1 := TxSourced.with_bcFees d (TxSourced.bcFees d + (post - pre))).
    destruct (recordFee_account now d1 BC vault pre post (TxSourced.tx_slot tx)
                (default 0 (TxSourced.blockTime tx) * 1000) (TxSourced.signature s) Hlt)
      as (Hc & Hlog & Hbc & Hamm & new & Hent & Hrec & Hle & Heq).
    split; [exact Hc|]. split; [exact Hlog|]. split; [exact Hamm|].
    exists new. split; [exact Hent|]. split; [exact Hrec|].
    pose proof (Hle AMM) as HleA. pose proof (Hle BC) as HleB.
    pose proof (credited_nonneg AMM new). cbv iota in HleA, HleB.
    split; [lia|]. split.
    + change (TxSourced.bcFees
                (TxSourced.markProcessed (TxSourced.recordFee now d1 BC vault (post - pre) pre
                   post (TxSourced.tx_slot tx)
                   (default 0 (TxSourced.blockTime tx) * 1000) (TxSourced.signature s)) s))
        with (TxSourced.bcFees (TxSourced.recordFee now d1 BC vault (post - pre) pre
                   post (TxSourced.tx_slot tx)
                   (default 0 (TxSourced.blockTime tx) * 1000) (TxSourced.signature s))).
      rewrite Hbc. simpl. lia.
    + intros Hq Hsome Hdated.
      change (TxSourced.bcFees
                (TxSourced.markProcessed (TxSourced.recordFee now d1 BC vault (post - pre) pre
                   post (TxSourced.tx_slot tx)
                   (default 0 (TxSourced.blockTime tx) * 1000) (TxSourced.signature s)) s))
        with (TxSourced.bcFees (TxSourced.recordFee now d1 BC vault (post - pre) pre
                   post (TxSourced.tx_slot tx)
                   (default 0 (TxSourced.blockTime tx) * 1000) (TxSourced.signature s))).
      rewrite Hbc. simpl. rewrite (Heq Hq Hsome (Hdated tx Hans) BC). lia.
Qed.


Lemma stepAMM_account now getTx vault d s :
  let d' := stepAMM now getTx vault d s in
  TxSourced.config d' = TxSourced.config d
  /\ (is_Some (TxSourced.historyLog d) -> is_Some (TxSourced.historyLog d'))
  /\ TxSourced.bcFees d' = TxSourced.bcFees d
  /\ exists new,
       TxSourced.log_entries d' = (TxSourced.log_entries d ++ new)%list
       /\ Forall fee_record new
       /\ credited BC new = 0
       /\ TxSourced.ammFees d + credited AMM new <= TxSourced.ammFees d'
       /\ (callback_returns (TxSourced.config d) ->
           is_Some (TxSourced.historyLog d) ->
           (forall tx, getTx (TxSourced.signature s) = Returns (Some tx) ->
                       is_Some (toISOString (default 0 (TxSourced.blockTime tx) * 1000))) ->
           TxSourced.ammFees d' = TxSourced.ammFees d + credited AMM new).
Proof.
  unfold stepAMM.
  destruct (processAMMTransaction_cases now d vault s (getTx (TxSourced.signature s)))
    as [-> | (t & tx & m & pre & post & Ht & Hans & Hm & Hinv & Hlt & ->)]; cbv zeta.
  - split; [reflexivity|]. split; [auto|]. split; [reflexivity|].
    exists []. rewrite app_nil_r. simpl.
    split; [reflexivity|]. split; [constructor|]. split; [reflexivity|].
    split; [lia | intros; lia].
  - set (d1 := TxSourced.with_ammFees d (TxSourced.ammFees d + (post - pre))).
    destruct (recordFee_account now d1 AMM vault pre post (TxSourced.tx_slot tx)
                (default 0 (TxSourced.blockTime tx) * 1000) (TxSourced.signature s) Hlt)
      as (Hc & Hlog & Hbc & Hamm & new & Hent & Hrec & Hle & Heq).
    split; [exact Hc|]. split; [exact Hlog|]. split; [exact Hbc|].
    exists new. split; [exact Hent|]. split; [exact Hrec|].
    pose proof (Hle AMM) as HleA. pose proof (Hle BC) as HleB.
    pose proof (credited_nonneg BC new). cbv iota in HleA, HleB.
    split; [lia|]. split.
    + change (TxSourced.ammFees (TxSourced.markProcessed ?x s))
        with (TxSourced.ammFees x).
      rewrite Hamm. simpl. lia.
    + intros Hq Hsome Hdated.
      change (TxSourced.ammFees (TxSourced.markProcessed ?x s))
        with (TxSourced.ammFees x).
      rewrite Hamm. simpl. rewrite (Heq Hq Hsome (Hdated tx Hans) AMM). lia.
Qed.

(** [checkMigration] either leaves the state or raises the flag, in the
    token record and, when there is one, in the log it then saves. *)
Lemma checkMigration_cases now d account :
  let d' := TxSourced.checkMigration now d account in
  d' = d
  \/ exists t,
       TxSourced.tokenInfo d = Some t /\ TxSourced.ti_migrated t = false
       /\ ((TxSourced.historyLog d = None
            /\ d' = TxSourced.with_tokenInfo d (Some (TxSourced.set_migrated t true)))
           \/ exists l,
                TxSourced.historyLog d = Some l
                /\ d' = TxSourced.saveHistory now
                          (TxSourced.with_historyLog
                             (TxSourced.with_tokenInfo d
                                (Some (TxSourced.set_migrated t true)))
                             (Some (TxSourced.with_log_migrated l true)))).
Proof.
  unfold TxSourced.checkMigration.
  destruct (TxSourced.tokenInfo d) as [t|]; [|left; reflexivity].
  destruct account as [|[data|]]; try (left; reflexivity).
  destruct (deserializeBondingCurve data) as [bc|]; [|left; reflexivity].
  destruct (complete bc); [|left; reflexivity].
  destruct (TxSourced.ti_migrated t) eqn:Hm; [left; reflexivity|].
  right. exists t. split; [reflexivity|]. split; [exact Hm|]. simpl.
  destruct (TxSourced.historyLog d) as [l|]; [right; exists l; auto | left; auto].
Qed.

Lemma saveHistory_keeps_log (now : string) (d : TxSourced.Daemon) :
  is_Some (TxSourced.historyLog d) -> is_Some (TxSourced.historyLog (TxSourced.saveHistory now d)).
Proof.
  intros [l Hl]. unfold TxSourced.saveHistory. rewrite Hl.
  destruct (truthy _); simpl; [eauto | rewrite Hl; eauto].
Qed.

Lemma checkMigration_account now d account :
  let d' := TxSourced.checkMigration now d account in
  TxSourced.config d' = TxSourced.config d
  /\ (is_Some (TxSourced.historyLog d) -> is_Some (TxSourced.historyLog d'))
  /\ TxSourced.log_entries d' = TxSourced.log_entries d
  /\ TxSourced.bcFees d' = TxSourced.bcFees d
  /\ TxSourced.ammFees d' = TxSourced.ammFees d.
Proof.
  destruct (checkMigration_cases now d account)
    as [-> | (t & Ht & Hm & [[Hnone ->] | (l & Hl & ->)])]; cbv zeta.
  - repeat split; auto.
  - repeat split; auto.
  - match goal with
    | |- context [TxSourced.saveHistory ?n ?d0] =>
        destruct (saveHistory_frame n d0) as ((Hc & _) & Hent & Hbc & Hamm);
        pose proof (saveHistory_keeps_log n d0) as Hkeep
    end.
    rewrite Hc, Hent, Hbc, Hamm. unfold TxSourced.log_entries. simpl. rewrite Hl.
    repeat split; auto.
Qed.

Lemma grows_refl (d : TxSourced.Daemon) : grows d d.
Proof.
  exists []. rewrite app_nil_r. simpl.
  split; [reflexivity|]. split; [constructor|]. lia.
Qed.

Lemma grows_trans (a b c : TxSourced.Daemon) : grows a b -> grows b c -> grows a c.
Proof.
  intros (n1 & E1 & F1 & B1 & A1) (n2 & E2 & F2 & B2 & A2).
  exists (n1 ++ n2)%list. rewrite E2, E1, <- app_assoc, !credited_app.
  split; [reflexivity|]. split; [now apply Forall_app|]. lia.
Qed.

Lemma grows_same (d d' : TxSourced.Daemon) :
  TxSourced.log_entries d' = TxSourced.log_entries d ->
  TxSourced.bcFees d' = TxSourced.bcFees d ->
  TxSourced.ammFees d' = TxSourced.ammFees d ->
  grows d d'.
Proof.
  intros E B A. exists []. rewrite app_nil_r, E, B, A. simpl.
  split; [reflexivity|]. split; [constructor|]. lia.
Qed.

Lemma run_grows (ticks : list TxSourced.Tick) (d : TxSourced.Daemon) :
  grows d (TxSourced.run d ticks).
Proof.
  apply (run_rel (fun _ => True) grows grows_refl grows_trans).
  - intros d0 s. now apply grows_same.
  - intros d0 s. now apply grows_same.
  - intros k _ vault d0 s.
    destruct (stepBC_account (TxSourced.clock k) (TxSourced.getTransaction k) vault d0 s)
      as (_ & _ & Hamm & new & E & F & Z0 & Hle & _).
    exists new. rewrite Z0, Hamm. repeat split; auto; lia.
  - intros k _ vault d0 s.
    destruct (stepAMM_account (TxSourced.clock k) (TxSourced.getTransaction k) vault d0 s)
      as (_ & _ & Hbc & new & E & F & Z0 & Hle & _).
    exists new. rewrite Z0, Hbc. repeat split; auto; lia.
  - intros k _ d0.
    destruct (checkMigration_account (TxSourced.clock k) d0
                (TxSourced.bondingCurveAccount k)) as (_ & _ & E & B & A).
    now apply grows_same.
  - apply Forall_forall. auto.
Qed.

Lemma tallies_refl (d : TxSourced.Daemon) : tallies d d.
Proof.
  intros Hr. split; [exact Hr|]. exists []. rewrite app_nil_r. simpl.
  repeat split; lia.
Qed.

Lemma tallies_trans (a b c : TxSourced.Daemon) : tallies a b -> tallies b c -> tallies a c.
Proof.
  intros H1 H2 Ha. destruct (H1 Ha) as (Hb & n1 & E1 & B1 & A1).
  destruct (H2 Hb) as (Hc & n2 & E2 & B2 & A2). split; [exact Hc|].
  exists (n1 ++ n2)%list. rewrite E2, E1, <- app_assoc, !credited_app.
  repeat split; lia.
Qed.

Lemma tallies_same (d d' : TxSourced.Daemon) :
  TxSourced.config d' = TxSourced.config d ->
  (is_Some (TxSourced.historyLog d) -> is_Some (TxSourced.historyLog d')) ->
  TxSourced.log_entries d' = TxSourced.log_entries d ->
  TxSourced.bcFees d' = TxSourced.bcFees d ->
  TxSourced.ammFees d' = TxSourced.ammFees d ->
  tallies d d'.
Proof.
  intros C L E B A [Hq Hl]. split; [split; [now rewrite C | auto]|].
  exists []. rewrite app_nil_r, E, B, A. simpl. repeat split; lia.
Qed.

Lemma run_tallies (ticks : list TxSourced.Tick) (d : TxSourced.Daemon) :
  Forall dated ticks -> tallies d (TxSourced.run d ticks).
Proof.
  apply (run_rel dated tallies tallies_refl tallies_trans).
  - intros d0 s. now apply tallies_same.
  - intros d0 s. now apply tallies_same.
  - intros k Hk vault d0 s [Hq Hl].
    destruct (stepBC_account (TxSourced.clock k) (TxSourced.getTransaction k) vault d0 s)
      as (C & L & Hamm & new & E & F & Z0 & _ & Heq).
    split; [split; [now rewrite C | auto]|].
    exists new. rewrite Z0, Hamm. split; [exact E|]. split; [|lia].
    apply Heq; auto; intros tx Htx; exact (Hk _ _ Htx).
  - intros k Hk vault d0 s [Hq Hl].
    destruct (stepAMM_account (TxSourced.clock k) (TxSourced.getTransaction k) vault d0 s)
      as (C & L & Hbc & new & E & F & Z0 & _ & Heq).
    split; [split; [now rewrite C | auto]|].
    exists new. rewrite Z0, Hbc. split; [exact E|]. split; [lia|].
    apply Heq; auto; intros tx Htx; exact (Hk _ _ Htx).
  - intros k _ d0.
    destruct (checkMigration_account (TxSourced.clock k) d0
                (TxSourced.bondingCurveAccount k)) as (C & L & E & B & A).
    now apply tallies_same.
Qed.


Lemma sample_tick_dated : dated sample_tick.
Proof.
  intros sig tx. cbn [TxSourced.getTransaction sample_tick]. unfold sample_getTransaction.
  destruct (String.eqb sig "S4"); [|destruct (String.eqb sig "S5")];
    intros [= <-]; try (eexists; vm_compute; reflexivity).
Qed.

(** X5. The transaction-sourced daemon only ever appends to its ledger,
    and only fee records: after any run of poll ticks the entries held
    before are still there, in place, and every entry added is of type FEE,
    with an amount that is the positive difference of the two balances it
    records and a date that is its timestamp's.  No CLAIM or MIGRATE entry
    is ever written by this revision. *)
Theorem run_appends_fee_records_only :
  forall d ticks,
  exists new,
    TxSourced.log_entries (TxSourced.run d ticks)
    = (TxSourced.log_entries d ++ new)%list
    /\ Forall fee_record new.
Proof.
  intros d ticks. destruct (run_grows ticks d) as (new & E & F & _).
  exists new. auto.
Qed.

(** X6. The fee totals never fall behind the ledger: over any run of poll
    ticks each total grows by at least the amounts of the new entries of
    its vault type, and so never decreases. *)
Theorem fee_totals_cover_the_ledger :
  forall d ticks,
  exists new,
    TxSourced.log_entries (TxSourced.run d ticks)
    = (TxSourced.log_entries d ++ new)%list
    /\ TxSourced.bcFees d + credited BC new <= TxSourced.bcFees (TxSourced.run d ticks)
    /\ TxSourced.ammFees d + credited AMM new <= TxSourced.ammFees (TxSourced.run d ticks)
    /\ TxSourced.bcFees d <= TxSourced.bcFees (TxSourced.run d ticks)
    /\ TxSourced.ammFees d <= TxSourced.ammFees (TxSourced.run d ticks).
Proof.
  intros d ticks. destruct (run_grows ticks d) as (new & E & _ & B & A).
  exists new. pose proof (credited_nonneg BC new). pose proof (credited_nonneg AMM new).
  repeat split; auto; lia.
Qed.

(** X7. When the daemon keeps a ledger, its fee callback (if any) returns
    on every call and every transaction it is answered carries a block time
    that is a valid date, the totals and the ledger move together: over any
    run each total grows by exactly the amounts of the new entries of its
    vault type. *)
Theorem fee_totals_match_the_ledger :
  forall d ticks,
    callback_returns (TxSourced.config d) ->
    is_Some (TxSourced.historyLog d) ->
    Forall dated ticks ->
    exists new,
      TxSourced.log_entries (TxSourced.run d ticks)
      = (TxSourced.log_entries d ++ new)%list
      /\ TxSourced.bcFees (TxSourced.run d ticks) = TxSourced.bcFees d + credited BC new
      /\ TxSourced.ammFees (TxSourced.run d ticks)
         = TxSourced.ammFees d + credited AMM new.
Proof.
  intros d ticks Hq Hl Hd.
  destruct (run_tallies ticks d Hd (conj Hq Hl)) as (_ & new & E & B & A).
  exists new. auto.
Qed.

Lemma fee_totals_match_the_ledger_witness :
  exists new,
    TxSourced.log_entries (TxSourced.run sample_daemon [sample_tick; sample_tick])
    = (TxSourced.log_entries sample_daemon ++ new)%list
    /\ TxSourced.bcFees (TxSourced.run sample_daemon [sample_tick; sample_tick])
       = TxSourced.bcFees sample_daemon + credited BC new
    /\ TxSourced.ammFees (TxSourced.run sample_daemon [sample_tick; sample_tick])
       = TxSourced.ammFees sample_daemon + credited AMM new.
Proof.
  apply (fee_totals_match_the_ledger sample_daemon [sample_tick; sample_tick]).
  - exact I.
  - eexists. reflexivity.
  - repeat constructor; apply sample_tick_dated.
Defined.


(** *** Starting from a history file *)

Lemma restore_step_fields (d : TxSourced.Daemon) (e : TxSourced.HistoryEntry) (a : Z) :
  BigInt (TxSourced.amount e) = Some a ->
  let d1 := TxSourced.with_processedTxs d
              ({[ TxSourced.txSignature e ]} ∪ TxSourced.processedTxs d) in
  let d2 := match TxSourced.eventType e with
            | FEE => if (a >? 0)%Z
                     then match TxSourced.vaultType e with
                          | BC => TxSourced.with_bcFees d1 (TxSourced.bcFees d1 + a)
                          | AMM => TxSourced.with_ammFees d1 (TxSourced.ammFees d1 + a)
                          end
                     else d1
            | _ => d1
            end in
  TxSourced.bcFees d2 = TxSourced.bcFees d + credit BC e
  /\ TxSourced.ammFees d2 = TxSourced.ammFees d + credit AMM e
  /\ TxSourced.processedTxs d2 = {[ TxSourced.txSignature e ]} ∪ TxSourced.processedTxs d
  /\ TxSourced.historyLog d2 = TxSourced.historyLog d
  /\ TxSourced.disk d2 = TxSourced.disk d
  /\ TxSourced.config d2 = TxSourced.config d
  /\ TxSourced.tokenInfo d2 = TxSourced.tokenInfo d.
Proof.
  intros Ha. unfold credit. rewrite Ha.
  destruct (TxSourced.eventType e); cbv zeta;
    try (repeat split; simpl; lia).
  destruct (a >? 0)%Z; [|repeat split; simpl; lia].
  destruct (TxSourced.vaultType e); repeat split; simpl; lia.
Qed.

(** The restore loop on entries whose amounts all read: it runs to the
    end and adds up what each entry credits. *)
Lemma restore_sums (es : list TxSourced.HistoryEntry) (d : TxSourced.Daemon) :
  Forall amount_reads es ->
  exists d',
    TxSourced.restore d es = (d', true)
    /\ TxSourced.bcFees d' = TxSourced.bcFees d + credited BC es
    /\ TxSourced.ammFees d' = TxSourced.ammFees d + credited AMM es
    /\ TxSourced.processedTxs d' = signatures_of es ∪ TxSourced.processedTxs d
    /\ TxSourced.historyLog d' = TxSourced.historyLog d
    /\ TxSourced.disk d' = TxSourced.disk d
    /\ TxSourced.config d' = TxSourced.config d
    /\ TxSourced.tokenInfo d' = TxSourced.tokenInfo d.
Proof.
  revert d. induction es as [|e es IH]; intros d Hall.
  - exists d. simpl. unfold signatures_of. simpl.
    repeat split; try lia. set_solver.
  - inversion Hall as [|? ? [a Ha] Hes]; subst.
    cbn [TxSourced.restore]. rewrite Ha.
    destruct (restore_step_fields d e a Ha) as (B & A & P & L & K & C & T).
    cbv zeta in B, A, P, L, K, C, T.
    match goal with
    | |- context [TxSourced.restore ?d2 es] =>
        destruct (IH d2 Hes) as (d' & R & B' & A' & P' & L' & K' & C' & T')
    end.
    exists d'. split; [exact R|].
    rewrite B', A', P', L', K', C', T', B, A, P, L, K, C, T.
    change (credited BC (e :: es)) with (credit BC e + credited BC es).
    change (credited AMM (e :: es)) with (credit AMM e + credited AMM es).
    unfold signatures_of. cbn [List.map list_to_set].
    repeat split; try lia. set_solver.
Qed.

(** The restore loop stopped by an amount that does not read. *)
Lemma restore_stops (good rest : list TxSourced.HistoryEntry)
      (bad : TxSourced.HistoryEntry) (d : TxSourced.Daemon) :
  Forall amount_reads good ->
  BigInt (TxSourced.amount bad) = None ->
  exists d',
    TxSourced.restore d (good ++ bad :: rest) = (d', false)
    /\ TxSourced.bcFees d' = TxSourced.bcFees d + credited BC good
    /\ TxSourced.ammFees d' = TxSourced.ammFees d + credited AMM good
    /\ TxSourced.processedTxs d'
       = {[ TxSourced.txSignature bad ]} ∪ signatures_of good ∪ TxSourced.processedTxs d
    /\ TxSourced.disk d' = TxSourced.disk d
    /\ TxSourced.config d' = TxSourced.config d
    /\ TxSourced.tokenInfo d' = TxSourced.tokenInfo d.
Proof.
  revert d. induction good as [|e es IH]; intros d Hall Hbad.
  - eexists. cbn [app TxSourced.restore]. rewrite Hbad. split; [reflexivity|].
    unfold signatures_of. simpl. repeat split; try lia. set_solver.
  - inversion Hall as [|? ? [a Ha] Hes]; subst.
    cbn [app TxSourced.restore]. rewrite Ha.
    destruct (restore_step_fields d e a Ha) as (B & A & P & L & K & C & T).
    cbv zeta in B, A, P, L, K, C, T.
    match goal with
    | |- context [TxSourced.restore ?d2 (es ++ bad :: rest)] =>
        destruct (IH d2 Hes Hbad) as (d' & R & B' & A' & P' & K' & C' & T')
    end.
    exists d'. split; [exact R|].
    rewrite B', A', P', K', C', T', B, A, P, K, C, T.
    change (credited BC (e :: es)) with (credit BC e + credited BC es).
    change (credited AMM (e :: es)) with (credit AMM e + credited AMM es).
    unfold signatures_of. cbn [List.map list_to_set].
    repeat split; try lia. set_solver.
Qed.

Lemma saveHistory_on_disk (now : string) (d : TxSourced.Daemon) :
  truthy (TxSourced.historyFile (TxSourced.config d)) = true ->
  is_Some (TxSourced.historyLog d) ->
  on_disk (TxSourced.saveHistory now d).
Proof.
  intros Ht [l Hl]. unfold TxSourced.saveHistory. rewrite Hl, Ht.
  eexists. split; [reflexivity|]. apply loadHistoryLog_written.
Qed.

Lemma fee_record_reads (e : TxSourced.HistoryEntry) : fee_record e -> amount_reads e.
Proof.
  intros (_ & (pre & post & _ & Ha & _) & _). unfold amount_reads.
  rewrite Ha, BigIntFacts.BigInt_toString. eauto.
Qed.


Lemma stop_saves (now : string) (d : TxSourced.Daemon) (l : TxSourced.HistoryLog) :
  TxSourced.running d = true ->
  TxSourced.historyLog d = Some l ->
  truthy (TxSourced.historyFile (TxSourced.config d)) = true ->
  exists saved,
    TxSourced.historyLog (TxLife.stop now d) = Some saved
    /\ TxSourced.disk (TxLife.stop now d)
       = Some (JSON.stringify (TxSourced.document saved))
    /\ TxSourced.entries saved = TxSourced.entries l.
Proof.
  intros Hrun Hl Ht. unfold TxLife.stop. rewrite Hrun. cbv zeta.
  cbn [TxLife.with_running TxSourced.historyLog TxSourced.config]. rewrite Hl, Ht.
  unfold TxSourced.saveHistory.
  cbn [TxLife.with_running TxSourced.historyLog TxSourced.config]. rewrite Hl, Ht.
  eexists. split; [reflexivity|]. split; reflexivity.
Qed.

Lemma initializeHistory_loads now d0 t l :
  TxSourced.tokenInfo d0 = Some t ->
  truthy (TxSourced.historyFile (TxSourced.config d0)) = true ->
  TxSourced.loadHistoryLog (TxSourced.disk d0) = Some l ->
  Forall amount_reads (TxSourced.entries l) ->
  let d' := TxSourced.initializeHistory now d0 in
  TxSourced.historyLog d' = Some l
  /\ TxSourced.bcFees d' = TxSourced.bcFees d0 + credited BC (TxSourced.entries l)
  /\ TxSourced.ammFees d' = TxSourced.ammFees d0 + credited AMM (TxSourced.entries l)
  /\ TxSourced.processedTxs d'
     = signatures_of (TxSourced.entries l) ∪ TxSourced.processedTxs d0
  /\ TxSourced.disk d' = TxSourced.disk d0.
Proof.
  intros Htok Ht Hload Hall d'. subst d'.
  unfold TxSourced.initializeHistory. rewrite Htok, Ht. cbn [andb].
  assert (Hdisk : is_Some (TxSourced.disk d0)).
  { destruct (TxSourced.disk d0); [eauto | discriminate Hload]. }
  rewrite bool_decide_eq_true_2 by exact Hdisk. rewrite Hload.
  destruct (restore_sums (TxSourced.entries l)
              (TxSourced.with_historyLog d0 (Some l)) Hall)
    as (d' & R & B & A & P & L & K & _).
  rewrite R. rewrite B, A, P, L, K. simpl. repeat split; reflexivity.
Qed.

(** X8. A restart loses nothing the ledger holds.  When a running daemon
    with a history file is stopped and a new one is constructed over the
    file it wrote, [initializeHistory] gives the new daemon the very log the
    old one saved, fee totals that are the sums of the positive FEE amounts
    of its entries per vault type, and a processed set that holds exactly
    the signatures of its entries, provided every stored amount reads as an
    integer. *)
Theorem restart_restores_ledger_and_totals :
  forall now now' d l t,
    TxSourced.running d = true ->
    TxSourced.historyLog d = Some l ->
    truthy (TxSourced.historyFile (TxSourced.config d)) = true ->
    Forall amount_reads (TxSourced.entries l) ->
    let stopped := TxLife.stop now d in
    let d' := TxSourced.initializeHistory now'
                (TxSourced.with_tokenInfo
                   (TxLife.constructed (TxSourced.config d) (TxSourced.disk stopped))
                   (Some t)) in
    TxSourced.historyLog d' = TxSourced.historyLog stopped
    /\ TxSourced.log_entries d' = TxSourced.entries l
    /\ TxSourced.bcFees d' = credited BC (TxSourced.entries l)
    /\ TxSourced.ammFees d' = credited AMM (TxSourced.entries l)
    /\ TxSourced.processedTxs d' = signatures_of (TxSourced.entries l).
Proof.
  intros now now' d l t Hrun Hl Ht Hall stopped d'.
  destruct (stop_saves now d l Hrun Hl Ht) as (saved & Hlog & Hdisk & Hes).
  subst stopped d'. rewrite Hlog, Hdisk.
  rewrite <- Hes in *.
  destruct (initializeHistory_loads now'
              (TxSourced.with_tokenInfo
                 (TxLife.constructed (TxSourced.config d)
                    (Some (JSON.stringify (TxSourced.document saved)))) (Some t))
              t saved eq_refl Ht (loadHistoryLog_written saved) Hall)
    as (L & B & A & P & _).
  cbv zeta in L, B, A, P. unfold TxSourced.log_entries. rewrite L, B, A, P. simpl.
  repeat split; try lia. set_solver.
Qed.

Lemma restart_restores_ledger_and_totals_witness :
  let stopped := TxLife.stop "2024-01-03T00:00:00.000Z" sample_daemon_with_log in
  let d' := TxSourced.initializeHistory "2024-01-04T00:00:00.000Z"
              (TxSourced.with_tokenInfo
                 (TxLife.constructed (TxSourced.config sample_daemon_with_log)
                    (TxSourced.disk stopped))
                 (Some sample_token)) in
  TxSourced.log_entries d' = TxSourced.entries sample_log
  /\ TxSourced.bcFees d' = 500007
  /\ TxSourced.processedTxs d' = {[ "S4"; "S5" ]}.
Proof.
  assert (Hall : Forall amount_reads (TxSourced.entries sample_log)).
  { repeat constructor; eexists; vm_compute; reflexivity. }
  destruct (restart_restores_ledger_and_totals "2024-01-03T00:00:00.000Z"
              "2024-01-04T00:00:00.000Z" sample_daemon_with_log sample_log sample_token
              eq_refl eq_refl eq_refl Hall) as (_ & E & B & _ & P).
  cbv zeta. split; [exact E|]. split.
  - rewrite B. vm_compute. reflexivity.
  - rewrite P. vm_compute. reflexivity.
Defined.

(** X9. One amount that does not read as an integer costs the whole
    ledger: when the loaded log holds such an entry, [initializeHistory]
    starts a fresh, empty log and writes it over the file, yet keeps the
    fees it had added for the entries before the unreadable one and the
    signatures it had marked, that entry's included; the file it writes has
    no entries, an entry count of 0 and these leftover fees as its total. *)
Theorem unreadable_amount_restarts_the_ledger :
  forall now d0 t l good bad rest,
    TxSourced.tokenInfo d0 = Some t ->
    truthy (TxSourced.historyFile (TxSourced.config d0)) = true ->
    TxSourced.loadHistoryLog (TxSourced.disk d0) = Some l ->
    TxSourced.entries l = (good ++ bad :: rest)%list ->
    Forall amount_reads good ->
    BigInt (TxSourced.amount bad) = None ->
    let d' := TxSourced.initializeHistory now d0 in
    exists fresh,
      TxSourced.historyLog d' = Some fresh
      /\ TxSourced.loadHistoryLog (TxSourced.disk d') = Some fresh
      /\ TxSourced.entries fresh = []
      /\ TxSourced.entryCount fresh = 0
      /\ TxSourced.latestHash fresh = GENESIS_HASH
      /\ TxSourced.totalFees fresh
         = toString (TxSourced.bcFees d0 + credited BC good
                     + (TxSourced.ammFees d0 + credited AMM good))
      /\ TxSourced.bcFees d' = TxSourced.bcFees d0 + credited BC good
      /\ TxSourced.ammFees d' = TxSourced.ammFees d0 + credited AMM good
      /\ TxSourced.processedTxs d'
         = {[ TxSourced.txSignature bad ]} ∪ signatures_of good
             ∪ TxSourced.processedTxs d0.
Proof.
  intros now d0 t l good bad rest Htok Ht Hload Hes Hgood Hbad d'. subst d'.
  unfold TxSourced.initializeHistory. rewrite Htok, Ht. cbn [andb].
  assert (Hdisk : is_Some (TxSourced.disk d0)).
  { destruct (TxSourced.disk d0); [eauto | discriminate Hload]. }
  rewrite bool_decide_eq_true_2 by exact Hdisk. rewrite Hload, Hes.
  destruct (restore_stops good rest bad (TxSourced.with_historyLog d0 (Some l))
              Hgood Hbad) as (d1 & R & B & A & P & K & C & T).
  rewrite R. unfold TxSourced.saveHistory.
  cbn [TxSourced.historyLog TxSourced.with_historyLog TxSourced.config].
  rewrite C. cbn [TxSourced.config TxSourced.with_historyLog]. rewrite Ht.
  eexists. split; [reflexivity|].
  cbn [TxSourced.disk TxSourced.with_disk]. split; [apply loadHistoryLog_written|].
  cbn [TxSourced.entries TxSourced.freshLog TxSourced.entryCount TxSourced.latestHash
       TxSourced.totalFees last List.length TxSourced.bcFees TxSourced.ammFees
       TxSourced.with_disk TxSourced.with_historyLog TxSourced.processedTxs].
  rewrite B, A, P. cbn [TxSourced.bcFees TxSourced.ammFees TxSourced.with_historyLog
                        TxSourced.processedTxs].
  repeat split; reflexivity.
Qed.


Lemma unreadable_amount_restarts_the_ledger_witness :
  let spoiled := tamper sample_log 1 (SetAmount "12abc") in
  let d0 := TxSourced.with_tokenInfo
              (TxLife.constructed (TxSourced.config sample_daemon)
                 (Some (JSON.stringify (TxSourced.document spoiled))))
              (Some sample_token) in
  exists fresh,
    TxSourced.historyLog (TxSourced.initializeHistory "2024-01-04T00:00:00.000Z" d0)
    = Some fresh
    /\ TxSourced.entries fresh = []
    /\ TxSourced.totalFees fresh = "500000".
Proof.
  intros spoiled d0.
  assert (Hsplit : exists e0 e1,
             TxSourced.entries spoiled = ([e0] ++ e1 :: [])%list
             /\ amount_reads e0 /\ BigInt (TxSourced.amount e1) = None
             /\ credited BC [e0] = 500000 /\ credited AMM [e0] = 0).
  { eexists _, _. split; [vm_compute; reflexivity|].
    split; [eexists; vm_compute; reflexivity|].
    repeat split; vm_compute; reflexivity. }
  destruct Hsplit as (e0 & e1 & Hes & Hr & Hbad & Hbc & Hamm).
  assert (Hgood : Forall amount_reads [e0]) by (constructor; [exact Hr | constructor]).
  destruct (unreadable_amount_restarts_the_ledger "2024-01-04T00:00:00.000Z" d0
              sample_token spoiled [e0] e1 [] eq_refl eq_refl
              (loadHistoryLog_written spoiled) Hes Hgood Hbad)
    as (fresh & Hlog & _ & Hent & _ & _ & Htot & _).
  exists fresh. split; [exact Hlog|]. split; [exact Hent|].
  rewrite Htot, Hbc, Hamm. reflexivity.
Defined.

(** *** The history file mirrors the ledger *)

Lemma mirrored_refl (d : TxSourced.Daemon) : mirrored d d.
Proof. intros H. exact H. Qed.

Lemma mirrored_trans (a b c : TxSourced.Daemon) :
  mirrored a b -> mirrored b c -> mirrored a c.
Proof. unfold mirrored. auto. Qed.

Lemma mirrored_same (d d' : TxSourced.Daemon) :
  TxSourced.config d' = TxSourced.config d ->
  TxSourced.historyLog d' = TxSourced.historyLog d ->
  TxSourced.disk d' = TxSourced.disk d ->
  mirrored d d'.
Proof.
  intros C L K [Ht (l & Hl & Hd)]. rewrite C. split; [exact Ht|].
  exists l. now rewrite L, K.
Qed.

Lemma mirrored_saved now (d d1 : TxSourced.Daemon) :
  TxSourced.config d1 = TxSourced.config d ->
  is_Some (TxSourced.historyLog d1) ->
  mirrored d (TxSourced.saveHistory now d1).
Proof.
  intros C L [Ht _].
  destruct (saveHistory_frame now d1) as ((C' & _) & _). rewrite C', C.
  split; [exact Ht|]. apply saveHistory_on_disk; [now rewrite C | exact L].
Qed.

Lemma recordFee_mirrored now d d1 vt vault delta pre post sl ts sig :
  TxSourced.config d1 = TxSourced.config d ->
  TxSourced.historyLog d1 = TxSourced.historyLog d ->
  TxSourced.disk d1 = TxSourced.disk d ->
  mirrored d (TxSourced.recordFee now d1 vt vault delta pre post sl ts sig).
Proof.
  intros C L K.
  destruct (recordFee_cases now d1 vt vault delta pre post sl ts sig)
    as [[-> _] | (l & e & Hl & _ & ->)]; [now apply mirrored_same|].
  unfold TxSourced.pushEntry. apply mirrored_saved; [exact C | simpl; eauto].
Qed.

Lemma mirrored_mark (d x : TxSourced.Daemon) (s : TxSourced.SigInfo) :
  mirrored d x -> mirrored d (TxSourced.markProcessed x s).
Proof. intros H. eapply mirrored_trans; [exact H | now apply mirrored_same]. Qed.

Lemma run_mirrored (ticks : list TxSourced.Tick) (d : TxSourced.Daemon) :
  mirrored d (TxSourced.run d ticks).
Proof.
  apply (run_rel (fun _ => True) mirrored mirrored_refl mirrored_trans).
  - intros d0 s. now apply mirrored_same.
  - intros d0 s. now apply mirrored_same.
  - intros k _ vault d0 s. unfold stepBC.
    apply mirrored_mark.
    destruct (processTransaction_cases (TxSourced.clock k) d0 BC vault s
                (TxSourced.getTransaction k (TxSourced.signature s)))
      as [-> | (t & tx & m & pre & post & _ & _ & _ & _ & _ & ->)];
      [apply mirrored_refl | now apply recordFee_mirrored].
  - intros k _ vault d0 s. unfold stepAMM.
    apply mirrored_mark.
    destruct (processAMMTransaction_cases (TxSourced.clock k) d0 vault s
                (TxSourced.getTransaction k (TxSourced.signature s)))
      as [-> | (t & tx & m & pre & post & _ & _ & _ & _ & _ & ->)];
      [apply mirrored_refl | now apply recordFee_mirrored].
  - intros k _ d0.
    destruct (checkMigration_cases (TxSourced.clock k) d0 (TxSourced.bondingCurveAccount k))
      as [-> | (t & Ht & Hm & [[Hnone ->] | (l & Hl & ->)])].
    + apply mirrored_refl.
    + now apply mirrored_same.
    + apply mirrored_saved; [reflexivity | simpl; eauto].
  - apply Forall_forall. auto.
Qed.

Lemma restore_keeps_disk (es : list TxSourced.HistoryEntry) (d d' : TxSourced.Daemon)
      (ok : bool) :
  TxSourced.restore d es = (d', ok) -> TxSourced.disk d' = TxSourced.disk d.
Proof.
  revert d. induction es as [|e es IH]; intros d; simpl.
  - now intros [= <- <-].
  - destruct (BigInt (TxSourced.amount e)) as [a|] eqn:Ha.
    + intros H. apply IH in H. rewrite H.
      now destruct (restore_step_fields d e a Ha) as (_ & _ & _ & _ & K & _).
    + now intros [= <- <-].
Qed.

Lemma initializeHistory_on_disk now d0 :
  is_Some (TxSourced.tokenInfo d0) ->
  truthy (TxSourced.historyFile (TxSourced.config d0)) = true ->
  truthy (TxSourced.historyFile
            (TxSourced.config (TxSourced.initializeHistory now d0))) = true
  /\ on_disk (TxSourced.initializeHistory now d0).
Proof.
  intros [t Htok] Ht.
  assert (Hfresh : forall d1,
             TxSourced.config d1 = TxSourced.config d0 ->
             let d' := TxSourced.saveHistory now
                         (TxSourced.with_historyLog d1
                            (Some (TxSourced.freshLog t now))) in
             truthy (TxSourced.historyFile (TxSourced.config d')) = true /\ on_disk d').
  { intros d1 C d'. subst d'.
    match goal with
    | |- context [TxSourced.saveHistory ?n ?x] =>
        destruct (saveHistory_frame n x) as ((C' & _) & _)
    end.
    rewrite C'. simpl. rewrite C. split; [exact Ht|].
    apply saveHistory_on_disk; simpl; [now rewrite C | eauto]. }
  unfold TxSourced.initializeHistory. rewrite Htok, Ht. cbn [andb].
  destruct (bool_decide _); [|now apply Hfresh].
  destruct (TxSourced.loadHistoryLog _) as [l|] eqn:Hload; [|now apply Hfresh].
  destruct (TxSourced.restore _ _) as [d' [|]] eqn:R.
  - pose proof (restore_effect _ _ _ _ R) as (L & _ & C & _).
    pose proof (restore_keeps_disk _ _ _ _ R) as K.
    rewrite C. simpl. split; [exact Ht|]. exists l. rewrite L, K. simpl. auto.
  - pose proof (restore_effect _ _ _ _ R) as (_ & _ & C & _). now apply Hfresh.
Qed.

Lemma start_on_disk now (c : TxSourced.DaemonConfig) (file : option string)
      (t : TxSourced.TokenInfo) (d : TxSourced.Daemon) :
  truthy (TxSourced.historyFile c) = true ->
  TxLife.start now (TxLife.constructed c file) (Returns t) = Returns d ->
  TxSourced.running d = true
  /\ truthy (TxSourced.historyFile (TxSourced.config d)) = true
  /\ on_disk d.
Proof.
  intros Ht. unfold TxLife.start.
  cbn [TxLife.constructed TxSourced.running]. cbv zeta.
  cbn [TxSourced.with_tokenInfo TxSourced.config TxLife.constructed]. rewrite Ht.
  intros [= <-].
  set (d0 := TxSourced.with_tokenInfo (TxLife.constructed c file) (Some t)).
  destruct (initializeHistory_on_disk now d0) as [Ht1 (l & Hl & Hload)];
    [subst d0; cbn; eauto | exact Ht |].
  split; [reflexivity|].
  split; [exact Ht1|].
  exists l. split; [exact Hl | exact Hload].
Qed.

(** X10. With a history file configured, and as long as each write of the
    file succeeds, the file reads back as the very log the daemon holds in
    memory: this is so when [start] returns, be it over no file or over a
    file that holds a history log, with the daemon running, and it stays so
    after every poll tick, since each change to the log is followed by a
    save. *)
Theorem history_file_mirrors_the_ledger :
  (forall now c file t d,
      truthy (TxSourced.historyFile c) = true ->
      file = None \/ is_Some (TxSourced.loadHistoryLog file) ->
      TxLife.start now (TxLife.constructed c file) (Returns t) = Returns d ->
      TxSourced.running d = true /\ on_disk d)
  /\ (forall d ticks,
      truthy (TxSourced.historyFile (TxSourced.config d)) = true ->
      on_disk d ->
      on_disk (TxSourced.run d ticks)).
Proof.
  split.
  - intros now c file t d Ht _ Hstart.
    destruct (start_on_disk now c file t d Ht Hstart) as (Hr & _ & Hd). auto.
  - intros d ticks Ht Hd. now apply (run_mirrored ticks d).
Qed.

Lemma history_file_mirrors_the_ledger_witness :
  exists d,
    TxLife.start "2024-01-01T00:00:00.000Z"
      (TxLife.constructed (TxSourced.config sample_daemon) None) (Returns sample_token)
    = Returns d
    /\ List.length
         (TxSourced.log_entries (TxSourced.run d [sample_seed_tick; sample_tick]))
       = 2%nat
    /\ on_disk (TxSourced.run d [sample_seed_tick; sample_tick]).
Proof.
  destruct history_file_mirrors_the_ledger as [Hstart Hrun].
  eexists. split; [reflexivity|]. split; [vm_compute; reflexivity|].
  apply Hrun; [reflexivity|].
  eapply (Hstart "2024-01-01T00:00:00.000Z" (TxSourced.config sample_daemon) None
            sample_token);
    [reflexivity | left; reflexivity | reflexivity].
Defined.


(** *** Observing the same list again *)

Lemma newSigs_at_cursor (processed : gset string) (newest : TxSourced.SigInfo)
      (rest : list TxSourced.SigInfo) :
  TxSourced.newSigs (TxSourced.signature newest) processed (newest :: rest) = [].
Proof. simpl. now rewrite String.eqb_refl. Qed.

Lemma pollVaultTransactions_again now now' d vt vault sigs getTx getTx' :
  let d1 := TxSourced.pollVaultTransactions now d vt vault sigs getTx in
  TxSourced.pollVaultTransactions now' d1 vt vault sigs getTx' = d1.
Proof.
  assert (Hseeded : forall x newest rest,
             TxSourced.pollVaultTransactions now'
               (TxSourced.with_lastBCSignature x (Some (TxSourced.signature newest)))
               vt vault (Returns (newest :: rest)) getTx'
             = TxSourced.with_lastBCSignature x (Some (TxSourced.signature newest))).
  { intros x newest rest. unfold TxSourced.pollVaultTransactions.
    cbn [TxSourced.lastBCSignature TxSourced.with_lastBCSignature].
    destruct (String.eqb _ ""); [reflexivity|].
    cbn [TxSourced.processedTxs]. now rewrite newSigs_at_cursor. }
  cbv zeta. destruct sigs as [|[|newest rest]]; try reflexivity.
  assert (Hfirst : TxSourced.pollVaultTransactions now d vt vault
                     (Returns (newest :: rest)) getTx = d
                   /\ TxSourced.pollVaultTransactions now' d vt vault
                        (Returns (newest :: rest)) getTx' = d
                   \/ exists x,
                        TxSourced.pollVaultTransactions now d vt vault
                          (Returns (newest :: rest)) getTx
                        = TxSourced.with_lastBCSignature x
                            (Some (TxSourced.signature newest))).
  { unfold TxSourced.pollVaultTransactions.
    destruct (TxSourced.lastBCSignature d) as [lastSeen|]; [|right; eauto].
    destruct (String.eqb lastSeen ""); [right; eauto|].
    destruct (TxSourced.newSigs lastSeen _ _); [left; auto | right; eauto]. }
  destruct Hfirst as [[-> H2] | [x ->]]; [exact H2 | apply Hseeded].
Qed.

Lemma pollAMMVaultTransactions_again now now' d sigs getTx getTx' :
  let d1 := TxSourced.pollAMMVaultTransactions now d sigs getTx in
  TxSourced.pollAMMVaultTransactions now' d1 sigs getTx' = d1.
Proof.
  assert (Hseeded : forall x newest rest,
             TxSourced.pollAMMVaultTransactions now'
               (TxSourced.with_lastAMMSignature x (Some (TxSourced.signature newest)))
               (Returns (newest :: rest)) getTx'
             = TxSourced.with_lastAMMSignature x (Some (TxSourced.signature newest))).
  { intros x newest rest. unfold TxSourced.pollAMMVaultTransactions.
    cbn [TxSourced.tokenInfo TxSourced.with_lastAMMSignature].
    destruct (TxSourced.tokenInfo x); [|reflexivity].
    cbn [TxSourced.lastAMMSignature TxSourced.with_lastAMMSignature].
    destruct (String.eqb (TxSourced.signature newest) ""); [reflexivity|].
    cbn [TxSourced.processedTxs]. now rewrite newSigs_at_cursor. }
  cbv zeta.
  assert (Hfirst : TxSourced.pollAMMVaultTransactions now d sigs getTx = d
                   /\ TxSourced.pollAMMVaultTransactions now' d sigs getTx' = d
                   \/ exists x newest rest,
                        sigs = Returns (newest :: rest)
                        /\ TxSourced.pollAMMVaultTransactions now d sigs getTx
                           = TxSourced.with_lastAMMSignature x
                               (Some (TxSourced.signature newest))).
  { unfold TxSourced.pollAMMVaultTransactions.
    destruct (TxSourced.tokenInfo d) as [t|]; [|left; auto].
    destruct sigs as [|[|newest rest]]; try (left; auto; fail).
    destruct (TxSourced.lastAMMSignature d) as [lastSeen|]; [|right; eauto].
    destruct (String.eqb lastSeen ""); [right; eauto|].
    destruct (TxSourced.newSigs lastSeen _ _); [left; auto | right; eauto 6]. }
  destruct Hfirst as [[-> H2] | (x & newest & rest & -> & ->)];
    [exact H2 | apply Hseeded].
Qed.

(** X11. Observing the same signature list a second time changes nothing:
    whatever the first poll of a vault did with an answer of the ledger of
    record, a second poll that gets the same answer leaves the daemon
    exactly as the first one left it; no transaction is fetched for it
    again.  Both vault polls. *)
Theorem polling_the_same_list_again_changes_nothing :
  (forall now now' d vt vault sigs getTx getTx',
      TxSourced.pollVaultTransactions now'
        (TxSourced.pollVaultTransactions now d vt vault sigs getTx)
        vt vault sigs getTx'
      = TxSourced.pollVaultTransactions now d vt vault sigs getTx)
  /\ (forall now now' d sigs getTx getTx',
      TxSourced.pollAMMVaultTransactions now'
        (TxSourced.pollAMMVaultTransactions now d sigs getTx) sigs getTx'
      = TxSourced.pollAMMVaultTransactions now d sigs getTx).
Proof.
  split.
  - intros. apply pollVaultTransactions_again.
  - intros. apply pollAMMVaultTransactions_again.
Qed.


(** *** The first tick *)

Lemma pollVaultTransactions_unseeded now d vt vault sigs getTx :
  TxSourced.lastBCSignature d = None ->
  TxSourced.pollVaultTransactions now d vt vault sigs getTx
  = match sigs with
    | Returns (newest :: _) =>
        TxSourced.with_lastBCSignature d (Some (TxSourced.signature newest))
    | _ => d
    end.
Proof.
  intros Hc. unfold TxSourced.pollVaultTransactions. rewrite Hc.
  destruct sigs as [|[|newest rest]]; reflexivity.
Qed.

Lemma pollAMMVaultTransactions_seeds now d sigs getTx :
  TxSourced.lastAMMSignature d = None ->
  is_Some (TxSourced.tokenInfo d) ->
  TxSourced.pollAMMVaultTransactions now d sigs getTx
  = match sigs with
    | Returns (newest :: _) =>
        TxSourced.with_lastAMMSignature d (Some (TxSourced.signature newest))
    | _ => d
    end.
Proof.
  intros Hc [t Ht]. unfold TxSourced.pollAMMVaultTransactions. rewrite Hc, Ht.
  destruct sigs as [|[|newest rest]]; reflexivity.
Qed.

(** X12. The first tick records nothing.  While both cursors are unset a
    poll tick appends no entry, counts no fee and marks no signature,
    whatever the ledger of record lists and answers.  A running daemon that
    has its token only seeds its cursors: the native cursor becomes the
    newest signature listed for the native vault, and stays unset when the
    list is empty or the call throws; the cursor of the fungible vault
    becomes the newest signature listed for it when the token is migrated
    at that tick, and stays unset otherwise. *)
Theorem first_tick_records_nothing :
  forall d k,
    TxSourced.lastBCSignature d = None ->
    TxSourced.lastAMMSignature d = None ->
    let d' := TxSourced.poll d k in
    TxSourced.log_entries d' = TxSourced.log_entries d
    /\ TxSourced.bcFees d' = TxSourced.bcFees d
    /\ TxSourced.ammFees d' = TxSourced.ammFees d
    /\ TxSourced.processedTxs d' = TxSourced.processedTxs d
    /\ (TxSourced.running d = true ->
        is_Some (TxSourced.tokenInfo d) ->
        TxSourced.lastBCSignature d'
        = match TxSourced.bcSignatures k with
          | Returns (newest :: _) => Some (TxSourced.signature newest)
          | _ => None
          end
        /\ TxSourced.lastAMMSignature d'
           = if TxSourced.isMigrated d'
             then match TxSourced.ammSignatures k with
                  | Returns (newest :: _) => Some (TxSourced.signature newest)
                  | _ => None
                  end
             else None).
Proof.
  intros d k Hbc Hamm. cbv zeta. unfold TxSourced.poll.
  destruct (TxSourced.tokenInfo d) as [t|] eqn:Ht.
  2:{ split; [reflexivity|]. split; [reflexivity|]. split; [reflexivity|].
      split; [reflexivity|]. intros _ [x Hx]. discriminate Hx. }
  destruct (TxSourced.running d) eqn:Hr.
  2:{ split; [reflexivity|]. split; [reflexivity|]. split; [reflexivity|].
      split; [reflexivity|]. intros Hf. discriminate Hf. }
  set (d1 := if negb (TxSourced.ti_migrated t) then _ else d).
  assert (H1 : TxSourced.log_entries d1 = TxSourced.log_entries d
               /\ TxSourced.bcFees d1 = TxSourced.bcFees d
               /\ TxSourced.ammFees d1 = TxSourced.ammFees d
               /\ TxSourced.processedTxs d1 = TxSourced.processedTxs d
               /\ TxSourced.lastBCSignature d1 = None
               /\ TxSourced.lastAMMSignature d1 = None
               /\ is_Some (TxSourced.tokenInfo d1)).
  { subst d1. destruct (negb _); [|repeat split; eauto].
    destruct (checkMigration_effect (TxSourced.clock k) d (TxSourced.bondingCurveAccount k))
      as (E & P & CB & CA & _).
    destruct (checkMigration_account (TxSourced.clock k) d (TxSourced.bondingCurveAccount k))
      as (_ & _ & _ & B & A).
    cbv zeta in *. rewrite CB, CA. repeat split; auto.
    destruct (checkMigration_cases (TxSourced.clock k) d (TxSourced.bondingCurveAccount k))
      as [-> | (t0 & Ht0 & Hm & [[Hnone ->] | (l & Hl & ->)])]; [eauto | | ].
    - cbn. eauto.
    - match goal with
      | |- is_Some (TxSourced.tokenInfo (TxSourced.saveHistory ?n ?x)) =>
          destruct (saveHistory_frame n x) as ((_ & _ & T & _) & _); rewrite T
      end. cbn. eauto. }
  destruct H1 as (E1 & B1 & A1 & P1 & CB1 & CA1 & T1).
  set (d2 := TxSourced.pollVaultTransactions _ d1 _ _ _ _).
  assert (Hd2 : d2 = match TxSourced.bcSignatures k with
                     | Returns (newest :: _) =>
                         TxSourced.with_lastBCSignature d1
                           (Some (TxSourced.signature newest))
                     | _ => d1
                     end).
  { subst d2. now apply pollVaultTransactions_unseeded. }
  assert (H2 : TxSourced.log_entries d2 = TxSourced.log_entries d
               /\ TxSourced.bcFees d2 = TxSourced.bcFees d
               /\ TxSourced.ammFees d2 = TxSourced.ammFees d
               /\ TxSourced.processedTxs d2 = TxSourced.processedTxs d
               /\ TxSourced.lastAMMSignature d2 = None
               /\ is_Some (TxSourced.tokenInfo d2)
               /\ TxSourced.lastBCSignature d2
                  = match TxSourced.bcSignatures k with
                    | Returns (newest :: _) => Some (TxSourced.signature newest)
                    | _ => None
                    end).
  { rewrite Hd2. destruct (TxSourced.bcSignatures k) as [|[|newest rest]];
      repeat split; auto. }
  clearbody d2. destruct H2 as (E2 & B2 & A2 & P2 & CA2 & T2 & CB2).
  destruct (TxSourced.isMigrated d2) eqn:Hm.
  - rewrite (pollAMMVaultTransactions_seeds _ d2 _ _ CA2 T2).
    assert (Hsame : forall s, TxSourced.isMigrated (TxSourced.with_lastAMMSignature d2 s)
                              = TxSourced.isMigrated d2) by reflexivity.
    destruct (TxSourced.ammSignatures k) as [|[|newest rest]];
      rewrite ?Hsame, Hm; repeat split; auto.
  - rewrite Hm. repeat split; auto.
Qed.

Lemma first_tick_records_nothing_witness :
  let d := TxSourced.with_lastBCSignature sample_daemon None in
  TxSourced.log_entries (TxSourced.poll d sample_tick) = []
  /\ TxSourced.bcFees (TxSourced.poll d sample_tick) = 0
  /\ TxSourced.lastBCSignature (TxSourced.poll d sample_tick) = Some "S5"
  /\ TxSourced.lastAMMSignature (TxSourced.poll d sample_tick) = None.
Proof.
  intros d.
  destruct (first_tick_records_nothing d sample_tick eq_refl eq_refl)
    as (E & B & _ & _ & C).
  destruct (C eq_refl ltac:(eexists; reflexivity)) as [Cbc Camm].
  split; [exact E|]. split; [exact B|]. split; [exact Cbc | exact Camm].
Defined.

(** *** Transactions of other tokens *)

Lemma tracks_ids (t : TxSourced.TokenInfo) (d : TxSourced.Daemon) (t0 : TxSourced.TokenInfo) :
  tracks t d -> TxSourced.tokenInfo d = Some t0 ->
  TxSourced.ti_mint t0 = TxSourced.ti_mint t
  /\ TxSourced.ti_bondingCurve t0 = TxSourced.ti_bondingCurve t
  /\ TxSourced.ti_pool t0 = TxSourced.ti_pool t.
Proof. intros [b Hb] H. rewrite Hb in H. injection H as <-. repeat split. Qed.

Lemma untouched_refl t d : untouched t d d.
Proof. intros H. repeat split; auto. Qed.

Lemma untouched_trans t a b c : untouched t a b -> untouched t b c -> untouched t a c.
Proof.
  intros H1 H2 Ha. destruct (H1 Ha) as (Hb & E1 & B1 & A1).
  destruct (H2 Hb) as (Hc & E2 & B2 & A2). repeat split; auto; congruence.
Qed.

Lemma untouched_same t (d d' : TxSourced.Daemon) :
  TxSourced.tokenInfo d' = TxSourced.tokenInfo d ->
  TxSourced.log_entries d' = TxSourced.log_entries d ->
  TxSourced.bcFees d' = TxSourced.bcFees d ->
  TxSourced.ammFees d' = TxSourced.ammFees d ->
  untouched t d d'.
Proof.
  intros T E B A [b Hb]. repeat split; auto. exists b. now rewrite T.
Qed.

Lemma run_untouched t (ticks : list TxSourced.Tick) (d : TxSourced.Daemon) :
  Forall (foreign t) ticks -> untouched t d (TxSourced.run d ticks).
Proof.
  apply (run_rel (foreign t) (untouched t) (untouched_refl t) (untouched_trans t)).
  - intros d0 s. now apply untouched_same.
  - intros d0 s. now apply untouched_same.
  - intros k Hk vault d0 s Htr. unfold stepBC.
    destruct (processTransaction_cases (TxSourced.clock k) d0 BC vault s
                (TxSourced.getTransaction k (TxSourced.signature s)))
      as [-> | (t0 & tx & m & pre & post & Ht0 & Hans & Hm & Hinv & _)].
    + repeat split; auto.
    + exfalso. destruct (tracks_ids t d0 t0 Htr Ht0) as (I1 & I2 & _).
      destruct (Hk _ _ _ Hans Hm) as (F1 & F2 & _).
      rewrite I1, I2, F1, F2 in Hinv. discriminate.
  - intros k Hk vault d0 s Htr. unfold stepAMM.
    destruct (processAMMTransaction_cases (TxSourced.clock k) d0 vault s
                (TxSourced.getTransaction k (TxSourced.signature s)))
      as [-> | (t0 & tx & m & pre & post & Ht0 & Hans & Hm & Hinv & _)].
    + repeat split; auto.
    + exfalso. destruct (tracks_ids t d0 t0 Htr Ht0) as (I1 & _ & I3).
      destruct (Hk _ _ _ Hans Hm) as (F1 & _ & F3).
      rewrite I1, I3, F1, F3 in Hinv. discriminate.
  - intros k _ d0 [b Hb].
    destruct (checkMigration_account (TxSourced.clock k) d0
                (TxSourced.bondingCurveAccount k)) as (_ & _ & E & B & A).
    split; [|auto].
    destruct (checkMigration_cases (TxSourced.clock k) d0 (TxSourced.bondingCurveAccount k))
      as [-> | (t0 & Ht0 & Hm & [[Hnone ->] | (l & Hl & ->)])].
    + now exists b.
    + exists true. rewrite Hb in Ht0. injection Ht0 as <-. reflexivity.
    + exists true. rewrite Hb in Ht0. injection Ht0 as <-.
      match goal with
      | |- context [TxSourced.saveHistory ?n ?x] =>
          destruct (saveHistory_frame n x) as ((_ & _ & T & _) & _)
      end.
      rewrite T. reflexivity.
Qed.

(** X13. Only the tracked token counts.  Over a run in which no answered
    transaction names the token's mint, its bonding curve or its pool among
    its account keys, the ledger and both fee totals stay as they were,
    however the balances of the creator's vaults moved in those
    transactions. *)
Theorem transactions_of_other_tokens_are_ignored :
  forall t d ticks,
    TxSourced.tokenInfo d = Some t ->
    Forall (foreign t) ticks ->
    TxSourced.log_entries (TxSourced.run d ticks) = TxSourced.log_entries d
    /\ TxSourced.bcFees (TxSourced.run d ticks) = TxSourced.bcFees d
    /\ TxSourced.ammFees (TxSourced.run d ticks) = TxSourced.ammFees d.
Proof.
  intros t d ticks Ht Hf.
  destruct (run_untouched t ticks d Hf) as (_ & E & B & A); [|auto].
  exists (TxSourced.ti_migrated t). rewrite Ht. now destruct t.
Qed.


Lemma transactions_of_other_tokens_are_ignored_witness :
  TxSourced.log_entries (TxSourced.run sample_daemon [sample_other_tick]) = []
  /\ TxSourced.bcFees (TxSourced.run sample_daemon [sample_other_tick]) = 0
  /\ TxSourced.lastBCSignature (TxSourced.run sample_daemon [sample_other_tick])
     = Some "S5".
Proof.
  assert (Hf : foreign sample_token sample_other_tick).
  { intros sig tx m [= <-] [= <-]. repeat split; vm_compute; reflexivity. }
  assert (Hall : Forall (foreign sample_token) [sample_other_tick]).
  { constructor; [exact Hf | constructor]. }
  destruct (transactions_of_other_tokens_are_ignored sample_token sample_daemon
              [sample_other_tick] eq_refl Hall) as (E & B & _).
  split; [exact E|]. split; [exact B|]. vm_compute. reflexivity.
Defined.

(** *** Migration *)

Lemma set_migrated_own (t : TxSourced.TokenInfo) :
  TxSourced.set_migrated t (TxSourced.ti_migrated t) = t.
Proof. now destruct t. Qed.

Lemma one_way_refl (d : TxSourced.Daemon) : one_way d d.
Proof.
  unfold one_way. destruct (TxSourced.tokenInfo d) as [t|]; [|reflexivity].
  exists (TxSourced.ti_migrated t). now rewrite set_migrated_own.
Qed.

Lemma one_way_trans (a b c : TxSourced.Daemon) : one_way a b -> one_way b c -> one_way a c.
Proof.
  unfold one_way. destruct (TxSourced.tokenInfo a) as [t|].
  - intros (b1 & -> & H1). intros (b2 & -> & H2). exists b2.
    split; [reflexivity|]. intros Hm. apply H2. simpl. now apply H1.
  - intros ->. auto.
Qed.

Lemma one_way_same (d d' : TxSourced.Daemon) :
  TxSourced.tokenInfo d' = TxSourced.tokenInfo d -> one_way d d'.
Proof. intros H. unfold one_way. rewrite H. apply one_way_refl. Qed.

Lemma run_one_way (ticks : list TxSourced.Tick) (d : TxSourced.Daemon) :
  one_way d (TxSourced.run d ticks).
Proof.
  apply (run_rel (fun _ => True) one_way one_way_refl one_way_trans).
  - intros d0 s. now apply one_way_same.
  - intros d0 s. now apply one_way_same.
  - intros k _ vault d0 s. apply one_way_same. unfold stepBC.
    now destruct (processTransaction_effect (TxSourced.clock k) d0 BC vault s
                    (TxSourced.getTransaction k (TxSourced.signature s)))
      as ((_ & _ & T & _) & _).
  - intros k _ vault d0 s. apply one_way_same. unfold stepAMM.
    now destruct (processAMMTransaction_effect (TxSourced.clock k) d0 vault s
                    (TxSourced.getTransaction k (TxSourced.signature s)))
      as ((_ & _ & T & _) & _).
  - intros k _ d0.
    destruct (checkMigration_cases (TxSourced.clock k) d0 (TxSourced.bondingCurveAccount k))
      as [-> | (t0 & Ht0 & Hm & [[Hnone ->] | (l & Hl & ->)])].
    + apply one_way_refl.
    + unfold one_way. rewrite Ht0. exists true. auto.
    + unfold one_way. rewrite Ht0. exists true.
      match goal with
      | |- context [TxSourced.saveHistory ?n ?x] =>
          destruct (saveHistory_frame n x) as ((_ & _ & T & _) & _)
      end.
      rewrite T. auto.
  - apply Forall_forall. auto.
Qed.

(** *** The ledger is kept *)

Lemma run_keeps_log (ticks : list TxSourced.Tick) (d : TxSourced.Daemon) :
  is_Some (TxSourced.historyLog d) -> is_Some (TxSourced.historyLog (TxSourced.run d ticks)).
Proof.
  apply (run_rel (fun _ => True)
           (fun a b => is_Some (TxSourced.historyLog a) -> is_Some (TxSourced.historyLog b))).
  - auto.
  - auto.
  - auto.
  - auto.
  - intros k _ vault d0 s.
    now destruct (stepBC_account (TxSourced.clock k) (TxSourced.getTransaction k) vault d0 s)
      as (_ & L & _).
  - intros k _ vault d0 s.
    now destruct (stepAMM_account (TxSourced.clock k) (TxSourced.getTransaction k) vault d0 s)
      as (_ & L & _).
  - intros k _ d0.
    now destruct (checkMigration_account (TxSourced.clock k) d0
                    (TxSourced.bondingCurveAccount k)) as (_ & L & _).
  - apply Forall_forall. auto.
Qed.

(** Without a log nothing is appended and nothing is written. *)
Lemma run_without_log (ticks : list TxSourced.Tick) (d : TxSourced.Daemon) :
  TxSourced.historyLog d = None ->
  TxSourced.historyLog (TxSourced.run d ticks) = None
  /\ TxSourced.disk (TxSourced.run d ticks) = TxSourced.disk d.
Proof.
  assert (Hsame : forall a b : TxSourced.Daemon,
             TxSourced.historyLog b = TxSourced.historyLog a ->
             TxSourced.disk b = TxSourced.disk a ->
             TxSourced.historyLog a = None ->
             TxSourced.historyLog b = None /\ TxSourced.disk b = TxSourced.disk a).
  { intros a b L K H. now rewrite L, K. }
  assert (Hfee : forall now d0 d1 vt vault delta pre post sl ts sig,
             TxSourced.historyLog d1 = TxSourced.historyLog d0 ->
             TxSourced.disk d1 = TxSourced.disk d0 ->
             TxSourced.historyLog d0 = None ->
             TxSourced.historyLog
               (TxSourced.recordFee now d1 vt vault delta pre post sl ts sig) = None
             /\ TxSourced.disk (TxSourced.recordFee now d1 vt vault delta pre post sl ts sig)
                = TxSourced.disk d0).
  { intros now d0 d1 vt vault delta pre post sl ts sig L K H.
    destruct (recordFee_cases now d1 vt vault delta pre post sl ts sig)
      as [[-> _] | (l & e & Hl & _)]; [now rewrite L, K | congruence]. }
  apply (run_rel (fun _ => True)
           (fun a b => TxSourced.historyLog a = None ->
                       TxSourced.historyLog b = None
                       /\ TxSourced.disk b = TxSourced.disk a)).
  - auto.
  - intros a b c H1 H2 Ha. destruct (H1 Ha) as [Hb K1].
    destruct (H2 Hb) as [Hc K2]. split; congruence.
  - intros d0 s. now apply Hsame.
  - intros d0 s. now apply Hsame.
  - intros k _ vault d0 s Hn. unfold stepBC.
    destruct (processTransaction_cases (TxSourced.clock k) d0 BC vault s
                (TxSourced.getTransaction k (TxSourced.signature s)))
      as [-> | (t0 & tx & m & pre & post & _ & _ & _ & _ & _ & ->)]; [auto|].
    now apply (Hfee _ d0).
  - intros k _ vault d0 s Hn. unfold stepAMM.
    destruct (processAMMTransaction_cases (TxSourced.clock k) d0 vault s
                (TxSourced.getTransaction k (TxSourced.signature s)))
      as [-> | (t0 & tx & m & pre & post & _ & _ & _ & _ & _ & ->)]; [auto|].
    now apply (Hfee _ d0).
  - intros k _ d0 Hn.
    destruct (checkMigration_cases (TxSourced.clock k) d0 (TxSourced.bondingCurveAccount k))
      as [-> | (t0 & Ht0 & Hm & [[Hnone ->] | (l & Hl & ->)])]; [auto | auto | congruence].
  - apply Forall_forall. auto.
Qed.


(* ===================================================================== *)
(** ** Further properties of the balance-polling daemon *)
(* ===================================================================== *)

Section BpRun.
Variable ok : BalancePolling.Tick -> Prop.
Variable R : BalancePolling.Daemon -> BalancePolling.Daemon -> Prop.
Hypothesis R_refl : forall d, R d d.
Hypothesis R_trans : forall a b c, R a b -> R b c -> R a c.
Hypothesis R_pollBC : forall k, ok k -> forall d vault,
  R d (BalancePolling.pollVault (BalancePolling.clock k) d BC vault
         (BalancePolling.bcReading k)).
Hypothesis R_pollAMM : forall k, ok k -> forall d vault,
  R d (BalancePolling.pollVault (BalancePolling.clock k) d AMM vault
         (BalancePolling.ammReading k)).
Hypothesis R_checkMigration : forall k, ok k -> forall d,
  R d (BalancePolling.checkMigration (BalancePolling.clock k) d
         (BalancePolling.bondingCurveAccount k)).

Lemma poll_bp_rel (d : BalancePolling.Daemon) (k : BalancePolling.Tick) :
  ok k -> R d (BalancePolling.poll d k).
Proof.
  intros Hk. unfold BalancePolling.poll.
  destruct (BalancePolling.tokenInfo d) as [t|]; [|apply R_refl].
  destruct (BalancePolling.running d); [|apply R_refl].
  eapply R_trans; [|now apply R_pollAMM].
  eapply R_trans; [|now apply R_pollBC].
  destruct (negb _); [now apply R_checkMigration | apply R_refl].
Qed.

Lemma run_bp_rel (ticks : list BalancePolling.Tick) (d : BalancePolling.Daemon) :
  Forall ok ticks -> R d (BalancePolling.run d ticks).
Proof.
  revert d. induction ticks as [|k ticks IH]; intros d Hok; simpl; [apply R_refl|].
  inversion Hok as [|? ? Hk Hks]; subst.
  apply (R_trans d (BalancePolling.poll d k)); [now apply poll_bp_rel | now apply IH].
Qed.
End BpRun.

Lemma createHistoryEntry_bp_fields (l : BalancePolling.HistoryLog) et vt va am bb ba sl ts e :
  BalancePolling.createHistoryEntry l et vt va am bb ba sl ts = Some e ->
  BalancePolling.eventType e = et /\ BalancePolling.vaultType e = vt
  /\ BalancePolling.vault e = va /\ BalancePolling.amount e = am
  /\ BalancePolling.balanceBefore e = bb /\ BalancePolling.balanceAfter e = ba
  /\ BalancePolling.slot e = sl /\ BalancePolling.timestamp e = ts
  /\ toISOString ts = Some (BalancePolling.date e).
Proof.
  unfold BalancePolling.createHistoryEntry.
  destruct (toISOString ts) as [da|]; [|discriminate].
  cbn [mbind option_bind]. intros [= <-]. repeat split; reflexivity.
Qed.

Lemma saveHistory_bp_frame (now : string) (d : BalancePolling.Daemon) :
  let d' := BalancePolling.saveHistory now d in
  BalancePolling.config d' = BalancePolling.config d
  /\ BalancePolling.running d' = BalancePolling.running d
  /\ BalancePolling.tokenInfo d' = BalancePolling.tokenInfo d
  /\ BalancePolling.lastBCBalance d' = BalancePolling.lastBCBalance d
  /\ BalancePolling.lastAMMBalance d' = BalancePolling.lastAMMBalance d
  /\ BalancePolling.bcFees d' = BalancePolling.bcFees d
  /\ BalancePolling.ammFees d' = BalancePolling.ammFees d
  /\ BalancePolling.log_entries d' = BalancePolling.log_entries d
  /\ (is_Some (BalancePolling.historyLog d) -> is_Some (BalancePolling.historyLog d')).
Proof.
  cbv zeta. unfold BalancePolling.saveHistory, BalancePolling.log_entries.
  destruct (BalancePolling.historyLog d) as [l|] eqn:Hl; [|rewrite Hl; repeat split; auto].
  destruct (truthy _); [repeat split; simpl; eauto | rewrite Hl; repeat split; eauto].
Qed.

(** [handleBalanceChange] in full: the fields it leaves, what it counts
    and what it appends; [ok] tells whether it returned. *)
Lemma handleBalanceChange_cases now d et vt vault delta before after sl ts :
  exists d1 ok counted new,
    BalancePolling.handleBalanceChange now d et vt vault delta before after sl ts
    = (d1, ok)
    /\ BalancePolling.config d1 = BalancePolling.config d
    /\ BalancePolling.tokenInfo d1 = BalancePolling.tokenInfo d
    /\ BalancePolling.lastBCBalance d1 = BalancePolling.lastBCBalance d
    /\ BalancePolling.lastAMMBalance d1 = BalancePolling.lastAMMBalance d
    /\ (is_Some (BalancePolling.historyLog d) -> is_Some (BalancePolling.historyLog d1))
    /\ counted = match et with FEE => Z.abs delta | _ => 0 end
    /\ BalancePolling.bcFees d1
       = BalancePolling.bcFees d + match vt with BC => counted | AMM => 0 end
    /\ BalancePolling.ammFees d1
       = BalancePolling.ammFees d + match vt with AMM => counted | BC => 0 end
    /\ BalancePolling.log_entries d1 = (BalancePolling.log_entries d ++ new)%list
    /\ (new = []
        \/ exists l e,
             new = [e] /\ BalancePolling.historyLog d = Some l
             /\ BalancePolling.createHistoryEntry l et vt vault (toString delta)
                  (toString before) (toString after) sl ts = Some e)
    /\ (recording_bp d -> is_Some (toISOString ts) -> ok = true /\ new <> [])
    /\ (forall e, new = [e] ->
          ok = BalancePolling.returns
                 (BalancePolling.onHistoryEntry (BalancePolling.config d)) e)
    /\ (match BalancePolling.onFeeDetected (BalancePolling.config d) with
        | Some f => forall delta vt balance, f delta vt balance = true
        | None => True
        end ->
        is_Some (BalancePolling.historyLog d) -> is_Some (toISOString ts) ->
        new <> []).
Proof.
  unfold BalancePolling.handleBalanceChange.
  set (absDelta := if (delta <? 0)%Z then - delta else delta).
  assert (Habs : absDelta = Z.abs delta).
  { subst absDelta. destruct (Z.ltb_spec delta 0); lia. }
  set (counted := match et with
                  | FEE => (_, _)
                  | _ => (d, true)
                  end).
  assert (Hc : exists d0 ok0,
             counted = (d0, ok0)
             /\ BalancePolling.config d0 = BalancePolling.config d
             /\ BalancePolling.tokenInfo d0 = BalancePolling.tokenInfo d
             /\ BalancePolling.lastBCBalance d0 = BalancePolling.lastBCBalance d
             /\ BalancePolling.lastAMMBalance d0 = BalancePolling.lastAMMBalance d
             /\ BalancePolling.historyLog d0 = BalancePolling.historyLog d
             /\ BalancePolling.bcFees d0
                = BalancePolling.bcFees d
                  + match vt with
                    | BC => match et with FEE => Z.abs delta | _ => 0 end
                    | AMM => 0
                    end
             /\ BalancePolling.ammFees d0
                = BalancePolling.ammFees d
                  + match vt with
                    | AMM => match et with FEE => Z.abs delta | _ => 0 end
                    | BC => 0
                    end
             /\ (match BalancePolling.onFeeDetected (BalancePolling.config d) with
                 | Some f => forall delta vt balance, f delta vt balance = true
                 | None => True
                 end -> ok0 = true)).
  { subst counted. destruct et.
    - eexists _, _. split; [reflexivity|]. rewrite <- Habs.
      destruct vt; simpl; repeat split; try lia;
        intros Hq; unfold BalancePolling.returns;
        destruct (BalancePolling.onFeeDetected _); simpl; auto.
    - exists d, true. destruct vt; repeat split; lia.
    - exists d, true. destruct vt; repeat split; lia. }
  destruct Hc as (d0 & ok0 & -> & C & T & LB & LA & L & B & A & Hq).
  assert (Hfields : forall ok new,
             (recording_bp d -> is_Some (toISOString ts) -> ok = true /\ new <> []) ->
             (forall e, new = [e] ->
                ok = BalancePolling.returns
                       (BalancePolling.onHistoryEntry (BalancePolling.config d)) e) ->
             (match BalancePolling.onFeeDetected (BalancePolling.config d) with
              | Some f => forall delta vt balance, f delta vt balance = true
              | None => True
              end ->
              is_Some (BalancePolling.historyLog d) -> is_Some (toISOString ts) ->
              new <> []) ->
             (new = []
              \/ exists l e,
                   new = [e] /\ BalancePolling.historyLog d = Some l
                   /\ BalancePolling.createHistoryEntry l et vt vault (toString delta)
                        (toString before) (toString after) sl ts = Some e) ->
             BalancePolling.log_entries d0 = (BalancePolling.log_entries d ++ new)%list ->
             exists d1 ok' counted new',
               (d0, ok) = (d1, ok')
               /\ BalancePolling.config d1 = BalancePolling.config d
               /\ BalancePolling.tokenInfo d1 = BalancePolling.tokenInfo d
               /\ BalancePolling.lastBCBalance d1 = BalancePolling.lastBCBalance d
               /\ BalancePolling.lastAMMBalance d1 = BalancePolling.lastAMMBalance d
               /\ (is_Some (BalancePolling.historyLog d) ->
                   is_Some (BalancePolling.historyLog d1))
               /\ counted = match et with FEE => Z.abs delta | _ => 0 end
               /\ BalancePolling.bcFees d1
                  = BalancePolling.bcFees d + match vt with BC => counted | AMM => 0 end
               /\ BalancePolling.ammFees d1
                  = BalancePolling.ammFees d + match vt with AMM => counted | BC => 0 end
               /\ BalancePolling.log_entries d1 = (BalancePolling.log_entries d ++ new')%list
               /\ (new' = []
                   \/ exists l e,
                        new' = [e] /\ BalancePolling.historyLog d = Some l
                        /\ BalancePolling.createHistoryEntry l et vt vault (toString delta)
                             (toString before) (toString after) sl ts = Some e)
               /\ (recording_bp d -> is_Some (toISOString ts) ->
                   ok' = true /\ new' <> [])
               /\ (forall e, new' = [e] ->
                     ok' = BalancePolling.returns
                             (BalancePolling.onHistoryEntry (BalancePolling.config d)) e)
               /\ (match BalancePolling.onFeeDetected (BalancePolling.config d) with
                   | Some f => forall delta vt balance, f delta vt balance = true
                   | None => True
                   end ->
                   is_Some (BalancePolling.historyLog d) -> is_Some (toISOString ts) ->
                   new' <> [])).
  { intros ok new Hok Hcb Hne Hnew Hent.
    exists d0, ok, (match et with FEE => Z.abs delta | _ => 0 end), new.
    split; [reflexivity|]. split; [exact C|]. split; [exact T|].
    split; [exact LB|]. split; [exact LA|]. split; [now rewrite L|].
    split; [reflexivity|]. split; [exact B|]. split; [exact A|].
    split; [exact Hent|]. split; [exact Hnew|]. split; [exact Hok|].
    split; [exact Hcb | exact Hne]. }
  assert (Hsame : BalancePolling.log_entries d0 = (BalancePolling.log_entries d ++ [])%list).
  { unfold BalancePolling.log_entries. now rewrite L, app_nil_r. }
  destruct ok0.
  2:{ apply (Hfields false []); [| discriminate | |now left | exact Hsame].
      - intros (Hr & _) _. specialize (Hq Hr). discriminate.
      - intros Hr _ _. specialize (Hq Hr). discriminate. }
  destruct (BalancePolling.historyLog d0) as [l|] eqn:Hl.
  2:{ apply (Hfields true []); [| discriminate | |now left | exact Hsame].
      - intros (_ & _ & [x Hx]) _. congruence.
      - intros _ [x Hx] _. congruence. }
  destruct (BalancePolling.createHistoryEntry l _ _ _ _ _ _ _ _) as [e|] eqn:He.
  - match goal with
    | |- context [BalancePolling.saveHistory ?n ?x] =>
        destruct (saveHistory_bp_frame n x) as (C' & _ & T' & LB' & LA' & B' & A' & E' & K')
    end.
    cbv zeta in *.
    eexists _, _, (match et with FEE => Z.abs delta | _ => 0 end), [e].
    split; [reflexivity|].
    rewrite C', T', LB', LA', B', A', E'.
    split; [exact C|]. split; [exact T|]. split; [exact LB|]. split; [exact LA|].
    split; [intros _; apply K'; simpl; eauto|].
    split; [reflexivity|]. split; [exact B|]. split; [exact A|].
    split; [unfold BalancePolling.log_entries; simpl; now rewrite <- L|].
    split; [right; exists l, e; rewrite <- L; auto|].
    split; [|split; [|discriminate]].
    + intros (_ & Hh & _) _. split; [|discriminate]. rewrite C.
      unfold BalancePolling.returns. destruct (BalancePolling.onHistoryEntry _); auto.
    + intros e' [= <-]. now rewrite C.
  - assert (Hdate : is_Some (toISOString ts) -> False).
    { intros [da Hda]. unfold BalancePolling.createHistoryEntry in He.
      rewrite Hda in He. discriminate. }
    apply (Hfields false []); [| discriminate | |now left | exact Hsame].
    + intros _ Hd. now destruct (Hdate Hd).
    + intros _ _ Hd. now destruct (Hdate Hd).
Qed.


Lemma change_record_created (l : BalancePolling.HistoryLog) vt vault before after sl ts e :
  before <> after ->
  BalancePolling.createHistoryEntry l
    (if (after - before >? 0)%Z then FEE else CLAIM) vt vault
    (toString (after - before)) (toString before) (toString after) sl ts = Some e ->
  change_record e /\ BalancePolling.vaultType e = vt.
Proof.
  intros Hne He.
  apply createHistoryEntry_bp_fields in He
      as (Het & Hvt & _ & Ham & Hbb & Hba & _ & Hts & Hda).
  split; [|exact Hvt]. split; [|now rewrite Hts].
  exists before, after. auto.
Qed.

Lemma moved_created (l : BalancePolling.HistoryLog) et vt vault delta bb ba sl ts e vt' :
  BalancePolling.createHistoryEntry l et vt vault (toString delta) bb ba sl ts = Some e ->
  moved vt' e = (match vt, vt' with BC, BC | AMM, AMM => delta | _, _ => 0 end)
  /\ gained vt' e = match et with
                    | FEE => match vt, vt' with BC, BC | AMM, AMM => delta | _, _ => 0 end
                    | _ => 0
                    end.
Proof.
  intros He. apply createHistoryEntry_bp_fields in He as (Het & Hvt & _ & Ham & _).
  unfold gained, moved. rewrite Ham, Het, Hvt, BigIntFacts.BigInt_toString.
  destruct et, vt, vt'; auto.
Qed.

(** One poll of a vault, in full. *)
Lemma pollVault_account now d vt vault r :
  let d' := BalancePolling.pollVault now d vt vault r in
  BalancePolling.config d' = BalancePolling.config d
  /\ BalancePolling.tokenInfo d' = BalancePolling.tokenInfo d
  /\ (is_Some (BalancePolling.historyLog d) -> is_Some (BalancePolling.historyLog d'))
  /\ remembered (other vt) d' = remembered (other vt) d
  /\ total (other vt) d' = total (other vt) d
  /\ total vt d <= total vt d'
  /\ exists new,
       BalancePolling.log_entries d' = (BalancePolling.log_entries d ++ new)%list
       /\ Forall change_record new
       /\ (recording_bp d -> is_Some (toISOString (BalancePolling.dateNow r)) ->
           remembered vt d' = remembered vt d + sum_of (moved vt) new
           /\ total vt d' = total vt d + sum_of (gained vt) new
           /\ sum_of (moved (other vt)) new = 0
           /\ sum_of (gained (other vt)) new = 0).
Proof.
  cbv zeta. unfold BalancePolling.pollVault.
  assert (Hnone : BalancePolling.config d = BalancePolling.config d
                  /\ BalancePolling.tokenInfo d = BalancePolling.tokenInfo d
                  /\ (is_Some (BalancePolling.historyLog d) ->
                      is_Some (BalancePolling.historyLog d))
                  /\ remembered (other vt) d = remembered (other vt) d
                  /\ total (other vt) d = total (other vt) d
                  /\ total vt d <= total vt d
                  /\ exists new,
                       BalancePolling.log_entries d = (BalancePolling.log_entries d ++ new)%list
                       /\ Forall change_record new
                       /\ (recording_bp d ->
                           is_Some (toISOString (BalancePolling.dateNow r)) ->
                           remembered vt d = remembered vt d + sum_of (moved vt) new
                           /\ total vt d = total vt d + sum_of (gained vt) new
                           /\ sum_of (moved (other vt)) new = 0
                           /\ sum_of (gained (other vt)) new = 0)).
  { split; [reflexivity|]. split; [reflexivity|]. split; [auto|].
    split; [reflexivity|]. split; [reflexivity|]. split; [lia|].
    exists []. rewrite app_nil_r. split; [reflexivity|]. split; [constructor|].
    intros _ _. simpl. repeat split; lia. }
  destruct (BalancePolling.getSlot r) as [|slotInfo]; [exact Hnone|].
  destruct (BalancePolling.getBalance r) as [|currentBalance]; [exact Hnone|].
  fold (remembered vt d).
  destruct (Z.eqb_spec (currentBalance - remembered vt d) 0) as [|Hne]; [exact Hnone|].
  clear Hnone.
  destruct (handleBalanceChange_cases now d
              (if (currentBalance - remembered vt d >? 0)%Z then FEE else CLAIM)
              vt vault (currentBalance - remembered vt d) (remembered vt d)
              currentBalance slotInfo (BalancePolling.dateNow r))
    as (d1 & ok & counted & new & -> & C & T & LB & LA & L & Hcnt & B & A & E & Hnew & Hok & _).
  assert (Hpos : 0 <= counted).
  { rewrite Hcnt. destruct (_ >? 0)%Z; lia. }
  assert (Hrec : Forall change_record new
                 /\ forall vt', sum_of (moved vt') new
                                = match new with
                                  | [] => 0
                                  | _ => match vt, vt' with
                                         | BC, BC | AMM, AMM =>
                                             currentBalance - remembered vt d
                                         | _, _ => 0
                                         end
                                  end
                                /\ sum_of (gained vt') new
                                   = match new with
                                     | [] => 0
                                     | _ => match vt, vt' with
                                            | BC, BC | AMM, AMM => counted
                                            | _, _ => 0
                                            end
                                     end).
  { destruct Hnew as [-> | (l & e & -> & Hl & He)]; [split; [constructor | auto]|].
    split.
    - constructor; [|constructor].
      apply (change_record_created l vt vault (remembered vt d) currentBalance
               slotInfo (BalancePolling.dateNow r)); [lia | exact He].
    - intros vt'. simpl. destruct (moved_created _ _ _ _ _ _ _ _ _ _ vt' He) as [-> ->].
      rewrite Hcnt.
      destruct (Z.gtb_spec (currentBalance - remembered vt d) 0);
        destruct vt, vt'; split; lia. }
  destruct Hrec as [Hcr Hsum].
  assert (Hfin : forall d2,
             BalancePolling.config d2 = BalancePolling.config d1 ->
             BalancePolling.tokenInfo d2 = BalancePolling.tokenInfo d1 ->
             BalancePolling.historyLog d2 = BalancePolling.historyLog d1 ->
             BalancePolling.bcFees d2 = BalancePolling.bcFees d1 ->
             BalancePolling.ammFees d2 = BalancePolling.ammFees d1 ->
             remembered (other vt) d2 = remembered (other vt) d1 ->
             (ok = true -> remembered vt d2 = currentBalance) ->
             BalancePolling.config d2 = BalancePolling.config d
             /\ BalancePolling.tokenInfo d2 = BalancePolling.tokenInfo d
             /\ (is_Some (BalancePolling.historyLog d) ->
                 is_Some (BalancePolling.historyLog d2))
             /\ remembered (other vt) d2 = remembered (other vt) d
             /\ total (other vt) d2 = total (other vt) d
             /\ total vt d <= total vt d2
             /\ exists new,
                  BalancePolling.log_entries d2 = (BalancePolling.log_entries d ++ new)%list
                  /\ Forall change_record new
                  /\ (recording_bp d ->
                      is_Some (toISOString (BalancePolling.dateNow r)) ->
                      remembered vt d2 = remembered vt d + sum_of (moved vt) new
                      /\ total vt d2 = total vt d + sum_of (gained vt) new
                      /\ sum_of (moved (other vt)) new = 0
                      /\ sum_of (gained (other vt)) new = 0)).
  { intros d2 C2 T2 L2 B2 A2 O2 M2.
    split; [congruence|]. split; [congruence|]. split; [rewrite L2; exact L|].
    split; [rewrite O2; destruct vt; simpl; congruence|].
    assert (Hto : total (other vt) d2 = total (other vt) d
                  /\ total vt d2 = total vt d + counted).
    { destruct vt; simpl; rewrite ?B2, ?A2, B, A; lia. }
    destruct Hto as [Hto Htm].
    split; [exact Hto|]. split; [lia|].
    exists new. split; [unfold BalancePolling.log_entries in *; rewrite L2; exact E|].
    split; [exact Hcr|]. intros Hr Hd. destruct (Hok Hr Hd) as [-> Hnn].
    rewrite (M2 eq_refl), Htm.
    destruct (Hsum vt) as [-> ->]. destruct (Hsum (other vt)) as [-> ->].
    destruct new; [congruence|]. destruct vt; simpl; repeat split; lia. }
  destruct ok.
  - destruct vt; apply Hfin; auto.
  - apply Hfin; auto. discriminate.
Qed.


Lemma checkMigration_bp_cases now d account :
  let d' := BalancePolling.checkMigration now d account in
  d' = d
  \/ exists t,
       BalancePolling.tokenInfo d = Some t /\ BalancePolling.ti_migrated t = false
       /\ ((BalancePolling.historyLog d = None
            /\ d' = BalancePolling.with_tokenInfo d
                      (Some (BalancePolling.set_migrated t true)))
           \/ exists l,
                BalancePolling.historyLog d = Some l
                /\ d' = BalancePolling.saveHistory now
                          (BalancePolling.with_historyLog
                             (BalancePolling.with_tokenInfo d
                                (Some (BalancePolling.set_migrated t true)))
                             (Some (BalancePolling.with_log_migrated l true)))).
Proof.
  unfold BalancePolling.checkMigration.
  destruct (BalancePolling.tokenInfo d) as [t|]; [|left; reflexivity].
  destruct account as [|[data|]]; try (left; reflexivity).
  destruct (deserializeBondingCurve data) as [bc|]; [|left; reflexivity].
  destruct (complete bc); [|left; reflexivity].
  destruct (BalancePolling.ti_migrated t) eqn:Hm; [left; reflexivity|].
  right. exists t. split; [reflexivity|]. split; [exact Hm|]. simpl.
  destruct (BalancePolling.historyLog d) as [l|]; [right; exists l; auto | left; auto].
Qed.

Lemma checkMigration_bp_account now d account :
  let d' := BalancePolling.checkMigration now d account in
  BalancePolling.config d' = BalancePolling.config d
  /\ (is_Some (BalancePolling.historyLog d) -> is_Some (BalancePolling.historyLog d'))
  /\ BalancePolling.log_entries d' = BalancePolling.log_entries d
  /\ BalancePolling.lastBCBalance d' = BalancePolling.lastBCBalance d
  /\ BalancePolling.lastAMMBalance d' = BalancePolling.lastAMMBalance d
  /\ BalancePolling.bcFees d' = BalancePolling.bcFees d
  /\ BalancePolling.ammFees d' = BalancePolling.ammFees d.
Proof.
  destruct (checkMigration_bp_cases now d account)
    as [-> | (t & Ht & Hm & [[Hnone ->] | (l & Hl & ->)])]; cbv zeta.
  - repeat split; auto.
  - repeat split; auto.
  - match goal with
    | |- context [BalancePolling.saveHistory ?n ?x] =>
        destruct (saveHistory_bp_frame n x) as (C & _ & _ & LB & LA & B & A & E & K)
    end.
    cbv zeta in *. rewrite C, LB, LA, B, A, E.
    unfold BalancePolling.log_entries. simpl. rewrite Hl.
    repeat split; auto.
Qed.

Lemma sum_of_app f (a b : list BalancePolling.HistoryEntry) :
  sum_of f (a ++ b) = sum_of f a + sum_of f b.
Proof. induction a as [|e a IH]; simpl; [reflexivity|]. rewrite IH. lia. Qed.

Lemma grows_bp_refl (d : BalancePolling.Daemon) : grows_bp d d.
Proof.
  exists []. rewrite app_nil_r. split; [reflexivity|]. split; [constructor|]. lia.
Qed.

Lemma grows_bp_trans (a b c : BalancePolling.Daemon) :
  grows_bp a b -> grows_bp b c -> grows_bp a c.
Proof.
  intros (n1 & E1 & F1 & B1 & A1) (n2 & E2 & F2 & B2 & A2).
  exists (n1 ++ n2)%list. rewrite E2, E1, <- app_assoc.
  split; [reflexivity|]. split; [now apply Forall_app|]. lia.
Qed.

Lemma run_grows_bp (ticks : list BalancePolling.Tick) (d : BalancePolling.Daemon) :
  grows_bp d (BalancePolling.run d ticks).
Proof.
  apply (run_bp_rel (fun _ => True) grows_bp grows_bp_refl grows_bp_trans).
  - intros k _ d0 vault.
    destruct (pollVault_account (BalancePolling.clock k) d0 BC vault
                (BalancePolling.bcReading k))
      as (_ & _ & _ & _ & Ho & Hm & new & E & F & _).
    exists new. simpl in Ho, Hm. repeat split; auto; lia.
  - intros k _ d0 vault.
    destruct (pollVault_account (BalancePolling.clock k) d0 AMM vault
                (BalancePolling.ammReading k))
      as (_ & _ & _ & _ & Ho & Hm & new & E & F & _).
    exists new. simpl in Ho, Hm. repeat split; auto; lia.
  - intros k _ d0.
    destruct (checkMigration_bp_account (BalancePolling.clock k) d0
                (BalancePolling.bondingCurveAccount k)) as (_ & _ & E & _ & _ & B & A).
    exists []. rewrite app_nil_r. cbv zeta in *.
    split; [exact E|]. split; [constructor|]. lia.
  - apply Forall_forall. auto.
Qed.

Lemma recording_bp_same (d d' : BalancePolling.Daemon) :
  BalancePolling.config d' = BalancePolling.config d ->
  (is_Some (BalancePolling.historyLog d) -> is_Some (BalancePolling.historyLog d')) ->
  recording_bp d -> recording_bp d'.
Proof. intros C L (H1 & H2 & H3). unfold recording_bp. rewrite C. auto. Qed.

Lemma telescopes_refl (d : BalancePolling.Daemon) : telescopes d d.
Proof.
  intros Hr. split; [exact Hr|]. exists []. rewrite app_nil_r. simpl.
  repeat split; lia.
Qed.

Lemma telescopes_trans (a b c : BalancePolling.Daemon) :
  telescopes a b -> telescopes b c -> telescopes a c.
Proof.
  intros H1 H2 Ha. destruct (H1 Ha) as (Hb & n1 & E1 & P1 & Q1 & B1 & A1).
  destruct (H2 Hb) as (Hc & n2 & E2 & P2 & Q2 & B2 & A2). split; [exact Hc|].
  exists (n1 ++ n2)%list. rewrite E2, E1, <- app_assoc, !sum_of_app.
  repeat split; lia.
Qed.

Lemma run_telescopes (ticks : list BalancePolling.Tick) (d : BalancePolling.Daemon) :
  Forall clocked ticks -> telescopes d (BalancePolling.run d ticks).
Proof.
  apply (run_bp_rel clocked telescopes telescopes_refl telescopes_trans).
  - intros k [Hk _] d0 vault Hr.
    destruct (pollVault_account (BalancePolling.clock k) d0 BC vault
                (BalancePolling.bcReading k))
      as (C & _ & L & Ro & To & _ & new & E & _ & Hx).
    destruct (Hx Hr Hk) as (M & G & Mo & Go). simpl in *.
    split; [now apply (recording_bp_same d0)|].
    exists new. rewrite Mo, Go. repeat split; auto; lia.
  - intros k [_ Hk] d0 vault Hr.
    destruct (pollVault_account (BalancePolling.clock k) d0 AMM vault
                (BalancePolling.ammReading k))
      as (C & _ & L & Ro & To & _ & new & E & _ & Hx).
    destruct (Hx Hr Hk) as (M & G & Mo & Go). simpl in *.
    split; [now apply (recording_bp_same d0)|].
    exists new. rewrite Mo, Go. repeat split; auto; lia.
  - intros k _ d0 Hr.
    destruct (checkMigration_bp_account (BalancePolling.clock k) d0
                (BalancePolling.bondingCurveAccount k))
      as (C & L & E & LB & LA & B & A).
    cbv zeta in *. split; [now apply (recording_bp_same d0)|].
    exists []. rewrite app_nil_r. simpl. repeat split; auto; lia.
Qed.

Lemma sample_tick_bp_clocked : clocked sample_tick_bp.
Proof. split; eexists; vm_compute; reflexivity. Qed.

(** X14. The balance-polling daemon only ever appends to its ledger, and
    only records of a balance change: after any run of poll ticks the
    entries held before are still there, and every entry added carries the
    signed, non-zero difference of the two balances it records as its
    amount, is a FEE when the balance rose and a CLAIM when it fell, and
    has the date of its timestamp.  Neither fee total ever decreases: a
    CLAIM takes nothing off. *)
Theorem balance_polling_appends_change_records_only :
  forall d ticks,
  exists new,
    BalancePolling.log_entries (BalancePolling.run d ticks)
    = (BalancePolling.log_entries d ++ new)%list
    /\ Forall change_record new
    /\ BalancePolling.bcFees d <= BalancePolling.bcFees (BalancePolling.run d ticks)
    /\ BalancePolling.ammFees d <= BalancePolling.ammFees (BalancePolling.run d ticks).
Proof. intros d ticks. apply run_grows_bp. Qed.

(** X15. With a ledger kept, callbacks that return and valid clock
    readings, the balance-polling ledger accounts for every move of the
    vaults it saw: over any run the balance remembered for each vault
    changes by exactly the sum of the signed amounts of the new entries of
    its type, and each fee total grows by exactly the sum of their FEE
    amounts. *)
Theorem balance_polling_ledger_accounts_for_the_balances :
  forall d ticks,
    recording_bp d ->
    Forall clocked ticks ->
    exists new,
      BalancePolling.log_entries (BalancePolling.run d ticks)
      = (BalancePolling.log_entries d ++ new)%list
      /\ BalancePolling.lastBCBalance (BalancePolling.run d ticks)
         = BalancePolling.lastBCBalance d + sum_of (moved BC) new
      /\ BalancePolling.lastAMMBalance (BalancePolling.run d ticks)
         = BalancePolling.lastAMMBalance d + sum_of (moved AMM) new
      /\ BalancePolling.bcFees (BalancePolling.run d ticks)
         = BalancePolling.bcFees d + sum_of (gained BC) new
      /\ BalancePolling.ammFees (BalancePolling.run d ticks)
         = BalancePolling.ammFees d + sum_of (gained AMM) new.
Proof.
  intros d ticks Hr Hc. destruct (run_telescopes ticks d Hc Hr) as (_ & H). exact H.
Qed.

Lemma balance_polling_ledger_accounts_for_the_balances_witness :
  exists new,
    BalancePolling.log_entries (BalancePolling.run sample_daemon_bp [sample_tick_bp])
    = (BalancePolling.log_entries sample_daemon_bp ++ new)%list
    /\ BalancePolling.lastAMMBalance (BalancePolling.run sample_daemon_bp [sample_tick_bp])
       = BalancePolling.lastAMMBalance sample_daemon_bp + sum_of (moved AMM) new
    /\ BalancePolling.lastAMMBalance (BalancePolling.run sample_daemon_bp [sample_tick_bp])
       = 5000.
Proof.
  assert (Hr : recording_bp sample_daemon_bp).
  { split; [exact I|]. split; [exact I|]. eexists. reflexivity. }
  assert (Hc : Forall clocked [sample_tick_bp]).
  { constructor; [apply sample_tick_bp_clocked | constructor]. }
  destruct (balance_polling_ledger_accounts_for_the_balances sample_daemon_bp
              [sample_tick_bp] Hr Hc) as (new & E & _ & A & _).
  exists new. split; [exact E|]. split; [exact A|]. vm_compute. reflexivity.
Defined.


(** *** A throwing entry callback *)

Lemma pollVault_entry_callback_throws now d vt vault r b :
  entry_callback_throws d -> reads r b -> b <> remembered vt d ->
  let d1 := BalancePolling.pollVault now d vt vault r in
  entry_callback_throws d1
  /\ remembered vt d1 = remembered vt d
  /\ total vt d1
     = total vt d + (if (b - remembered vt d >? 0)%Z then b - remembered vt d else 0)
  /\ exists e,
       BalancePolling.log_entries d1 = (BalancePolling.log_entries d ++ [e])%list
       /\ BalancePolling.amount e = toString (b - remembered vt d)
       /\ BalancePolling.balanceBefore e = toString (remembered vt d)
       /\ BalancePolling.balanceAfter e = toString b.
Proof.
  intros (Hfee & (f & Hf & Hthrow) & Hlog) ((sl & Hsl) & Hb & Hdate) Hne. cbv zeta.
  unfold BalancePolling.pollVault. rewrite Hsl, Hb. fold (remembered vt d).
  destruct (Z.eqb_spec (b - remembered vt d) 0) as [|Hd]; [lia|].
  destruct (handleBalanceChange_cases now d
              (if (b - remembered vt d >? 0)%Z then FEE else CLAIM)
              vt vault (b - remembered vt d) (remembered vt d) b sl
              (BalancePolling.dateNow r))
    as (d1 & ok & counted & new & -> & C & T & LB & LA & L & Hcnt & B & A & E & Hnew
        & _ & Hcb & Hnn).
  specialize (Hnn Hfee Hlog Hdate).
  destruct Hnew as [-> | (l & e & -> & Hl & He)]; [congruence|].
  rewrite (Hcb e eq_refl), Hf. cbn [BalancePolling.returns]. rewrite Hthrow.
  split.
  { unfold entry_callback_throws. rewrite C. split; [exact Hfee|].
    split; [eauto | auto]. }
  split; [destruct vt; simpl; congruence|].
  split.
  { rewrite Hcnt in B, A.
    destruct (Z.gtb_spec (b - remembered vt d) 0); destruct vt; simpl in *; lia. }
  exists e. split; [exact E|].
  apply createHistoryEntry_bp_fields in He as (_ & _ & _ & Ham & Hbb & Hba & _).
  auto.
Qed.

(** X16. In the balance-polling daemon a throwing [onHistoryEntry] makes
    one balance change be recorded twice.  The callback runs after the
    entry is pushed and saved; its throw leaves [pollVault] before the new
    balance is remembered, so the next poll that reads the same balance sees
    the same change again: the ledger gets a second entry with the same
    amount and balances, and a rise is added to the fee total a second
    time. *)
Theorem throwing_entry_callback_records_a_change_twice :
  forall now now' d vt vault r r' b,
    entry_callback_throws d ->
    reads r b -> reads r' b ->
    b <> remembered vt d ->
    let d2 := BalancePolling.pollVault now'
                (BalancePolling.pollVault now d vt vault r) vt vault r' in
    remembered vt d2 = remembered vt d
    /\ total vt d2
       = total vt d
         + 2 * (if (b - remembered vt d >? 0)%Z then b - remembered vt d else 0)
    /\ exists e1 e2,
         BalancePolling.log_entries d2 = (BalancePolling.log_entries d ++ [e1; e2])%list
         /\ BalancePolling.amount e1 = toString (b - remembered vt d)
         /\ BalancePolling.amount e2 = BalancePolling.amount e1
         /\ BalancePolling.balanceBefore e2 = BalancePolling.balanceBefore e1
         /\ BalancePolling.balanceAfter e2 = BalancePolling.balanceAfter e1.
Proof.
  intros now now' d vt vault r r' b Hcb Hr Hr' Hne. cbv zeta.
  destruct (pollVault_entry_callback_throws now d vt vault r b Hcb Hr Hne)
    as (Hcb1 & M1 & T1 & e1 & E1 & Am1 & Bb1 & Ba1).
  cbv zeta in *.
  set (d1 := BalancePolling.pollVault now d vt vault r) in *.
  assert (Hne1 : b <> remembered vt d1) by now rewrite M1.
  destruct (pollVault_entry_callback_throws now' d1 vt vault r' b Hcb1 Hr' Hne1)
    as (_ & M2 & T2 & e2 & E2 & Am2 & Bb2 & Ba2).
  cbv zeta in *. rewrite M1 in *.
  split; [exact M2|]. split; [lia|].
  exists e1, e2. rewrite E2, E1, <- app_assoc. simpl.
  repeat split; congruence.
Qed.

Lemma throwing_entry_callback_records_a_change_twice_witness :
  let d := BalancePolling.Build_Daemon
             {| BalancePolling.historyFile := Some "history.json";
                BalancePolling.onFeeDetected := None;
                BalancePolling.onHistoryEntry := Some (fun _ => false) |}
             true (Some sample_token_bp) 1000000 0 0 0 (Some sample_fresh_bp) in
  let r := BalancePolling.bcReading sample_tick_bp in
  let r' := {| BalancePolling.getSlot := Returns 250000001;
               BalancePolling.getBalance := Returns 1000700;
               BalancePolling.dateNow := 1700000000000 |} in
  let d2 := BalancePolling.pollVault "2024-01-02T00:00:05.000Z"
              (BalancePolling.pollVault "2024-01-02T00:00:00.000Z" d BC "BcVault" r')
              BC "BcVault" r' in
  BalancePolling.lastBCBalance d2 = 1000000
  /\ BalancePolling.bcFees d2 = 1400
  /\ List.map BalancePolling.amount (BalancePolling.log_entries d2) = ["700"; "700"].
Proof.
  intros d r r' d2.
  assert (Hcb : entry_callback_throws d).
  { split; [exact I|]. split; [eexists; split; [reflexivity | reflexivity]|].
    eexists. reflexivity. }
  assert (Hr : reads r' 1000700).
  { split; [eexists; reflexivity|]. split; [reflexivity|].
    eexists. vm_compute. reflexivity. }
  destruct (throwing_entry_callback_records_a_change_twice
              "2024-01-02T00:00:00.000Z" "2024-01-02T00:00:05.000Z" d BC "BcVault"
              r' r' 1000700 Hcb Hr Hr ltac:(simpl; lia))
    as (M & T & e1 & e2 & E & A1 & A2 & _).
  subst d2. split; [exact M|]. split; [exact T|].
  rewrite E. simpl. rewrite A2, A1. reflexivity.
Defined.

(** *** Restart of the balance-polling daemon *)

(** X17. A restart of the balance-polling daemon keeps the grand total
    but loses its split.  When a running daemon with a history file is
    stopped and a new one is constructed that loads the log it saved,
    [initializeHistory] gives the new daemon that log, files the whole
    saved total under the bonding curve fees and leaves the AMM fees at 0,
    whatever share of the total the AMM vault had earned. *)
Theorem balance_polling_restart_files_all_fees_under_bc :
  forall now now' d l t,
    BalancePolling.running d = true ->
    BalancePolling.historyLog d = Some l ->
    truthy (BalancePolling.historyFile (BalancePolling.config d)) = true ->
    exists saved,
      BalancePolling.historyLog (BpLife.stop now d) = Some saved
      /\ BalancePolling.entries saved = BalancePolling.entries l
      /\ let d' := BpLife.initializeHistory now'
                     (BalancePolling.with_tokenInfo
                        (BpLife.constructed (BalancePolling.config d)) (Some t))
                     (Some (Returns saved)) in
         BalancePolling.historyLog d' = Some saved
         /\ BalancePolling.bcFees d' = BalancePolling.bcFees d + BalancePolling.ammFees d
         /\ BalancePolling.ammFees d' = 0
         /\ BpLife.getTotalFees d' = BpLife.getTotalFees d.
Proof.
  intros now now' d l t Hrun Hl Ht.
  unfold BpLife.stop. rewrite Hrun. cbv zeta.
  cbn [BpLife.with_running BalancePolling.historyLog BalancePolling.config].
  rewrite Hl, Ht. unfold BalancePolling.saveHistory.
  cbn [BpLife.with_running BalancePolling.historyLog BalancePolling.config
         BalancePolling.bcFees BalancePolling.ammFees].
  rewrite Hl, Ht.
  eexists. split; [reflexivity|]. split; [reflexivity|].
  unfold BpLife.initializeHistory.
  cbn [BalancePolling.with_tokenInfo BalancePolling.tokenInfo BalancePolling.config
         BpLife.constructed BalancePolling.totalFees].
  rewrite Ht, BigIntFacts.BigInt_toString.
  unfold BpLife.getTotalFees. cbn. repeat split; lia.
Qed.

Lemma balance_polling_restart_files_all_fees_under_bc_witness :
  let d := BalancePolling.with_ammFees
             (BalancePolling.with_bcFees sample_daemon_bp 40) 60 in
  exists saved,
    BalancePolling.historyLog (BpLife.stop "2024-01-02T00:00:00.000Z" d) = Some saved
    /\ BalancePolling.bcFees
         (BpLife.initializeHistory "2024-01-03T00:00:00.000Z"
            (BalancePolling.with_tokenInfo
               (BpLife.constructed (BalancePolling.config d)) (Some sample_token_bp))
            (Some (Returns saved))) = 100.
Proof.
  intros d.
  assert (Hl : exists l, BalancePolling.historyLog d = Some l)
    by (eexists; reflexivity).
  destruct Hl as [l Hl].
  destruct (balance_polling_restart_files_all_fees_under_bc
              "2024-01-02T00:00:00.000Z" "2024-01-03T00:00:00.000Z" d l sample_token_bp
              eq_refl Hl eq_refl) as (saved & Hs & _ & _ & Hbc & _).
  exists saved. split; [exact Hs | exact Hbc].
Defined.

(** *** A balance that could not be read at start-up *)

Lemma pollVault_recording now d vt vault r b :
  recording_bp d -> reads r b -> b <> remembered vt d ->
  let d1 := BalancePolling.pollVault now d vt vault r in
  remembered vt d1 = b
  /\ total vt d1
     = total vt d + (if (b - remembered vt d >? 0)%Z then b - remembered vt d else 0)
  /\ exists e,
       BalancePolling.log_entries d1 = (BalancePolling.log_entries d ++ [e])%list
       /\ BalancePolling.eventType e
          = (if (b - remembered vt d >? 0)%Z then FEE else CLAIM)
       /\ BalancePolling.amount e = toString (b - remembered vt d)
       /\ BalancePolling.balanceBefore e = toString (remembered vt d)
       /\ BalancePolling.balanceAfter e = toString b.
Proof.
  intros Hrec ((sl & Hsl) & Hb & Hdate) Hne. cbv zeta.
  unfold BalancePolling.pollVault. rewrite Hsl, Hb. fold (remembered vt d).
  destruct (Z.eqb_spec (b - remembered vt d) 0) as [|Hd]; [lia|].
  destruct (handleBalanceChange_cases now d
              (if (b - remembered vt d >? 0)%Z then FEE else CLAIM)
              vt vault (b - remembered vt d) (remembered vt d) b sl
              (BalancePolling.dateNow r))
    as (d1 & ok & counted & new & -> & C & T & LB & LA & L & Hcnt & B & A & E & Hnew
        & Hok & _).
  destruct (Hok Hrec Hdate) as [-> Hnn].
  destruct Hnew as [-> | (l & e & -> & Hl & He)]; [congruence|].
  assert (Htot : total vt d1
                 = total vt d
                   + (if (b - remembered vt d >? 0)%Z then b - remembered vt d else 0)).
  { rewrite Hcnt in B, A.
    destruct (Z.gtb_spec (b - remembered vt d) 0); destruct vt; simpl in *; lia. }
  assert (Hent : exists e0,
             BalancePolling.log_entries d1 = (BalancePolling.log_entries d ++ [e0])%list
             /\ BalancePolling.eventType e0
                = (if (b - remembered vt d >? 0)%Z then FEE else CLAIM)
             /\ BalancePolling.amount e0 = toString (b - remembered vt d)
             /\ BalancePolling.balanceBefore e0 = toString (remembered vt d)
             /\ BalancePolling.balanceAfter e0 = toString b).
  { exists e. split; [exact E|].
    apply createHistoryEntry_bp_fields in He as (Het & _ & _ & Ham & Hbb & Hba & _).
    auto. }
  destruct vt; (split; [reflexivity|]); (split; [exact Htot | exact Hent]).
Qed.

(** X18. A balance that could not be read at start-up is taken as 0, and
    the first poll that reads the vault then books its whole balance as a
    fee: with a ledger kept and callbacks that return, the fee total of the
    vault grows by the full balance read, and the ledger gets one FEE entry
    from 0 to that balance. *)
Theorem unread_balance_at_startup_books_the_vault_as_a_fee :
  forall now d vt vault r b (bc amm : rpc Z),
    is_Some (BalancePolling.tokenInfo d) ->
    recording_bp d ->
    match vt with BC => bc | AMM => amm end = Throws ->
    reads r b ->
    0 < b ->
    let d' := BalancePolling.pollVault now (BpLife.initializeBalances d bc amm)
                vt vault r in
    total vt d' = total vt d + b
    /\ exists e,
         BalancePolling.log_entries d' = (BalancePolling.log_entries d ++ [e])%list
         /\ BalancePolling.eventType e = FEE
         /\ BalancePolling.amount e = toString b
         /\ BalancePolling.balanceBefore e = "0"
         /\ BalancePolling.balanceAfter e = toString b.
Proof.
  intros now d vt vault r b bc amm [t Ht] Hrec Hthrow Hr Hb. cbv zeta.
  set (d0 := BpLife.initializeBalances d bc amm).
  assert (H0 : remembered vt d0 = 0
               /\ total vt d0 = total vt d
               /\ BalancePolling.log_entries d0 = BalancePolling.log_entries d
               /\ recording_bp d0).
  { subst d0. unfold BpLife.initializeBalances. rewrite Ht.
    destruct vt; subst; (split; [reflexivity|]); (split; [reflexivity|]);
      (split; [reflexivity | exact Hrec]). }
  destruct H0 as (Hrem & Htot & Hlog & Hrec0).
  destruct (pollVault_recording now d0 vt vault r b Hrec0 Hr) as (_ & Ht' & e & E & Het & Ha & Hbb & Hba);
    [rewrite Hrem; lia|].
  rewrite Hrem, Z.sub_0_r in Ht', Het, Ha.
  assert (Hpos : (b >? 0)%Z = true) by (apply Z.gtb_lt; lia).
  rewrite Hpos in Ht', Het. rewrite Hrem in Hbb.
  split; [rewrite Ht', Htot; reflexivity|].
  exists e. rewrite E, Hlog. auto.
Qed.

Lemma unread_balance_at_startup_books_the_vault_as_a_fee_witness :
  let d' := BalancePolling.pollVault "2024-01-02T00:00:00.000Z"
              (BpLife.initializeBalances sample_daemon_bp Throws (Returns 0))
              BC "VaultBC" (BalancePolling.bcReading sample_tick_bp) in
  BalancePolling.bcFees d' = 1000000.
Proof.
  intros d'.
  destruct (unread_balance_at_startup_books_the_vault_as_a_fee
              "2024-01-02T00:00:00.000Z" sample_daemon_bp BC "VaultBC"
              (BalancePolling.bcReading sample_tick_bp) 1000000 Throws (Returns 0))
    as [H _].
  - eexists; reflexivity.
  - split; [exact I|]. split; [exact I | eexists; reflexivity].
  - reflexivity.
  - split; [eexists; reflexivity|]. split; [reflexivity | eexists; vm_compute; reflexivity].
  - lia.
  - exact H.
Defined.


(* ===================================================================== *)
(** ** Further properties of both daemons *)
(* ===================================================================== *)

Lemma set_migrated_bp_own (t : BalancePolling.TokenInfo) :
  BalancePolling.set_migrated t (BalancePolling.ti_migrated t) = t.
Proof. now destruct t. Qed.

Lemma one_way_bp_refl (d : BalancePolling.Daemon) : one_way_bp d d.
Proof.
  unfold one_way_bp. destruct (BalancePolling.tokenInfo d) as [t|]; [|reflexivity].
  exists (BalancePolling.ti_migrated t). now rewrite set_migrated_bp_own.
Qed.

Lemma one_way_bp_trans (a b c : BalancePolling.Daemon) :
  one_way_bp a b -> one_way_bp b c -> one_way_bp a c.
Proof.
  unfold one_way_bp. destruct (BalancePolling.tokenInfo a) as [t|].
  - intros (b1 & -> & H1). intros (b2 & -> & H2). exists b2.
    split; [reflexivity|]. intros Hm. apply H2. simpl. now apply H1.
  - intros ->. auto.
Qed.

Lemma one_way_bp_same (d d' : BalancePolling.Daemon) :
  BalancePolling.tokenInfo d' = BalancePolling.tokenInfo d -> one_way_bp d d'.
Proof. intros H. unfold one_way_bp. rewrite H. apply one_way_bp_refl. Qed.

Lemma run_one_way_bp (ticks : list BalancePolling.Tick) (d : BalancePolling.Daemon) :
  one_way_bp d (BalancePolling.run d ticks).
Proof.
  apply (run_bp_rel (fun _ => True) one_way_bp one_way_bp_refl one_way_bp_trans).
  - intros k _ d0 vault. apply one_way_bp_same.
    now destruct (pollVault_account (BalancePolling.clock k) d0 BC vault
                    (BalancePolling.bcReading k)) as (_ & T & _).
  - intros k _ d0 vault. apply one_way_bp_same.
    now destruct (pollVault_account (BalancePolling.clock k) d0 AMM vault
                    (BalancePolling.ammReading k)) as (_ & T & _).
  - intros k _ d0.
    destruct (checkMigration_bp_cases (BalancePolling.clock k) d0
                (BalancePolling.bondingCurveAccount k))
      as [-> | (t0 & Ht0 & Hm & [[Hnone ->] | (l & Hl & ->)])].
    + apply one_way_bp_refl.
    + unfold one_way_bp. rewrite Ht0. exists true. auto.
    + unfold one_way_bp. rewrite Ht0. exists true.
      match goal with
      | |- context [BalancePolling.saveHistory ?n ?x] =>
          destruct (saveHistory_bp_frame n x) as (_ & _ & T & _)
      end.
      cbv zeta in T. rewrite T. auto.
  - apply Forall_forall. auto.
Qed.

Lemma run_bp_keeps_log (ticks : list BalancePolling.Tick) (d : BalancePolling.Daemon) :
  is_Some (BalancePolling.historyLog d) ->
  is_Some (BalancePolling.historyLog (BalancePolling.run d ticks)).
Proof.
  apply (run_bp_rel (fun _ => True)
           (fun a b => is_Some (BalancePolling.historyLog a) ->
                       is_Some (BalancePolling.historyLog b))).
  - auto.
  - auto.
  - intros k _ d0 vault.
    now destruct (pollVault_account (BalancePolling.clock k) d0 BC vault
                    (BalancePolling.bcReading k)) as (_ & _ & L & _).
  - intros k _ d0 vault.
    now destruct (pollVault_account (BalancePolling.clock k) d0 AMM vault
                    (BalancePolling.ammReading k)) as (_ & _ & L & _).
  - intros k _ d0.
    now destruct (checkMigration_bp_account (BalancePolling.clock k) d0
                    (BalancePolling.bondingCurveAccount k)) as (_ & L & _).
  - apply Forall_forall. auto.
Qed.

(** X19. Migration is one way, and it is all that changes in the token
    record: after any run of poll ticks the daemon tracks the same mint,
    bonding curve, creator and vaults as before, and a migration flag that
    was set is still set.  Both revisions. *)
Theorem migration_is_one_way :
  (forall d ticks t,
      TxSourced.tokenInfo d = Some t ->
      exists b,
        TxSourced.tokenInfo (TxSourced.run d ticks) = Some (TxSourced.set_migrated t b)
        /\ (TxSourced.ti_migrated t = true -> b = true))
  /\ (forall d ticks t,
      BalancePolling.tokenInfo d = Some t ->
      exists b,
        BalancePolling.tokenInfo (BalancePolling.run d ticks)
        = Some (BalancePolling.set_migrated t b)
        /\ (BalancePolling.ti_migrated t = true -> b = true)).
Proof.
  split; intros d ticks t Ht.
  - pose proof (run_one_way ticks d) as H. unfold one_way in H. now rewrite Ht in H.
  - pose proof (run_one_way_bp ticks d) as H. unfold one_way_bp in H. now rewrite Ht in H.
Qed.

Lemma migration_is_one_way_witness :
  exists b,
    TxSourced.tokenInfo (TxSourced.run sample_daemon [sample_tick; sample_tick])
    = Some (TxSourced.set_migrated sample_token b).
Proof.
  destruct migration_is_one_way as [Htx _].
  destruct (Htx sample_daemon [sample_tick; sample_tick] sample_token eq_refl)
    as (b & H & _).
  exists b. exact H.
Defined.

(** X20. A ledger that verifies keeps verifying: when the log a daemon
    holds passes [verifyHistoryChain], be it fresh or loaded from a file,
    the log it holds after any run of poll ticks passes it too.  Both
    revisions. *)
Theorem ledger_of_a_run_still_verifies :
  (forall d ticks l,
      TxSourced.historyLog d = Some l ->
      TxSourced.verifyHistoryChain l = verified ->
      exists l',
        TxSourced.historyLog (TxSourced.run d ticks) = Some l'
        /\ TxSourced.verifyHistoryChain l' = verified)
  /\ (forall d ticks l,
      BalancePolling.historyLog d = Some l ->
      BalancePolling.verifyHistoryChain l = verified ->
      exists l',
        BalancePolling.historyLog (BalancePolling.run d ticks) = Some l'
        /\ BalancePolling.verifyHistoryChain l' = verified).
Proof.
  split; intros d ticks l Hl Hv.
  - destruct (run_keeps_log ticks d) as [l' Hl']; [eauto|].
    exists l'. split; [exact Hl'|]. apply verified_iff_honest.
    pose proof (run_honest ticks d) as Hh.
    unfold TxSourced.log_entries in Hh. rewrite Hl, Hl' in Hh.
    apply Hh. now apply verified_iff_honest.
  - destruct (run_bp_keeps_log ticks d) as [l' Hl']; [eauto|].
    exists l'. split; [exact Hl'|]. apply verified_iff_honest.
    pose proof (run_bp_honest ticks d) as Hh.
    unfold BalancePolling.log_entries in Hh. rewrite Hl, Hl' in Hh.
    apply Hh. now apply verified_iff_honest.
Qed.

Lemma ledger_of_a_run_still_verifies_witness :
  exists l',
    TxSourced.historyLog (TxSourced.run sample_daemon_with_log [sample_tick; sample_tick])
    = Some l'
    /\ TxSourced.verifyHistoryChain l' = verified.
Proof.
  destruct ledger_of_a_run_still_verifies as [Htx _].
  apply (Htx sample_daemon_with_log [sample_tick; sample_tick] sample_log eq_refl).
  vm_compute. reflexivity.
Defined.

(** X21. Without a ledger nothing is written: a transaction-sourced daemon
    that holds no history log gets none from polling, and no run of poll
    ticks touches the history file. *)
Theorem without_a_ledger_nothing_is_written :
  forall d ticks,
    TxSourced.historyLog d = None ->
    TxSourced.historyLog (TxSourced.run d ticks) = None
    /\ TxSourced.disk (TxSourced.run d ticks) = TxSourced.disk d.
Proof. intros d ticks. apply run_without_log. Qed.

Lemma without_a_ledger_nothing_is_written_witness :
  let d := TxSourced.with_historyLog sample_daemon None in
  TxSourced.disk (TxSourced.run d [sample_tick]) = None
  /\ TxSourced.bcFees (TxSourced.run d [sample_tick]) = 500007.
Proof.
  intros d.
  destruct (without_a_ledger_nothing_is_written d [sample_tick] eq_refl) as [_ K].
  split; [exact K | vm_compute; reflexivity].
Defined.

(* ===================================================================== *)
(** ** Further properties of the bonding curve decoder *)
(* ===================================================================== *)

Lemma le_bytes_length (n : nat) (v : Z) : List.length (le_bytes n v) = n.
Proof. revert v. induction n as [|n IH]; intros v; simpl; [reflexivity | now rewrite IH]. Qed.

Lemma le_bytes_value (n : nat) (v : Z) :
  0 <= v ->
  List.fold_right (fun b acc => b + 256 * acc) 0 (le_bytes n v) = v mod 256 ^ Z.of_nat n.
Proof.
  revert v. induction n as [|n IH]; intros v Hv.
  - simpl. now rewrite Z.mod_1_r.
  - cbn [le_bytes List.fold_right]. rewrite IH by (apply Z.div_pos; lia).
    rewrite Nat2Z.inj_succ, Z.pow_succ_r by lia.
    rewrite (Z.rem_mul_r v 256 (256 ^ Z.of_nat n)) by lia. reflexivity.
Qed.

Lemma readBigUInt64LE_at (pre rest : list Z) (v : Z) :
  u64 v ->
  readBigUInt64LE (pre ++ le_bytes 8 v ++ rest) (List.length pre) = v.
Proof.
  intros Hv. unfold readBigUInt64LE.
  rewrite drop_app_length.
  rewrite (take_app_length' _ _ 8) by (now rewrite le_bytes_length).
  rewrite le_bytes_value by (unfold u64 in Hv; lia).
  apply Z.mod_small. exact Hv.
Qed.

Lemma readBigUInt64LE_window (pre pre' body tail tail' : list Z) (off : nat) :
  List.length pre = List.length pre' ->
  (List.length pre <= off)%nat ->
  (off + 8 <= List.length pre + List.length body)%nat ->
  readBigUInt64LE (pre ++ body ++ tail) off = readBigUInt64LE (pre' ++ body ++ tail') off.
Proof.
  intros Hlen Hlo Hhi. unfold readBigUInt64LE. f_equal.
  rewrite (drop_app_ge pre) by lia. rewrite (drop_app_ge pre') by lia.
  rewrite <- Hlen.
  rewrite (drop_app_le body tail) by lia. rewrite (drop_app_le body tail') by lia.
  rewrite (take_app_le _ tail) by (rewrite length_drop; lia).
  rewrite (take_app_le _ tail') by (rewrite length_drop; lia). reflexivity.
Qed.

Lemma read_field (data pre rest : list Z) (v : Z) (off : nat) :
  data = (pre ++ le_bytes 8 v ++ rest)%list ->
  List.length pre = off -> u64 v ->
  readBigUInt64LE data off = v.
Proof. intros -> <- Hv. now apply readBigUInt64LE_at. Qed.

(** X22. The decoder reads the layout the source documents.  An account
    made of an 8-byte discriminator, the five counters as little-endian
    u64, the completion byte and the 32-byte creator key decodes to exactly
    these values, whatever bytes follow; an account shorter than 81 bytes
    decodes to nothing. *)
Theorem bonding_curve_layout_round_trip :
  (forall disc bc tail,
      List.length disc = 8%nat ->
      u64 (virtualTokenReserves bc) -> u64 (virtualSolReserves bc) ->
      u64 (realTokenReserves bc) -> u64 (realSolReserves bc) ->
      u64 (tokenTotalSupply bc) ->
      List.length (creator bc) = 32%nat ->
      deserializeBondingCurve (bondingCurveBytes disc bc ++ tail) = Some bc)
  /\ (forall data, (List.length data < 81)%nat -> deserializeBondingCurve data = None).
Proof.
  split.
  - intros disc [v1 v2 v3 v4 v5 c cr] tail Hd H1 H2 H3 H4 H5 Hc.
    cbn [virtualTokenReserves virtualSolReserves realTokenReserves realSolReserves
           tokenTotalSupply complete creator] in *.
    unfold deserializeBondingCurve, bondingCurveBytes.
    cbn [virtualTokenReserves virtualSolReserves realTokenReserves realSolReserves
           tokenTotalSupply complete creator].
    set (data := ((disc ++ _) ++ tail)%list).
    assert (Hdata : data = (disc ++ le_bytes 8 v1 ++ le_bytes 8 v2 ++ le_bytes 8 v3
                              ++ le_bytes 8 v4 ++ le_bytes 8 v5
                              ++ [if c then 1 else 0] ++ cr ++ tail)%list).
    { subst data. now rewrite <- !app_assoc. }
    assert (Hlen : (List.length data <? 81)%nat = false).
    { apply Nat.ltb_ge. rewrite Hdata. rewrite !length_app, !le_bytes_length. cbn [List.length]. lia. }
    rewrite Hlen. f_equal.
    assert (F1 : readBigUInt64LE data 8 = v1)
      by exact (read_field data disc _ v1 8 Hdata Hd H1).
    assert (F2 : readBigUInt64LE data 16 = v2).
    { eapply (read_field data (disc ++ le_bytes 8 v1));
        [rewrite Hdata, <- ?app_assoc; reflexivity
        |rewrite !length_app, !le_bytes_length; lia
        |assumption]. }
    assert (F3 : readBigUInt64LE data 24 = v3).
    { eapply (read_field data (disc ++ le_bytes 8 v1 ++ le_bytes 8 v2));
        [rewrite Hdata, <- ?app_assoc; reflexivity
        |rewrite !length_app, !le_bytes_length; lia
        |assumption]. }
    assert (F4 : readBigUInt64LE data 32 = v4).
    { eapply (read_field data (disc ++ le_bytes 8 v1 ++ le_bytes 8 v2 ++ le_bytes 8 v3));
        [rewrite Hdata, <- ?app_assoc; reflexivity
        |rewrite !length_app, !le_bytes_length; lia
        |assumption]. }
    assert (F5 : readBigUInt64LE data 40 = v5).
    { eapply (read_field data (disc ++ le_bytes 8 v1 ++ le_bytes 8 v2 ++ le_bytes 8 v3
                                 ++ le_bytes 8 v4));
        [rewrite Hdata, <- ?app_assoc; reflexivity
        |rewrite !length_app, !le_bytes_length; lia
        |assumption]. }
    rewrite F1, F2, F3, F4, F5.
    assert (Hsplit : data = ((disc ++ le_bytes 8 v1 ++ le_bytes 8 v2 ++ le_bytes 8 v3
                                ++ le_bytes 8 v4 ++ le_bytes 8 v5)
                               ++ (if c then 1 else 0) :: cr ++ tail)%list).
    { rewrite Hdata. now rewrite <- !app_assoc. }
    assert (Hpre : List.length (disc ++ le_bytes 8 v1 ++ le_bytes 8 v2 ++ le_bytes 8 v3
                                  ++ le_bytes 8 v4 ++ le_bytes 8 v5) = 48%nat).
    { rewrite !length_app, !le_bytes_length. lia. }
    assert (Hflag : (nth 48 data 0 =? 1)%Z = c).
    { rewrite Hsplit, app_nth2 by lia. rewrite Hpre. simpl. now destruct c. }
    assert (Hkey : firstn 32 (skipn 49 data) = cr).
    { rewrite Hsplit.
      change ((if c then 1 else 0) :: cr ++ tail)%list
        with ([if c then 1 else 0] ++ cr ++ tail)%list.
      rewrite app_assoc. rewrite drop_app_length' by (rewrite length_app, Hpre; reflexivity).
      now apply take_app_length'. }
    now rewrite Hflag, Hkey.
  - intros data Hlt. unfold deserializeBondingCurve.
    apply Nat.ltb_lt in Hlt. now rewrite Hlt.
Qed.

Lemma bonding_curve_layout_round_trip_witness :
  deserializeBondingCurve
    (bondingCurveBytes [23; 183; 248; 55; 96; 216; 172; 96] sample_curve ++ [0; 0; 0])
  = Some sample_curve.
Proof.
  destruct bonding_curve_layout_round_trip as [Hrt _].
  apply Hrt; try reflexivity; unfold u64; simpl; lia.
Defined.

(** X23. The decoder never looks at the discriminator.  Two accounts of at
    least 81 bytes that agree on bytes 8 to 80 decode to the same bonding
    curve, whatever their first eight bytes and whatever follows byte 80:
    any account long enough is taken for a bonding curve. *)
Theorem bonding_curve_discriminator_is_not_checked :
  forall disc disc' body tail tail',
    List.length disc = 8%nat -> List.length disc' = 8%nat ->
    List.length body = 73%nat ->
    deserializeBondingCurve (disc ++ body ++ tail)
    = deserializeBondingCurve (disc' ++ body ++ tail')
    /\ is_Some (deserializeBondingCurve (disc ++ body ++ tail)).
Proof.
  intros disc disc' body tail tail' Hd Hd' Hb.
  unfold deserializeBondingCurve.
  assert (Hlen : forall p t, List.length p = 8%nat ->
                             (List.length (p ++ body ++ t) <? 81)%nat = false).
  { intros p t Hp. apply Nat.ltb_ge. rewrite !length_app. lia. }
  rewrite (Hlen disc tail Hd), (Hlen disc' tail' Hd').
  split; [|eauto].
  assert (Hw : forall off, (8 <= off)%nat -> (off + 8 <= 81)%nat ->
                           readBigUInt64LE (disc ++ body ++ tail) off
                           = readBigUInt64LE (disc' ++ body ++ tail') off).
  { intros off Hlo Hhi. apply readBigUInt64LE_window; lia. }
  rewrite !Hw by lia.
  assert (Hflag : nth 48 (disc ++ body ++ tail) 0 = nth 48 (disc' ++ body ++ tail') 0).
  { rewrite (app_nth2 disc) by lia. rewrite (app_nth2 disc') by lia.
    rewrite Hd, Hd'. rewrite (app_nth1 body tail) by lia.
    rewrite (app_nth1 body tail') by lia. reflexivity. }
  assert (Hkey : firstn 32 (skipn 49 (disc ++ body ++ tail))
                 = firstn 32 (skipn 49 (disc' ++ body ++ tail'))).
  { rewrite (drop_app_ge disc) by lia. rewrite (drop_app_ge disc') by lia.
    rewrite Hd, Hd'.
    rewrite (drop_app_le body tail) by lia. rewrite (drop_app_le body tail') by lia.
    rewrite (take_app_le _ tail) by (rewrite length_drop; lia).
    rewrite (take_app_le _ tail') by (rewrite length_drop; lia). reflexivity. }
  now rewrite Hflag, Hkey.
Qed.

Lemma bonding_curve_discriminator_is_not_checked_witness :
  deserializeBondingCurve (List.repeat 0 8 ++ List.repeat 1 73 ++ [])
  = deserializeBondingCurve (List.repeat 255 8 ++ List.repeat 1 73 ++ [9; 9]).
Proof.
  now destruct (bonding_curve_discriminator_is_not_checked
                  (List.repeat 0 8) (List.repeat 255 8) (List.repeat 1 73) [] [9; 9]
                  eq_refl eq_refl eq_refl) as [H _].
Defined.

(* ===================================================================== *)
(** ** Properties of the command line *)
(* ===================================================================== *)

Lemma split_plain (sep : ascii) (v : string) :
  ~ In sep (list_ascii_of_string v) -> CLI.split sep v = [v].
Proof.
  induction v as [|c v IH]; intros Hn; [reflexivity|].
  cbn [CLI.split]. destruct (Ascii.eqb c sep) eqn:E.
  - apply Ascii.eqb_eq in E. subst c. exfalso. apply Hn. now left.
  - rewrite IH; [reflexivity|]. intros Hin. apply Hn. now right.
Qed.

Lemma split_at_first (sep : ascii) (v rest : string) :
  ~ In sep (list_ascii_of_string v) ->
  CLI.split sep (v ++ String sep rest) = v :: CLI.split sep rest.
Proof.
  induction v as [|c v IH]; intros Hn.
  - change ("" ++ String sep rest) with (String sep rest).
    cbn [CLI.split]. now rewrite Ascii.eqb_refl.
  - change (String c v ++ String sep rest) with (String c (v ++ String sep rest)).
    cbn [CLI.split]. destruct (Ascii.eqb c sep) eqn:E.
    + apply Ascii.eqb_eq in E. subst c. exfalso. apply Hn. now left.
    + rewrite IH; [reflexivity|]. intros Hin. apply Hn. now right.
Qed.

Lemma append_empty (v : string) : v ++ "" = v.
Proof.
  induction v as [|a v IH]; [reflexivity|].
  change (String a v ++ "") with (String a (v ++ "")). now rewrite IH.
Qed.

Lemma split_second (name v tail : string) :
  ~ In "="%char (list_ascii_of_string name) ->
  ~ In "="%char (list_ascii_of_string v) ->
  tail = "" \/ String.prefix "=" tail = true ->
  CLI.split "=" (name ++ "=" ++ v ++ tail) !! 1%nat = Some v.
Proof.
  intros Hname Hv Htail.
  change (name ++ "=" ++ v ++ tail) with (name ++ String "=" (v ++ tail)).
  rewrite split_at_first by exact Hname. cbn [lookup list_lookup].
  destruct Htail as [-> | Hp].
  - rewrite append_empty, split_plain by exact Hv. reflexivity.
  - destruct tail as [|c junk]; [discriminate|].
    cbn [String.prefix] in Hp.
    destruct (Ascii.ascii_dec "=" c) as [<-|]; [|discriminate].
    rewrite split_at_first by exact Hv. reflexivity.
Qed.

Ltac plain_name :=
  let H := fresh in
  cbn; intros H; repeat (destruct H as [H | H]; [discriminate H|]); exact H.

(** X24. An argument of the form [--name=value] keeps the value only up to
    its first equals sign: for [--mint=], [--symbol=], [--rpc=],
    [--history=] and [--verify=], whatever was parsed before, the field
    gets the text between the first and the second equals sign of the
    argument, and what follows is dropped without a word. *)
Theorem inline_value_is_cut_at_its_first_equals_sign :
  forall (r : CLI.CLIArgs) (v tail : string),
    ~ In "="%char (list_ascii_of_string v) ->
    tail = "" \/ String.prefix "=" tail = true ->
    CLI.mint (CLI.parseArgs_from r ["--mint=" ++ v ++ tail]) = Some v
    /\ CLI.symbol (CLI.parseArgs_from r ["--symbol=" ++ v ++ tail]) = Some v
    /\ CLI.rpcUrl (CLI.parseArgs_from r ["--rpc=" ++ v ++ tail]) = Some v
    /\ CLI.historyFile (CLI.parseArgs_from r ["--history=" ++ v ++ tail]) = Some v
    /\ CLI.verifyFile (CLI.parseArgs_from r ["--verify=" ++ v ++ tail]) = Some v.
Proof.
  intros r v tail Hv Htail.
  assert (Hname : forall name, ~ In "="%char (list_ascii_of_string name) ->
                    CLI.split "=" (name ++ "=" ++ v ++ tail) !! 1%nat = Some v).
  { intros name Hn. now apply split_second. }
  assert (H1 := Hname "--mint" ltac:(plain_name)).
  assert (H2 := Hname "--symbol" ltac:(plain_name)).
  assert (H3 := Hname "--rpc" ltac:(plain_name)).
  assert (H4 := Hname "--history" ltac:(plain_name)).
  assert (H5 := Hname "--verify" ltac:(plain_name)).
  set (w := v ++ tail) in *. cbv [String.append] in H1, H2, H3, H4, H5 |- *.
  assert (Hp : String.prefix "" w = true) by (destruct w; reflexivity).
  repeat split; cbn -[CLI.split]; unfold CLI.inline; cbn -[CLI.split];
    rewrite Hp; assumption.
Qed.


Lemma inline_value_is_cut_at_its_first_equals_sign_witness :
  CLI.rpcUrl (CLI.parseArgs None ["--rpc=https://rpc.example/?api-key=secret"])
  = Some "https://rpc.example/?api-key".
Proof.
  destruct (inline_value_is_cut_at_its_first_equals_sign
              (CLI.parseArgs None []) "https://rpc.example/?api-key" "=secret"
              ltac:(plain_name) (or_intror eq_refl))
    as (_ & _ & H & _).
  exact H.
Defined.

(** *** The verify command *)

Lemma parseArgs_verify (env : option string) (path : string) :
  CLI.verifyFile (CLI.parseArgs env ["--verify"; path]) = Some path.
Proof. reflexivity. Qed.

Lemma slice_last_Forall {A} (P : A -> Prop) (n : nat) (l : list A) :
  Forall P l -> Forall P (CLI.slice_last n l).
Proof. unfold CLI.slice_last. apply Forall_drop. Qed.

Lemma verifyHistoryFile_accepts (file : option string) (l : TxSourced.HistoryLog) :
  TxSourced.loadHistoryLog file = Some l ->
  honest_tx (TxSourced.entries l) ->
  Forall amount_reads (TxSourced.entries l) ->
  CLI.verifyHistoryFile file = CLI.returns.
Proof.
  intros Hload Hh Hall. unfold CLI.verifyHistoryFile. rewrite Hload.
  assert (Hv : TxSourced.verifyHistoryChain l = verified)
    by now apply verified_iff_honest.
  rewrite Hv. cbn [valid verified].
  assert (Hb : forallb (fun entry =>
                          bool_decide (is_Some (BigInt (TxSourced.amount entry))))
                 (CLI.slice_last 5 (TxSourced.entries l)) = true).
  { apply forallb_forall. intros e He.
    apply bool_decide_eq_true.
    pose proof (slice_last_Forall amount_reads 5 _ Hall) as Hs.
    exact (proj1 (List.Forall_forall _ _) Hs e He). }
  now rewrite Hb.
Qed.

Lemma main_verify (env : option string) (path : string)
      (files : string -> option string) :
  path <> "" ->
  CLI.main env ["--verify"; path] files
  = match CLI.verifyHistoryFile (files path) with
    | CLI.exits code => CLI.ExitWith code
    | CLI.returns => CLI.ExitWith 0
    | CLI.throws => CLI.ExitWith 1
    end.
Proof.
  intros Hne. unfold CLI.main. cbv zeta. rewrite parseArgs_verify.
  assert (Ht : truthy (Some path) = true).
  { unfold truthy. apply negb_true_iff. now apply String.eqb_neq. }
  now rewrite Ht.
Qed.

Lemma initializeHistory_fresh now (c : TxSourced.DaemonConfig) (t : TxSourced.TokenInfo) :
  TxSourced.log_entries
    (TxSourced.initializeHistory now
       (TxSourced.with_tokenInfo (TxLife.constructed c None) (Some t))) = [].
Proof.
  unfold TxSourced.initializeHistory.
  cbn [TxSourced.with_tokenInfo TxSourced.tokenInfo TxLife.constructed TxSourced.disk
         TxSourced.config].
  rewrite bool_decide_eq_false_2 by (intros [x Hx]; discriminate Hx).
  rewrite andb_false_r.
  match goal with
  | |- TxSourced.log_entries (TxSourced.saveHistory ?n ?x) = _ =>
      destruct (saveHistory_frame n x) as (_ & E & _); rewrite E
  end.
  reflexivity.
Qed.

Lemma start_without_file now (c : TxSourced.DaemonConfig) (t : TxSourced.TokenInfo)
      (d : TxSourced.Daemon) :
  truthy (TxSourced.historyFile c) = true ->
  TxLife.start now (TxLife.constructed c None) (Returns t) = Returns d ->
  TxSourced.log_entries d = [].
Proof.
  intros Ht. unfold TxLife.start.
  cbn [TxLife.constructed TxSourced.running]. cbv zeta.
  cbn [TxSourced.with_tokenInfo TxSourced.config TxLife.constructed]. rewrite Ht.
  intros [= <-]. exact (initializeHistory_fresh now c t).
Qed.

(** X25. The file a daemon leaves passes the verify command.  A
    transaction-sourced daemon that is started without a history file
    and then runs any poll ticks leaves a file on which
    [asdf-validator-lite --verify <file>] ends with exit status 0. *)
Theorem ledger_file_passes_the_verify_command :
  forall (c : TxSourced.DaemonConfig) (t : TxSourced.TokenInfo) (now : string)
         (d : TxSourced.Daemon) (ticks : list TxSourced.Tick) (path : string)
         (env : option string) (files : string -> option string),
    TxSourced.historyFile c = Some path ->
    path <> "" ->
    TxLife.start now (TxLife.constructed c None) (Returns t) = Returns d ->
    files path = TxSourced.disk (TxSourced.run d ticks) ->
    CLI.main env ["--verify"; path] files = CLI.ExitWith 0.
Proof.
  intros c t now d ticks path env files Hfile Hne Hstart Hdisk.
  assert (Ht : truthy (TxSourced.historyFile c) = true).
  { rewrite Hfile. unfold truthy. apply negb_true_iff. now apply String.eqb_neq. }
  destruct (start_on_disk now c None t d Ht Hstart) as (_ & Ht1 & Hd1).
  pose proof (start_without_file now c t d Ht Hstart) as Hnil.
  destruct (run_mirrored ticks d (conj Ht1 Hd1)) as (_ & l & Hl & Hload).
  assert (Hes : TxSourced.log_entries (TxSourced.run d ticks) = TxSourced.entries l).
  { unfold TxSourced.log_entries. now rewrite Hl. }
  assert (Hh : honest_tx (TxSourced.entries l)).
  { rewrite <- Hes. apply run_honest. rewrite Hnil. apply honest_nil. }
  assert (Hall : Forall amount_reads (TxSourced.entries l)).
  { destruct (run_grows ticks d) as (new & E & F & _).
    rewrite <- Hes, E, Hnil. cbn [app].
    eapply Forall_impl; [exact F|]. intros e. apply fee_record_reads. }
  rewrite main_verify by exact Hne. rewrite Hdisk.
  now rewrite (verifyHistoryFile_accepts _ l Hload Hh Hall).
Qed.

Lemma ledger_file_passes_the_verify_command_witness :
  exists d,
    TxLife.start "2024-01-01T00:00:00.000Z"
      (TxLife.constructed (TxSourced.config sample_daemon) None) (Returns sample_token)
    = Returns d
    /\ List.length
         (TxSourced.log_entries (TxSourced.run d [sample_seed_tick; sample_tick]))
       = 2%nat
    /\ CLI.main None ["--verify"; "history.json"]
         (sample_files (TxSourced.disk (TxSourced.run d [sample_seed_tick; sample_tick])))
       = CLI.ExitWith 0.
Proof.
  eexists. split; [reflexivity|]. split; [vm_compute; reflexivity|].
  eapply (ledger_file_passes_the_verify_command
            (TxSourced.config sample_daemon) sample_token "2024-01-01T00:00:00.000Z"
            _ [sample_seed_tick; sample_tick] "history.json" None);
    [reflexivity | discriminate | reflexivity | reflexivity].
Defined.

Ltac safe_sample :=
  split; [vm_compute; split; discriminate|];
  repeat (constructor; [vm_compute; repeat split; discriminate|]); constructor.

(** X26. A tampered file fails the verify command.  When the file holds
    an honest ledger in which one field other than [date] of one entry was
    set to a different value of the field's type, every number of the file
    being a safe integer, [asdf-validator-lite --verify <file>] ends with
    exit status 1, provided the hash does not collide on the entry's hashed
    string before and after the change. *)
Theorem tampered_file_fails_the_verify_command :
  forall (log : TxSourced.HistoryLog) (i : nat) (e : TxSourced.HistoryEntry)
         (m : Mutation) (path : string) (env : option string)
         (files : string -> option string),
    honest_tx (TxSourced.entries log) ->
    TxSourced.entries log !! i = Some e ->
    mutate m e <> e ->
    sets_date m = false ->
    collision_free (TxSourced.entryData (mutate m e)) (TxSourced.entryData e) ->
    safe_numbers (tamper log i m) ->
    path <> "" ->
    files path = Some (JSON.stringify (TxSourced.document (tamper log i m))) ->
    CLI.main env ["--verify"; path] files = CLI.ExitWith 1.
Proof.
  intros log i e m path env files Hh Hi Hne Hd Hcf _ Hpath Hfile.
  rewrite main_verify by exact Hpath. rewrite Hfile.
  unfold CLI.verifyHistoryFile. rewrite loadHistoryLog_written.
  assert (Hv : valid (TxSourced.verifyHistoryChain (tamper log i m)) = false).
  { unfold TxSourced.verifyHistoryChain, tamper.
    cbn [TxSourced.entries TxSourced.with_entries].
    replace (alter (mutate m) i (TxSourced.entries log))
      with (<[i:=mutate m e]> (TxSourced.entries log))
      by (symmetry; now apply alter_as_insert).
    apply (verify_replaced _ _ _ _ _ i e); auto.
    now apply mutate_fails_a_check. }
  now rewrite Hv.
Qed.

Lemma tampered_file_fails_the_verify_command_witness :
  CLI.main None ["--verify"; "history.json"]
    (sample_files
       (Some (JSON.stringify (TxSourced.document (tamper sample_log 1 (SetAmount "8"))))))
  = CLI.ExitWith 1.
Proof.
  assert (He : exists e, TxSourced.entries sample_log !! 1%nat = Some e)
    by (eexists; vm_compute; reflexivity).
  destruct He as [e He].
  apply (tampered_file_fails_the_verify_command sample_log 1 e (SetAmount "8")
           "history.json" None _ sample_log_honest He).
  - vm_compute in He. injection He as <-. intros H. vm_compute in H. discriminate H.
  - reflexivity.
  - vm_compute in He. injection He as <-. intros H. vm_compute in H. discriminate H.
  - safe_sample.
  - discriminate.
  - reflexivity.
Defined.
